(** * The network-interface registry of sys/net/if.c

    A shallow embedding of the interface index table, the interface
    list, interface groups, multicast memberships, the link-state
    notifier, the driver "blessing" step and the reference-counted
    flags of [sys/net/if.c], and the properties the design document
    states about them.

    Conventions.
    - C integers are [Z]; where the code stores into a narrower type
      the wrap-around is written out ([u_short], [u_char]).
    - Kernel objects reached through pointers (struct ifnet, struct
      ifg_group, struct ifmultiaddr) live in finite maps from addresses
      to records; [NULL] is [None].
    - Code that can panic, or that loops, runs in a small state and
      error monad [K].  Locks are not modelled: every function runs to
      completion on its own.
    - Types, macros and functions that [if.c] uses but that are declared
      in other kernel files are taken as parameters (class [Env] and the
      section variables of the later modules). *)

From Stdlib Require Import ZArith Lia Ascii DecimalString.
From stdpp Require Import base option list gmap strings.

Local Open Scope Z_scope.

(** ** C scalars and strings *)

Definition u_char (z : Z) : Z := z `mod` 256.
Definition u_short (z : Z) : Z := z `mod` 65536.

(** Error numbers.  Only the fact that they are non-zero and pairwise
    distinct matters below; the numbers are those of sys/errno.h. *)
Definition EPERM : Z := 1.
Definition ENOENT : Z := 2.
Definition ENOMEM : Z := 12.
Definition EEXIST : Z := 17.
Definition EINVAL : Z := 22.
Definition EOPNOTSUPP : Z := 45.
Definition ENAMETOOLONG : Z := 63.

(** net/if.h *)
Definition IF_NAMESIZE : Z := 16.
Definition IFNAMSIZ : Z := IF_NAMESIZE.
Definition IFF_UP : Z := 0x1.
Definition IFF_RUNNING : Z := 0x40.
Definition IFF_PROMISC : Z := 0x100.
Definition IFF_ALLMULTI : Z := 0x200.
Definition IFF_PPROMISC : Z := 0x20000.
Definition IFF_DYING : Z := 0x200000.
Definition IFF_RENAMING : Z := 0x400000.
Definition LINK_STATE_UNKNOWN : Z := 0.
Definition LINK_STATE_DOWN : Z := 1.
Definition LINK_STATE_UP : Z := 2.
Definition IFG_ALL : string := "all".
Definition IFAT_DUNIT_NONE : Z := -1.

(** [(x & flag) != 0] *)
Definition flag_set (x flag : Z) : bool := negb (Z.land x flag =? 0).

(** NUL-terminated strings are [string]s without the terminator. *)
Definition strlen (s : string) : Z := Z.of_nat (String.length s).

(** [strlcpy(dst, src, size)]: at most [size - 1] characters are kept. *)
Definition strlcpy (src : string) (size : Z) : string :=
  String.substring 0 (Z.to_nat (size - 1)) src.

(** [strcmp(a, b) == 0] *)
Definition strcmp_eq (a b : string) : bool := String.eqb a b.

(** [strncmp(a, b, n) == 0]: the first [n] characters agree (a shorter
    string must end where the other ends). *)
Definition strncmp_eq (a b : string) (n : Z) : bool :=
  String.eqb (String.substring 0 (Z.to_nat n) a)
             (String.substring 0 (Z.to_nat n) b).

(** The last character of a string, if any. *)
Fixpoint last_char (s : string) : option ascii :=
  match s with
  | EmptyString => None
  | String c EmptyString => Some c
  | String _ rest => last_char rest
  end.

(** [c >= '0' && c <= '9'] *)
Definition is_digit (c : ascii) : bool :=
  let n := Z.of_nat (nat_of_ascii c) in (48 <=? n) && (n <=? 57).

(** [snprintf(buf, size, "%s%d", name, unit)] *)
Definition snprintf_sd (size : Z) (name : string) (unit : Z) : string :=
  strlcpy (name +:+ NilZero.string_of_int (Z.to_int unit)) size.

(** Overwrite [buf] from offset [off] with [src] ([bcopy]/[memcpy] into
    a buffer); the buffer keeps its size. *)
Definition poke {A} (buf : list A) (off : nat) (src : list A) : list A :=
  take (length buf) (take off buf ++ src ++ drop (off + length src) buf).

(** ** A state and error monad for kernel code *)

Inductive fault : Type :=
  | Panic (msg : string)     (* panic(), or a KASSERT that fails *)
  | BadPointer               (* dereference of an address that holds no object *)
  | OutOfFuel                (* a loop exceeded the bound of the model *)
  | Misuse (msg : string).   (* a call that its caller may not make *)

Inductive res (S A : Type) : Type :=
  | Ok (a : A) (s : S)
  | Err (f : fault).
Arguments Ok {S A} a s.
Arguments Err {S A} f.

Definition K (S A : Type) : Type := S -> res S A.

Definition ret {S A} (a : A) : K S A := fun s => Ok a s.
Definition bind {S A B} (m : K S A) (k : A -> K S B) : K S B :=
  fun s => match m s with
           | Ok a s' => k a s'
           | Err f => Err f
           end.
Definition get {S} : K S S := fun s => Ok s s.
Definition modify {S} (f : S -> S) : K S unit := fun s => Ok tt (f s).
Definition raise {S A} (f : fault) : K S A := fun _ => Err f.

Notation "x <- c1 ;; c2" := (bind c1 (fun x => c2))
  (at level 20, c1 at level 99, c2 at level 200, only parsing).
Notation "c1 ;; c2" := (bind c1 (fun _ => c2))
  (at level 100, c2 at level 200, only parsing, right associativity).

(** [KASSERT(cond, ...)]: checked when the kernel is built with
    [options INVARIANTS], compiled out otherwise. *)
Definition KASSERT {S} (INVARIANTS : bool) (cond : bool) (msg : string)
  : K S unit :=
  if INVARIANTS && negb cond then raise (Panic msg) else ret tt.

(** ** What [if.c] takes from the rest of the kernel

    Layout constants of net/if_dl.h and sys/socket.h, the unit
    allocator of if_clone.c, the privilege check and the copy from user
    space, and the [INVARIANTS] build option. *)

Definition thread := Z.
Definition uaddr := Z.
Definition if_clone := Z.
Inductive priv : Type := PRIV_NET_SETIFNAME.

Class Env : Type := {
  INVARIANTS : bool;
  offsetof_sdl_data : Z;          (* offsetof(struct sockaddr_dl, sdl_data[0]) *)
  sizeof_sockaddr_dl : Z;
  sizeof_long : Z;
  AF_LINK : Z;
  ifc_alloc_unit : if_clone -> Z -> Z * Z;   (* error and the unit chosen *)
  priv_check : thread -> priv -> Z;
  copyinstr : uaddr -> Z -> Z * string       (* error and the string copied in *)
}.

(** [roundup2(x, y)] for a power of two [y]. *)
Definition roundup2 (x y : Z) : Z := Z.land (x + (y - 1)) (Z.lnot (y - 1)).

(** [TAILQ_REMOVE]/[SLIST_REMOVE] of one element: its first occurrence
    goes, the order of the others is kept. *)
Fixpoint TAILQ_REMOVE `{EqDecision A} (x : A) (l : list A) : list A :=
  match l with
  | [] => []
  | y :: l' => if decide (x = y) then l' else y :: TAILQ_REMOVE x l'
  end.

(** * The registry: index table, interface list, groups *)

Module Registry.

(** Addresses of struct ifnet and of struct ifg_group objects. *)
Abbreviation ifnet_ptr := positive (only parsing).
Abbreviation ifg_ptr := positive (only parsing).

(** An entry of [V_ifindex_table]: [NULL], the reservation mark
    [IFNET_HOLD], or a pointer to a struct ifnet. *)
Inductive slot : Type :=
  | SlotNull
  | IFNET_HOLD
  | SlotIfp (p : ifnet_ptr).

#[global] Instance slot_eq_dec : EqDecision slot.
Proof. solve_decision. Defined.

Record sockaddr_dl : Type := {
  sdl_len : Z;
  sdl_family : Z;
  sdl_index : Z;
  sdl_type : Z;
  sdl_nlen : Z;
  sdl_alen : Z;
  sdl_data : list Byte.byte       (* name, then link-layer address *)
}.

Record ifaddr : Type := {
  ifa_addr : sockaddr_dl;
  ifa_netmask : sockaddr_dl
}.

Record ifdriver : Type := {
  ifdrv_name : string;
  ifdrv_type : Z;
  ifdrv_addrlen : Z;
  ifdrv_clone : option if_clone
}.

Record if_attach_args : Type := {
  ifat_error : Z;
  ifat_drv : ifdriver;
  ifat_lla : option (list Byte.byte);
  ifat_dunit : Z;
  ifat_name : option string;
  ifat_flags : Z
}.

(** The fields of struct ifnet that the registry code reads or writes. *)
Record ifnet : Type := {
  if_xname : string;
  if_dunit : Z;
  if_index : Z;
  if_flags : Z;
  if_refcount : Z;
  if_drv : ifdriver;
  if_addr : option ifaddr;
  if_groups : list ifg_ptr        (* the ifg_list entries, by their ifgl_group *)
}.

(** struct ifg_group; [ifg_members] lists the ifg_member entries by
    their [ifgm_ifp]. *)
Record ifgroup : Type := {
  ifg_group : string;
  ifg_refcnt : Z;
  ifg_members : list ifnet_ptr
}.

(** One network stack instance.  [ifnets] and [ifgroups] hold the
    allocated struct ifnet and struct ifg_group objects, [brk] is the
    next unused address, and [nowait] lists the outcomes of the coming
    [malloc(M_NOWAIT)] calls ([false] is a failed allocation; past the
    end of the list allocations succeed). *)
Record vnet : Type := {
  V_if_index : Z;
  V_if_indexlim : Z;
  V_ifindex_table : list slot;
  V_ifnet : list ifnet_ptr;
  V_ifg_head : list ifg_ptr;
  ifnets : gmap ifnet_ptr ifnet;
  ifgroups : gmap ifg_ptr ifgroup;
  brk : positive;
  nowait : list bool
}.

Definition set_V_if_index (x : Z) (v : vnet) : vnet :=
  {| V_if_index := x; V_if_indexlim := V_if_indexlim v;
     V_ifindex_table := V_ifindex_table v; V_ifnet := V_ifnet v;
     V_ifg_head := V_ifg_head v; ifnets := ifnets v; ifgroups := ifgroups v;
     brk := brk v; nowait := nowait v |}.
Definition set_table (lim : Z) (t : list slot) (v : vnet) : vnet :=
  {| V_if_index := V_if_index v; V_if_indexlim := lim;
     V_ifindex_table := t; V_ifnet := V_ifnet v;
     V_ifg_head := V_ifg_head v; ifnets := ifnets v; ifgroups := ifgroups v;
     brk := brk v; nowait := nowait v |}.
Definition set_V_ifnet (l : list ifnet_ptr) (v : vnet) : vnet :=
  {| V_if_index := V_if_index v; V_if_indexlim := V_if_indexlim v;
     V_ifindex_table := V_ifindex_table v; V_ifnet := l;
     V_ifg_head := V_ifg_head v; ifnets := ifnets v; ifgroups := ifgroups v;
     brk := brk v; nowait := nowait v |}.
Definition set_V_ifg_head (l : list ifg_ptr) (v : vnet) : vnet :=
  {| V_if_index := V_if_index v; V_if_indexlim := V_if_indexlim v;
     V_ifindex_table := V_ifindex_table v; V_ifnet := V_ifnet v;
     V_ifg_head := l; ifnets := ifnets v; ifgroups := ifgroups v;
     brk := brk v; nowait := nowait v |}.
Definition set_ifnets (m : gmap ifnet_ptr ifnet) (v : vnet) : vnet :=
  {| V_if_index := V_if_index v; V_if_indexlim := V_if_indexlim v;
     V_ifindex_table := V_ifindex_table v; V_ifnet := V_ifnet v;
     V_ifg_head := V_ifg_head v; ifnets := m; ifgroups := ifgroups v;
     brk := brk v; nowait := nowait v |}.
Definition set_ifgroups (m : gmap ifg_ptr ifgroup) (v : vnet) : vnet :=
  {| V_if_index := V_if_index v; V_if_indexlim := V_if_indexlim v;
     V_ifindex_table := V_ifindex_table v; V_ifnet := V_ifnet v;
     V_ifg_head := V_ifg_head v; ifnets := ifnets v; ifgroups := m;
     brk := brk v; nowait := nowait v |}.
Definition set_alloc (b : positive) (o : list bool) (v : vnet) : vnet :=
  {| V_if_index := V_if_index v; V_if_indexlim := V_if_indexlim v;
     V_ifindex_table := V_ifindex_table v; V_ifnet := V_ifnet v;
     V_ifg_head := V_ifg_head v; ifnets := ifnets v; ifgroups := ifgroups v;
     brk := b; nowait := o |}.

Definition set_if_xname (x : string) (i : ifnet) : ifnet :=
  {| if_xname := x; if_dunit := if_dunit i; if_index := if_index i;
     if_flags := if_flags i; if_refcount := if_refcount i; if_drv := if_drv i;
     if_addr := if_addr i; if_groups := if_groups i |}.
Definition set_if_index (x : Z) (i : ifnet) : ifnet :=
  {| if_xname := if_xname i; if_dunit := if_dunit i; if_index := x;
     if_flags := if_flags i; if_refcount := if_refcount i; if_drv := if_drv i;
     if_addr := if_addr i; if_groups := if_groups i |}.
Definition set_if_flags (x : Z) (i : ifnet) : ifnet :=
  {| if_xname := if_xname i; if_dunit := if_dunit i; if_index := if_index i;
     if_flags := x; if_refcount := if_refcount i; if_drv := if_drv i;
     if_addr := if_addr i; if_groups := if_groups i |}.
Definition set_if_refcount (x : Z) (i : ifnet) : ifnet :=
  {| if_xname := if_xname i; if_dunit := if_dunit i; if_index := if_index i;
     if_flags := if_flags i; if_refcount := x; if_drv := if_drv i;
     if_addr := if_addr i; if_groups := if_groups i |}.
Definition set_if_addr (x : option ifaddr) (i : ifnet) : ifnet :=
  {| if_xname := if_xname i; if_dunit := if_dunit i; if_index := if_index i;
     if_flags := if_flags i; if_refcount := if_refcount i; if_drv := if_drv i;
     if_addr := x; if_groups := if_groups i |}.
Definition set_if_groups (x : list ifg_ptr) (i : ifnet) : ifnet :=
  {| if_xname := if_xname i; if_dunit := if_dunit i; if_index := if_index i;
     if_flags := if_flags i; if_refcount := if_refcount i; if_drv := if_drv i;
     if_addr := if_addr i; if_groups := x |}.

Definition set_ifg_refcnt (x : Z) (g : ifgroup) : ifgroup :=
  {| ifg_group := ifg_group g; ifg_refcnt := x; ifg_members := ifg_members g |}.
Definition set_ifg_members (x : list ifnet_ptr) (g : ifgroup) : ifgroup :=
  {| ifg_group := ifg_group g; ifg_refcnt := ifg_refcnt g; ifg_members := x |}.

(** *** Memory *)

(** [malloc(..., M_WAITOK)] always returns an object. *)
Definition malloc_waitok : K vnet positive :=
  fun v => Ok (brk v) (set_alloc (Pos.succ (brk v)) (nowait v) v).

(** [malloc(..., M_NOWAIT)] may return [NULL]. *)
Definition malloc_nowait : K vnet (option positive) :=
  fun v => match nowait v with
           | false :: rest => Ok None (set_alloc (brk v) rest v)
           | true :: rest => Ok (Some (brk v)) (set_alloc (Pos.succ (brk v)) rest v)
           | [] => Ok (Some (brk v)) (set_alloc (Pos.succ (brk v)) [] v)
           end.

(** [*p] for a struct ifnet pointer. *)
Definition ifnet_load (p : ifnet_ptr) : K vnet ifnet :=
  fun v => match ifnets v !! p with
           | Some i => Ok i v
           | None => Err BadPointer
           end.

(** An assignment to fields of [*p]. *)
Definition ifnet_update (p : ifnet_ptr) (f : ifnet -> ifnet) : K vnet unit :=
  fun v => match ifnets v !! p with
           | Some i => Ok tt (set_ifnets (<[p := f i]> (ifnets v)) v)
           | None => Err BadPointer
           end.

Definition ifgroup_load (g : ifg_ptr) : K vnet ifgroup :=
  fun v => match ifgroups v !! g with
           | Some x => Ok x v
           | None => Err BadPointer
           end.

Definition ifgroup_update (g : ifg_ptr) (f : ifgroup -> ifgroup) : K vnet unit :=
  fun v => match ifgroups v !! g with
           | Some x => Ok tt (set_ifgroups (<[g := f x]> (ifgroups v)) v)
           | None => Err BadPointer
           end.

(** *** The index table *)

(** [V_ifindex_table[idx]].  The table has [V_if_indexlim] entries; the
    code only reads below that bound while [wf] (further down) holds,
    and a read past the end is given the value [NULL] here. *)
Definition tbl (v : vnet) (idx : Z) : slot :=
  default SlotNull (V_ifindex_table v !! Z.to_nat idx).

Definition ifnet_byindex_locked (v : vnet) (idx : Z) : option ifnet_ptr :=
  if V_if_index v <? idx then None
  else match tbl v idx with
       | IFNET_HOLD => None
       | SlotNull => None
       | SlotIfp p => Some p
       end.

Definition ifnet_byindex (v : vnet) (idx : Z) : option ifnet_ptr :=
  ifnet_byindex_locked v idx.

(** Modelled from the spec: the reference count primitive of
    sys/refcount.h, "an atomic counter" that reports on release whether
    "the last reference drops". *)
Definition refcount_acquire (count : Z) : Z := count + 1.
Definition refcount_release (count : Z) : bool * Z :=
  (count - 1 =? 0, count - 1).

Definition if_ref (p : ifnet_ptr) : K vnet unit :=
  ifnet_update p (fun i => set_if_refcount (refcount_acquire (if_refcount i)) i).

Definition ifnet_byindex_ref (idx : Z) : K vnet (option ifnet_ptr) :=
  v <- get ;;
  match ifnet_byindex_locked v idx with
  | None => ret None
  | Some p =>
      ifp <- ifnet_load p ;;
      if flag_set (if_flags ifp) IFF_DYING then ret None
      else (if_ref p ;; ret (Some p))
  end.

(** [if_grow]: a zeroed table of twice the size, the old entries
    copied to its front.  The test [V_if_indexlim != oldlim] guards
    against another thread growing the table while the lock is dropped
    around [malloc]; with one thread it is never true.  An empty list
    stands for the [NULL] table pointer of a fresh vnet. *)
Definition if_grow : K vnet unit :=
  fun v =>
    let oldlim := V_if_indexlim v in
    let n := Z.to_nat (Z.shiftl oldlim 1) in
    let e := replicate n SlotNull in
    let e := match V_ifindex_table v with
             | [] => e
             | t => take (n / 2)%nat t ++ drop (n / 2)%nat e
             end in
    Ok tt (set_table (Z.shiftl (V_if_indexlim v) 1) e v).

(** The [for] loop of [ifindex_alloc]; [idx] is a [u_short], so
    [idx++] wraps.  The result is the value of [idx] after the loop. *)
Fixpoint ifindex_scan (fuel : nat) (v : vnet) (idx : Z) : option Z :=
  match fuel with
  | O => None
  | S fuel' =>
      if idx <=? V_if_index v then
        if decide (tbl v idx = SlotNull) then Some idx
        else ifindex_scan fuel' v (u_short (idx + 1))
      else Some idx
  end.

(** The loop visits each of the 65536 values of [idx] at most once
    before it meets the free slot 0. *)
Definition scan_fuel : nat := Z.to_nat 65537.

Fixpoint ifindex_alloc_retry (fuel : nat) (p : ifnet_ptr) : K vnet unit :=
  match fuel with
  | O => raise OutOfFuel
  | S fuel' =>
      v <- get ;;
      match ifindex_scan scan_fuel v 1 with
      | None => raise OutOfFuel
      | Some idx =>
          (* Catch if_index overflow. *)
          if V_if_indexlim v <=? idx then
            (if_grow ;; ifindex_alloc_retry fuel' p)      (* goto retry *)
          else
            ((if V_if_index v <? idx then modify (set_V_if_index idx)
              else ret tt) ;;
             modify (fun v => set_table (V_if_indexlim v)
                       (<[Z.to_nat idx := SlotIfp p]> (V_ifindex_table v)) v) ;;
             ifnet_update p (set_if_index idx))
      end
  end.

(** A table of at least one entry exceeds any [u_short] after 17
    doublings. *)
Definition retry_fuel : nat := 18.

Definition ifindex_alloc (p : ifnet_ptr) : K vnet unit :=
  ifindex_alloc_retry retry_fuel p.

(** The [while] loop of [ifindex_free], by recursion on [V_if_index]. *)
Fixpoint ifindex_shrink (v : vnet) (if_index : nat) : nat :=
  match if_index with
  | O => O
  | S n => if decide (tbl v (Z.of_nat (S n)) = SlotNull) then ifindex_shrink v n
           else S n
  end.

(** [ifindex_free].  The code stores [NULL] at [V_ifindex_table[idx]]
    without a test of [idx]; a store past the end of the table writes
    outside the array and is a fault here. *)
Definition ifindex_free (idx : Z) : K vnet unit :=
  v <- get ;;
  if bool_decide (Z.to_nat idx < length (V_ifindex_table v))%nat then
    modify (fun v => set_table (V_if_indexlim v)
              (<[Z.to_nat idx := SlotNull]> (V_ifindex_table v)) v) ;;
    modify (fun v =>
              set_V_if_index (Z.of_nat (ifindex_shrink v (Z.to_nat (V_if_index v)))) v)
  else raise BadPointer.

(** A vnet before [vnet_if_init]: the static initial values. *)
Definition vnet_static : vnet :=
  {| V_if_index := 0; V_if_indexlim := 8; V_ifindex_table := [];
     V_ifnet := []; V_ifg_head := []; ifnets := ∅; ifgroups := ∅;
     brk := 1%positive; nowait := [] |}.

Definition vnet_if_init : K vnet unit :=
  modify (set_V_ifnet []) ;;
  modify (set_V_ifg_head []) ;;
  if_grow.                                   (* create initial table *)

(** *** Interface groups *)

(** The [TAILQ_FOREACH] searches of [if_addgroup] and [if_delgroup]
    over lists of entries that point to groups: the first entry whose
    group has the name. *)
Fixpoint ifg_lookup (gs : list ifg_ptr) (groupname : string)
  : K vnet (option ifg_ptr) :=
  match gs with
  | [] => ret None
  | g :: rest =>
      ifg <- ifgroup_load g ;;
      if strcmp_eq (ifg_group ifg) groupname then ret (Some g)
      else ifg_lookup rest groupname
  end.

Definition ends_in_digit (groupname : string) : bool :=
  match last_char groupname with
  | Some c => is_digit c
  | None => false
  end.

Definition if_addgroup (p : ifnet_ptr) (groupname : string) : K vnet Z :=
  if ends_in_digit groupname then ret EINVAL else
  ifp <- ifnet_load p ;;
  member <- ifg_lookup (if_groups ifp) groupname ;;
  match member with
  | Some _ => ret EEXIST
  | None =>
      ifgl <- malloc_nowait ;;
      match ifgl with
      | None => ret ENOMEM
      | Some _ =>
          ifgm <- malloc_nowait ;;
          match ifgm with
          | None => ret ENOMEM
          | Some _ =>
              v <- get ;;
              found <- ifg_lookup (V_ifg_head v) groupname ;;
              created <-
                match found with
                | Some g => ret (Some g)
                | None =>
                    ifg <- malloc_nowait ;;
                    match ifg with
                    | None => ret None
                    | Some g =>
                        modify (fun v => set_ifgroups
                          (<[g := {| ifg_group := strlcpy groupname IFNAMSIZ;
                                     ifg_refcnt := 0;
                                     ifg_members := [] |}]> (ifgroups v)) v) ;;
                        modify (fun v => set_V_ifg_head (V_ifg_head v ++ [g]) v) ;;
                        ret (Some g)
                    end
                end ;;
              match created with
              | None => ret ENOMEM
              | Some g =>
                  ifgroup_update g (fun x => set_ifg_refcnt (ifg_refcnt x + 1) x) ;;
                  ifgroup_update g (fun x => set_ifg_members (ifg_members x ++ [p]) x) ;;
                  ifnet_update p (fun i => set_if_groups (if_groups i ++ [g]) i) ;;
                  ret 0
              end
          end
      end
  end.

(** What [if_delgroup] and [if_delgroups] do with the list entry
    [ifgl] once it is unlinked from the interface: drop the member
    entry, drop the reference, and destroy the group with the last
    one. *)
Definition ifgl_release (p : ifnet_ptr) (g : ifg_ptr) : K vnet unit :=
  ifgroup_update g (fun x => set_ifg_members (TAILQ_REMOVE p (ifg_members x)) x) ;;
  ifgroup_update g (fun x => set_ifg_refcnt (ifg_refcnt x - 1) x) ;;
  ifg <- ifgroup_load g ;;
  if ifg_refcnt ifg =? 0 then
    (modify (fun v => set_V_ifg_head (TAILQ_REMOVE g (V_ifg_head v)) v) ;;
     modify (fun v => set_ifgroups (delete g (ifgroups v)) v))     (* free *)
  else ret tt.

Definition if_delgroup (p : ifnet_ptr) (groupname : string) : K vnet Z :=
  ifp <- ifnet_load p ;;
  ifgl <- ifg_lookup (if_groups ifp) groupname ;;
  match ifgl with
  | None => ret ENOENT
  | Some g =>
      ifnet_update p (fun i => set_if_groups (TAILQ_REMOVE g (if_groups i)) i) ;;
      ifgl_release p g ;;
      ret 0
  end.

(** [if_delgroups]: the loop takes the first entry of [if_groups] each
    time round, so it runs down the list as it stood on entry. *)
Fixpoint if_delgroups_loop (p : ifnet_ptr) (gs : list ifg_ptr) : K vnet unit :=
  match gs with
  | [] => ret tt
  | g :: rest =>
      ifnet_update p (set_if_groups rest) ;;
      ifgl_release p g ;;
      if_delgroups_loop p rest
  end.

Definition if_delgroups (p : ifnet_ptr) : K vnet unit :=
  ifp <- ifnet_load p ;;
  if_delgroups_loop p (if_groups ifp).

Section WithEnv.
Context `{env : Env}.

(** *** Names *)

(** [ifunit]: the first interface on [V_ifnet] with the name. *)
Fixpoint ifunit_loop (l : list ifnet_ptr) (name : string)
  : K vnet (option ifnet_ptr) :=
  match l with
  | [] => ret None
  | p :: rest =>
      ifp <- ifnet_load p ;;
      if strncmp_eq name (if_xname ifp) IFNAMSIZ then ret (Some p)
      else ifunit_loop rest name
  end.

Definition ifunit (name : string) : K vnet (option ifnet_ptr) :=
  v <- get ;;
  ifunit_loop (V_ifnet v) name.

(** The bytes of a name, as [bcopy] moves them. *)
Definition name_bytes (s : string) : list Byte.byte := String.list_byte_of_string s.

(** [while (namelen != 0) sdl->sdl_data[--namelen] = 0xff;] *)
Definition mask_name (data : list Byte.byte) (namelen : Z) : list Byte.byte :=
  poke data 0 (replicate (Z.to_nat namelen) Byte.xff).

(** The SIOCSIFNAME case of [if_drvioctl]. *)
Definition if_drvioctl_SIOCSIFNAME (p : ifnet_ptr) (ifr_data : uaddr)
    (td : thread) : K vnet Z :=
  let error := priv_check td PRIV_NET_SETIFNAME in
  if negb (error =? 0) then ret error else
  let '(error, new_name) := copyinstr ifr_data IFNAMSIZ in
  if negb (error =? 0) then ret error else
  if String.eqb new_name EmptyString then ret EINVAL else
  taken <- ifunit new_name ;;
  match taken with
  | Some _ => ret EEXIST
  | None =>
      ifnet_update p (fun i => set_if_flags (Z.lor (if_flags i) IFF_RENAMING) i) ;;
      (* departure announcement *)
      ifnet_update p (set_if_xname (strlcpy new_name IFNAMSIZ)) ;;
      ifp <- ifnet_load p ;;
      match if_addr ifp with
      | None => raise BadPointer
      | Some ifa =>
          let sdl := ifa_addr ifa in
          let namelen := strlen new_name in
          let onamelen := sdl_nlen sdl in
          (* Move the address if needed. *)
          let data :=
            if negb (namelen =? onamelen) then
              poke (sdl_data sdl) (Z.to_nat namelen)
                   (take (Z.to_nat (sdl_alen sdl))
                         (drop (Z.to_nat onamelen) (sdl_data sdl)))
            else sdl_data sdl in
          let data := poke data 0 (name_bytes new_name) in
          let sdl' := {| sdl_len := sdl_len sdl; sdl_family := sdl_family sdl;
                         sdl_index := sdl_index sdl; sdl_type := sdl_type sdl;
                         sdl_nlen := u_char namelen; sdl_alen := sdl_alen sdl;
                         sdl_data := data |} in
          let msk := ifa_netmask ifa in
          let mdata := poke (sdl_data msk) 0
                            (replicate (Z.to_nat onamelen) Byte.x00) in
          let mdata := mask_name mdata namelen in
          let msk' := {| sdl_len := sdl_len msk; sdl_family := sdl_family msk;
                         sdl_index := sdl_index msk; sdl_type := sdl_type msk;
                         sdl_nlen := sdl_nlen msk; sdl_alen := sdl_alen msk;
                         sdl_data := mdata |} in
          ifnet_update p (set_if_addr
            (Some {| ifa_addr := sdl'; ifa_netmask := msk' |})) ;;
          (* arrival announcement *)
          ifnet_update p (fun i =>
            set_if_flags (Z.land (if_flags i) (Z.lnot IFF_RENAMING)) i) ;;
          ret 0
      end
  end.

(** *** Attach *)

(** [if_attach_internal] as [if_attach] calls it ([vmove] is 0).  Of
    the notifications and the per-protocol attach only the join to the
    group "all" and the insertion into [V_ifnet] touch this state. *)
Definition if_attach_internal (p : ifnet_ptr) : K vnet unit :=
  ifp <- ifnet_load p ;;
  v <- get ;;
  if (if_index ifp =? 0)
     || negb (bool_decide (ifnet_byindex v (if_index ifp) = Some p)) then
    raise (Panic "BUG: if_attach called without if_alloc'd input()")
  else
    (_ <- if_addgroup p IFG_ALL ;;
     modify (fun v => set_V_ifnet (V_ifnet v ++ [p]) v)).

(** [if_attach].  The driver description is blessed first (module
    [Bless]); counters, media, TSO limits, the send queue, bpf and the
    type's attach hook are left out, and with them the assertions on
    [ifat_version], on the media callbacks and on the range of
    [ifat_tsomax], and those of the blessing: a kernel with
    [INVARIANTS] panics where one of them fails, which this
    definition does not show.  The result is the new interface, or
    [NULL] when no unit number could be had, and the argument
    structure as the call leaves it. *)
Definition if_attach (ifat : if_attach_args)
  : K vnet (option ifnet_ptr * if_attach_args) :=
  let ifdrv := ifat_drv ifat in
  let '(error, dunit) :=
    match ifdrv_clone ifdrv with
    | Some ifc => ifc_alloc_unit ifc (ifat_dunit ifat)
    | None => (0, ifat_dunit ifat)
    end in
  let ifat := {| ifat_error := ifat_error ifat; ifat_drv := ifdrv;
                 ifat_lla := ifat_lla ifat; ifat_dunit := dunit;
                 ifat_name := ifat_name ifat; ifat_flags := ifat_flags ifat |} in
  if negb (error =? 0) then
    ret (None, {| ifat_error := error; ifat_drv := ifdrv;
                  ifat_lla := ifat_lla ifat; ifat_dunit := dunit;
                  ifat_name := ifat_name ifat; ifat_flags := ifat_flags ifat |})
  else
    p <- malloc_waitok ;;
    (* XXXGL: there is no check that name is unique. *)
    let xname :=
      match ifat_name ifat with
      | Some name => strlcpy name IFNAMSIZ
      | None =>
          if negb (ifat_dunit ifat =? IFAT_DUNIT_NONE) then
            snprintf_sd IFNAMSIZ (ifdrv_name ifdrv) (ifat_dunit ifat)
          else strlcpy (ifdrv_name ifdrv) IFNAMSIZ
      end in
    modify (fun v => set_ifnets
      (<[p := {| if_xname := xname; if_dunit := ifat_dunit ifat;
                 if_index := 0; if_flags := ifat_flags ifat;
                 if_refcount := 0; if_drv := ifdrv; if_addr := None;
                 if_groups := [] |}]> (ifnets v)) v) ;;
    ifindex_alloc p ;;
    ifnet_update p (set_if_refcount 1) ;;
    ifp <- ifnet_load p ;;
    (* The link-level address, with room for any name. *)
    let namelen := strlen (if_xname ifp) in
    let masklen := offsetof_sdl_data + IFNAMSIZ in
    let socksize := masklen + ifdrv_addrlen ifdrv in
    let socksize := if socksize <? sizeof_sockaddr_dl then sizeof_sockaddr_dl
                    else socksize in
    let socksize := roundup2 socksize sizeof_long in
    let room := replicate (Z.to_nat (socksize - offsetof_sdl_data)) Byte.x00 in
    let data := poke room 0 (name_bytes (if_xname ifp)) in
    let data := match ifat_lla ifat with
                | Some lla => poke data (Z.to_nat namelen)
                                   (take (Z.to_nat (ifdrv_addrlen ifdrv)) lla)
                | None => data
                end in
    let sdl := {| sdl_len := u_char socksize; sdl_family := AF_LINK;
                  sdl_index := if_index ifp; sdl_type := ifdrv_type ifdrv;
                  sdl_nlen := u_char namelen;
                  sdl_alen := ifdrv_addrlen ifdrv; sdl_data := data |} in
    let msk := {| sdl_len := u_char masklen; sdl_family := 0;
                  sdl_index := 0; sdl_type := 0; sdl_nlen := 0;
                  sdl_alen := 0; sdl_data := mask_name room namelen |} in
    ifnet_update p (set_if_addr (Some {| ifa_addr := sdl; ifa_netmask := msk |})) ;;
    if_attach_internal p ;;
    ret (Some p, ifat).

(** *** Detach *)

Definition if_down (p : ifnet_ptr) : K vnet unit :=
  ifnet_update p (fun i => set_if_flags (Z.land (if_flags i) (Z.lnot IFF_UP)) i).

(** [if_detach_internal] as [if_detach] calls it ([vmove] is 0).  The
    purge of addresses and multicast memberships, the notifications
    and the per-protocol detach act on state kept elsewhere. *)
Definition if_detach_internal (p : ifnet_ptr) : K vnet unit :=
  v <- get ;;
  let found := bool_decide (p ∈ V_ifnet v) in
  (if found then modify (fun v => set_V_ifnet (TAILQ_REMOVE p (V_ifnet v)) v)
   else ret tt) ;;
  if negb found then ret tt          (* XXX this should panic as well? *)
  else
    (if_down p ;;
     (* Prevent further calls into the device driver via ifnet;
        remove link ifaddr pointer. *)
     ifnet_update p (set_if_addr None) ;;
     if_delgroups p).

Definition if_free_internal (p : ifnet_ptr) : K vnet unit :=
  ifp <- ifnet_load p ;;
  KASSERT INVARIANTS (flag_set (if_flags ifp) IFF_DYING)
          "if_free_internal: interface not dying" ;;
  modify (fun v => set_ifnets (delete p (ifnets v)) v).

Definition if_rele (p : ifnet_ptr) : K vnet unit :=
  ifp <- ifnet_load p ;;
  let '(last, count) := refcount_release (if_refcount ifp) in
  ifnet_update p (set_if_refcount count) ;;
  if last then if_free_internal p else ret tt.

Definition if_detach (p : ifnet_ptr) : K vnet unit :=
  ifnet_update p (fun i => set_if_flags (Z.lor (if_flags i) IFF_DYING) i) ;;
  if_detach_internal p ;;
  ifp <- ifnet_load p ;;
  v <- get ;;
  KASSERT INVARIANTS
          (bool_decide (ifnet_byindex_locked v (if_index ifp) = Some p))
          "freeing unallocated ifnet" ;;
  ifindex_free (if_index ifp) ;;
  (* ifc_free_unit *)
  if_rele p.

(** *** Histories of attach and detach

    A driver attaches interfaces and detaches interfaces that are
    attached; [Detach name] stands for [if_detach] on the interface
    that [ifunit] finds under the name. *)
Inductive op : Type :=
  | Attach (ifat : if_attach_args)
  | Detach (name : string).

Definition step (o : op) : K vnet unit :=
  match o with
  | Attach ifat => _ <- if_attach ifat ;; ret tt
  | Detach name =>
      found <- ifunit name ;;
      match found with
      | Some p => if_detach p
      | None => raise (Misuse "detach of an interface that is not attached")
      end
  end.

Fixpoint run (ops : list op) : K vnet unit :=
  match ops with
  | [] => ret tt
  | o :: rest => step o ;; run rest
  end.

(** A vnet is set up by [vnet_if_init] before anything attaches. *)
Definition boot (ops : list op) : res vnet unit :=
  (vnet_if_init ;; run ops) vnet_static.

End WithEnv.

(** *** Invariants of the registry *)

(** [t[i]] on a bare table. *)
Definition tget (t : list slot) (i : Z) : slot :=
  default SlotNull (t !! Z.to_nat i).

(** What the allocator maintains: the table has [V_if_indexlim]
    entries, the high-water mark [V_if_index] is a [u_short] below the
    limit, slot 0 and the slots above the mark are free, and the slot
    at the mark is in use. *)
Record wf (v : vnet) : Prop := {
  wf_lim : V_if_indexlim v = Z.of_nat (length (V_ifindex_table v));
  wf_index : 0 <= V_if_index v < V_if_indexlim v;
  wf_ushort : V_if_index v <= 65535;
  wf_zero : tbl v 0 = SlotNull;
  wf_above : forall i, V_if_index v < i -> tbl v i = SlotNull;
  wf_top : V_if_index v = 0 \/ tbl v (V_if_index v) <> SlotNull
}.
(** What the scan of [ifindex_alloc] ends with: the lowest free slot
    from 1 up to one past the high-water mark or, when every index from
    1 to 65535 is taken, the 0 that [idx++] wraps to. *)
Definition scan_result (v : vnet) (idx : Z) : Prop :=
  (1 <= idx <= 65535 /\ idx <= V_if_index v + 1 /\ tbl v idx = SlotNull /\
   forall i, 1 <= i < idx -> tbl v i <> SlotNull)
  \/ (idx = 0 /\ V_if_index v = 65535 /\
      forall i, 1 <= i <= 65535 -> tbl v i <> SlotNull).

(** Some index from 1 to 65535 is free. *)
Definition index_available (v : vnet) : Prop :=
  exists i, 1 <= i <= 65535 /\ tbl v i = SlotNull.

(** The state [ifindex_alloc] leaves when its scan ends with [idx]:
    the entry [idx] points to the interface, which records its index;
    every other entry is as before; the mark is raised to [idx] if it
    was below; the limit has doubled if [idx] had reached it. *)
Record alloc_post (v : vnet) (p : ifnet_ptr) (idx : Z) (v' : vnet) : Prop := {
  ap_index : V_if_index v' = Z.max (V_if_index v) idx;
  ap_lim : V_if_indexlim v' =
           if V_if_indexlim v <=? idx then 2 * V_if_indexlim v
           else V_if_indexlim v;
  ap_len : V_if_indexlim v' = Z.of_nat (length (V_ifindex_table v'));
  ap_slot : tbl v' idx = SlotIfp p;
  ap_others : forall i, 0 <= i -> i <> idx -> tbl v' i = tbl v i;
  ap_ifnet : V_ifnet v' = V_ifnet v;
  ap_ifg_head : V_ifg_head v' = V_ifg_head v;
  ap_ifnets : exists ifp, ifnets v !! p = Some ifp /\
              ifnets v' = <[p := set_if_index idx ifp]> (ifnets v);
  ap_ifgroups : ifgroups v' = ifgroups v;
  ap_brk : brk v' = brk v;
  ap_nowait : nowait v' = nowait v
}.

(** The state [ifindex_free] leaves: the entry is [NULL], every other
    entry is as before, and the mark has come down to the highest
    entry in use (or to 0). *)
Record free_post (v : vnet) (idx : Z) (v' : vnet) : Prop := {
  fp_slot : tbl v' idx = SlotNull;
  fp_others : forall i, 0 <= i -> i <> idx -> tbl v' i = tbl v i;
  fp_index_le : 0 <= V_if_index v' <= V_if_index v;
  fp_top : V_if_index v' = 0 \/ tbl v' (V_if_index v') <> SlotNull;
  fp_above : forall j, V_if_index v' < j <= V_if_index v -> tbl v' j = SlotNull;
  fp_lim : V_if_indexlim v' = V_if_indexlim v;
  fp_len : length (V_ifindex_table v') = length (V_ifindex_table v);
  fp_ifnet : V_ifnet v' = V_ifnet v;
  fp_ifg_head : V_ifg_head v' = V_ifg_head v;
  fp_ifnets : ifnets v' = ifnets v;
  fp_ifgroups : ifgroups v' = ifgroups v;
  fp_brk : brk v' = brk v;
  fp_nowait : nowait v' = nowait v
}.

(** The interfaces on [V_ifnet] are the live ones.  Each is an
    allocated object whose index is at least 1 and whose table entry
    points back to it; objects lie below [brk]. *)
Record registry_ok (v : vnet) : Prop := {
  ro_wf : wf v;
  ro_live : forall p, p ∈ V_ifnet v ->
            exists ifp, ifnets v !! p = Some ifp /\ 1 <= if_index ifp /\
                        tbl v (if_index ifp) = SlotIfp p;
  ro_nodup : NoDup (V_ifnet v);
  ro_fresh : forall p, is_Some (ifnets v !! p) -> (p < brk v)%positive
}.

(** Every live interface has a non-zero index. *)
Definition indices_nonzero (v : vnet) : Prop :=
  forall p, p ∈ V_ifnet v ->
  exists ifp, ifnets v !! p = Some ifp /\ if_index ifp <> 0.

(** No two live interfaces share an index. *)
Definition indices_unique (v : vnet) : Prop :=
  forall p q ifp ifq,
    p ∈ V_ifnet v -> q ∈ V_ifnet v ->
    ifnets v !! p = Some ifp -> ifnets v !! q = Some ifq ->
    if_index ifp = if_index ifq -> p = q.

(** [v'] differs from [v] in nothing the index table is about: same
    table, mark and limit, same objects with the same indices. *)
Record same_table (v v' : vnet) : Prop := {
  st_index : V_if_index v' = V_if_index v;
  st_lim : V_if_indexlim v' = V_if_indexlim v;
  st_table : V_ifindex_table v' = V_ifindex_table v;
  st_objs : forall q, if_index <$> (ifnets v' !! q) = if_index <$> (ifnets v !! q);
  st_brk : (brk v <= brk v')%positive
}.

(** Code that leaves the index table and the interface list alone. *)
Definition frame {A} (m : K vnet A) : Prop :=
  forall v a v', m v = Ok a v' -> same_table v v' /\ V_ifnet v' = V_ifnet v.

(** The group set and the memberships agree.  The groups on
    [V_ifg_head] are the allocated ones, each once; a group counts its
    member entries and has at least one; an interface holds a group at
    most once, and every group it holds is allocated and lists it as a
    member. *)
Record groups_ok (v : vnet) : Prop := {
  go_nodup : NoDup (V_ifg_head v);
  go_set : forall g, g ∈ V_ifg_head v <-> is_Some (ifgroups v !! g);
  go_count : forall g G, ifgroups v !! g = Some G ->
             ifg_refcnt G = Z.of_nat (length (ifg_members G)) /\
             0 < ifg_refcnt G;
  go_held : forall p ifp, ifnets v !! p = Some ifp ->
            NoDup (if_groups ifp) /\
            forall g, g ∈ if_groups ifp ->
              exists G, ifgroups v !! g = Some G /\ p ∈ ifg_members G;
  go_fresh : forall g, is_Some (ifgroups v !! g) -> (g < brk v)%positive
}.

(** What a successful [if_addgroup] has done: the interface holds one
    more group [g], which is either the group of that name that was on
    the set, now with one more reference and member, or a new group at
    the tail of the set with this interface as its only member. *)
Definition addgroup_post (v : vnet) (p : ifnet_ptr) (ifp : ifnet)
    (groupname : string) (g : ifg_ptr) (v' : vnet) : Prop :=
  ifnets v' = <[p := set_if_groups (if_groups ifp ++ [g]) ifp]> (ifnets v) /\
  ((exists G, g ∈ V_ifg_head v /\ ifgroups v !! g = Some G /\
      ifg_group G = groupname /\
      V_ifg_head v' = V_ifg_head v /\
      ifgroups v' = <[g := {| ifg_group := ifg_group G;
                              ifg_refcnt := ifg_refcnt G + 1;
                              ifg_members := ifg_members G ++ [p] |}]> (ifgroups v))
   \/ (ifgroups v !! g = None /\
       (forall g0 G0, g0 ∈ V_ifg_head v -> ifgroups v !! g0 = Some G0 ->
                      ifg_group G0 <> groupname) /\
       V_ifg_head v' = V_ifg_head v ++ [g] /\
       ifgroups v' = <[g := {| ifg_group := strlcpy groupname IFNAMSIZ;
                               ifg_refcnt := 1;
                               ifg_members := [p] |}]> (ifgroups v))).

(** What dropping the entry of interface [p] for group [g] has done
    to the group: with the last reference it is off the set and freed,
    otherwise it has one reference and member less. *)
Definition release_post (v : vnet) (p : ifnet_ptr) (g : ifg_ptr)
    (G : ifgroup) (v' : vnet) : Prop :=
  if ifg_refcnt G =? 1 then
    V_ifg_head v' = TAILQ_REMOVE g (V_ifg_head v) /\
    ifgroups v' = delete g (ifgroups v)
  else
    V_ifg_head v' = V_ifg_head v /\
    ifgroups v' = <[g := {| ifg_group := ifg_group G;
                            ifg_refcnt := ifg_refcnt G - 1;
                            ifg_members := TAILQ_REMOVE p (ifg_members G) |}]>
                    (ifgroups v).

(** The group [g] is on the set, named [name], with [count] references
    and the members [members]. *)
Definition group_is (v : vnet) (g : ifg_ptr) (name : string) (count : Z)
    (members : list ifnet_ptr) : Prop :=
  g ∈ V_ifg_head v /\
  ifgroups v !! g = Some {| ifg_group := name; ifg_refcnt := count;
                            ifg_members := members |}.

(** No group on the set bears the name. *)
Definition no_group_named (v : vnet) (name : string) : Prop :=
  forall g G, g ∈ V_ifg_head v -> ifgroups v !! g = Some G -> ifg_group G <> name.

(** A history stops at operation [o] with fault [f], as far as the
    state of this module goes: [if_attach] panics in [ifindex_alloc]
    because every index from 1 to 65535 is taken, or the history asks
    to detach a name that no interface on the list bears.  The
    assertions of [if_attach] on its arguments and on the driver
    description are not part of this state, so this says nothing
    about the panics they raise. *)
Definition step_stops `{env : Env} (o : op) (v : vnet) (f : fault) : Prop :=
  match o with
  | Attach _ => (exists msg, f = Panic msg) /\ ~ index_available v
  | Detach name => (exists msg, f = Misuse msg) /\ ifunit name v = Ok None v
  end.

(** The kind of fault a history stops with at operation [o]: a panic
    where it attaches, and a request to detach a name that no
    interface on the list bears where it detaches.  A loop that runs
    out of fuel, or an address that holds no object, is not among
    them. *)
Definition step_faults (o : op) (v : vnet) (f : fault) : Prop :=
  match o with
  | Attach _ => exists msg, f = Panic msg
  | Detach name => (exists msg, f = Misuse msg) /\ ifunit name v = Ok None v
  end.

End Registry.

(** * Multicast memberships *)

Module Multicast.

Abbreviation ifnet_ptr := positive (only parsing).
Abbreviation ifma_ptr := positive (only parsing).

Inductive ioctl_cmd : Type := SIOCADDMULTI | SIOCDELMULTI.
Inductive rtm_cmd : Type := RTM_NEWMADDR | RTM_DELMADDR.

(** What the multicast code tells others: routing messages and calls
    into the driver, in the order they are made. *)
Inductive event : Type :=
  | rt_newmaddrmsg (cmd : rtm_cmd) (ifma : ifma_ptr)
  | if_ioctl (ifp : ifnet_ptr) (cmd : ioctl_cmd).

#[global] Instance byte_eq_dec : EqDecision Byte.byte := Byte.byte_eq_dec.
#[global] Instance ioctl_cmd_eq_dec : EqDecision ioctl_cmd.
Proof. solve_decision. Defined.
#[global] Instance rtm_cmd_eq_dec : EqDecision rtm_cmd.
Proof. solve_decision. Defined.
#[global] Instance event_eq_dec : EqDecision event.
Proof. solve_decision. Defined.

Section WithSockaddr.
Context `{env : Env}.

(** Socket addresses.  Their layout (sys/socket.h, net/if_dl.h) and the
    macro [sa_equal] (net/if_var.h) are given from outside: the family
    of an address, the fields [sdl_len] and [sdl_alen] of a link-level
    address, the bytes that [LLADDR] points to, and the comparison of
    two addresses over the length of the first, which finds an address
    equal to itself. *)
Context {sockaddr : Type}.
Variable sa_family : sockaddr -> Z.
Variable sdl_len : sockaddr -> Z.
Variable sdl_alen : sockaddr -> Z.
Variable LLADDR : sockaddr -> list Byte.byte.
Variable sa_equal : sockaddr -> sockaddr -> bool.

(** The multicast resolver of the driver or of the interface type:
    an error number and the link-level address it produced, if any. *)
Variable if_resolvemulti : ifnet_ptr -> sockaddr -> Z * option sockaddr.

(** [bcmp(a, b, len) == 0] *)
Definition bcmp_eq (a b : list Byte.byte) (len : Z) : bool :=
  bool_decide (take (Z.to_nat len) a = take (Z.to_nat len) b).

Definition sa_dl_equal (a1 a2 : sockaddr) : bool :=
  (sdl_len a1 =? sdl_len a2) && bcmp_eq (LLADDR a1) (LLADDR a2) (sdl_alen a1).

(** struct ifmultiaddr.  Its declaration is in net/if_var.h; the
    reference count is an integer without a bound here. *)
Record ifmultiaddr : Type := {
  ifma_addr : sockaddr;
  ifma_lladdr : option sockaddr;
  ifma_ifp : option ifnet_ptr;
  ifma_refcount : Z;
  ifma_llifma : option ifma_ptr
}.

Definition set_ifma_ifp (x : option ifnet_ptr) (m : ifmultiaddr) : ifmultiaddr :=
  {| ifma_addr := ifma_addr m; ifma_lladdr := ifma_lladdr m; ifma_ifp := x;
     ifma_refcount := ifma_refcount m; ifma_llifma := ifma_llifma m |}.
Definition set_ifma_refcount (x : Z) (m : ifmultiaddr) : ifmultiaddr :=
  {| ifma_addr := ifma_addr m; ifma_lladdr := ifma_lladdr m;
     ifma_ifp := ifma_ifp m; ifma_refcount := x;
     ifma_llifma := ifma_llifma m |}.
Definition set_ifma_llifma (x : option ifma_ptr) (m : ifmultiaddr) : ifmultiaddr :=
  {| ifma_addr := ifma_addr m; ifma_lladdr := ifma_lladdr m;
     ifma_ifp := ifma_ifp m; ifma_refcount := ifma_refcount m;
     ifma_llifma := x |}.

(** The interfaces with their multicast lists, the memberships, the
    allocator ([brk], [nowait] as in the registry) and the events so
    far. *)
Record state : Type := {
  V_ifnet : list ifnet_ptr;
  if_multiaddrs : gmap ifnet_ptr (list ifma_ptr);
  ifmas : gmap ifma_ptr ifmultiaddr;
  brk : positive;
  nowait : list bool;
  events : list event
}.

Definition set_if_multiaddrs (x : gmap ifnet_ptr (list ifma_ptr)) (s : state) : state :=
  {| V_ifnet := V_ifnet s; if_multiaddrs := x; ifmas := ifmas s;
     brk := brk s; nowait := nowait s; events := events s |}.
Definition set_ifmas (x : gmap ifma_ptr ifmultiaddr) (s : state) : state :=
  {| V_ifnet := V_ifnet s; if_multiaddrs := if_multiaddrs s; ifmas := x;
     brk := brk s; nowait := nowait s; events := events s |}.
Definition set_alloc (b : positive) (o : list bool) (s : state) : state :=
  {| V_ifnet := V_ifnet s; if_multiaddrs := if_multiaddrs s; ifmas := ifmas s;
     brk := b; nowait := o; events := events s |}.
Definition set_events (x : list event) (s : state) : state :=
  {| V_ifnet := V_ifnet s; if_multiaddrs := if_multiaddrs s; ifmas := ifmas s;
     brk := brk s; nowait := nowait s; events := x |}.

Definition malloc_nowait : K state (option positive) :=
  fun s => match nowait s with
           | false :: rest => Ok None (set_alloc (brk s) rest s)
           | true :: rest => Ok (Some (brk s)) (set_alloc (Pos.succ (brk s)) rest s)
           | [] => Ok (Some (brk s)) (set_alloc (Pos.succ (brk s)) [] s)
           end.

Definition emit (e : event) : K state unit :=
  modify (fun s => set_events (events s ++ [e]) s).

Definition ifma_load (m : ifma_ptr) : K state ifmultiaddr :=
  fun s => match ifmas s !! m with
           | Some x => Ok x s
           | None => Err BadPointer
           end.

Definition ifma_update (m : ifma_ptr) (f : ifmultiaddr -> ifmultiaddr)
  : K state unit :=
  fun s => match ifmas s !! m with
           | Some x => Ok tt (set_ifmas (<[m := f x]> (ifmas s)) s)
           | None => Err BadPointer
           end.

(** [ifp->if_multiaddrs] *)
Definition multiaddrs_load (ifp : ifnet_ptr) : K state (list ifma_ptr) :=
  fun s => match if_multiaddrs s !! ifp with
           | Some l => Ok l s
           | None => Err BadPointer
           end.

Definition multiaddrs_update (ifp : ifnet_ptr)
    (f : list ifma_ptr -> list ifma_ptr) : K state unit :=
  fun s => match if_multiaddrs s !! ifp with
           | Some l => Ok tt (set_if_multiaddrs (<[ifp := f l]> (if_multiaddrs s)) s)
           | None => Err BadPointer
           end.

(** [if_findmulti]: the first membership on the list whose address
    equals [sa]; link-level addresses are compared by [sa_dl_equal]. *)
Fixpoint if_findmulti_loop (l : list ifma_ptr) (sa : sockaddr)
  : K state (option ifma_ptr) :=
  match l with
  | [] => ret None
  | m :: rest =>
      ifma <- ifma_load m ;;
      if (if sa_family sa =? AF_LINK then sa_dl_equal (ifma_addr ifma) sa
          else sa_equal (ifma_addr ifma) sa)
      then ret (Some m)
      else if_findmulti_loop rest sa
  end.

Definition if_findmulti (ifp : ifnet_ptr) (sa : sockaddr)
  : K state (option ifma_ptr) :=
  l <- multiaddrs_load ifp ;;
  if_findmulti_loop l sa.

(** [if_allocmulti] with [M_NOWAIT]: the structure, a copy of [sa]
    and, if there is one, a copy of [llsa]; NULL if one of the
    allocations fails. *)
Definition if_allocmulti (ifp : ifnet_ptr) (sa : sockaddr)
    (llsa : option sockaddr) : K state (option ifma_ptr) :=
  ifma <- malloc_nowait ;;
  match ifma with
  | None => ret None
  | Some m =>
      dupsa <- malloc_nowait ;;
      match dupsa with
      | None => ret None                   (* free(ifma) *)
      | Some _ =>
          match llsa with
          | None =>
              modify (fun s => set_ifmas
                (<[m := {| ifma_addr := sa; ifma_lladdr := None;
                           ifma_ifp := Some ifp; ifma_refcount := 1;
                           ifma_llifma := None |}]> (ifmas s)) s) ;;
              ret (Some m)
          | Some ll =>
              dupsa <- malloc_nowait ;;
              match dupsa with
              | None => ret None           (* free(ifma->ifma_addr); free(ifma) *)
              | Some _ =>
                  modify (fun s => set_ifmas
                    (<[m := {| ifma_addr := sa; ifma_lladdr := Some ll;
                               ifma_ifp := Some ifp; ifma_refcount := 1;
                               ifma_llifma := None |}]> (ifmas s)) s) ;;
                  ret (Some m)
              end
          end
      end
  end.

Definition if_freemulti (m : ifma_ptr) : K state unit :=
  ifma <- ifma_load m ;;
  KASSERT INVARIANTS (ifma_refcount ifma =? 0) "if_freemulti: refcount" ;;
  modify (fun s => set_ifmas (delete m (ifmas s)) s).

(** [if_addmulti]: the error number and what is stored through
    [retifma]. *)
Definition if_addmulti (ifp : ifnet_ptr) (sa : sockaddr)
  : K state (Z * option ifma_ptr) :=
  found <- if_findmulti ifp sa ;;
  match found with
  | Some m =>
      ifma_update m (fun x => set_ifma_refcount (ifma_refcount x + 1) x) ;;
      ret (0, Some m)
  | None =>
      let '(error, llsa) := if_resolvemulti ifp sa in
      let llsa := if error =? EOPNOTSUPP then None else llsa in
      if negb (error =? EOPNOTSUPP) && negb (error =? 0) then
        ret (error, None)                                  (* unlock_out *)
      else
        ifma <- if_allocmulti ifp sa llsa ;;
        match ifma with
        | None => ret (ENOMEM, None)                       (* free_llsa_out *)
        | Some m =>
            linked <-
              match llsa with
              | None => ret true
              | Some ll =>
                  ll_ifma <- if_findmulti ifp ll ;;
                  match ll_ifma with
                  | None =>
                      fresh <- if_allocmulti ifp ll None ;;
                      match fresh with
                      | None =>
                          ifma_update m (fun x =>
                            set_ifma_refcount (ifma_refcount x - 1) x) ;;
                          if_freemulti m ;;
                          ret false
                      | Some l =>
                          multiaddrs_update ifp (cons l) ;;
                          ifma_update m (set_ifma_llifma (Some l)) ;;
                          ret true
                      end
                  | Some l =>
                      ifma_update l (fun x =>
                        set_ifma_refcount (ifma_refcount x + 1) x) ;;
                      ifma_update m (set_ifma_llifma (Some l)) ;;
                      ret true
                  end
              end ;;
            if linked then
              multiaddrs_update ifp (cons m) ;;
              emit (rt_newmaddrmsg RTM_NEWMADDR m) ;;
              emit (if_ioctl ifp SIOCADDMULTI) ;;
              ret (0, Some m)
            else ret (ENOMEM, None)
        end
  end.

(** [if_delmulti_locked]: 1 if the last reference went, else 0.  [ifp]
    may be NULL. *)
Definition if_delmulti_locked (ifp : option ifnet_ptr) (m : ifma_ptr)
    (detaching : bool) : K state Z :=
  ifma <- ifma_load m ;;
  (match ifp, ifma_ifp ifma with
   | Some p, Some p' =>
       KASSERT INVARIANTS (bool_decide (p' = p)) "inconsistent ifp"
   | _, _ => ret tt
   end) ;;
  let ifp := ifma_ifp ifma in
  (if detaching then
     match ifp with
     | Some _ =>
         emit (rt_newmaddrmsg RTM_DELMADDR m) ;;
         ifma_update m (set_ifma_ifp None)
     | None => ret tt
     end
   else ret tt) ;;
  ifma_update m (fun x => set_ifma_refcount (ifma_refcount x - 1) x) ;;
  if 0 <? ifma_refcount ifma - 1 then ret 0
  else
    (match ifma_llifma ifma with
     | Some l =>
         KASSERT INVARIANTS (bool_decide (ifma_lladdr ifma <> None))
                 "llifma w/o lladdr" ;;
         (if detaching then ifma_update l (set_ifma_ifp None) else ret tt) ;;
         ifma_update l (fun x => set_ifma_refcount (ifma_refcount x - 1) x) ;;
         ll_ifma <- ifma_load l ;;
         if ifma_refcount ll_ifma =? 0 then
           (match ifp with
            | Some p => multiaddrs_update p (TAILQ_REMOVE l)
            | None => ret tt
            end) ;;
           if_freemulti l
         else ret tt
     | None => ret tt
     end) ;;
    (match ifp with
     | Some p => multiaddrs_update p (TAILQ_REMOVE m)
     | None => ret tt
     end) ;;
    if_freemulti m ;;
    ret 1.

(** [if_delmulti].  With [INVARIANTS] the interface must be on the
    interface list. *)
Definition if_delmulti (ifp : option ifnet_ptr) (sa : sockaddr) : K state Z :=
  s <- get ;;
  let ifp := if INVARIANTS then
               match ifp with
               | Some p => if bool_decide (p ∈ V_ifnet s) then Some p else None
               | None => None
               end
             else ifp in
  KASSERT INVARIANTS (bool_decide (ifp <> None)) "ifnet went away" ;;
  match ifp with
  | None => ret ENOENT
  | Some p =>
      found <- if_findmulti p sa ;;
      match found with
      | None => ret ENOENT
      | Some m =>
          lastref <- if_delmulti_locked (Some p) m false ;;
          (if negb (lastref =? 0) then emit (if_ioctl p SIOCDELMULTI)
           else ret tt) ;;
          ret 0
      end
  end.

(** [n] joins, and [n] leaves, of one address; the results in order. *)
Fixpoint joins (n : nat) (ifp : ifnet_ptr) (sa : sockaddr)
  : K state (list (Z * option ifma_ptr)) :=
  match n with
  | O => ret []
  | S n' => r <- if_addmulti ifp sa ;; rs <- joins n' ifp sa ;; ret (r :: rs)
  end.

Fixpoint leaves (n : nat) (ifp : ifnet_ptr) (sa : sockaddr) : K state (list Z) :=
  match n with
  | O => ret []
  | S n' => r <- if_delmulti (Some ifp) sa ;; rs <- leaves n' ifp sa ;; ret (r :: rs)
  end.

(** How often the driver was told to drop an address. *)
Definition delmulti_calls (ifp : ifnet_ptr) (s : state) : nat :=
  length (filter (fun e => e = if_ioctl ifp SIOCDELMULTI) (events s)).

(** [m] is the membership of [ifp] for [sa]: at the head of the
    list of the interface and nowhere else on it, held [r] times, with
    its link-level membership, if it has one, in place. *)
Definition member (ifp : ifnet_ptr) (sa : sockaddr) (m : ifma_ptr) (r : Z)
    (s : state) : Prop :=
  exists rest ifma,
    if_multiaddrs s !! ifp = Some (m :: rest) /\ (m ∉ rest) /\
    ifmas s !! m = Some ifma /\
    ifma_addr ifma = sa /\ ifma_ifp ifma = Some ifp /\
    ifma_refcount ifma = r /\
    ifp ∈ V_ifnet s /\
    match ifma_llifma ifma with
    | None => True
    | Some l => l <> m /\ ifma_lladdr ifma <> None /\ is_Some (ifmas s !! l)
    end.

(** No address is in use that the allocator has not handed out. *)
Definition heap_fresh (s : state) : Prop :=
  forall m, is_Some (ifmas s !! m) -> (m < brk s)%positive.

End WithSockaddr.

End Multicast.

(** * Link state *)

Module LinkState.

(** What [do_link_state_change] tells others, in order. *)
Inductive event : Type :=
  | rt_ifmsg
  | vlan_link_state
  | ng_ether_link_state (link_state : Z)
  | carp_linkstate
  | bridge_linkstate
  | lagg_linkstate (link_state : Z)
  | devctl_notify (system subsystem type : string)
  | if_printf_coalesced (pending : Z)      (* "%d link states coalesced" *)
  | log_link_state (xname to : string)     (* "%s: link state changed to %s" *)
  | ifnet_link_event (link_state : Z).

(** The fields of the interface that the link state code reads and
    writes; a pointer field holds whether it is not NULL.
    [ta_pending] is the counter of [if_linktask]. *)
Record ifnet : Type := {
  if_xname : string;
  if_type : Z;
  if_link_state : Z;
  ta_pending : Z;
  if_vlantrunk : bool;
  if_l2com : bool;
  if_softc_carp : bool;
  if_bridge : bool;
  if_lagg : bool
}.

Definition set_if_link_state (x : Z) (i : ifnet) : ifnet :=
  {| if_xname := if_xname i; if_type := if_type i; if_link_state := x;
     ta_pending := ta_pending i; if_vlantrunk := if_vlantrunk i;
     if_l2com := if_l2com i; if_softc_carp := if_softc_carp i;
     if_bridge := if_bridge i; if_lagg := if_lagg i |}.
Definition set_ta_pending (x : Z) (i : ifnet) : ifnet :=
  {| if_xname := if_xname i; if_type := if_type i;
     if_link_state := if_link_state i; ta_pending := x;
     if_vlantrunk := if_vlantrunk i; if_l2com := if_l2com i;
     if_softc_carp := if_softc_carp i; if_bridge := if_bridge i;
     if_lagg := if_lagg i |}.

(** The interface, the sysctl [net.link.log_link_state_change], and
    what has been delivered. *)
Record state : Type := {
  ifp : ifnet;
  log_link_state_change : Z;
  delivered : list event
}.

Definition set_ifp (x : ifnet) (s : state) : state :=
  {| ifp := x; log_link_state_change := log_link_state_change s;
     delivered := delivered s |}.
Definition emit (e : event) : K state unit :=
  modify (fun s => {| ifp := ifp s;
                      log_link_state_change := log_link_state_change s;
                      delivered := delivered s ++ [e] |}).
Definition when {S} (c : bool) (k : K S unit) : K S unit :=
  if c then k else ret tt.

(** Modelled from the spec: the task queue (sys/kern/subr_taskqueue.c),
    for the one task [if_linktask]: a signal schedules one unit of
    deferred work if none is pending, and is counted; the work, when it
    runs, is handed the number of signals collapsed into it. *)
Definition taskqueue_enqueue : K state unit :=
  modify (fun s => set_ifp (set_ta_pending (ta_pending (ifp s) + 1) (ifp s)) s).

Section WithTypes.
(** net/if_types.h, and whether this is the default vnet. *)
Variables IFT_ETHER IFT_L2VLAN : Z.
Variable IS_DEFAULT_VNET : bool.

Definition if_link_state_change (link_state : Z) : K state unit :=
  s <- get ;;
  (* Return if state hasn't changed. *)
  if if_link_state (ifp s) =? link_state then ret tt
  else
    modify (fun s => set_ifp (set_if_link_state link_state (ifp s)) s) ;;
    taskqueue_enqueue.

Definition do_link_state_change (pending : Z) : K state unit :=
  s <- get ;;
  let i := ifp s in
  let link_state := if_link_state i in
  emit rt_ifmsg ;;
  when (if_vlantrunk i) (emit vlan_link_state) ;;
  when (((if_type i =? IFT_ETHER) || (if_type i =? IFT_L2VLAN)) && if_l2com i)
       (emit (ng_ether_link_state link_state)) ;;
  when (if_softc_carp i) (emit carp_linkstate) ;;
  when (if_bridge i) (emit bridge_linkstate) ;;
  when (if_lagg i) (emit (lagg_linkstate link_state)) ;;
  when IS_DEFAULT_VNET
       (emit (devctl_notify "IFNET" (if_xname i)
                (if link_state =? LINK_STATE_UP then "LINK_UP" else "LINK_DOWN"))) ;;
  when (1 <? pending) (emit (if_printf_coalesced pending)) ;;
  when (negb (log_link_state_change s =? 0))
       (emit (log_link_state (if_xname i)
                (if link_state =? LINK_STATE_UP then "UP" else "DOWN"))) ;;
  emit (ifnet_link_event link_state).

(** Modelled from the spec: the task queue runs the deferred work, if
    some is pending, with the count of the signals since the last run,
    and the count starts again. *)
Definition taskqueue_run : K state unit :=
  s <- get ;;
  let pending := ta_pending (ifp s) in
  if 0 <? pending then
    modify (fun s => set_ifp (set_ta_pending 0 (ifp s)) s) ;;
    do_link_state_change pending
  else ret tt.

(** Signals one after the other, before the deferred work runs. *)
Fixpoint signals (l : list Z) : K state unit :=
  match l with
  | [] => ret tt
  | link_state :: rest => if_link_state_change link_state ;; signals rest
  end.

End WithTypes.

(** How many notifications of the link event were delivered, and
    the coalesce counts that were logged. *)
Definition link_events (l : list event) : list Z :=
  omap (fun e => match e with ifnet_link_event st => Some st | _ => None end) l.
Definition coalesce_counts (l : list event) : list Z :=
  omap (fun e => match e with if_printf_coalesced n => Some n | _ => None end) l.

(** A command that only adds [evs] to what has been delivered. *)
Definition delivers (c : K state unit) (evs : list event) : Prop :=
  forall s, c s = Ok tt {| ifp := ifp s;
                           log_link_state_change := log_link_state_change s;
                           delivered := delivered s ++ evs |}.

(** The four signals of a link that flaps: down, up, down, up. *)
Definition flapping : list Z :=
  [LINK_STATE_DOWN; LINK_STATE_UP; LINK_STATE_DOWN; LINK_STATE_UP].

End LinkState.

(** * Reference counted flags *)

Module SetFlag.

(** [int] and [short], with the wrap-around of the kernel's build. *)
Definition int (z : Z) : Z := (z + 2 ^ 31) `mod` 2 ^ 32 - 2 ^ 31.
Definition short (z : Z) : Z := (z + 2 ^ 15) `mod` 2 ^ 16 - 2 ^ 15.

Record ifnet : Type := {
  if_xname : string;
  if_flags : Z;
  if_pcount : Z;        (* number of promiscuous listeners *)
  if_amcount : Z;       (* number of all-multicast requests *)
  if_softc : Z          (* what the driver keeps about the interface *)
}.

Definition set_if_flags (x : Z) (i : ifnet) : ifnet :=
  {| if_xname := if_xname i; if_flags := x; if_pcount := if_pcount i;
     if_amcount := if_amcount i; if_softc := if_softc i |}.
Definition set_if_pcount (x : Z) (i : ifnet) : ifnet :=
  {| if_xname := if_xname i; if_flags := if_flags i; if_pcount := x;
     if_amcount := if_amcount i; if_softc := if_softc i |}.
Definition set_if_amcount (x : Z) (i : ifnet) : ifnet :=
  {| if_xname := if_xname i; if_flags := if_flags i; if_pcount := if_pcount i;
     if_amcount := x; if_softc := if_softc i |}.

(** The [int *refcount] argument of [if_setflag] points into the
    interface. *)
Inductive refcount_ptr : Type := ref_if_pcount | ref_if_amcount.

Definition deref (r : refcount_ptr) (i : ifnet) : Z :=
  match r with
  | ref_if_pcount => if_pcount i
  | ref_if_amcount => if_amcount i
  end.
Definition assign (r : refcount_ptr) (x : Z) (i : ifnet) : ifnet :=
  match r with
  | ref_if_pcount => set_if_pcount x i
  | ref_if_amcount => set_if_amcount x i
  end.

Record ifreq : Type := { ifr_flags : Z; ifr_flagshigh : Z }.

Inductive event : Type :=
  | rt_ifmsg
  | log_promisc (xname : string) (enabled : bool).

Record state : Type := { ifp : ifnet; told : list event }.

Definition set_ifp (x : ifnet) (s : state) : state :=
  {| ifp := x; told := told s |}.
Definition emit (e : event) : K state unit :=
  modify (fun s => {| ifp := ifp s; told := told s ++ [e] |}).

Section WithDriver.
Context `{env : Env}.

(** The driver's handler of [SIOCSIFFLAGS]: its error number and what
    it did to the interface. *)
Variable if_ioctl_SIOCSIFFLAGS : ifreq -> ifnet -> Z * ifnet.

Definition if_ioctl (ifr : ifreq) : K state Z :=
  fun s => let '(error, i) := if_ioctl_SIOCSIFFLAGS ifr (ifp s) in
           Ok error (set_ifp i s).

Definition if_setflag (flag pflag : Z) (refcount : refcount_ptr)
    (onswitch : Z) : K state Z :=
  s <- get ;;
  (if negb (onswitch =? 0)
   then KASSERT INVARIANTS (0 <=? deref refcount (ifp s))
                "if_setflag: increment negative refcount"
   else KASSERT INVARIANTS (0 <? deref refcount (ifp s))
                "if_setflag: decrement non-positive refcount") ;;
  (* In case this mode is permanent, just touch refcount *)
  if negb (Z.land (if_flags (ifp s)) pflag =? 0) then
    modify (fun s => set_ifp
      (assign refcount
         (int (deref refcount (ifp s) + (if negb (onswitch =? 0) then 1 else -1)))
         (ifp s)) s) ;;
    ret 0
  else
    (* Save ifnet parameters for if_ioctl() may fail *)
    let oldcount := deref refcount (ifp s) in
    let oldflags := if_flags (ifp s) in
    touched <-
      (if negb (onswitch =? 0) then
         modify (fun s => set_ifp (assign refcount (int (oldcount + 1)) (ifp s)) s) ;;
         if negb (oldcount =? 0) then ret false
         else
           modify (fun s => set_ifp
             (set_if_flags (Z.lor (if_flags (ifp s)) flag) (ifp s)) s) ;;
           ret true
       else
         modify (fun s => set_ifp (assign refcount (int (oldcount - 1)) (ifp s)) s) ;;
         if negb (int (oldcount - 1) =? 0) then ret false
         else
           modify (fun s => set_ifp
             (set_if_flags (Z.land (if_flags (ifp s)) (Z.lnot flag)) (ifp s)) s) ;;
           ret true) ;;
    if negb touched then ret 0
    else
      (* Call down the driver since we've changed interface flags *)
      s <- get ;;
      error <- if_ioctl {| ifr_flags := short (Z.land (if_flags (ifp s)) 0xffff);
                           ifr_flagshigh := short (Z.shiftr (if_flags (ifp s)) 16) |} ;;
      if negb (error =? 0) then
        (* Recover after driver error *)
        modify (fun s => set_ifp (assign refcount oldcount (ifp s)) s) ;;
        modify (fun s => set_ifp (set_if_flags oldflags (ifp s)) s) ;;
        ret error
      else
        emit rt_ifmsg ;;
        ret 0.

Definition ifpromisc (pswitch : Z) : K state Z :=
  s <- get ;;
  let oldflags := if_flags (ifp s) in
  error <- if_setflag IFF_PROMISC IFF_PPROMISC ref_if_pcount pswitch ;;
  s <- get ;;
  (if (error =? 0)
      && negb (Z.land (Z.lxor (if_flags (ifp s)) oldflags) IFF_PROMISC =? 0)
   then emit (log_promisc (if_xname (ifp s))
                (negb (Z.land (if_flags (ifp s)) IFF_PROMISC =? 0)))
   else ret tt) ;;
  ret error.

Definition if_allmulti (onswitch : Z) : K state Z :=
  if_setflag IFF_ALLMULTI 0 ref_if_amcount onswitch.

(** What the assertions at the head of [if_setflag] ask of the
    counter. *)
Definition counter_sane (refcount : refcount_ptr) (onswitch : Z)
    (s : state) : Prop :=
  INVARIANTS = true ->
  if onswitch =? 0 then 0 < deref refcount (ifp s)
  else 0 <= deref refcount (ifp s).

End WithDriver.

(** The counter after one more, or one less, request. *)
Definition counted (refcount : refcount_ptr) (onswitch : Z) (i : ifnet) : ifnet :=
  assign refcount
    (int (deref refcount i + (if onswitch =? 0 then -1 else 1))) i.

(** The interface as it is handed to the driver when the flag is
    switched, and the request that goes with it. *)
Definition switched (flag : Z) (refcount : refcount_ptr) (onswitch : Z)
    (i : ifnet) : ifnet :=
  set_if_flags (if onswitch =? 0 then Z.land (if_flags i) (Z.lnot flag)
                else Z.lor (if_flags i) flag)
               (counted refcount onswitch i).
Definition flags_request (i : ifnet) : ifreq :=
  {| ifr_flags := short (Z.land (if_flags i) 0xffff);
     ifr_flagshigh := short (Z.shiftr (if_flags i) 16) |}.

(** The request is one that switches the flag and calls the driver:
    the first to ask for the mode (the counter was zero before it is
    incremented), or the last to give it up (the counter is zero
    after it is decremented). *)
Definition switches (refcount : refcount_ptr) (onswitch : Z) (i : ifnet) : bool :=
  if onswitch =? 0 then int (deref refcount i - 1) =? 0
  else deref refcount i =? 0.

End SetFlag.

(** * Drivers and interface types *)

Module Bless.

(** A function pointer: one of the two functions of [if.c] that
    [ifdriver_bless] installs, or a function from elsewhere. *)
Inductive funptr : Type :=
  | if_snd_qflush
  | if_get_counter_default
  | extern (addr : positive).

#[global] Instance funptr_eq_dec : EqDecision funptr.
Proof. solve_decision. Defined.

Record ifops : Type := {
  ifop_input : option funptr;
  ifop_transmit : option funptr;
  ifop_output : option funptr;
  ifop_poll : option funptr;
  ifop_ioctl : option funptr;
  ifop_get_counter : option funptr;
  ifop_qflush : option funptr;
  ifop_media_change : option funptr;
  ifop_media_status : option funptr;
  ifop_resolvemulti : option funptr;
  ifop_reassign : option funptr;
  ifop_vlan_event : option funptr;
  ifop_next : option positive;
  ifop_origin : Z
}.

Definition IFOP_ORIGIN_DRIVER : Z := 1.
Definition IFOP_ORIGIN_IFTYPE : Z := 2.
Definition IFDRV_BLESSED : Z := 0x00000001.

Record iftsomax : Type := {
  tsomax_bytes : Z;
  tsomax_segcount : Z;
  tsomax_segsize : Z
}.

(** struct iftype (net/if_var.h), as [if.c] uses it. *)
Record iftype : Type := {
  ift_type : Z;
  ift_ops : ifops;
  ift_hdrlen : Z;
  ift_addrlen : Z;
  ift_dlt : Z;
  ift_dlt_hdrlen : Z
}.

Record ifdriver : Type := {
  ifdrv_ops : ifops;
  ifdrv_tsomax : option iftsomax;
  ifdrv_name : string;
  ifdrv_clone : option if_clone;
  ifdrv_type : Z;
  ifdrv_hdrlen : Z;
  ifdrv_addrlen : Z;
  ifdrv_dlt : Z;
  ifdrv_dlt_hdrlen : Z;
  ifdrv_maxqlen : Z;
  ifdrv_flags : Z               (* __ifdrv_stack_owned *)
}.

Definition set_ifdrv_ops (x : ifops) (d : ifdriver) : ifdriver :=
  {| ifdrv_ops := x; ifdrv_tsomax := ifdrv_tsomax d;
     ifdrv_name := ifdrv_name d; ifdrv_clone := ifdrv_clone d;
     ifdrv_type := ifdrv_type d; ifdrv_hdrlen := ifdrv_hdrlen d;
     ifdrv_addrlen := ifdrv_addrlen d; ifdrv_dlt := ifdrv_dlt d;
     ifdrv_dlt_hdrlen := ifdrv_dlt_hdrlen d;
     ifdrv_maxqlen := ifdrv_maxqlen d; ifdrv_flags := ifdrv_flags d |}.
Definition set_ifdrv_tsomax (x : option iftsomax) (d : ifdriver) : ifdriver :=
  {| ifdrv_ops := ifdrv_ops d; ifdrv_tsomax := x;
     ifdrv_name := ifdrv_name d; ifdrv_clone := ifdrv_clone d;
     ifdrv_type := ifdrv_type d; ifdrv_hdrlen := ifdrv_hdrlen d;
     ifdrv_addrlen := ifdrv_addrlen d; ifdrv_dlt := ifdrv_dlt d;
     ifdrv_dlt_hdrlen := ifdrv_dlt_hdrlen d;
     ifdrv_maxqlen := ifdrv_maxqlen d; ifdrv_flags := ifdrv_flags d |}.
Definition set_ifdrv_flags (x : Z) (d : ifdriver) : ifdriver :=
  {| ifdrv_ops := ifdrv_ops d; ifdrv_tsomax := ifdrv_tsomax d;
     ifdrv_name := ifdrv_name d; ifdrv_clone := ifdrv_clone d;
     ifdrv_type := ifdrv_type d; ifdrv_hdrlen := ifdrv_hdrlen d;
     ifdrv_addrlen := ifdrv_addrlen d; ifdrv_dlt := ifdrv_dlt d;
     ifdrv_dlt_hdrlen := ifdrv_dlt_hdrlen d;
     ifdrv_maxqlen := ifdrv_maxqlen d; ifdrv_flags := x |}.

(** [iftypehead], the most recently registered type first. *)
Definition iftype_register (ift : iftype) (iftypehead : list iftype)
  : list iftype := ift :: iftypehead.

Fixpoint iftype_find (type : Z) (iftypehead : list iftype) : option iftype :=
  match iftypehead with
  | [] => None
  | ift :: rest =>
      if ift_type ift =? type then Some ift else iftype_find type rest
  end.

(** [COPYOP] and [DEFAULTOP] on one slot, [COPY] on one number. *)
Definition COPYOP (drv ift : option funptr) : option funptr :=
  match drv with None => ift | Some _ => drv end.
Definition DEFAULTOP (drv : option funptr) (default : funptr) : option funptr :=
  match drv with None => Some default | Some _ => drv end.
Definition COPY (drv ift : Z) : Z := if drv =? 0 then ift else drv.

Section WithOptions.
Context `{env : Env}.
(** Whether the kernel has [INET] or [INET6]; netinet/ip.h; and the
    TSO limits that [if.c] gives a driver without its own. *)
Variable INET_or_INET6 : bool.
Variable IP_MAXPACKET : Z.
Variable default_tsomax : iftsomax.

Definition copy_ops (d t : ifops) : ifops :=
  {| ifop_input := COPYOP (ifop_input d) (ifop_input t);
     ifop_transmit := COPYOP (ifop_transmit d) (ifop_transmit t);
     ifop_output := COPYOP (ifop_output d) (ifop_output t);
     ifop_poll := ifop_poll d;
     ifop_ioctl := COPYOP (ifop_ioctl d) (ifop_ioctl t);
     ifop_get_counter := COPYOP (ifop_get_counter d) (ifop_get_counter t);
     ifop_qflush := COPYOP (ifop_qflush d) (ifop_qflush t);
     ifop_media_change := ifop_media_change d;
     ifop_media_status := ifop_media_status d;
     ifop_resolvemulti := COPYOP (ifop_resolvemulti d) (ifop_resolvemulti t);
     ifop_reassign := COPYOP (ifop_reassign d) (ifop_reassign t);
     ifop_vlan_event := ifop_vlan_event d;
     ifop_next := ifop_next d;
     ifop_origin := ifop_origin d |}.

Definition copy_type (t : iftype) (d : ifdriver) : ifdriver :=
  {| ifdrv_ops := copy_ops (ifdrv_ops d) (ift_ops t);
     ifdrv_tsomax := ifdrv_tsomax d;
     ifdrv_name := ifdrv_name d; ifdrv_clone := ifdrv_clone d;
     ifdrv_type := ifdrv_type d;
     ifdrv_hdrlen := COPY (ifdrv_hdrlen d) (ift_hdrlen t);
     ifdrv_addrlen := COPY (ifdrv_addrlen d) (ift_addrlen t);
     ifdrv_dlt := COPY (ifdrv_dlt d) (ift_dlt t);
     ifdrv_dlt_hdrlen := COPY (ifdrv_dlt_hdrlen d) (ift_dlt_hdrlen t);
     ifdrv_maxqlen := ifdrv_maxqlen d; ifdrv_flags := ifdrv_flags d |}.

Definition set_ifop_qflush (x : option funptr) (o : ifops) : ifops :=
  {| ifop_input := ifop_input o; ifop_transmit := ifop_transmit o;
     ifop_output := ifop_output o; ifop_poll := ifop_poll o;
     ifop_ioctl := ifop_ioctl o; ifop_get_counter := ifop_get_counter o;
     ifop_qflush := x; ifop_media_change := ifop_media_change o;
     ifop_media_status := ifop_media_status o;
     ifop_resolvemulti := ifop_resolvemulti o;
     ifop_reassign := ifop_reassign o; ifop_vlan_event := ifop_vlan_event o;
     ifop_next := ifop_next o; ifop_origin := ifop_origin o |}.
Definition set_ifop_get_counter (x : option funptr) (o : ifops) : ifops :=
  {| ifop_input := ifop_input o; ifop_transmit := ifop_transmit o;
     ifop_output := ifop_output o; ifop_poll := ifop_poll o;
     ifop_ioctl := ifop_ioctl o; ifop_get_counter := x;
     ifop_qflush := ifop_qflush o; ifop_media_change := ifop_media_change o;
     ifop_media_status := ifop_media_status o;
     ifop_resolvemulti := ifop_resolvemulti o;
     ifop_reassign := ifop_reassign o; ifop_vlan_event := ifop_vlan_event o;
     ifop_next := ifop_next o; ifop_origin := ifop_origin o |}.
Definition set_ifop_origin (x : Z) (o : ifops) : ifops :=
  {| ifop_input := ifop_input o; ifop_transmit := ifop_transmit o;
     ifop_output := ifop_output o; ifop_poll := ifop_poll o;
     ifop_ioctl := ifop_ioctl o; ifop_get_counter := ifop_get_counter o;
     ifop_qflush := ifop_qflush o; ifop_media_change := ifop_media_change o;
     ifop_media_status := ifop_media_status o;
     ifop_resolvemulti := ifop_resolvemulti o;
     ifop_reassign := ifop_reassign o; ifop_vlan_event := ifop_vlan_event o;
     ifop_next := ifop_next o; ifop_origin := x |}.

(** [ifdriver_bless]; the state is the driver description that
    [ifdrv] points to. *)
Definition ifdriver_bless (ift : option iftype) : K ifdriver unit :=
  (match ift with
   | Some t => modify (copy_type t)
   | None => ret tt
   end) ;;
  ifdrv <- get ;;
  (if 0 <? ifdrv_maxqlen ifdrv then
     KASSERT INVARIANTS (bool_decide (ifop_qflush (ifdrv_ops ifdrv) = None))
             "ifdrv_maxqlen > 0 and ifop_qflush" ;;
     modify (fun d => set_ifdrv_ops
                        (set_ifop_qflush (Some if_snd_qflush) (ifdrv_ops d)) d)
   else ret tt) ;;
  modify (fun d => set_ifdrv_ops
    (set_ifop_get_counter
       (DEFAULTOP (ifop_get_counter (ifdrv_ops d)) if_get_counter_default)
       (ifdrv_ops d)) d) ;;
  (if INET_or_INET6 then
     ifdrv <- get ;;
     match ifdrv_tsomax ifdrv with
     | None => modify (set_ifdrv_tsomax (Some default_tsomax))
     | Some tsomax =>
         KASSERT INVARIANTS
           ((tsomax_bytes tsomax =? 0)
            || (IP_MAXPACKET / 8 <=? tsomax_bytes tsomax))
           "tsomax_bytes is outside of range"
     end
   else ret tt) ;;
  modify (fun d => set_ifdrv_ops
                     (set_ifop_origin IFOP_ORIGIN_DRIVER (ifdrv_ops d)) d) ;;
  modify (fun d => set_ifdrv_flags (Z.lor (ifdrv_flags d) IFDRV_BLESSED) d).

(** How [if_attach] begins: the type of the driver is looked up, and
    a driver that is not yet blessed is. *)
Definition if_attach_bless (iftypehead : list iftype) : K ifdriver unit :=
  ifdrv <- get ;;
  let ift := iftype_find (ifdrv_type ifdrv) iftypehead in
  if Z.land (ifdrv_flags ifdrv) IFDRV_BLESSED =? 0
  then ifdriver_bless ift
  else ret tt.

(** The assertions of [ifdriver_bless] hold for a driver and its
    type. *)
Definition blessable (ifdrv : ifdriver) (ift : option iftype) : Prop :=
  INVARIANTS = true ->
  (0 < ifdrv_maxqlen ifdrv ->
   ifop_qflush (ifdrv_ops ifdrv) = None /\
   forall t, ift = Some t -> ifop_qflush (ift_ops t) = None) /\
  (INET_or_INET6 = true ->
   forall tsomax, ifdrv_tsomax ifdrv = Some tsomax ->
     tsomax_bytes tsomax = 0 \/ IP_MAXPACKET / 8 <= tsomax_bytes tsomax).

End WithOptions.

End Bless.

(** * TSO limits and address preference *)

Module Tsomax.
Import Bless.

Definition set_tsomax_bytes (x : Z) (t : iftsomax) : iftsomax :=
  {| tsomax_bytes := x; tsomax_segcount := tsomax_segcount t;
     tsomax_segsize := tsomax_segsize t |}.
Definition set_tsomax_segcount (x : Z) (t : iftsomax) : iftsomax :=
  {| tsomax_bytes := tsomax_bytes t; tsomax_segcount := x;
     tsomax_segsize := tsomax_segsize t |}.
Definition set_tsomax_segsize (x : Z) (t : iftsomax) : iftsomax :=
  {| tsomax_bytes := tsomax_bytes t; tsomax_segcount := tsomax_segcount t;
     tsomax_segsize := x |}.

(** [if_tsomax_common(from, to)]: the result is what [*to] holds
    afterwards. *)
Definition if_tsomax_common (from to : iftsomax) : iftsomax :=
  let to :=
    if (tsomax_bytes to =? 0)
       || (negb (tsomax_bytes from =? 0)
           && (tsomax_bytes from <? tsomax_bytes to))
    then set_tsomax_bytes (tsomax_bytes from) to else to in
  let to :=
    if (tsomax_segcount to =? 0)
       || (negb (tsomax_segcount from =? 0)
           && (tsomax_segcount from <? tsomax_segcount to))
    then set_tsomax_segcount (tsomax_segcount from) to else to in
  let to :=
    if (tsomax_segsize to =? 0)
       || (negb (tsomax_segsize from =? 0)
           && (tsomax_segsize from <? tsomax_segsize to))
    then set_tsomax_segsize (tsomax_segsize from) to else to in
  to.

(** The interface as [if_tsomax_update] sees it: [if_tsomax] and the
    [ifdrv_tsomax] of its driver are pointers to limits. *)
Record ifnet : Type := {
  if_tsomax : positive;
  ifdrv_tsomax : option positive;
  limits : gmap positive iftsomax
}.

Definition tsomax_load : K ifnet iftsomax :=
  fun i => match limits i !! if_tsomax i with
           | Some t => Ok t i
           | None => Err BadPointer
           end.
Definition tsomax_update (f : iftsomax -> iftsomax) : K ifnet unit :=
  fun i => match limits i !! if_tsomax i with
           | Some t => Ok tt {| if_tsomax := if_tsomax i;
                                ifdrv_tsomax := ifdrv_tsomax i;
                                limits := <[if_tsomax i := f t]> (limits i) |}
           | None => Err BadPointer
           end.

Section WithOptions.
Context `{env : Env}.
Variable IP_MAXPACKET : Z.

Definition if_tsomax_update (new : iftsomax) : K ifnet Z :=
  i <- get ;;
  KASSERT INVARIANTS (bool_decide (Some (if_tsomax i) <> ifdrv_tsomax i))
          "interface has static if_tsomax" ;;
  t <- tsomax_load ;;
  retval <-
    (if negb (tsomax_bytes t =? tsomax_bytes new) then
       tsomax_update (set_tsomax_bytes (tsomax_bytes new)) ;; ret 1
     else ret 0) ;;
  t <- tsomax_load ;;
  retval <-
    (if negb (tsomax_segsize t =? tsomax_segsize new) then
       tsomax_update (set_tsomax_segsize (tsomax_segsize new)) ;;
       ret (retval + 1)
     else ret retval) ;;
  t <- tsomax_load ;;
  retval <-
    (if negb (tsomax_segcount t =? tsomax_segcount new) then
       tsomax_update (set_tsomax_segcount (tsomax_segcount new)) ;;
       ret (retval + 1)
     else ret retval) ;;
  t <- tsomax_load ;;
  KASSERT INVARIANTS
          ((tsomax_bytes t =? 0) || (IP_MAXPACKET / 8 <=? tsomax_bytes t))
          "tsomax_bytes is outside of range" ;;
  ret retval.

End WithOptions.

(** The least of two limits, where 0 stands for no limit. *)
Definition common_limit (from to : Z) : Z :=
  if (to =? 0) || (negb (from =? 0) && (from <? to)) then from else to.

(** How many of the three limits differ. *)
Definition limits_changed (old new : iftsomax) : Z :=
  (if tsomax_bytes old =? tsomax_bytes new then 0 else 1)
  + (if tsomax_segsize old =? tsomax_segsize new then 0 else 1)
  + (if tsomax_segcount old =? tsomax_segcount new then 0 else 1).

End Tsomax.

Module Ifa.

(** Of struct ifaddr, whether [ifa_carp] is set: the address is a
    virtual one.  [carp_master_p] is the hook of carp(4) that tells
    whether a virtual address is in master state. *)
Record ifaddr : Type := {
  ifa_id : positive;
  ifa_carp : bool
}.

Section WithCarp.
Variable carp_master_p : ifaddr -> bool.

(** [ifa_preferred(cur, next)]: whether [next] is better than [cur]. *)
Definition ifa_preferred (cur next : ifaddr) : bool :=
  ifa_carp cur
  && (negb (ifa_carp next)
      || (carp_master_p next && negb (carp_master_p cur))).

End WithCarp.

End Ifa.

(** * Software contexts of an interface *)

Module Softc.

(** [ift_feature] (net/if.h). *)
Definition IF_NO_SOFTC : Z := 0.
Definition IF_DRIVER_SOFTC : Z := 1.
Definition IF_LLADDR : Z := 2.
Definition IF_BPF : Z := 3.
Definition IF_NAME : Z := 4.
Definition IF_AF_INET : Z := 100.
Definition IF_AF_INET6 : Z := 101.
Definition IF_CARP : Z := 102.
Definition IF_VLAN : Z := 103.
Definition IF_TOEDEV : Z := 104.
Definition IF_MEDIA : Z := 105.
Definition IF_CXGBE_PORT : Z := 10000.

Definition u_int (z : Z) : Z := z `mod` 2 ^ 32.

(** struct ifsoftc, by the two fields that the code uses: the feature
    an entry is for (0 when it is free) and the context, a [void *]
    that is 0 for NULL. *)
Record ifsoftc : Type := { ifsc_desc : Z; ifsc_ptr : Z }.

(** A pointer to an entry of a store: the store, and the index of the
    entry in it. *)
Abbreviation ifsoftc_ptr := (positive * nat)%type (only parsing).

(** The fields of struct ifnet that [if_getsoftc] and [if_setsoftc]
    use.  [if_lladdr] is what [LLADDR] gives for [if_addr], which is
    NULL on an interface without link-level address. *)
Record ifnet : Type := {
  if_softc : Z;
  if_lladdr : option Z;
  if_bpf : Z;
  if_xname : Z;
  if_vlantrunk : Z;
  if_sccache : list (option ifsoftc_ptr);
  if_scstore : positive;
  if_nsoftcs : Z
}.

(** The interface, the stores that are allocated, and the next unused
    address. *)
Record state : Type := {
  ifp : ifnet;
  stores : gmap positive (list ifsoftc);
  brk : positive
}.

Definition set_if_sccache (x : list (option ifsoftc_ptr)) (s : state) : state :=
  {| ifp := {| if_softc := if_softc (ifp s); if_lladdr := if_lladdr (ifp s);
               if_bpf := if_bpf (ifp s); if_xname := if_xname (ifp s);
               if_vlantrunk := if_vlantrunk (ifp s); if_sccache := x;
               if_scstore := if_scstore (ifp s);
               if_nsoftcs := if_nsoftcs (ifp s) |};
     stores := stores s; brk := brk s |}.

Definition set_if_scstore (x : positive) (n : Z) (s : state) : state :=
  {| ifp := {| if_softc := if_softc (ifp s); if_lladdr := if_lladdr (ifp s);
               if_bpf := if_bpf (ifp s); if_xname := if_xname (ifp s);
               if_vlantrunk := if_vlantrunk (ifp s);
               if_sccache := if_sccache (ifp s);
               if_scstore := x; if_nsoftcs := n |};
     stores := stores s; brk := brk s |}.

Definition set_stores (x : gmap positive (list ifsoftc)) (b : positive)
    (s : state) : state :=
  {| ifp := ifp s; stores := x; brk := b |}.

(** [*sc] for a pointer to an entry. *)
Definition ifsoftc_load (sc : ifsoftc_ptr) : K state ifsoftc :=
  fun s => match stores s !! sc.1 with
           | Some store => match store !! sc.2 with
                           | Some e => Ok e s
                           | None => Err BadPointer
                           end
           | None => Err BadPointer
           end.

(** [ifp->if_scstore[i] = e] *)
Definition scstore_write (i : nat) (e : ifsoftc) : K state unit :=
  fun s => match stores s !! if_scstore (ifp s) with
           | Some store =>
               if decide (i < length store)%nat
               then Ok tt (set_stores (<[if_scstore (ifp s) := <[i := e]> store]>
                                         (stores s)) (brk s) s)
               else Err BadPointer
           | None => Err BadPointer
           end.

(** The loop [for (i = 0; i < ifp->if_nsoftcs; i++)] that stops at the
    first entry of the store for [f]: the index it stops at, nothing
    when it runs to [if_nsoftcs]; a read past the end of the store
    faults. *)
Fixpoint scstore_find (store : list ifsoftc) (f : Z) (i : nat) (count : nat)
  : option (option nat) :=
  match count with
  | O => Some None
  | S c =>
      match store !! i with
      | None => None
      | Some e => if ifsc_desc e =? f then Some (Some i)
                  else scstore_find store f (S i) c
      end
  end.

Definition scstore_scan (f : Z) : K state (option nat) :=
  fun s => match stores s !! if_scstore (ifp s) with
           | Some store =>
               match scstore_find store f 0 (Z.to_nat (if_nsoftcs (ifp s))) with
               | Some r => Ok r s
               | None => Err BadPointer
               end
           | None => Err BadPointer
           end.

Section WithCache.

(** The number of entries of [if_sccache] (net/if_var.h). *)
Variable SOFTC_CACHE_SIZE : Z.

(** [ifp->if_sccache[f & (SOFTC_CACHE_SIZE - 1)]] *)
Definition sccache_slot (f : Z) : nat := Z.to_nat (Z.land f (SOFTC_CACHE_SIZE - 1)).

Definition sccache_read (f : Z) : K state (option ifsoftc_ptr) :=
  fun s => match if_sccache (ifp s) !! sccache_slot f with
           | Some sc => Ok sc s
           | None => Err BadPointer
           end.

Definition sccache_write (f : Z) (sc : option ifsoftc_ptr) : K state unit :=
  fun s => if decide (sccache_slot f < length (if_sccache (ifp s)))%nat
           then Ok tt (set_if_sccache (<[sccache_slot f := sc]> (if_sccache (ifp s))) s)
           else Err BadPointer.

(** [if_getsoftc] *)
Definition if_getsoftc (f : Z) : K state Z :=
  s <- get ;;
  (* Some softcs are non-optional. *)
  if f =? IF_DRIVER_SOFTC then ret (if_softc (ifp s))
  else if f =? IF_LLADDR then
    match if_lladdr (ifp s) with
    | Some lla => ret lla
    | None => raise BadPointer
    end
  else if f =? IF_BPF then ret (if_bpf (ifp s))
  else if f =? IF_NAME then ret (if_xname (ifp s))
  else if f =? IF_VLAN then ret (if_vlantrunk (ifp s))
  else
    (* Rest of softc live in the store and in the cache.
       First check the cache. *)
    sc <- sccache_read f ;;
    hit <- match sc with
           | Some sc =>
               e <- ifsoftc_load sc ;;
               if ifsc_desc e =? f then ret (Some (ifsc_ptr e)) else ret None
           | None => ret None
           end ;;
    match hit with
    | Some softc => ret softc
    | None =>
        (* Then check the store. *)
        found <- scstore_scan f ;;
        match found with
        | Some i =>
            s <- get ;;
            sccache_write f (Some (if_scstore (ifp s), i)) ;;
            e <- ifsoftc_load (if_scstore (ifp s), i) ;;
            ret (ifsc_ptr e)
        | None => ret 0
        end
    end.

(** [if_setsoftc].  The test [ifp->if_scstore != old] guards against
    another thread growing the store while the lock is dropped around
    [malloc]; with one thread it is never true. *)
Definition if_setsoftc (f : Z) (softc : Z) : K state Z :=
  taken <- scstore_scan f ;;
  match taken with
  | Some _ => ret EEXIST
  | None =>
      free <- scstore_scan 0 ;;
      s <- get ;;
      let size := if_nsoftcs (ifp s) in
      i <- match free with
           | Some i => ret i
           | None =>
               fun s =>
                 match stores s !! if_scstore (ifp s) with
                 | Some old =>
                     if decide (Z.to_nat size <= length old)%nat then
                       let new := take (Z.to_nat size) old
                                  ++ replicate (Z.to_nat (size * 2) - Z.to_nat size)
                                       {| ifsc_desc := 0; ifsc_ptr := 0 |} in
                       Ok (Z.to_nat size)
                          (set_if_scstore (brk s) (u_int (size * 2))
                             (set_stores
                                (delete (if_scstore (ifp s))
                                   (<[brk s := new]> (stores s)))
                                (Pos.succ (brk s)) s))
                     else Err BadPointer
                 | None => Err BadPointer
                 end
           end ;;
      s <- get ;;
      (if negb (softc =? 0) then
         scstore_write i {| ifsc_desc := f; ifsc_ptr := softc |} ;;
         sccache_write f (Some (if_scstore (ifp s), i))
       else
         scstore_write i {| ifsc_desc := 0; ifsc_ptr := 0 |} ;;
         sccache_write f None) ;;
      ret 0
  end.

(** The store and the cache as [if_attach] and [if_setsoftc] leave
    them: the store is allocated with [if_nsoftcs] entries, at least
    one, and the cache has [SOFTC_CACHE_SIZE] entries. *)
Record softc_ok (s : state) : Prop := {
  so_store : exists store, stores s !! if_scstore (ifp s) = Some store /\
                           Z.of_nat (length store) = if_nsoftcs (ifp s);
  so_count : 0 < if_nsoftcs (ifp s);
  so_cache : Z.of_nat (length (if_sccache (ifp s))) = SOFTC_CACHE_SIZE;
  so_size : 0 < SOFTC_CACHE_SIZE;
  so_fresh : forall a, is_Some (stores s !! a) -> (a < brk s)%positive
}.

(** A feature whose context lives in the store. *)
Definition stored_feature (f : Z) : Prop :=
  0 <= f /\ f <> IF_DRIVER_SOFTC /\ f <> IF_LLADDR /\ f <> IF_BPF /\
  f <> IF_NAME /\ f <> IF_VLAN.

(** No entry of the store is for [f]. *)
Definition not_stored (f : Z) (s : state) : Prop :=
  forall store e, stores s !! if_scstore (ifp s) = Some store ->
                  e ∈ store -> ifsc_desc e <> f.

End WithCache.

End Softc.

(** * Capability requests *)

Module Caps.

(** Capabilities (net/if.h) that the request handling names. *)
Definition IFCAP_TXCSUM : Z := 0x00002.
Definition IFCAP_VLAN_HWTAGGING : Z := 0x00010.
Definition IFCAP_POLLING : Z := 0x00040.
Definition IFCAP_TSO4 : Z := 0x00100.
Definition IFCAP_TSO6 : Z := 0x00200.
Definition IFCAP_VLAN_HWTSO : Z := 0x40000.
Definition IFCAP_TXCSUM_IPV6 : Z := 0x400000.

Inductive priv : Type := PRIV_NET_SETIFCAP.

(** The [ifru_cap] member of struct ifreq: two [uint32_t] and a
    [uint64_t]. *)
Record ifreq : Type := {
  ifr_reqcap : Z;
  ifr_curcap : Z;
  ifr_hwassist : Z
}.

Definition set_ifr_reqcap (x : Z) (r : ifreq) : ifreq :=
  {| ifr_reqcap := x; ifr_curcap := ifr_curcap r; ifr_hwassist := ifr_hwassist r |}.
Definition set_ifr_curcap (x : Z) (r : ifreq) : ifreq :=
  {| ifr_reqcap := ifr_reqcap r; ifr_curcap := x; ifr_hwassist := ifr_hwassist r |}.

(** The fields of struct ifnet that the SIOCSIFCAP case uses;
    [if_vlantrunk] is a pointer that is 0 for NULL. *)
Record ifnet : Type := {
  if_capabilities : Z;
  if_capenable : Z;
  if_hwassist : Z;
  if_vlantrunk : Z
}.

(** What the case does besides: the time of the last change is
    taken, the polling and the vlan code are called. *)
Inductive event : Type :=
  | getmicrotime_lastchange
  | if_poll_register
  | if_poll_deregister
  | vlan_trunk_cap.

Record state : Type := { ifp : ifnet; told : list event }.

Definition emit (e : event) : K state unit :=
  modify (fun s => {| ifp := ifp s; told := told s ++ [e] |}).

(** The first part of the case: what the request asks for once the
    dependencies between TSO, VLAN tagging and checksum offloading
    have been applied to it.  The statements are those of the source,
    in their order. *)
Definition requested (reqcap : Z) : Z :=
  let reqcap := if negb (Z.land reqcap IFCAP_VLAN_HWTSO =? 0)
                then Z.lor reqcap IFCAP_VLAN_HWTAGGING else reqcap in
  let reqcap := if Z.land reqcap IFCAP_VLAN_HWTAGGING =? 0
                then Z.land reqcap (Z.lnot IFCAP_VLAN_HWTSO) else reqcap in
  let reqcap := if negb (Z.land reqcap IFCAP_TSO4 =? 0)
                then Z.lor reqcap IFCAP_TXCSUM else reqcap in
  let reqcap := if Z.land reqcap IFCAP_TXCSUM =? 0
                then Z.land reqcap (Z.lnot IFCAP_TSO4) else reqcap in
  let reqcap := if negb (Z.land reqcap IFCAP_TSO6 =? 0)
                then Z.lor reqcap IFCAP_TXCSUM_IPV6 else reqcap in
  let reqcap := if Z.land reqcap IFCAP_TXCSUM_IPV6 =? 0
                then Z.land reqcap (Z.lnot IFCAP_TSO6) else reqcap in
  reqcap.

Section WithDriver.

Variable priv_check : thread -> priv -> Z.

(** Whether the kernel is built with [DEVICE_POLLING]. *)
Variable DEVICE_POLLING : bool.

(** The driver's handler of [SIOCSIFCAP]: its error number, the
    request as it leaves it (it may adjust [ifr_reqcap], and fills in
    [ifr_hwassist]) and what it did to the interface. *)
Variable if_ioctl_SIOCSIFCAP : ifreq -> ifnet -> Z * ifreq * ifnet.

(** The SIOCSIFCAP case of [if_drvioctl]: the error number and the
    request as it is handed back. *)
Definition if_drvioctl_SIOCSIFCAP (ifr : ifreq) (td : thread)
  : K state (Z * ifreq) :=
  let error := priv_check td PRIV_NET_SETIFCAP in
  if negb (error =? 0) then ret (error, ifr) else
  let ifr := set_ifr_reqcap (requested (ifr_reqcap ifr)) ifr in
  s <- get ;;
  (* Now check that requested capabilities match what interface can
     actually do, and whether there is any change in the capenable. *)
  if negb (Z.land (ifr_reqcap ifr) (Z.lnot (if_capabilities (ifp s))) =? 0)
  then ret (EINVAL, ifr) else
  if ifr_reqcap ifr =? if_capenable (ifp s) then ret (0, ifr) else
  let ifr := set_ifr_curcap (if_capenable (ifp s)) ifr in
  (* See if driver accepts ifr_reqcap. *)
  let '(error, ifr, i) := if_ioctl_SIOCSIFCAP ifr (ifp s) in
  modify (fun s => {| ifp := i; told := told s |}) ;;
  if negb (error =? 0) then ret (error, ifr) else
  (if DEVICE_POLLING
      && negb (Z.land (Z.lxor (ifr_reqcap ifr) (ifr_curcap ifr)) IFCAP_POLLING =? 0)
   then (if negb (Z.land (ifr_reqcap ifr) IFCAP_POLLING =? 0)
         then emit if_poll_register else emit if_poll_deregister)
   else ret tt) ;;
  modify (fun s =>
    {| ifp := {| if_capabilities := if_capabilities (ifp s);
                 if_capenable := ifr_reqcap ifr;
                 if_hwassist := ifr_hwassist ifr;
                 if_vlantrunk := if_vlantrunk (ifp s) |};
       told := told s |}) ;;
  emit getmicrotime_lastchange ;;
  s <- get ;;
  (if negb (if_vlantrunk (ifp s) =? 0) then emit vlan_trunk_cap else ret tt) ;;
  ret (error, ifr).

End WithDriver.

(** The two kinds of statement of the first part of the case:
    [if ((x & A) != 0) x |= B;] and [if ((x & B) == 0) x &= ~A;]. *)
Definition set_if (A B x : Z) : Z :=
  if negb (Z.land x A =? 0) then Z.lor x B else x.
Definition clr_if (B A x : Z) : Z :=
  if Z.land x B =? 0 then Z.land x (Z.lnot A) else x.

(** The capabilities [a] are among the capabilities [b]. *)
Definition among (a b : Z) : Prop := Z.land a (Z.lnot b) = 0.

End Caps.

(** * Flag requests *)

Module Flags.

Definition IFF_BROADCAST : Z := 0x2.
Definition IFF_POINTOPOINT : Z := 0x10.
Definition IFF_OACTIVE : Z := 0x400.
Definition IFF_SIMPLEX : Z := 0x800.
Definition IFF_MULTICAST : Z := 0x8000.
Definition IFF_CANTCONFIG : Z := 0x10000.

(** flags set internally only *)
Definition IFF_CANTCHANGE : Z :=
  Z.lor IFF_BROADCAST (Z.lor IFF_POINTOPOINT (Z.lor IFF_RUNNING (Z.lor IFF_OACTIVE
    (Z.lor IFF_SIMPLEX (Z.lor IFF_MULTICAST (Z.lor IFF_ALLMULTI (Z.lor IFF_PROMISC
      (Z.lor IFF_DYING IFF_CANTCONFIG)))))))).

(** [short], [int] and [uint32_t], with the wrap-around of the
    kernel's build. *)
Definition short (z : Z) : Z := (z + 2 ^ 15) `mod` 2 ^ 16 - 2 ^ 15.
Definition int (z : Z) : Z := (z + 2 ^ 31) `mod` 2 ^ 32 - 2 ^ 31.
Definition uint32_t (z : Z) : Z := z `mod` 2 ^ 32.

Inductive priv : Type := PRIV_NET_SETIFFLAGS.

(** The [ifru_flags] member of struct ifreq: two [short]. *)
Record ifreq : Type := { ifr_flags : Z; ifr_flagshigh : Z }.

(** The fields of struct ifnet that the flag requests use; [if_carp]
    is what [if_getsoftc(ifp, IF_CARP)] returns, 0 for NULL, and
    [if_addrhead] lists the addresses of the interface. *)
Record ifnet : Type := {
  if_xname : string;
  if_flags : Z;
  if_pcount : Z;
  if_carp : Z;
  if_addrhead : list Z
}.

Definition set_if_flags (x : Z) (i : ifnet) : ifnet :=
  {| if_xname := if_xname i; if_flags := x; if_pcount := if_pcount i;
     if_carp := if_carp i; if_addrhead := if_addrhead i |}.

Inductive prc : Type := PRC_IFDOWN | PRC_IFUP.

(** What the flag requests do besides, in the order they do it. *)
Inductive event : Type :=
  | getmicrotime_lastchange
  | pfctlinput (cmd : prc) (ifa : Z)
  | if_qflush
  | carp_linkstate
  | rt_ifmsg
  | in6_if_up
  | log_ppromisc (xname : string) (enabled : bool).

Record state : Type := { ifp : ifnet; told : list event }.

Definition emit (e : event) : K state unit :=
  modify (fun s => {| ifp := ifp s; told := told s ++ [e] |}).
Definition update (f : ifnet -> ifnet) : K state unit :=
  modify (fun s => {| ifp := f (ifp s); told := told s |}).

Fixpoint pfctlinput_all (cmd : prc) (l : list Z) : K state unit :=
  match l with
  | [] => ret tt
  | ifa :: rest => emit (pfctlinput cmd ifa) ;; pfctlinput_all cmd rest
  end.

(** The SIOCGIFFLAGS case of [if_drvioctl]: what it stores in the
    request. *)
Definition if_drvioctl_SIOCGIFFLAGS (i : ifnet) : ifreq :=
  let lo := short (Z.land (if_flags i) 0xffff) in
  let hi := short (Z.shiftr (if_flags i) 16) in
  (* Some software may care about IFF_RUNNING, so make it happy. *)
  let lo := if negb (Z.land (if_flags i) IFF_UP =? 0)
            then short (Z.lor lo IFF_RUNNING) else lo in
  {| ifr_flags := lo; ifr_flagshigh := hi |}.

(** [(ifr->ifr_flags & 0xffff) | (ifr->ifr_flagshigh << 16)] as a
    [uint32_t]. *)
Definition both_halves (ifr : ifreq) : Z :=
  uint32_t (Z.lor (Z.land (ifr_flags ifr) 0xffff)
                  (Z.shiftl (ifr_flagshigh ifr) 16)).

Section WithDriver.

Variable priv_check : thread -> priv -> Z.

(** Whether the kernel is built with [INET6]. *)
Variable INET6 : bool.

(** The driver's handler of [SIOCSIFFLAGS]: its error number, the
    request as it leaves it and what it did to the interface. *)
Variable if_ioctl_SIOCSIFFLAGS : ifreq -> ifnet -> Z * ifreq * ifnet.

(** [if_down] and [if_up] *)
Definition if_down : K state unit :=
  update (fun i => set_if_flags (Z.land (if_flags i) (Z.lnot IFF_UP)) i) ;;
  emit getmicrotime_lastchange ;;
  s <- get ;;
  pfctlinput_all PRC_IFDOWN (if_addrhead (ifp s)) ;;
  emit if_qflush ;;
  (if negb (if_carp (ifp s) =? 0) then emit carp_linkstate else ret tt) ;;
  emit rt_ifmsg.

Definition if_up : K state unit :=
  update (fun i => set_if_flags (Z.lor (if_flags i) IFF_UP) i) ;;
  emit getmicrotime_lastchange ;;
  s <- get ;;
  pfctlinput_all PRC_IFUP (if_addrhead (ifp s)) ;;
  (if negb (if_carp (ifp s) =? 0) then emit carp_linkstate else ret tt) ;;
  emit rt_ifmsg ;;
  (if INET6 then emit in6_if_up else ret tt).

(** The SIOCSIFFLAGS case of [if_drvioctl]: the error number and the
    request as it is handed back.  The interface flags are an [int];
    the bits that are compared lie below its sign. *)
Definition if_drvioctl_SIOCSIFFLAGS (ifr : ifreq) (td : thread)
  : K state (Z * ifreq) :=
  let error := priv_check td PRIV_NET_SETIFFLAGS in
  if negb (error =? 0) then ret (error, ifr) else
  (* Clear IFF_RUNNING that is no longer used in kernel. *)
  let ifr := {| ifr_flags := short (Z.land (ifr_flags ifr) (Z.lnot IFF_RUNNING));
                ifr_flagshigh := ifr_flagshigh ifr |} in
  let flags := both_halves ifr in
  s <- get ;;
  if negb (Z.land flags IFF_CANTCHANGE =? Z.land (if_flags (ifp s)) IFF_CANTCHANGE)
  then ret (EINVAL, ifr) else
  (* Pass new flags down to driver and see if it accepts them. *)
  let '(error, ifr, i) := if_ioctl_SIOCSIFFLAGS ifr (ifp s) in
  update (fun _ => i) ;;
  if negb (error =? 0) then ret (error, ifr) else
  let flags := both_halves ifr in
  s <- get ;;
  let oflags := uint32_t (if_flags (ifp s)) in
  update (set_if_flags (int flags)) ;;
  emit getmicrotime_lastchange ;;
  (* Manage IFF_UP flip. *)
  (if negb (Z.land oflags IFF_UP =? 0) && (Z.land flags IFF_UP =? 0) then if_down
   else if negb (Z.land flags IFF_UP =? 0) && (Z.land oflags IFF_UP =? 0) then if_up
   else ret tt) ;;
  (* See if permanently promiscuous mode bit is about to flip. *)
  (if negb (Z.land (Z.lxor oflags flags) IFF_PPROMISC =? 0) then
     s <- get ;;
     (if negb (Z.land flags IFF_PPROMISC =? 0) then
        update (fun i => set_if_flags (Z.lor (if_flags i) IFF_PROMISC) i)
      else if if_pcount (ifp s) =? 0 then
        update (fun i => set_if_flags (Z.land (if_flags i) (Z.lnot IFF_PROMISC)) i)
      else ret tt) ;;
     emit (log_ppromisc (if_xname (ifp s))
             (negb (Z.land flags IFF_PPROMISC =? 0)))
   else ret tt) ;;
  ret (error, ifr).

End WithDriver.

(** The flags are those of an interface in the kernel: a non-negative
    [int], without [IFF_RUNNING], which the kernel no longer uses. *)
Definition kernel_flags (f : Z) : Prop :=
  0 <= f < 2 ^ 31 /\ Z.land f IFF_RUNNING = 0.

End Flags.

(** * Concrete inputs

    A 64-bit platform with checked assertions, a privileged thread 0,
    and a user-space request that asks for the name "a0". *)

#[global] Instance amd64 : Env := {|
  INVARIANTS := true;
  offsetof_sdl_data := 8;
  sizeof_sockaddr_dl := 54;
  sizeof_long := 8;
  AF_LINK := 18;
  ifc_alloc_unit := fun _ unit => (0, unit);
  priv_check := fun td _ => if td =? 0 then 0 else EPERM;
  copyinstr := fun _ len =>
    if strlen "a0" <? len then (0, "a0"%string) else (ENAMETOOLONG, EmptyString)
|}.

Module Examples.
Import Registry.

Definition em_driver : ifdriver :=
  {| ifdrv_name := "em"; ifdrv_type := 6; ifdrv_addrlen := 6;
     ifdrv_clone := None |}.

(** Attach arguments for an interface that asks for the name [name]. *)
Definition named (name : string) : if_attach_args :=
  {| ifat_error := 0; ifat_drv := em_driver; ifat_lla := None;
     ifat_dunit := IFAT_DUNIT_NONE; ifat_name := Some name; ifat_flags := 0 |}.

(** A vnet whose only table entry is a reservation. *)
Definition held_vnet : vnet :=
  {| V_if_index := 1; V_if_indexlim := 2;
     V_ifindex_table := [SlotNull; IFNET_HOLD];
     V_ifnet := []; V_ifg_head := []; ifnets := ∅; ifgroups := ∅;
     brk := 1%positive; nowait := [] |}.

(** An interface object as [if_attach] first writes it. *)
Definition blank_ifnet (flags : Z) : ifnet :=
  {| if_xname := "em0"; if_dunit := 0; if_index := 0; if_flags := flags;
     if_refcount := 1; if_drv := em_driver; if_addr := None; if_groups := [] |}.

(** A vnet in which entry 1 still points to an interface that is
    dying and off the list. *)
Definition dying_vnet : vnet :=
  {| V_if_index := 1; V_if_indexlim := 2;
     V_ifindex_table := [SlotNull; SlotIfp 1%positive];
     V_ifnet := []; V_ifg_head := [];
     ifnets := {[ 1%positive := set_if_index 1 (blank_ifnet IFF_DYING) ]};
     ifgroups := ∅; brk := 2%positive; nowait := [] |}.

(** A fresh vnet with one interface object that has no index yet. *)
Definition one_object_vnet : vnet :=
  {| V_if_index := 0; V_if_indexlim := 2;
     V_ifindex_table := [SlotNull; SlotNull];
     V_ifnet := []; V_ifg_head := [];
     ifnets := {[ 1%positive := blank_ifnet 0 ]};
     ifgroups := ∅; brk := 2%positive; nowait := [] |}.

(** An interface that is up and that nobody listens on, and a driver
    that refuses to change flags. *)
Definition quiet_ifnet : SetFlag.ifnet :=
  {| SetFlag.if_xname := "em0"; SetFlag.if_flags := IFF_UP;
     SetFlag.if_pcount := 0; SetFlag.if_amcount := 0; SetFlag.if_softc := 0 |}.
Definition quiet : SetFlag.state :=
  {| SetFlag.ifp := quiet_ifnet; SetFlag.told := [] |}.
Definition refusing_driver (ifr : SetFlag.ifreq) (i : SetFlag.ifnet)
  : Z * SetFlag.ifnet := (EOPNOTSUPP, i).

(** An Ethernet driver that brings its input and transmit routines
    only, and the Ethernet type with its ioctl and output routines. *)
Definition no_ops : Bless.ifops :=
  {| Bless.ifop_input := None; Bless.ifop_transmit := None;
     Bless.ifop_output := None; Bless.ifop_poll := None;
     Bless.ifop_ioctl := None; Bless.ifop_get_counter := None;
     Bless.ifop_qflush := None; Bless.ifop_media_change := None;
     Bless.ifop_media_status := None; Bless.ifop_resolvemulti := None;
     Bless.ifop_reassign := None; Bless.ifop_vlan_event := None;
     Bless.ifop_next := None; Bless.ifop_origin := 0 |}.
Definition bare_driver : Bless.ifdriver :=
  {| Bless.ifdrv_ops :=
       {| Bless.ifop_input := Some (Bless.extern 1);
          Bless.ifop_transmit := Some (Bless.extern 2);
          Bless.ifop_output := None; Bless.ifop_poll := None;
          Bless.ifop_ioctl := None; Bless.ifop_get_counter := None;
          Bless.ifop_qflush := None; Bless.ifop_media_change := None;
          Bless.ifop_media_status := None; Bless.ifop_resolvemulti := None;
          Bless.ifop_reassign := None; Bless.ifop_vlan_event := None;
          Bless.ifop_next := None; Bless.ifop_origin := 0 |};
     Bless.ifdrv_tsomax := None; Bless.ifdrv_name := "em";
     Bless.ifdrv_clone := None; Bless.ifdrv_type := 6;
     Bless.ifdrv_hdrlen := 0; Bless.ifdrv_addrlen := 0;
     Bless.ifdrv_dlt := 0; Bless.ifdrv_dlt_hdrlen := 0;
     Bless.ifdrv_maxqlen := 50; Bless.ifdrv_flags := 0 |}.
Definition ether_type : Bless.iftype :=
  {| Bless.ift_type := 6;
     Bless.ift_ops :=
       {| Bless.ifop_input := None; Bless.ifop_transmit := None;
          Bless.ifop_output := Some (Bless.extern 3); Bless.ifop_poll := None;
          Bless.ifop_ioctl := Some (Bless.extern 4);
          Bless.ifop_get_counter := None;
          Bless.ifop_qflush := None; Bless.ifop_media_change := None;
          Bless.ifop_media_status := None;
          Bless.ifop_resolvemulti := Some (Bless.extern 5);
          Bless.ifop_reassign := None; Bless.ifop_vlan_event := None;
          Bless.ifop_next := None; Bless.ifop_origin := Bless.IFOP_ORIGIN_IFTYPE |};
     Bless.ift_hdrlen := 14; Bless.ift_addrlen := 6;
     Bless.ift_dlt := 1; Bless.ift_dlt_hdrlen := 14 |}.
Definition loop_type : Bless.iftype :=
  {| Bless.ift_type := 24; Bless.ift_ops := no_ops;
     Bless.ift_hdrlen := 0; Bless.ift_addrlen := 0;
     Bless.ift_dlt := 0; Bless.ift_dlt_hdrlen := 4 |}.
Definition tsomax_64k : Bless.iftsomax :=
  {| Bless.tsomax_bytes := 65518; Bless.tsomax_segcount := 35;
     Bless.tsomax_segsize := 2048 |}.

(** An Ethernet interface whose link is up, with no deferred work
    pending and nothing delivered yet. *)
Definition link_up : LinkState.state :=
  {| LinkState.ifp :=
       {| LinkState.if_xname := "em0"; LinkState.if_type := 6;
          LinkState.if_link_state := LINK_STATE_UP;
          LinkState.ta_pending := 0;
          LinkState.if_vlantrunk := false; LinkState.if_l2com := false;
          LinkState.if_softc_carp := false; LinkState.if_bridge := false;
          LinkState.if_lagg := false |};
     LinkState.log_link_state_change := 1;
     LinkState.delivered := [] |}.

(** The same interface with the link down. *)
Definition link_down : LinkState.state :=
  LinkState.set_ifp
    (LinkState.set_if_link_state LINK_STATE_DOWN (LinkState.ifp link_up))
    link_up.

(** Socket addresses as a family and the bytes of the address; the
    resolver of Ethernet maps the IPv4 group a.b.c.d to the link-level
    address 01:00:5e:b:c:d. *)
Record sockaddr : Type := { sa_family : Z; sa_data : list Byte.byte }.
#[global] Instance sockaddr_eq_dec : EqDecision sockaddr.
Proof. solve_decision. Defined.
Definition sdl_len (sa : sockaddr) : Z := 54.
Definition sdl_alen (sa : sockaddr) : Z := Z.of_nat (length (sa_data sa)).
Definition LLADDR (sa : sockaddr) : list Byte.byte := sa_data sa.
Definition sa_equal (a b : sockaddr) : bool := bool_decide (a = b).
Definition ether_resolvemulti (ifp : positive) (sa : sockaddr)
  : Z * option sockaddr :=
  if sa_family sa =? 2 then
    match sa_data sa with
    | [_; b; c; d] =>
        (0, Some {| sa_family := 18;
                    sa_data := [Byte.x01; Byte.x00; Byte.x5e; b; c; d] |})
    | _ => (EINVAL, None)
    end
  else (EOPNOTSUPP, None).
Definition all_hosts : sockaddr :=
  {| sa_family := 2; sa_data := [Byte.xe0; Byte.x00; Byte.x00; Byte.x01] |}.

(** One interface, at address 1, without memberships. *)
Definition no_memberships : Multicast.state (sockaddr := sockaddr) :=
  {| Multicast.V_ifnet := [1%positive];
     Multicast.if_multiaddrs := {[ 1%positive := [] ]};
     Multicast.ifmas := ∅;
     Multicast.brk := 2%positive; Multicast.nowait := [];
     Multicast.events := [] |}.

End Examples.

(** Further concrete inputs. *)
Module MoreExamples.

(** An interface with TSO limits of its own, at address 2; the limits
    of its driver are at address 1. *)
Definition tso_ifnet : Tsomax.ifnet :=
  {| Tsomax.if_tsomax := 2%positive;
     Tsomax.ifdrv_tsomax := Some 1%positive;
     Tsomax.limits := {[ 1%positive := Examples.tsomax_64k;
                         2%positive := Examples.tsomax_64k ]} |}.
Definition tsomax_32k : Bless.iftsomax :=
  {| Bless.tsomax_bytes := 32768; Bless.tsomax_segcount := 35;
     Bless.tsomax_segsize := 4096 |}.

(** A driver that asks for the generic send queue and also brings a
    queue flush operation of its own; no type is registered for it. *)
Definition flushing_driver : Bless.ifdriver :=
  {| Bless.ifdrv_ops :=
       {| Bless.ifop_input := Some (Bless.extern 1);
          Bless.ifop_transmit := Some (Bless.extern 2);
          Bless.ifop_output := None; Bless.ifop_poll := None;
          Bless.ifop_ioctl := None; Bless.ifop_get_counter := None;
          Bless.ifop_qflush := Some (Bless.extern 8);
          Bless.ifop_media_change := None;
          Bless.ifop_media_status := None; Bless.ifop_resolvemulti := None;
          Bless.ifop_reassign := None; Bless.ifop_vlan_event := None;
          Bless.ifop_next := None; Bless.ifop_origin := 0 |};
     Bless.ifdrv_tsomax := None; Bless.ifdrv_name := "tun";
     Bless.ifdrv_clone := None; Bless.ifdrv_type := 23;
     Bless.ifdrv_hdrlen := 0; Bless.ifdrv_addrlen := 0;
     Bless.ifdrv_dlt := 0; Bless.ifdrv_dlt_hdrlen := 0;
     Bless.ifdrv_maxqlen := 50; Bless.ifdrv_flags := 0 |}.
(** An interface type that brings a queue flush routine. *)
Definition flushing_type : Bless.iftype :=
  {| Bless.ift_type := 6;
     Bless.ift_ops :=
       {| Bless.ifop_input := None; Bless.ifop_transmit := None;
          Bless.ifop_output := None; Bless.ifop_poll := None;
          Bless.ifop_ioctl := None; Bless.ifop_get_counter := None;
          Bless.ifop_qflush := Some (Bless.extern 9);
          Bless.ifop_media_change := None;
          Bless.ifop_media_status := None;
          Bless.ifop_resolvemulti := None;
          Bless.ifop_reassign := None; Bless.ifop_vlan_event := None;
          Bless.ifop_next := None;
          Bless.ifop_origin := Bless.IFOP_ORIGIN_IFTYPE |};
     Bless.ift_hdrlen := 14; Bless.ift_addrlen := 6;
     Bless.ift_dlt := 1; Bless.ift_dlt_hdrlen := 14 |}.

(** An interface in promiscuous mode for one listener, and a driver
    that accepts every change of flags. *)
Definition listening : SetFlag.state :=
  {| SetFlag.ifp :=
       {| SetFlag.if_xname := "em0";
          SetFlag.if_flags := Z.lor IFF_UP IFF_PROMISC;
          SetFlag.if_pcount := 1; SetFlag.if_amcount := 0;
          SetFlag.if_softc := 0 |};
     SetFlag.told := [] |}.
Definition obedient_driver (ifr : SetFlag.ifreq) (i : SetFlag.ifnet)
  : Z * SetFlag.ifnet := (0, i).

(** Two interfaces are attached, "a0" and then "b0". *)
Definition two_attached : list Registry.op :=
  [Registry.Attach (Examples.named "a0"); Registry.Attach (Examples.named "b0")].

(** A platform whose unit allocator has run out, and the attach
    arguments of a cloned interface. *)
Definition no_units : Env :=
  {| INVARIANTS := true; offsetof_sdl_data := 8; sizeof_sockaddr_dl := 54;
     sizeof_long := 8; AF_LINK := 18;
     ifc_alloc_unit := fun _ unit => (ENOMEM, unit);
     priv_check := fun td _ => if td =? 0 then 0 else EPERM;
     copyinstr := fun _ len => (ENAMETOOLONG, EmptyString) |}.
Definition cloned : Registry.if_attach_args :=
  {| Registry.ifat_error := 0;
     Registry.ifat_drv :=
       {| Registry.ifdrv_name := "tap"; Registry.ifdrv_type := 6;
          Registry.ifdrv_addrlen := 6; Registry.ifdrv_clone := Some 1 |};
     Registry.ifat_lla := None; Registry.ifat_dunit := 0;
     Registry.ifat_name := None; Registry.ifat_flags := 0 |}.

(** The interface of [Examples.no_memberships] after it has joined
    224.0.0.2: the membership at address 2 holds the link-level
    membership at address 5. *)
Definition all_routers : Examples.sockaddr :=
  {| Examples.sa_family := 2;
     Examples.sa_data := [Byte.xe0; Byte.x00; Byte.x00; Byte.x02] |}.
Definition all_routers_ll : Examples.sockaddr :=
  {| Examples.sa_family := 18;
     Examples.sa_data := [Byte.x01; Byte.x00; Byte.x5e;
                          Byte.x00; Byte.x00; Byte.x02] |}.
Definition one_membership : Multicast.state (sockaddr := Examples.sockaddr) :=
  {| Multicast.V_ifnet := [1%positive];
     Multicast.if_multiaddrs := {[ 1%positive := [2%positive; 5%positive] ]};
     Multicast.ifmas :=
       <[2%positive := {| Multicast.ifma_addr := all_routers;
                          Multicast.ifma_lladdr := Some all_routers_ll;
                          Multicast.ifma_ifp := Some 1%positive;
                          Multicast.ifma_refcount := 1;
                          Multicast.ifma_llifma := Some 5%positive |}]>
       (<[5%positive := {| Multicast.ifma_addr := all_routers_ll;
                           Multicast.ifma_lladdr := None;
                           Multicast.ifma_ifp := Some 1%positive;
                           Multicast.ifma_refcount := 1;
                           Multicast.ifma_llifma := None |}]> ∅);
     Multicast.brk := 7%positive; Multicast.nowait := [];
     Multicast.events := [] |}.

(** The same interface when the fourth allocation to come fails. *)
Definition short_of_memory : Multicast.state (sockaddr := Examples.sockaddr) :=
  Multicast.set_alloc 7%positive [true; true; true; false] one_membership.

(** The software contexts of an interface with a cache of four
    entries: as [if_attach] leaves them, and with every entry of the
    store in use and three of the features cached. *)
Definition no_softcs : Softc.state :=
  {| Softc.ifp :=
       {| Softc.if_softc := 0; Softc.if_lladdr := None; Softc.if_bpf := 0;
          Softc.if_xname := 0; Softc.if_vlantrunk := 0;
          Softc.if_sccache := [None; None; None; None];
          Softc.if_scstore := 1%positive; Softc.if_nsoftcs := 4 |};
     Softc.stores :=
       {[ 1%positive := replicate 4 {| Softc.ifsc_desc := 0;
                                       Softc.ifsc_ptr := 0 |} ]};
     Softc.brk := 2%positive |}.
Definition full_softcs : Softc.state :=
  {| Softc.ifp :=
       {| Softc.if_softc := 0; Softc.if_lladdr := None; Softc.if_bpf := 0;
          Softc.if_xname := 0; Softc.if_vlantrunk := 0;
          Softc.if_sccache := [Some (1%positive, 0%nat); Some (1%positive, 1%nat);
                               Some (1%positive, 2%nat); None];
          Softc.if_scstore := 1%positive; Softc.if_nsoftcs := 4 |};
     Softc.stores :=
       {[ 1%positive :=
            [ {| Softc.ifsc_desc := Softc.IF_AF_INET; Softc.ifsc_ptr := 11 |};
              {| Softc.ifsc_desc := Softc.IF_AF_INET6; Softc.ifsc_ptr := 12 |};
              {| Softc.ifsc_desc := Softc.IF_CARP; Softc.ifsc_ptr := 13 |};
              {| Softc.ifsc_desc := Softc.IF_TOEDEV; Softc.ifsc_ptr := 14 |} ] ]};
     Softc.brk := 2%positive |}.

(** An interface that can do checksum offloading and TSO4 and has
    the checksum offloading enabled; a driver that takes every
    request; a privilege check that everybody passes. *)
Definition tso_capable : Caps.state :=
  {| Caps.ifp := {| Caps.if_capabilities := 0x103; Caps.if_capenable := 0x3;
                    Caps.if_hwassist := 0; Caps.if_vlantrunk := 0 |};
     Caps.told := [] |}.
Definition taking_driver (ifr : Caps.ifreq) (i : Caps.ifnet)
  : Z * Caps.ifreq * Caps.ifnet :=
  (0, {| Caps.ifr_reqcap := Caps.ifr_reqcap ifr;
         Caps.ifr_curcap := Caps.ifr_curcap ifr; Caps.ifr_hwassist := 7 |}, i).
Definition everybody (td : thread) (p : Caps.priv) : Z := 0.

(** An Ethernet interface that is up, with the flags IFF_UP,
    IFF_BROADCAST, IFF_SIMPLEX and IFF_MULTICAST; a driver that agrees
    to every flag request; a privilege check that everybody passes. *)
Definition flagged : Flags.state :=
  {| Flags.ifp := {| Flags.if_xname := "em0"; Flags.if_flags := 0x8803;
                     Flags.if_pcount := 0; Flags.if_carp := 0;
                     Flags.if_addrhead := [] |};
     Flags.told := [] |}.
Definition agreeing_driver (ifr : Flags.ifreq) (i : Flags.ifnet)
  : Z * Flags.ifreq * Flags.ifnet := (0, ifr, i).
Definition anybody (td : thread) (p : Flags.priv) : Z := 0.

End MoreExamples.

(** * Reasoning about monadic code *)

Lemma bind_Ok {S A B} (m : K S A) (k : A -> K S B) s b s' :
  bind m k s = Ok b s' <-> exists a s1, m s = Ok a s1 /\ k a s1 = Ok b s'.
Proof.
  unfold bind. destruct (m s) as [a s1|f]; split.
  - eauto.
  - intros (a' & s1' & Heq & Hk). by inversion Heq; subst.
  - discriminate.
  - intros (a' & s1' & Heq & _). discriminate.
Qed.

Lemma bind_step {S A B} (m : K S A) (k : A -> K S B) s a s1 :
  m s = Ok a s1 -> bind m k s = k a s1.
Proof. unfold bind. by intros ->. Qed.

Lemma bind_assoc {S A B C} (m : K S A) (k1 : A -> K S B) (k2 : B -> K S C) s :
  bind (bind m k1) k2 s = bind m (fun a => bind (k1 a) k2) s.
Proof. unfold bind. by destruct (m s). Qed.

Lemma KASSERT_Ok {S} inv cond msg (s s' : S) u :
  KASSERT inv cond msg s = Ok u s' -> s' = s /\ (inv = true -> cond = true).
Proof.
  unfold KASSERT, raise, ret.
  destruct inv, cond; simpl; intros Heq; inversion Heq; auto.
Qed.

Lemma KASSERT_true {S} inv msg (s : S) : KASSERT inv true msg s = Ok tt s.
Proof. unfold KASSERT. by rewrite andb_false_r. Qed.

(** Decompose a hypothesis [c s = Ok a s'] along the binds of [c]. *)
Ltac inv_Ok H :=
  repeat match type of H with
  | bind _ _ _ = Ok _ _ =>
      let a := fresh "a" in let s := fresh "s" in
      let H1 := fresh "Hstep" in
      apply bind_Ok in H; destruct H as (a & s & H1 & H)
  | ret _ _ = Ok _ _ => unfold ret in H; inversion H; subst; clear H
  | raise _ _ = Ok _ _ => discriminate H
  | Err _ = Ok _ _ => discriminate H
  end.

(** * The index table *)

Module RegistryFacts.
Import Registry.

Lemma u_short_small z : 0 <= z < 65536 -> u_short z = z.
Proof. intros. unfold u_short. by apply Z.mod_small. Qed.

(** ** Reading and writing table entries *)

Lemma tbl_tget v i : tbl v i = tget (V_ifindex_table v) i.
Proof. reflexivity. Qed.

Lemma tget_ge t i : Z.of_nat (length t) <= i -> tget t i = SlotNull.
Proof.
  intros Hi. unfold tget. rewrite lookup_ge_None_2; [done | lia].
Qed.

Lemma tget_insert_eq t i x :
  0 <= i < Z.of_nat (length t) -> tget (<[Z.to_nat i := x]> t) i = x.
Proof.
  intros Hi. unfold tget. rewrite list_lookup_insert_eq; [done | lia].
Qed.

Lemma tget_insert_ne t i j x :
  0 <= i -> 0 <= j -> i <> j -> tget (<[Z.to_nat i := x]> t) j = tget t j.
Proof.
  intros Hi Hj Hne. unfold tget. rewrite list_lookup_insert_ne; [done | lia].
Qed.

Lemma tget_app_null t k i : tget (t ++ replicate k SlotNull) i = tget t i.
Proof.
  unfold tget. destruct (decide (Z.to_nat i < length t)%nat) as [Hlt|Hge].
  - by rewrite lookup_app_l.
  - rewrite lookup_app_r by lia. rewrite (lookup_ge_None_2 t) by lia.
    destruct (replicate k SlotNull !! _) as [x|] eqn:Hx; [|done].
    apply lookup_replicate in Hx as [-> _]. done.
Qed.

Lemma tget_replicate k i : tget (replicate k SlotNull) i = SlotNull.
Proof.
  unfold tget. destruct (replicate k SlotNull !! _) as [x|] eqn:Hx; [|done].
  apply lookup_replicate in Hx as [-> _]. done.
Qed.

(** ** Well-formed tables *)

(** Every read the lookup and the allocator make lies inside the
    table. *)
Lemma wf_reads_in_bounds v idx :
  wf v -> 0 <= idx <= V_if_index v ->
  is_Some (V_ifindex_table v !! Z.to_nat idx).
Proof.
  intros Hwf Hidx. apply lookup_lt_is_Some.
  pose proof (wf_lim _ Hwf). pose proof (wf_index _ Hwf). lia.
Qed.

(** ** [if_grow] *)

Lemma if_grow_table v :
  V_if_indexlim v = Z.of_nat (length (V_ifindex_table v)) ->
  0 < V_if_indexlim v ->
  if_grow v = Ok tt (set_table (2 * V_if_indexlim v)
                       (V_ifindex_table v ++
                        replicate (length (V_ifindex_table v)) SlotNull) v).
Proof.
  intros Hlim Hpos. unfold if_grow. rewrite Z.shiftl_mul_pow2 by lia.
  change (2 ^ 1) with 2. rewrite (Z.mul_comm _ 2).
  f_equal. f_equal.
  set (t := V_ifindex_table v) in *.
  assert (Hn : (Z.to_nat (2 * V_if_indexlim v) / 2)%nat = length t).
  { rewrite Hlim. replace (Z.to_nat (2 * Z.of_nat (length t))) with (length t * 2)%nat by lia.
    by rewrite Nat.div_mul. }
  rewrite Hn. destruct t as [|x t'] eqn:Ht.
  - simpl in Hlim. lia.
  - rewrite <- Ht in *. rewrite take_ge by lia.
    f_equal. rewrite drop_replicate. f_equal. lia.
Qed.

(** Growth keeps every entry: no pointer is lost, the new slots are
    free. *)
Lemma if_grow_spec v :
  wf v ->
  exists v', if_grow v = Ok tt v' /\
    V_if_indexlim v' = 2 * V_if_indexlim v /\
    V_if_index v' = V_if_index v /\
    (forall i, tbl v' i = tbl v i) /\
    V_ifnet v' = V_ifnet v /\ V_ifg_head v' = V_ifg_head v /\
    ifnets v' = ifnets v /\ ifgroups v' = ifgroups v /\
    brk v' = brk v /\ nowait v' = nowait v /\ wf v'.
Proof.
  intros Hwf. destruct Hwf as [Hlim Hidx Hus Hz Hab Htop].
  eexists. split; [apply if_grow_table; [done | lia]|].
  assert (Ht : forall i, tbl (set_table (2 * V_if_indexlim v)
     (V_ifindex_table v ++ replicate (length (V_ifindex_table v)) SlotNull) v) i = tbl v i).
  { intros i. rewrite !tbl_tget. simpl. apply tget_app_null. }
  repeat split; try done; simpl.
  - rewrite length_app, length_replicate. lia.
  - lia.
  - lia.
  - by rewrite Ht.
  - intros i Hi. rewrite Ht. by apply Hab.
  - destruct Htop as [?|Htop]; [by left | right]. by rewrite Ht.
Qed.

(** ** The scan of [ifindex_alloc] *)

Lemma ifindex_scan_spec v :
  wf v ->
  forall fuel idx,
    1 <= idx <= 65535 -> idx <= V_if_index v + 1 ->
    (Z.to_nat (V_if_index v + 3 - idx) <= fuel)%nat ->
    (forall i, 1 <= i < idx -> tbl v i <> SlotNull) ->
    exists j, ifindex_scan fuel v idx = Some j /\ scan_result v j.
Proof.
  intros Hwf. destruct Hwf as [Hlim Hidx Hus Hz Hab Htop].
  induction fuel as [|fuel IH]; intros idx Hr Hle Hfuel Hocc; [lia|].
  simpl. destruct (Z.leb_spec idx (V_if_index v)) as [Hin|Hout].
  - destruct (decide (tbl v idx = SlotNull)) as [Hnull|Hused].
    + exists idx. split; [done|]. left. repeat split; auto; lia.
    + assert (Hocc' : forall i, 1 <= i < idx + 1 -> tbl v i <> SlotNull).
      { intros i Hi. destruct (decide (i = idx)) as [->|]; [done|].
        apply Hocc. lia. }
      destruct (decide (idx = 65535)) as [->|Hne].
      * (* idx++ wraps to 0 *)
        change (u_short (65535 + 1)) with 0.
        destruct fuel as [|fuel]; [lia|]. simpl.
        destruct (Z.leb_spec 0 (V_if_index v)); [|lia].
        destruct (decide (tbl v 0 = SlotNull)); [|done].
        exists 0. split; [done|]. right. repeat split; [lia|].
        intros i Hi. apply Hocc'. lia.
      * rewrite u_short_small by lia.
        apply IH; auto; lia.
  - exists idx. split; [done|]. left.
    repeat split; auto; try lia; try (apply Hab; lia).
Qed.

Lemma ifindex_scan_total v :
  wf v -> exists j, ifindex_scan scan_fuel v 1 = Some j /\ scan_result v j.
Proof.
  intros Hwf. pose proof (wf_index _ Hwf). pose proof (wf_ushort _ Hwf).
  apply ifindex_scan_spec; auto; try lia.
  unfold scan_fuel. lia.
Qed.

Lemma scan_result_bounds v j :
  wf v -> scan_result v j -> 0 <= j <= 65535 /\ j <= V_if_indexlim v /\
    tbl v j = SlotNull.
Proof.
  intros Hwf [(? & ? & ? & ?)|(-> & ? & ?)].
  - pose proof (wf_index _ Hwf). repeat split; auto; lia.
  - pose proof (wf_index _ Hwf). split; [lia|]. split; [lia|]. apply Hwf.
Qed.

(** With a free index at hand the scan does not wrap. *)
Lemma scan_result_available v j :
  index_available v -> scan_result v j -> 1 <= j.
Proof.
  intros (i & Hi & Hnull) [(? & _)|(_ & _ & Hfull)]; [lia|].
  by destruct (Hfull i Hi).
Qed.

(** The scan depends on the table and the mark only. *)
Lemma ifindex_scan_ext v v' fuel idx :
  V_if_index v' = V_if_index v -> (forall i, tbl v' i = tbl v i) ->
  ifindex_scan fuel v' idx = ifindex_scan fuel v idx.
Proof.
  intros Hi Ht. revert idx. induction fuel as [|fuel IH]; intros idx; [done|].
  simpl. rewrite Hi, Ht. destruct (idx <=? V_if_index v); [|done].
  destruct (decide (tbl v idx = SlotNull)); [done|]. apply IH.
Qed.

(** ** [ifindex_alloc] *)

Arguments ifindex_scan : simpl never.

Lemma ifindex_alloc_retry_S fuel p v :
  ifindex_alloc_retry (S fuel) p v =
  match ifindex_scan scan_fuel v 1 with
  | None => Err OutOfFuel
  | Some idx =>
      if V_if_indexlim v <=? idx then
        bind if_grow (fun _ => ifindex_alloc_retry fuel p) v
      else
        ((if V_if_index v <? idx then modify (set_V_if_index idx) else ret tt) ;;
         modify (fun v => set_table (V_if_indexlim v)
                   (<[Z.to_nat idx := SlotIfp p]> (V_ifindex_table v)) v) ;;
         ifnet_update p (set_if_index idx)) v
  end.
Proof.
  cbn [ifindex_alloc_retry]. unfold bind at 1, get.
  destruct (ifindex_scan scan_fuel v 1); [|done].
  by destruct (V_if_indexlim v <=? z).
Qed.

(** The assignment at the end of [ifindex_alloc], for an index below
    the limit. *)
Lemma ifindex_assign v p ifp idx :
  wf v -> ifnets v !! p = Some ifp ->
  0 <= idx < V_if_indexlim v ->
  exists v',
    ((if V_if_index v <? idx then modify (set_V_if_index idx) else ret tt) ;;
     modify (fun v => set_table (V_if_indexlim v)
               (<[Z.to_nat idx := SlotIfp p]> (V_ifindex_table v)) v) ;;
     ifnet_update p (set_if_index idx)) v = Ok tt v' /\
    V_if_index v' = Z.max (V_if_index v) idx /\
    V_if_indexlim v' = V_if_indexlim v /\
    V_if_indexlim v' = Z.of_nat (length (V_ifindex_table v')) /\
    tbl v' idx = SlotIfp p /\
    (forall i, 0 <= i -> i <> idx -> tbl v' i = tbl v i) /\
    V_ifnet v' = V_ifnet v /\ V_ifg_head v' = V_ifg_head v /\
    ifnets v' = <[p := set_if_index idx ifp]> (ifnets v) /\
    ifgroups v' = ifgroups v /\ brk v' = brk v /\ nowait v' = nowait v.
Proof.
  intros Hwf Hp Hidx. pose proof (wf_lim _ Hwf) as Hlim.
  destruct (Z.ltb_spec (V_if_index v) idx) as [Hlt|Hge];
    unfold bind, modify, ret, ifnet_update; simpl; rewrite Hp;
    eexists; (split; [reflexivity|]); simpl;
    rewrite ?length_insert, ?tbl_tget; simpl;
    repeat split; auto; try lia;
    try (apply tget_insert_eq; lia);
    try (intros i Hi Hne; rewrite !tbl_tget; simpl;
         apply tget_insert_ne; lia).
Qed.

Lemma ifindex_alloc_spec v p ifp :
  wf v -> ifnets v !! p = Some ifp ->
  exists idx v', ifindex_alloc p v = Ok tt v' /\
    scan_result v idx /\ alloc_post v p idx v'.
Proof.
  intros Hwf Hp.
  destruct (ifindex_scan_total v Hwf) as (idx & Hscan & Hres).
  destruct (scan_result_bounds v idx Hwf Hres) as (Hr & Hle & Hnull).
  exists idx. unfold ifindex_alloc, retry_fuel.
  rewrite ifindex_alloc_retry_S, Hscan.
  destruct (Z.leb_spec (V_if_indexlim v) idx) as [Hfull|Hroom].
  - (* grow, then retry *)
    destruct (if_grow_spec v Hwf) as
      (v1 & Hg & Hlim1 & Hidx1 & Ht1 & Hn1 & Hh1 & Hi1 & Hg1 & Hb1 & Ho1 & Hwf1).
    rewrite (bind_step _ _ _ _ _ Hg).
    rewrite ifindex_alloc_retry_S.
    rewrite (ifindex_scan_ext v v1) by auto. rewrite Hscan.
    pose proof (wf_index _ Hwf).
    destruct (Z.leb_spec (V_if_indexlim v1) idx) as [?|Hroom1]; [lia|].
    destruct (ifindex_assign v1 p ifp idx) as
      (v' & Hrun & ? & ? & ? & ? & Hoth & ? & ? & ? & ? & ? & ?);
      [done | by rewrite Hi1 | lia |].
    exists v'. split; [done|]. split; [done|].
    split; try congruence.
    + destruct (Z.leb_spec (V_if_indexlim v) idx); [|lia]. congruence.
    + intros i Hi Hne. rewrite Hoth by done. apply Ht1.
    + exists ifp. split; [done|]. congruence.
  - destruct (ifindex_assign v p ifp idx) as
      (v' & Hrun & ? & ? & ? & ? & Hoth & ? & ? & ? & ? & ? & ?);
      [done | done | lia |].
    exists v'. split; [done|]. split; [done|].
    split; try congruence.
    + destruct (Z.leb_spec (V_if_indexlim v) idx); [lia|]. congruence.
    + done.
    + exists ifp. by split.
Qed.

(** The allocator keeps the table well formed as long as it did not
    wrap around to index 0. *)
Lemma alloc_post_wf v p idx v' :
  wf v -> scan_result v idx -> 1 <= idx -> alloc_post v p idx v' -> wf v'.
Proof.
  intros Hwf Hres Hpos Hpost.
  destruct (scan_result_bounds v idx Hwf Hres) as (Hr & Hle & Hnull).
  destruct Hwf as [Hlim Hidx Hus Hz Hab Htop].
  destruct Hpost as [Hi' Hl' Hlen' Hs' Ho' _ _ _ _ _ _].
  destruct Hres as [(_ & Hle1 & _ & _)|(-> & _)]; [|lia].
  split.
  - done.
  - rewrite Hi', Hl'. destruct (Z.leb_spec (V_if_indexlim v) idx); lia.
  - lia.
  - rewrite Ho' by lia. done.
  - intros i Hi. rewrite Ho' by lia. apply Hab. lia.
  - right. rewrite Hi'. destruct (Z.max_spec (V_if_index v) idx) as [[? ->]|[? ->]].
    + by rewrite Hs'.
    + destruct (decide (V_if_index v = idx)) as [<-|Hne]; [by rewrite Hs'|].
      rewrite Ho' by lia. destruct Htop as [?|?]; [lia|done].
Qed.

(** ** [ifindex_free] *)

Lemma ifindex_shrink_spec v n :
  (ifindex_shrink v n <= n)%nat /\
  (ifindex_shrink v n = O \/ tbl v (Z.of_nat (ifindex_shrink v n)) <> SlotNull) /\
  (forall j, (ifindex_shrink v n < j <= n)%nat -> tbl v (Z.of_nat j) = SlotNull).
Proof.
  induction n as [|n (IH1 & IH2 & IH3)].
  - simpl. repeat split; [lia | by left | lia].
  - cbn [ifindex_shrink].
    destruct (decide (tbl v (Z.of_nat (S n)) = SlotNull)) as [Hnull|Hused].
    + repeat split; [lia | done |].
      intros j Hj. destruct (decide (j = S n)) as [->|]; [done|].
      apply IH3. lia.
    + repeat split; [lia | by right | lia].
Qed.

(** An entry that is not [NULL] lies inside the table. *)
Lemma tbl_used_lt v idx :
  0 <= idx -> tbl v idx <> SlotNull ->
  idx < Z.of_nat (length (V_ifindex_table v)).
Proof.
  intros Hidx Hused. unfold tbl in Hused.
  destruct (V_ifindex_table v !! Z.to_nat idx) as [x|] eqn:Hx; [|done].
  apply lookup_lt_Some in Hx. lia.
Qed.

Lemma ifindex_free_spec v idx :
  0 <= V_if_index v -> 0 <= idx ->
  idx < Z.of_nat (length (V_ifindex_table v)) ->
  exists v', ifindex_free idx v = Ok tt v' /\ free_post v idx v'.
Proof.
  intros Hpos Hidx Hin. unfold ifindex_free. unfold bind at 1. unfold get at 1.
  rewrite bool_decide_true by lia. unfold bind, modify.
  eexists. split; [reflexivity|].
  set (v1 := set_table (V_if_indexlim v)
               (<[Z.to_nat idx := SlotNull]> (V_ifindex_table v)) v).
  assert (Hslot : tbl v1 idx = SlotNull).
  { rewrite tbl_tget. subst v1. simpl.
    destruct (decide (idx < Z.of_nat (length (V_ifindex_table v)))).
    - apply tget_insert_eq. lia.
    - apply tget_ge. rewrite length_insert. lia. }
  assert (Hoth : forall i, 0 <= i -> i <> idx -> tbl v1 i = tbl v i).
  { intros i Hi Hne. rewrite !tbl_tget. subst v1. simpl.
    apply tget_insert_ne; lia. }
  destruct (ifindex_shrink_spec v1 (Z.to_nat (V_if_index v1))) as (H1 & H2 & H3).
  assert (Hv1 : V_if_index v1 = V_if_index v) by done.
  split; simpl; try done.
  - rewrite Hv1 in *. lia.
  - rewrite Hv1 in *. destruct H2 as [->|H2]; [by left | by right].
  - intros j Hj. rewrite Hv1 in *.
    replace j with (Z.of_nat (Z.to_nat j)) by lia. apply H3. lia.
  - by rewrite length_insert.
Qed.

(** Freeing keeps the table well formed. *)
Lemma free_post_wf v idx v' : wf v -> 0 <= idx -> free_post v idx v' -> wf v'.
Proof.
  intros [Hlim Hi Hus Hz Hab Htop] Hidx [Hs Ho Hle Ht Ha Hl Hn _ _ _ _ _ _].
  split.
  - rewrite Hl, Hn. done.
  - lia.
  - lia.
  - destruct (decide (idx = 0)) as [->|]; [done|]. by rewrite Ho.
  - intros i Hlt. destruct (decide (i <= V_if_index v)); [apply Ha; lia|].
    destruct (decide (i = idx)) as [->|]; [done|].
    rewrite Ho by lia. apply Hab. lia.
  - done.
Qed.

(** ** Code that leaves the table alone *)

Lemma same_table_refl v : same_table v v.
Proof. by split. Qed.

Lemma same_table_trans v1 v2 v3 :
  same_table v1 v2 -> same_table v2 v3 -> same_table v1 v3.
Proof.
  intros [? ? ? Ho1 ?] [? ? ? Ho2 ?].
  split; [congruence | congruence | congruence | | lia].
  intros q. by rewrite Ho2, Ho1.
Qed.

Lemma same_table_tbl v v' i : same_table v v' -> tbl v' i = tbl v i.
Proof. intros [_ _ Ht _ _]. unfold tbl. by rewrite Ht. Qed.

Lemma same_table_index v v' q ifq :
  same_table v v' -> ifnets v !! q = Some ifq ->
  exists ifq', ifnets v' !! q = Some ifq' /\ if_index ifq' = if_index ifq.
Proof.
  intros [_ _ _ Ho _] Hq. specialize (Ho q). rewrite Hq in Ho.
  destruct (ifnets v' !! q) as [ifq'|]; [|done].
  exists ifq'. split; [done|]. simpl in Ho. congruence.
Qed.

Lemma same_table_index_rev v v' q ifq' :
  same_table v v' -> ifnets v' !! q = Some ifq' ->
  exists ifq, ifnets v !! q = Some ifq /\ if_index ifq' = if_index ifq.
Proof.
  intros [_ _ _ Ho _] Hq. specialize (Ho q). rewrite Hq in Ho.
  destruct (ifnets v !! q) as [ifq|]; [|done].
  exists ifq. split; [done|]. simpl in Ho. congruence.
Qed.

Lemma same_table_wf v v' : same_table v v' -> wf v -> wf v'.
Proof.
  intros Hst [Hlim Hi Hus Hz Hab Htop].
  assert (Ht : forall i, tbl v' i = tbl v i)
    by (intros i; by apply same_table_tbl).
  destruct Hst as [Hi' Hl' Ht' _ _].
  split; rewrite ?Hi', ?Hl', ?Ht', ?Ht; auto.
  intros i Hlt. rewrite Ht. by apply Hab.
Qed.

Lemma frame_ret {A} (a : A) : frame (ret a).
Proof. intros v a' v' H. inversion H; subst. split; [apply same_table_refl | done]. Qed.

Lemma frame_raise {A} f : frame (raise f : K vnet A).
Proof. intros v a v' H. discriminate. Qed.

Lemma frame_get : frame (get : K vnet vnet).
Proof. intros v a v' H. inversion H; subst. split; [apply same_table_refl | done]. Qed.

Lemma frame_bind {A B} (m : K vnet A) (k : A -> K vnet B) :
  frame m -> (forall a, frame (k a)) -> frame (bind m k).
Proof.
  intros Hm Hk v b v' H. apply bind_Ok in H as (a & v1 & H1 & H2).
  destruct (Hm _ _ _ H1) as [Hs1 Hl1]. destruct (Hk a _ _ _ H2) as [Hs2 Hl2].
  split; [by eapply same_table_trans | congruence].
Qed.

Lemma frame_modify (f : vnet -> vnet) :
  (forall v, same_table v (f v) /\ V_ifnet (f v) = V_ifnet v) -> frame (modify f).
Proof. intros Hf v a v' H. inversion H; subst. apply Hf. Qed.

Lemma frame_KASSERT inv cond msg : frame (KASSERT inv cond msg).
Proof.
  intros v a v' H. apply KASSERT_Ok in H as [-> _].
  split; [apply same_table_refl | done].
Qed.

Lemma frame_ifnet_load p : frame (ifnet_load p).
Proof.
  intros v a v' H. unfold ifnet_load in H.
  destruct (ifnets v !! p); inversion H; subst.
  split; [apply same_table_refl | done].
Qed.

Lemma frame_ifgroup_load g : frame (ifgroup_load g).
Proof.
  intros v a v' H. unfold ifgroup_load in H.
  destruct (ifgroups v !! g); inversion H; subst.
  split; [apply same_table_refl | done].
Qed.

Lemma frame_ifgroup_update g f : frame (ifgroup_update g f).
Proof.
  intros v a v' H. unfold ifgroup_update in H.
  destruct (ifgroups v !! g); inversion H; subst.
  split; [split; simpl; auto; lia | done].
Qed.

Lemma frame_ifnet_update p f :
  (forall i, if_index (f i) = if_index i) -> frame (ifnet_update p f).
Proof.
  intros Hf v a v' H. unfold ifnet_update in H.
  destruct (ifnets v !! p) as [i|] eqn:Hp; inversion H; subst.
  split; [split; simpl; auto; try lia | done].
  intros q. destruct (decide (q = p)) as [->|Hne].
  - rewrite lookup_insert_eq, Hp. simpl. by rewrite Hf.
  - by rewrite lookup_insert_ne.
Qed.

Lemma frame_malloc_nowait : frame malloc_nowait.
Proof.
  intros v a v' H. unfold malloc_nowait in H.
  destruct (nowait v) as [|[] ?]; inversion H; subst;
    (split; [split; simpl; auto; lia | done]).
Qed.

Lemma frame_ifg_lookup gs name : frame (ifg_lookup gs name).
Proof.
  induction gs as [|g gs IH]; simpl.
  - apply frame_ret.
  - apply frame_bind; [apply frame_ifgroup_load|].
    intros ifg. destruct (strcmp_eq _ _); [apply frame_ret | apply IH].
Qed.

(** Assemble a [frame] proof along the structure of the code. *)
Ltac frame_step :=
  first
    [ apply frame_ret | apply frame_raise | apply frame_get
    | apply frame_KASSERT
    | apply frame_ifnet_load | apply frame_ifgroup_load
    | apply frame_ifgroup_update | apply frame_malloc_nowait
    | apply frame_ifg_lookup
    | apply frame_ifnet_update; intros []; reflexivity
    | apply frame_modify; intros ?;
      (split; [split; simpl; auto; lia | done])
    | apply frame_bind; [| intros ?]
    | match goal with
      | |- frame (match ?x with _ => _ end) => destruct x
      | |- frame (if ?b then _ else _) => destruct b
      end ].

Lemma frame_if_addgroup p groupname : frame (if_addgroup p groupname).
Proof. unfold if_addgroup. repeat frame_step. Qed.

Lemma frame_ifgl_release p g : frame (ifgl_release p g).
Proof. unfold ifgl_release. repeat frame_step. Qed.

Lemma frame_if_delgroups_loop p gs : frame (if_delgroups_loop p gs).
Proof.
  induction gs as [|g gs IH]; simpl; repeat frame_step;
    auto using frame_ifgl_release.
Qed.

Lemma frame_if_delgroups p : frame (if_delgroups p).
Proof.
  unfold if_delgroups. repeat frame_step. apply frame_if_delgroups_loop.
Qed.

Lemma frame_if_down p : frame (if_down p).
Proof. unfold if_down. repeat frame_step. Qed.

(** ** Lists *)

Lemma TAILQ_REMOVE_elem_of `{EqDecision A} (x y : A) l :
  y ∈ TAILQ_REMOVE x l -> y ∈ l.
Proof.
  induction l as [|z l IH]; simpl; [done|].
  destruct (decide (x = z)); rewrite ?elem_of_cons; intuition.
Qed.

Lemma TAILQ_REMOVE_other `{EqDecision A} (x y : A) l :
  y ∈ l -> y <> x -> y ∈ TAILQ_REMOVE x l.
Proof.
  induction l as [|z l IH]; simpl; [done|].
  rewrite elem_of_cons. intros [->|Hin] Hne.
  - destruct (decide (x = z)); [congruence | apply elem_of_cons; by left].
  - destruct (decide (x = z)); [done | apply elem_of_cons; right; auto].
Qed.

Lemma TAILQ_REMOVE_NoDup `{EqDecision A} (x : A) l :
  NoDup l -> NoDup (TAILQ_REMOVE x l) /\ x ∉ TAILQ_REMOVE x l.
Proof.
  induction 1 as [|z l Hz Hnd [IH1 IH2]]; simpl.
  - split; [constructor | apply not_elem_of_nil].
  - destruct (decide (x = z)) as [->|Hne]; [done|].
    split.
    + constructor; [|done]. intros Hin. by apply Hz, (TAILQ_REMOVE_elem_of x).
    + rewrite elem_of_cons. intros [?|?]; [congruence | done].
Qed.

Lemma TAILQ_REMOVE_not_in `{EqDecision A} (x : A) l :
  x ∉ l -> TAILQ_REMOVE x l = l.
Proof.
  induction l as [|z l IH]; simpl; [done|].
  rewrite not_elem_of_cons. intros [Hne Hnin].
  destruct (decide (x = z)); [done|]. by rewrite IH.
Qed.

(** ** The registry invariant through the steps of attach and detach *)

Lemma registry_ok_same_table v v' :
  registry_ok v -> same_table v v' -> V_ifnet v' = V_ifnet v -> registry_ok v'.
Proof.
  intros [Hwf Hlive Hnd Hfr] Hst Hl. split.
  - by eapply same_table_wf.
  - intros p Hp. rewrite Hl in Hp. destruct (Hlive p Hp) as (ifp & Hi & Hpos & Ht).
    destruct (same_table_index _ _ _ _ Hst Hi) as (ifp' & Hi' & Heq).
    exists ifp'. rewrite Heq, (same_table_tbl v v') by done. done.
  - by rewrite Hl.
  - intros p [ifp' Hp].
    destruct (same_table_index_rev _ _ _ _ Hst Hp) as (ifp & Hi & _).
    pose proof (Hfr p (mk_is_Some _ _ Hi)). pose proof (st_brk _ _ Hst). lia.
Qed.

Lemma registry_ok_frame {A} (m : K vnet A) v a v' :
  frame m -> registry_ok v -> m v = Ok a v' -> registry_ok v'.
Proof.
  intros Hf Hok Hrun. destruct (Hf _ _ _ Hrun).
  by eapply registry_ok_same_table.
Qed.

Lemma registry_live_fresh v p : registry_ok v -> p ∈ V_ifnet v -> (p < brk v)%positive.
Proof.
  intros Hok Hp. destruct (ro_live _ Hok p Hp) as (ifp & Hi & _).
  apply (ro_fresh _ Hok). by exists ifp.
Qed.

(** A new object at [brk]. *)
Lemma registry_ok_new_object v ifp o :
  registry_ok v ->
  registry_ok (set_ifnets (<[brk v := ifp]> (ifnets v))
                 (set_alloc (Pos.succ (brk v)) o v)) /\
  brk v ∉ V_ifnet v.
Proof.
  intros Hok.
  assert (Hnew : brk v ∉ V_ifnet v).
  { intros Hin. pose proof (registry_live_fresh _ _ Hok Hin). lia. }
  split; [|done]. destruct Hok as [Hwf Hlive Hnd Hfr]. split; simpl.
  - destruct Hwf. by split.
  - intros p Hp. destruct (Hlive p Hp) as (ifq & Hi & Hpos & Ht).
    exists ifq. rewrite lookup_insert_ne by (intros <-; done). done.
  - done.
  - intros p. destruct (decide (p = brk v)) as [->|Hne]; [lia|].
    rewrite lookup_insert_ne by done. intros Hs. specialize (Hfr p Hs). lia.
Qed.

(** An index for an object that is not yet on the list. *)
Lemma registry_ok_alloc v p idx v' :
  registry_ok v -> p ∉ V_ifnet v -> scan_result v idx -> 1 <= idx ->
  alloc_post v p idx v' -> registry_ok v'.
Proof.
  intros Hok Hp Hres Hpos Hpost.
  pose proof (alloc_post_wf _ _ _ _ (ro_wf _ Hok) Hres Hpos Hpost) as Hwf'.
  destruct (scan_result_bounds _ _ (ro_wf _ Hok) Hres) as (_ & _ & Hnull).
  destruct Hok as [Hwf Hlive Hnd Hfr].
  destruct Hpost as [_ _ _ _ Hoth Hl _ (ifp & Hifp & Hmap) _ Hb _].
  split.
  - done.
  - intros q Hq. rewrite Hl in Hq.
    destruct (Hlive q Hq) as (ifq & Hi & Hqpos & Ht).
    exists ifq. rewrite Hmap, lookup_insert_ne by (intros ->; done).
    split; [done|]. split; [done|].
    rewrite Hoth; [done | lia |]. intros Heq. rewrite Heq, Hnull in Ht. done.
  - by rewrite Hl.
  - intros q. rewrite Hmap, Hb. destruct (decide (q = p)) as [->|Hne].
    + intros _. apply Hfr. by exists ifp.
    + rewrite lookup_insert_ne by done. apply Hfr.
Qed.

(** [TAILQ_INSERT_TAIL] of an object that has its index. *)
Lemma registry_ok_insert_tail v p ifp :
  registry_ok v -> p ∉ V_ifnet v -> ifnets v !! p = Some ifp ->
  1 <= if_index ifp -> tbl v (if_index ifp) = SlotIfp p ->
  registry_ok (set_V_ifnet (V_ifnet v ++ [p]) v).
Proof.
  intros [Hwf Hlive Hnd Hfr] Hp Hi Hpos Ht. split; simpl.
  - destruct Hwf. by split.
  - intros q. rewrite elem_of_app, list_elem_of_singleton. intros [Hq| ->].
    + by apply Hlive.
    + by exists ifp.
  - apply NoDup_app. split; [done|]. split; [|apply NoDup_singleton].
    intros q Hq. rewrite list_elem_of_singleton. intros ->. done.
  - done.
Qed.

(** [TAILQ_REMOVE] from the list. *)
Lemma registry_ok_remove v p :
  registry_ok v ->
  registry_ok (set_V_ifnet (TAILQ_REMOVE p (V_ifnet v)) v) /\
  p ∉ TAILQ_REMOVE p (V_ifnet v).
Proof.
  intros [Hwf Hlive Hnd Hfr].
  destruct (TAILQ_REMOVE_NoDup p _ Hnd) as [Hnd' Hnot].
  split; [|done]. split; simpl.
  - destruct Hwf. by split.
  - intros q Hq. apply Hlive. by eapply TAILQ_REMOVE_elem_of.
  - done.
  - done.
Qed.

(** The index of an object that is off the list is freed. *)
Lemma registry_ok_free v p idx v' :
  registry_ok v -> p ∉ V_ifnet v -> 0 <= idx -> tbl v idx = SlotIfp p ->
  free_post v idx v' -> registry_ok v'.
Proof.
  intros Hok Hp Hidx Ht Hpost.
  pose proof (free_post_wf _ _ _ (ro_wf _ Hok) Hidx Hpost) as Hwf'.
  destruct Hok as [Hwf Hlive Hnd Hfr].
  destruct Hpost as [_ Hoth _ _ _ _ _ Hl _ Hmap _ Hb _].
  split.
  - done.
  - intros q Hq. rewrite Hl in Hq.
    destruct (Hlive q Hq) as (ifq & Hi & Hqpos & Htq).
    exists ifq. rewrite Hmap. split; [done|]. split; [done|].
    rewrite Hoth; [done | lia |]. intros Heq. rewrite Heq, Ht in Htq.
    inversion Htq; subst. done.
  - by rewrite Hl.
  - intros q. rewrite Hmap, Hb. apply Hfr.
Qed.

(** An object that is off the list is released. *)
Lemma registry_ok_delete v p :
  registry_ok v -> p ∉ V_ifnet v ->
  registry_ok (set_ifnets (delete p (ifnets v)) v).
Proof.
  intros [Hwf Hlive Hnd Hfr] Hp. split; simpl.
  - destruct Hwf. by split.
  - intros q Hq. destruct (Hlive q Hq) as (ifq & Hi & Hqpos & Htq).
    exists ifq. rewrite lookup_delete_ne by (intros ->; done). done.
  - done.
  - intros q. destruct (decide (q = p)) as [->|Hne].
    + rewrite lookup_delete_eq. by intros [? ?].
    + rewrite lookup_delete_ne by done. apply Hfr.
Qed.

Lemma scan_result_ext v v' idx :
  V_if_index v' = V_if_index v -> (forall i, tbl v' i = tbl v i) ->
  scan_result v' idx -> scan_result v idx.
Proof.
  intros Hi Ht [(? & ? & Hnull & Hocc)|(? & ? & Hocc)]; [left | right].
  - split; [done|]. split; [lia|]. split; [by rewrite <- Ht|].
    intros i Hr. rewrite <- Ht. by apply Hocc.
  - split; [done|]. split; [lia|].
    intros i Hr. rewrite <- Ht. by apply Hocc.
Qed.

Section WithEnv.
Context `{env : Env}.

(** ** [if_attach] *)

(** What a call of [if_attach] that returns has done: nothing, if no
    unit number was to be had; otherwise the new interface is at the
    tail of the list with the index the scan found, which is not 0. *)
Lemma if_attach_ok v ifat r ifat' v' :
  registry_ok v -> if_attach ifat v = Ok (r, ifat') v' ->
  registry_ok v' /\
  match r with
  | None => V_ifnet v' = V_ifnet v
  | Some p =>
      exists ifp, V_ifnet v' = V_ifnet v ++ [p] /\ (p ∉ V_ifnet v) /\
        ifnets v' !! p = Some ifp /\ 1 <= if_index ifp /\
        scan_result v (if_index ifp)
  end.
Proof.
  intros Hok H. unfold if_attach in H.
  destruct (match ifdrv_clone (ifat_drv ifat) with
            | Some ifc => ifc_alloc_unit ifc (ifat_dunit ifat)
            | None => (0, ifat_dunit ifat)
            end) as [error dunit].
  destruct (negb (error =? 0)).
  { inversion H; subst. by split. }
  cbn [ifat_name ifat_dunit ifat_flags ifat_lla ifat_drv] in H.
  apply bind_Ok in H as (p & v1 & Hm & H).
  unfold malloc_waitok in Hm. inversion Hm; subst p v1. clear Hm.
  apply bind_Ok in H as ([] & v2 & Hins & H).
  unfold modify in Hins. inversion Hins as [Hv2]. clear Hins.
  simpl in Hv2.
  match type of Hv2 with
  | set_ifnets (<[_ := ?new]> _) _ = _ =>
      destruct (registry_ok_new_object v new (nowait v) Hok) as [Hok2 Hnew];
      set (ifp0 := new) in *
  end.
  rewrite Hv2 in Hok2.
  apply bind_Ok in H as ([] & v3 & Halloc & H).
  destruct (ifindex_alloc_spec v2 (brk v) ifp0 (ro_wf _ Hok2)) as
    (idx & v3' & Halloc' & Hres & Hpost).
  { subst v2. simpl. apply lookup_insert_eq. }
  rewrite Halloc' in Halloc. inversion Halloc; subst v3'. clear Halloc Halloc'.
  apply bind_Ok in H as ([] & v4 & Hrc & H).
  apply bind_Ok in H as (ifp & v5 & Hload & H).
  apply bind_Ok in H as ([] & v6 & Haddr & H).
  apply bind_Ok in H as ([] & v7 & Hint & H).
  inversion H; subst r ifat' v7. clear H.
  (* the steps after the allocation leave the table alone *)
  destruct (frame_ifnet_update (brk v) (set_if_refcount 1)
              ltac:(by intros []) _ _ _ Hrc) as [Hst34 Hl34].
  destruct (frame_ifnet_load _ _ _ _ Hload) as [Hst45 Hl45].
  match type of Haddr with
  | ifnet_update _ ?f _ = _ =>
      destruct (frame_ifnet_update (brk v) f ltac:(by intros []) _ _ _ Haddr)
        as [Hst56 Hl56]
  end.
  pose proof (same_table_trans _ _ _ Hst34 (same_table_trans _ _ _ Hst45 Hst56))
    as Hst36.
  (* the check at the head of if_attach_internal *)
  unfold if_attach_internal in Hint.
  apply bind_Ok in Hint as (ifp6 & v6' & Hload6 & Hint).
  pose proof Hload6 as Hload6'.
  unfold ifnet_load in Hload6'.
  match type of Hload6' with
  | match ?X with _ => _ end = _ =>
      destruct X as [ifp6'|] eqn:Hp6; [|discriminate Hload6']
  end.
  inversion Hload6'; subst ifp6' v6'. clear Hload6'.
  apply bind_Ok in Hint as (v6' & v6'' & Hget & Hint).
  inversion Hget; subst v6' v6''. clear Hget.
  destruct ((if_index ifp6 =? 0) || _) eqn:Hcheck; [discriminate Hint|].
  apply orb_false_elim in Hcheck as [Hnz _]. apply Z.eqb_neq in Hnz.
  apply bind_Ok in Hint as (e & v8 & Hgrp & Hint).
  inversion Hint as [Hv']. clear Hint.
  destruct (frame_if_addgroup _ _ _ _ _ Hgrp) as [Hst68 Hl68].
  (* the index recorded in the object is the one the scan found *)
  destruct (ap_ifnets _ _ _ _ Hpost) as (ifp0' & Hifp0 & Hmap3).
  assert (Hidx3 : ifnets v3 !! brk v = Some (set_if_index idx ifp0'))
    by (rewrite Hmap3; apply lookup_insert_eq).
  destruct (same_table_index _ _ _ _ Hst36 Hidx3) as (ifp6' & Hp6' & Hidx6).
  rewrite Hp6 in Hp6'. inversion Hp6'; subst ifp6'. clear Hp6'.
  simpl in Hidx6.
  destruct (scan_result_bounds _ _ (ro_wf _ Hok2) Hres) as (Hr & _ & _).
  assert (Hpos : 1 <= idx) by lia.
  assert (Hnew2 : brk v ∉ V_ifnet v2) by (by subst v2).
  pose proof (registry_ok_alloc _ _ _ _ Hok2 Hnew2 Hres Hpos Hpost) as Hok3.
  assert (Hst38 : same_table v3 v8) by (by eapply same_table_trans).
  assert (Hl38 : V_ifnet v8 = V_ifnet v3) by congruence.
  pose proof (registry_ok_same_table _ _ Hok3 Hst38 Hl38) as Hok8.
  assert (Hl8 : V_ifnet v8 = V_ifnet v).
  { rewrite Hl38, (ap_ifnet _ _ _ _ Hpost). by subst v2. }
  destruct (same_table_index _ _ _ _ Hst68 Hp6) as (ifp8 & Hp8 & Hidx8).
  assert (Hnew8 : brk v ∉ V_ifnet v8) by (by rewrite Hl8).
  assert (Ht8 : tbl v8 (if_index ifp8) = SlotIfp (brk v)).
  { rewrite Hidx8, Hidx6, (same_table_tbl v3 v8) by done.
    apply (ap_slot _ _ _ _ Hpost). }
  split.
  - apply (registry_ok_insert_tail v8 (brk v) ifp8); auto. lia.
  - exists ifp8. simpl. rewrite Hl8. repeat split; auto; try lia.
    rewrite Hidx8, Hidx6. apply (scan_result_ext v v2); [by subst v2 | by subst v2 | done].
Qed.

(** ** [if_detach] *)

Lemma if_rele_ok v p v' :
  registry_ok v -> p ∉ V_ifnet v -> if_rele p v = Ok tt v' ->
  registry_ok v' /\ V_ifnet v' = V_ifnet v /\ (forall i, tbl v' i = tbl v i) /\
  V_if_index v' = V_if_index v.
Proof.
  intros Hok Hp H. unfold if_rele in H.
  apply bind_Ok in H as (ifp & v1 & Hload & H).
  destruct (frame_ifnet_load _ _ _ _ Hload) as [Hst1 Hl1].
  destruct (refcount_release (if_refcount ifp)) as [last count].
  apply bind_Ok in H as ([] & v2 & Hrc & H).
  destruct (frame_ifnet_update p (set_if_refcount count)
              ltac:(by intros []) _ _ _ Hrc) as [Hst2 Hl2].
  pose proof (same_table_trans _ _ _ Hst1 Hst2) as Hst.
  assert (Hl : V_ifnet v2 = V_ifnet v) by congruence.
  pose proof (registry_ok_same_table _ _ Hok Hst Hl) as Hok2.
  destruct last.
  - unfold if_free_internal in H.
    apply bind_Ok in H as (ifp2 & v3 & Hload2 & H).
    destruct (frame_ifnet_load _ _ _ _ Hload2) as [Hst3 Hl3].
    apply bind_Ok in H as ([] & v4 & Hk & H).
    apply KASSERT_Ok in Hk as [-> _].
    inversion H as [Hv']. clear H.
    assert (Hok3 : registry_ok v3).
    { eapply registry_ok_same_table; [exact Hok2 | done | done]. }
    assert (Hp3 : p ∉ V_ifnet v3) by (rewrite Hl3, Hl; done).
    split; [by apply registry_ok_delete|]. simpl.
    split; [congruence|]. split.
    + intros i. unfold tbl. simpl.
      by rewrite (st_table _ _ Hst3), (st_table _ _ Hst).
    + by rewrite (st_index _ _ Hst3), (st_index _ _ Hst).
  - inversion H; subst v'. split; [done|]. split; [done|]. split.
    + intros i. by apply same_table_tbl.
    + apply Hst.
Qed.

(** What a call of [if_detach] on a live interface that returns has
    done: the interface is off the list and its table entry is free;
    no other entry has changed. *)
Lemma if_detach_ok v p ifp v' :
  registry_ok v -> p ∈ V_ifnet v -> ifnets v !! p = Some ifp ->
  if_detach p v = Ok tt v' ->
  registry_ok v' /\ V_ifnet v' = TAILQ_REMOVE p (V_ifnet v) /\
  tbl v' (if_index ifp) = SlotNull /\
  (forall i, 0 <= i -> i <> if_index ifp -> tbl v' i = tbl v i) /\
  V_if_index v' <= V_if_index v.
Proof.
  intros Hok Hp Hifp H. unfold if_detach in H.
  apply bind_Ok in H as ([] & v1 & Hdying & H).
  match type of Hdying with
  | ifnet_update _ ?f _ = _ =>
      destruct (frame_ifnet_update p f ltac:(by intros []) _ _ _ Hdying)
        as [Hst1 Hl1]
  end.
  pose proof (registry_ok_same_table _ _ Hok Hst1 Hl1) as Hok1.
  apply bind_Ok in H as ([] & v2 & Hint & H).
  (* if_detach_internal finds the interface on the list *)
  unfold if_detach_internal in Hint.
  apply bind_Ok in Hint as (v1' & v1'' & Hget & Hint).
  inversion Hget; subst v1' v1''. clear Hget.
  rewrite bool_decide_true in Hint by (by rewrite Hl1).
  apply bind_Ok in Hint as ([] & v1r & Hrem & Hint).
  inversion Hrem as [Hv1r]. clear Hrem. cbn [negb] in Hint.
  destruct (registry_ok_remove v1 p Hok1) as [Hok1r Hgone].
  rewrite Hv1r in Hok1r.
  assert (Hrest : frame (if_down p ;; ifnet_update p (set_if_addr None) ;;
                         if_delgroups p)).
  { apply frame_bind; [apply frame_if_down | intros ?].
    apply frame_bind; [frame_step | intros ?]. apply frame_if_delgroups. }
  destruct (Hrest _ _ _ Hint) as [Hst2 Hl2].
  pose proof (registry_ok_same_table _ _ Hok1r Hst2 Hl2) as Hok2.
  assert (Hst12 : same_table v1 v2).
  { eapply same_table_trans; [|exact Hst2]. subst v1r. by split. }
  pose proof (same_table_trans _ _ _ Hst1 Hst12) as Hst02.
  assert (Hlist2 : V_ifnet v2 = TAILQ_REMOVE p (V_ifnet v)).
  { rewrite Hl2. subst v1r. simpl. by rewrite Hl1. }
  (* the index is freed *)
  apply bind_Ok in H as (ifp2 & v2' & Hload & H).
  unfold ifnet_load in Hload.
  match type of Hload with
  | match ?X with _ => _ end = _ =>
      destruct X as [ifp2'|] eqn:Hp2; [|discriminate Hload]
  end.
  inversion Hload; subst ifp2' v2'. clear Hload.
  apply bind_Ok in H as (v2' & v2'' & Hget & H).
  inversion Hget; subst v2' v2''. clear Hget.
  apply bind_Ok in H as ([] & v2' & Hk & H).
  apply KASSERT_Ok in Hk as [-> _].
  destruct (same_table_index _ _ _ _ Hst02 Hifp) as (ifp2' & Hp2' & Hidx2).
  rewrite Hp2 in Hp2'. inversion Hp2'; subst ifp2'. clear Hp2'.
  destruct (ro_live _ Hok p Hp) as (ifp' & Hifp' & Hpos & Hslot).
  rewrite Hifp in Hifp'. inversion Hifp'; subst ifp'. clear Hifp'.
  apply bind_Ok in H as ([] & v3 & Hfree & H).
  assert (Hslot2 : tbl v2 (if_index ifp2) = SlotIfp p).
  { rewrite Hidx2, (same_table_tbl v v2) by done. done. }
  destruct (ifindex_free_spec v2 (if_index ifp2)) as (v3' & Hfree' & Hpost).
  { pose proof (wf_index _ (ro_wf _ Hok2)). lia. }
  { lia. }
  { apply tbl_used_lt; [lia | by rewrite Hslot2]. }
  rewrite Hfree' in Hfree. inversion Hfree; subst v3'. clear Hfree Hfree'.
  assert (Hgone2 : p ∉ V_ifnet v2).
  { rewrite Hlist2. rewrite <- Hl1. done. }
  assert (Hok3 : registry_ok v3).
  { eapply (registry_ok_free v2 p); eauto. lia. }
  assert (Hgone3 : p ∉ V_ifnet v3) by (by rewrite (fp_ifnet _ _ _ Hpost)).
  destruct (if_rele_ok _ _ _ Hok3 Hgone3 H) as (Hok' & Hl' & Ht' & Hi').
  split; [done|]. split.
  { by rewrite Hl', (fp_ifnet _ _ _ Hpost). }
  split.
  { rewrite Ht', <- Hidx2. apply (fp_slot _ _ _ Hpost). }
  split.
  { intros i Hi Hne. rewrite Ht', (fp_others _ _ _ Hpost) by congruence.
    by apply same_table_tbl. }
  rewrite Hi'. pose proof (fp_index_le _ _ _ Hpost).
  rewrite (st_index _ _ Hst02) in *. lia.
Qed.

(** ** Histories *)

Lemma ifunit_loop_ok l name v r v' :
  ifunit_loop l name v = Ok r v' ->
  v' = v /\ match r with Some p => p ∈ l | None => True end.
Proof.
  revert v r v'. induction l as [|q l IH]; simpl; intros v r v' H.
  - inversion H; subst. done.
  - apply bind_Ok in H as (ifq & v1 & Hload & H).
    unfold ifnet_load in Hload.
    destruct (ifnets v !! q); [|discriminate Hload].
    inversion Hload; subst. clear Hload.
    destruct (strncmp_eq _ _ _).
    + inversion H; subst. split; [done|]. apply elem_of_cons. by left.
    + destruct (IH _ _ _ H) as [-> Hr]. split; [done|].
      destruct r; [|done]. apply elem_of_cons. by right.
Qed.

Lemma ifunit_ok name v p v' :
  ifunit name v = Ok (Some p) v' -> v' = v /\ p ∈ V_ifnet v.
Proof.
  unfold ifunit. intros H. apply bind_Ok in H as (v0 & v1 & Hget & H).
  inversion Hget; subst. by apply ifunit_loop_ok in H.
Qed.

Lemma step_ok o v v' : registry_ok v -> step o v = Ok tt v' -> registry_ok v'.
Proof.
  intros Hok H. destruct o as [ifat|name]; simpl in H.
  - apply bind_Ok in H as ([r ifat'] & v1 & Hatt & H).
    inversion H; subst. by destruct (if_attach_ok _ _ _ _ _ Hok Hatt).
  - apply bind_Ok in H as (found & v1 & Hu & H).
    destruct found as [p|]; [|discriminate H].
    apply ifunit_ok in Hu as [-> Hp].
    destruct (ro_live _ Hok p Hp) as (ifp & Hifp & _).
    by destruct (if_detach_ok _ _ _ _ Hok Hp Hifp H).
Qed.

Lemma run_ok ops v v' : registry_ok v -> run ops v = Ok tt v' -> registry_ok v'.
Proof.
  revert v. induction ops as [|o ops IH]; simpl; intros v Hok H.
  - inversion H; subst. done.
  - apply bind_Ok in H as ([] & v1 & Hstep & H).
    eapply IH; [|exact H]. by eapply step_ok.
Qed.

Lemma vnet_if_init_ok :
  exists v0, vnet_if_init vnet_static = Ok tt v0 /\ registry_ok v0.
Proof.
  eexists. split; [reflexivity|]. split; [split|..]; simpl; try done.
  - intros i _. exact (tget_replicate 16 i).
  - by left.
  - intros p Hp. by apply elem_of_nil in Hp.
  - constructor.
  - intros p [? Hp]. by rewrite lookup_empty in Hp.
Qed.

Lemma boot_ok ops v : boot ops = Ok tt v -> registry_ok v.
Proof.
  unfold boot. intros H. apply bind_Ok in H as ([] & v0 & Hinit & H).
  destruct vnet_if_init_ok as (v0' & Hinit' & Hok0).
  rewrite Hinit' in Hinit. inversion Hinit; subst v0'.
  by eapply run_ok.
Qed.

Lemma registry_ok_nonzero v : registry_ok v -> indices_nonzero v.
Proof.
  intros Hok p Hp. destruct (ro_live _ Hok p Hp) as (ifp & Hifp & Hpos & _).
  exists ifp. split; [done | lia].
Qed.

Lemma registry_ok_unique v : registry_ok v -> indices_unique v.
Proof.
  intros Hok p q ifp ifq Hp Hq Hifp Hifq Heq.
  destruct (ro_live _ Hok p Hp) as (ifp' & Hifp' & _ & Htp).
  destruct (ro_live _ Hok q Hq) as (ifq' & Hifq' & _ & Htq).
  rewrite Hifp in Hifp'. rewrite Hifq in Hifq'.
  inversion Hifp'; inversion Hifq'; subst ifp' ifq'.
  rewrite Heq, Htq in Htp. by inversion Htp.
Qed.

(** An index freed by detach goes to the next interface attached,
    unless a lower one is free. *)
Lemma detach_attach_reuse v p ifp v1 ifat q ifat' v2 :
  registry_ok v -> p ∈ V_ifnet v -> ifnets v !! p = Some ifp ->
  if_detach p v = Ok tt v1 ->
  if_attach ifat v1 = Ok (Some q, ifat') v2 ->
  tbl v1 (if_index ifp) = SlotNull /\
  exists ifq, ifnets v2 !! q = Some ifq /\
    1 <= if_index ifq <= if_index ifp /\
    ((forall i, 1 <= i < if_index ifp -> tbl v1 i <> SlotNull) ->
     if_index ifq = if_index ifp).
Proof.
  intros Hok Hp Hifp Hdet Hatt.
  destruct (ro_live _ Hok p Hp) as (ifp' & Hifp' & Hpos & _).
  rewrite Hifp in Hifp'. inversion Hifp'; subst ifp'. clear Hifp'.
  destruct (if_detach_ok _ _ _ _ Hok Hp Hifp Hdet) as (Hok1 & _ & Hfree & _ & _).
  destruct (if_attach_ok _ _ _ _ _ Hok1 Hatt) as
    (_ & ifq & _ & _ & Hifq & Hqpos & Hres).
  split; [done|]. exists ifq. split; [done|].
  destruct Hres as [(_ & _ & Hnull & Hocc)|(? & _)]; [|lia].
  assert (Hle : if_index ifq <= if_index ifp).
  { destruct (Z.le_gt_cases (if_index ifq) (if_index ifp)) as [?|Hgt]; [done|].
    destruct (Hocc (if_index ifp)); [lia | done]. }
  split; [lia|]. intros Hbelow.
  destruct (Z.eq_dec (if_index ifq) (if_index ifp)) as [?|Hne]; [done|].
  destruct (Hbelow (if_index ifq)); [lia | done].
Qed.

End WithEnv.

(** ** Lookups *)

Lemma ifnet_byindex_locked_Some v idx p :
  ifnet_byindex_locked v idx = Some p <->
  idx <= V_if_index v /\ tbl v idx = SlotIfp p.
Proof.
  unfold ifnet_byindex_locked.
  destruct (Z.ltb_spec (V_if_index v) idx).
  - split; [done | lia].
  - destruct (tbl v idx) as [| |q].
    + split; [done | by intros [_ ?]].
    + split; [done | by intros [_ ?]].
    + split; [by intros [= ->] | by intros [_ [= ->]]].
Qed.

Lemma ifnet_byindex_locked_Some_2 v idx p :
  idx <= V_if_index v -> tbl v idx = SlotIfp p ->
  ifnet_byindex_locked v idx = Some p.
Proof. intros. by apply ifnet_byindex_locked_Some. Qed.

(** * Interface groups *)

Lemma TAILQ_REMOVE_length `{EqDecision A} (x : A) l :
  x ∈ l -> S (length (TAILQ_REMOVE x l)) = length l.
Proof.
  induction l as [|y l IH]; simpl; [by intros ?%elem_of_nil|].
  rewrite elem_of_cons. intros Hin.
  destruct (decide (x = y)) as [->|Hne]; [done|].
  simpl. f_equal. apply IH. by destruct Hin.
Qed.

Lemma TAILQ_REMOVE_app_new `{EqDecision A} (x : A) l :
  x ∉ l -> TAILQ_REMOVE x (l ++ [x]) = l.
Proof.
  induction l as [|y l IH]; simpl.
  - intros _. by destruct (decide (x = x)).
  - rewrite not_elem_of_cons. intros [Hne Hnin].
    destruct (decide (x = y)); [done|]. by rewrite IH.
Qed.

Lemma TAILQ_REMOVE_head `{EqDecision A} (x : A) l : TAILQ_REMOVE x (x :: l) = l.
Proof. simpl. by destruct (decide (x = x)). Qed.

(** ** Searching a list of group pointers *)

Lemma ifg_lookup_spec l name v :
  (forall g, g ∈ l -> is_Some (ifgroups v !! g)) ->
  exists r, ifg_lookup l name v = Ok r v /\
    match r with
    | Some g => g ∈ l /\ exists G, ifgroups v !! g = Some G /\ ifg_group G = name
    | None => forall g G, g ∈ l -> ifgroups v !! g = Some G -> ifg_group G <> name
    end.
Proof.
  induction l as [|g l IH]; intros Hvalid; simpl.
  - exists None. split; [done|]. intros g G Hg. by apply elem_of_nil in Hg.
  - destruct (Hvalid g) as [G HG]; [apply elem_of_cons; by left|].
    unfold bind, ifgroup_load. rewrite HG. unfold strcmp_eq.
    destruct (String.eqb_spec (ifg_group G) name) as [Heq|Hne].
    + exists (Some g). split; [done|]. split; [apply elem_of_cons; by left|].
      by exists G.
    + destruct IH as (r & Hr & Hspec).
      { intros g' Hg'. apply Hvalid, elem_of_cons. by right. }
      exists r. split; [done|]. destruct r as [g'|].
      * destruct Hspec as [Hin HG']. split; [apply elem_of_cons; by right | done].
      * intros g' G' Hg' HG'. apply elem_of_cons in Hg' as [->|Hg'].
        -- rewrite HG in HG'. by inversion HG'; subst.
        -- by eapply Hspec.
Qed.

(** The search reads the group objects only. *)
Lemma ifg_lookup_ext l name v v' r :
  ifgroups v' = ifgroups v ->
  ifg_lookup l name v = Ok r v -> ifg_lookup l name v' = Ok r v'.
Proof.
  intros Hg. induction l as [|g l IH]; simpl.
  - intros H. by inversion H.
  - unfold bind, ifgroup_load. rewrite Hg.
    destruct (ifgroups v !! g) as [G|]; [|done].
    destruct (strcmp_eq _ _); [|done]. intros H. by inversion H.
Qed.

(** ** Allocation *)

Lemma malloc_nowait_cases v :
  exists o,
    malloc_nowait v = Ok None (set_alloc (brk v) o v) \/
    malloc_nowait v = Ok (Some (brk v)) (set_alloc (Pos.succ (brk v)) o v) /\
    (nowait v = [] -> o = []).
Proof.
  unfold malloc_nowait. destruct (nowait v) as [|[] o].
  - exists []. by right.
  - exists o. right. by split.
  - exists o. by left.
Qed.

Lemma groups_ok_set_alloc v b o :
  groups_ok v -> (brk v <= b)%positive -> groups_ok (set_alloc b o v).
Proof.
  intros [H1 H2 H3 H4 H5] Hb. split; simpl; auto.
  intros g Hg. specialize (H5 g Hg). lia.
Qed.

(** ** Dropping a membership *)

(** The entry for [g] has just been unlinked from the interface, which
    now holds the groups [l']. *)
Lemma ifgl_release_spec v p ifp g G l' :
  groups_ok v -> ifnets v !! p = Some ifp ->
  g ∈ if_groups ifp -> ifgroups v !! g = Some G ->
  NoDup l' -> (forall x, x ∈ l' -> x ∈ if_groups ifp) -> g ∉ l' ->
  exists v',
    ifgl_release p g (set_ifnets (<[p := set_if_groups l' ifp]> (ifnets v)) v)
      = Ok tt v' /\
    groups_ok v' /\ release_post v p g G v' /\
    ifnets v' = <[p := set_if_groups l' ifp]> (ifnets v) /\
    brk v' = brk v /\ nowait v' = nowait v.
Proof.
  intros Hok Hp Hg HG Hnd Hsub Hnot.
  destruct Hok as [Hhead Hset Hcount Hheld Hfresh].
  destruct (Hheld p ifp Hp) as [Hndp Hmine].
  destruct (Hmine g Hg) as (G' & HG' & Hmember).
  rewrite HG in HG'. inversion HG'; subst G'. clear HG'.
  destruct (Hcount g G HG) as [Hcnt Hpos].
  pose proof (TAILQ_REMOVE_length p (ifg_members G) Hmember) as Hlen.
  unfold ifgl_release, bind, ifgroup_update, ifgroup_load, modify. simpl.
  rewrite HG. simpl. rewrite lookup_insert_eq. simpl. rewrite lookup_insert_eq.
  simpl. unfold release_post.
  destruct (Z.eqb_spec (ifg_refcnt G - 1) 0) as [Hlast|Hmore].
  - (* the last reference *)
    destruct (Z.eqb_spec (ifg_refcnt G) 1) as [_|?]; [|lia].
    eexists. split; [reflexivity|]. simpl.
    rewrite !delete_insert_eq.
    split; [|done].
    assert (Hempty : TAILQ_REMOVE p (ifg_members G) = []).
    { apply length_zero_iff_nil. lia. }
    destruct (TAILQ_REMOVE_NoDup g _ Hhead) as [Hnd' Hgone].
    split; simpl.
    + done.
    + intros g'. destruct (decide (g' = g)) as [->|Hne].
      * rewrite lookup_delete_eq. split; [done | by intros [? ?]].
      * rewrite lookup_delete_ne by done. rewrite <- Hset. split.
        -- apply TAILQ_REMOVE_elem_of.
        -- intros ?. by apply TAILQ_REMOVE_other.
    + intros g' G'. destruct (decide (g' = g)) as [->|Hne].
      * by rewrite lookup_delete_eq.
      * rewrite lookup_delete_ne by done. apply Hcount.
    + intros q ifq. destruct (decide (q = p)) as [->|Hqp].
      * rewrite lookup_insert_eq. intros [= <-]. simpl. split; [done|].
        intros g' Hg'. destruct (Hmine g' (Hsub g' Hg')) as (G' & HG' & Hm').
        exists G'. rewrite lookup_delete_ne by (intros ->; done). done.
      * rewrite lookup_insert_ne by done. intros Hq.
        destruct (Hheld q ifq Hq) as [Hndq Hq'].
        split; [done|]. intros g' Hg'.
        destruct (Hq' g' Hg') as (G' & HG' & Hm').
        exists G'. split; [|done].
        rewrite lookup_delete_ne; [done|]. intros ->.
        rewrite HG in HG'. inversion HG'; subst G'.
        pose proof (TAILQ_REMOVE_other p q _ Hm' Hqp) as Hin.
        rewrite Hempty in Hin. by apply elem_of_nil in Hin.
    + intros g'. destruct (decide (g' = g)) as [->|Hne].
      * rewrite lookup_delete_eq. by intros [? ?].
      * rewrite lookup_delete_ne by done. apply Hfresh.
  - (* other references remain *)
    destruct (Z.eqb_spec (ifg_refcnt G) 1) as [?|_]; [lia|].
    eexists. split; [reflexivity|]. simpl.
    rewrite !insert_insert_eq.
    split; [|done].
    split; simpl.
    + done.
    + intros g'. rewrite Hset. destruct (decide (g' = g)) as [->|Hne].
      * rewrite lookup_insert_eq, HG. split; intros _; by eexists.
      * by rewrite lookup_insert_ne.
    + intros g' G'. destruct (decide (g' = g)) as [->|Hne].
      * rewrite lookup_insert_eq. intros [= <-]. simpl. lia.
      * rewrite lookup_insert_ne by done. apply Hcount.
    + intros q ifq. destruct (decide (q = p)) as [->|Hqp].
      * rewrite lookup_insert_eq. intros [= <-]. simpl. split; [done|].
        intros g' Hg'. destruct (Hmine g' (Hsub g' Hg')) as (G' & HG' & Hm').
        exists G'. rewrite lookup_insert_ne by (intros ->; done). done.
      * rewrite lookup_insert_ne by done. intros Hq.
        destruct (Hheld q ifq Hq) as [Hndq Hq'].
        split; [done|]. intros g' Hg'.
        destruct (Hq' g' Hg') as (G' & HG' & Hm').
        destruct (decide (g' = g)) as [->|Hne].
        -- rewrite lookup_insert_eq. eexists. split; [done|]. simpl.
           rewrite HG in HG'. inversion HG'; subst G'.
           by apply TAILQ_REMOVE_other.
        -- exists G'. by rewrite lookup_insert_ne.
    + intros g'. destruct (decide (g' = g)) as [->|Hne].
      * intros _. apply Hfresh. by exists G.
      * rewrite lookup_insert_ne by done. apply Hfresh.
Qed.

Lemma groups_held_valid v p ifp :
  groups_ok v -> ifnets v !! p = Some ifp ->
  forall g, g ∈ if_groups ifp -> is_Some (ifgroups v !! g).
Proof.
  intros Hok Hp g Hg. destruct (go_held _ Hok p ifp Hp) as [_ Hmine].
  destruct (Hmine g Hg) as (G & HG & _). by exists G.
Qed.

(** ** [if_delgroup] *)

Lemma if_delgroup_spec v p ifp groupname :
  groups_ok v -> ifnets v !! p = Some ifp ->
  exists e v', if_delgroup p groupname v = Ok e v' /\ groups_ok v' /\
    ((e = ENOENT /\ v' = v /\
      forall g G, g ∈ if_groups ifp -> ifgroups v !! g = Some G ->
                  ifg_group G <> groupname)
     \/ (e = 0 /\ exists g G,
           g ∈ if_groups ifp /\ ifgroups v !! g = Some G /\
           ifg_group G = groupname /\ release_post v p g G v' /\
           ifnets v' = <[p := set_if_groups (TAILQ_REMOVE g (if_groups ifp)) ifp]>
                         (ifnets v) /\
           brk v' = brk v /\ nowait v' = nowait v)).
Proof.
  intros Hok Hp. unfold if_delgroup.
  assert (Hload : ifnet_load p v = Ok ifp v) by (unfold ifnet_load; by rewrite Hp).
  rewrite (bind_step _ _ _ _ _ Hload).
  destruct (ifg_lookup_spec (if_groups ifp) groupname v) as (r & Hr & Hspec).
  { by apply (groups_held_valid v p). }
  rewrite (bind_step _ _ _ _ _ Hr).
  destruct r as [g|].
  - destruct Hspec as (Hg & G & HG & Hname).
    destruct (go_held _ Hok p ifp Hp) as [Hnd _].
    destruct (TAILQ_REMOVE_NoDup g _ Hnd) as [Hnd' Hgone].
    destruct (ifgl_release_spec v p ifp g G (TAILQ_REMOVE g (if_groups ifp)))
      as (v' & Hrel & Hok' & Hpost & Hmap & Hb & Ho); auto.
    { intros x. apply TAILQ_REMOVE_elem_of. }
    exists 0, v'. split.
    { unfold bind at 1. unfold ifnet_update. rewrite Hp.
      unfold bind. rewrite Hrel. done. }
    split; [done|]. right. split; [done|]. exists g, G. by repeat split.
  - exists ENOENT, v. split; [done|]. split; [done|]. left. by repeat split.
Qed.

(** ** [if_delgroups] *)

Lemma if_delgroups_loop_spec gs : forall v p ifp,
  groups_ok v -> ifnets v !! p = Some ifp -> if_groups ifp = gs ->
  exists v', if_delgroups_loop p gs v = Ok tt v' /\ groups_ok v' /\
    ifnets v' !! p = Some (set_if_groups [] ifp) /\
    (forall q, q <> p -> ifnets v' !! q = ifnets v !! q) /\
    brk v' = brk v /\ nowait v' = nowait v.
Proof.
  induction gs as [|g rest IH]; intros v p ifp Hok Hp Hgs.
  - exists v. split; [done|]. split; [done|]. split; [|done].
    rewrite Hp. f_equal. destruct ifp. simpl in *. by subst.
  - cbn [if_delgroups_loop].
    destruct (go_held _ Hok p ifp Hp) as [Hnd _]. rewrite Hgs in Hnd.
    apply NoDup_cons in Hnd as [Hnot Hnd].
    destruct (groups_held_valid v p ifp Hok Hp g) as [G HG].
    { rewrite Hgs. apply elem_of_cons. by left. }
    destruct (ifgl_release_spec v p ifp g G rest)
      as (v1 & Hrel & Hok1 & _ & Hmap & Hb & Ho); auto.
    { rewrite Hgs. apply elem_of_cons. by left. }
    { intros x Hx. rewrite Hgs. apply elem_of_cons. by right. }
    destruct (IH v1 p (set_if_groups rest ifp)) as
      (v' & Hloop & Hok' & Hp' & Hothers & Hb' & Ho'); auto.
    { rewrite Hmap. apply lookup_insert_eq. }
    exists v'. split.
    { unfold bind at 1. unfold ifnet_update. rewrite Hp.
      unfold bind. rewrite Hrel. done. }
    split; [done|]. split; [done|]. split.
    { intros q Hq. rewrite Hothers by done. rewrite Hmap.
      by rewrite lookup_insert_ne. }
    split; congruence.
Qed.

Lemma if_delgroups_spec v p ifp :
  groups_ok v -> ifnets v !! p = Some ifp ->
  exists v', if_delgroups p v = Ok tt v' /\ groups_ok v' /\
    ifnets v' !! p = Some (set_if_groups [] ifp) /\
    (forall q, q <> p -> ifnets v' !! q = ifnets v !! q) /\
    brk v' = brk v /\ nowait v' = nowait v.
Proof.
  intros Hok Hp. unfold if_delgroups.
  assert (Hload : ifnet_load p v = Ok ifp v) by (unfold ifnet_load; by rewrite Hp).
  rewrite (bind_step _ _ _ _ _ Hload). by apply if_delgroups_loop_spec.
Qed.

(** ** [if_addgroup] *)

(** The interface joins a group that is on the set. *)
Lemma groups_ok_join v v' p ifp g G :
  groups_ok v -> ifnets v !! p = Some ifp -> ifgroups v !! g = Some G ->
  g ∉ if_groups ifp ->
  V_ifg_head v' = V_ifg_head v ->
  ifgroups v' = <[g := {| ifg_group := ifg_group G;
                          ifg_refcnt := ifg_refcnt G + 1;
                          ifg_members := ifg_members G ++ [p] |}]> (ifgroups v) ->
  ifnets v' = <[p := set_if_groups (if_groups ifp ++ [g]) ifp]> (ifnets v) ->
  (brk v <= brk v')%positive ->
  groups_ok v'.
Proof.
  intros [Hhead Hset Hcount Hheld Hfresh] Hp HG Hnew Hh Hgr Hif Hb.
  destruct (Hheld p ifp Hp) as [Hndp Hmine].
  split.
  - by rewrite Hh.
  - intros g'. rewrite Hh, Hgr, Hset. destruct (decide (g' = g)) as [->|Hne].
    + rewrite lookup_insert_eq, HG. split; intros _; by eexists.
    + by rewrite lookup_insert_ne.
  - intros g' G'. rewrite Hgr. destruct (decide (g' = g)) as [->|Hne].
    + rewrite lookup_insert_eq. intros [= <-]. simpl.
      destruct (Hcount g G HG). rewrite length_app. simpl. lia.
    + rewrite lookup_insert_ne by done. apply Hcount.
  - intros q ifq. rewrite Hif, Hgr. destruct (decide (q = p)) as [->|Hqp].
    + rewrite lookup_insert_eq. intros [= <-]. simpl. split.
      * apply NoDup_app. split; [done|]. split; [|apply NoDup_singleton].
        intros x Hx. rewrite list_elem_of_singleton. by intros ->.
      * intros g'. rewrite elem_of_app, list_elem_of_singleton. intros [Hg'| ->].
        -- destruct (Hmine g' Hg') as (G' & HG' & Hm').
           exists G'. rewrite lookup_insert_ne by (intros ->; done). done.
        -- rewrite lookup_insert_eq. eexists. split; [done|]. simpl.
           rewrite elem_of_app, list_elem_of_singleton. by right.
    + rewrite lookup_insert_ne by done. intros Hq.
      destruct (Hheld q ifq Hq) as [Hndq Hq']. split; [done|].
      intros g' Hg'. destruct (Hq' g' Hg') as (G' & HG' & Hm').
      destruct (decide (g' = g)) as [->|Hne].
      * rewrite lookup_insert_eq. eexists. split; [done|]. simpl.
        rewrite HG in HG'. inversion HG'; subst G'.
        rewrite elem_of_app. by left.
      * exists G'. by rewrite lookup_insert_ne.
  - intros g'. rewrite Hgr. destruct (decide (g' = g)) as [->|Hne].
    + intros _. assert (g < brk v)%positive by (apply Hfresh; by exists G). lia.
    + rewrite lookup_insert_ne by done. intros Hs. specialize (Hfresh g' Hs). lia.
Qed.

(** The interface is the first member of a new group. *)
Lemma groups_ok_create v v' p ifp g name :
  groups_ok v -> ifnets v !! p = Some ifp -> ifgroups v !! g = None ->
  (g < brk v')%positive ->
  V_ifg_head v' = V_ifg_head v ++ [g] ->
  ifgroups v' = <[g := {| ifg_group := name; ifg_refcnt := 1;
                          ifg_members := [p] |}]> (ifgroups v) ->
  ifnets v' = <[p := set_if_groups (if_groups ifp ++ [g]) ifp]> (ifnets v) ->
  (brk v <= brk v')%positive ->
  groups_ok v'.
Proof.
  intros [Hhead Hset Hcount Hheld Hfresh] Hp HG Hg Hh Hgr Hif Hb.
  destruct (Hheld p ifp Hp) as [Hndp Hmine].
  assert (Hnothead : g ∉ V_ifg_head v).
  { intros Hin. apply Hset in Hin as [? Hin]. congruence. }
  assert (Hnew : g ∉ if_groups ifp).
  { intros Hin. destruct (Hmine g Hin) as (G' & HG' & _). congruence. }
  split.
  - rewrite Hh. apply NoDup_app. split; [done|]. split; [|apply NoDup_singleton].
    intros x Hx. rewrite list_elem_of_singleton. by intros ->.
  - intros g'. rewrite Hh, Hgr, elem_of_app, list_elem_of_singleton, Hset.
    destruct (decide (g' = g)) as [->|Hne].
    + rewrite lookup_insert_eq. split; [by eexists | by right].
    + rewrite lookup_insert_ne by done. split; [by intros [?|?] | by left].
  - intros g' G'. rewrite Hgr. destruct (decide (g' = g)) as [->|Hne].
    + rewrite lookup_insert_eq. intros [= <-]. simpl. lia.
    + rewrite lookup_insert_ne by done. apply Hcount.
  - intros q ifq. rewrite Hif, Hgr. destruct (decide (q = p)) as [->|Hqp].
    + rewrite lookup_insert_eq. intros [= <-]. simpl. split.
      * apply NoDup_app. split; [done|]. split; [|apply NoDup_singleton].
        intros x Hx. rewrite list_elem_of_singleton. by intros ->.
      * intros g'. rewrite elem_of_app, list_elem_of_singleton. intros [Hg'| ->].
        -- destruct (Hmine g' Hg') as (G' & HG' & Hm').
           exists G'. rewrite lookup_insert_ne by (intros ->; done). done.
        -- rewrite lookup_insert_eq. eexists. split; [done|]. simpl.
           apply list_elem_of_singleton. done.
    + rewrite lookup_insert_ne by done. intros Hq.
      destruct (Hheld q ifq Hq) as [Hndq Hq']. split; [done|].
      intros g' Hg'. destruct (Hq' g' Hg') as (G' & HG' & Hm').
      exists G'. rewrite lookup_insert_ne by (intros ->; congruence). done.
  - intros g'. rewrite Hgr. destruct (decide (g' = g)) as [->|Hne].
    + done.
    + rewrite lookup_insert_ne by done. intros Hs. specialize (Hfresh g' Hs). lia.
Qed.

(** Close the side goals about an error return. *)
Ltac error_return :=
  split; [by intros [=] | split; [done|]].

Lemma if_addgroup_spec v p ifp groupname :
  groups_ok v -> ifnets v !! p = Some ifp ->
  exists e v', if_addgroup p groupname v = Ok e v' /\ groups_ok v' /\
    (e = 0 -> exists g, addgroup_post v p ifp groupname g v') /\
    (e <> 0 -> ifnets v' = ifnets v /\ ifgroups v' = ifgroups v /\
               V_ifg_head v' = V_ifg_head v) /\
    (nowait v = [] -> ends_in_digit groupname = false ->
     (forall g G, g ∈ if_groups ifp -> ifgroups v !! g = Some G ->
                  ifg_group G <> groupname) ->
     e = 0 /\ nowait v' = []).
Proof.
  intros Hok Hp. unfold if_addgroup.
  destruct (ends_in_digit groupname) eqn:Hdigit.
  { exists EINVAL, v. split; [done|]. split; [done|]. error_return.
    by intros _ [=]. }
  assert (Hload : ifnet_load p v = Ok ifp v) by (unfold ifnet_load; by rewrite Hp).
  rewrite (bind_step _ _ _ _ _ Hload).
  destruct (ifg_lookup_spec (if_groups ifp) groupname v) as (r & Hr & Hmember).
  { by apply (groups_held_valid v p). }
  rewrite (bind_step _ _ _ _ _ Hr).
  destruct r as [g0|].
  { exists EEXIST, v. split; [done|]. split; [done|]. error_return.
    intros _ _ Hfree. destruct Hmember as (Hin & G & HG & Hname).
    by destruct (Hfree g0 G). }
  (* the list entry *)
  destruct (malloc_nowait_cases v) as (o1 & [Hm1|[Hm1 Ho1]]);
    rewrite (bind_step _ _ _ _ _ Hm1).
  { exists ENOMEM. eexists. split; [reflexivity|].
    split; [apply groups_ok_set_alloc; [done | simpl; lia]|].
    error_return. intros Hnw. unfold malloc_nowait in Hm1.
    rewrite Hnw in Hm1. discriminate. }
  set (v1 := set_alloc (Pos.succ (brk v)) o1 v) in *.
  assert (Hok1 : groups_ok v1) by (apply groups_ok_set_alloc; [done | lia]).
  (* the member entry *)
  destruct (malloc_nowait_cases v1) as (o2 & [Hm2|[Hm2 Ho2]]);
    rewrite (bind_step _ _ _ _ _ Hm2).
  { exists ENOMEM. eexists. split; [reflexivity|].
    split; [apply groups_ok_set_alloc; [done | simpl; lia]|].
    error_return. intros Hnw. unfold malloc_nowait in Hm2.
    simpl in Hm2. rewrite (Ho1 Hnw) in Hm2. discriminate. }
  set (v2 := set_alloc (Pos.succ (brk v1)) o2 v1) in *.
  assert (Hok2 : groups_ok v2) by (apply groups_ok_set_alloc; [done | lia]).
  unfold bind at 1. unfold get.
  destruct (ifg_lookup_spec (V_ifg_head v2) groupname v2) as (found & Hf & Hfound).
  { intros g Hg. by apply (go_set _ Hok). }
  rewrite (bind_step _ _ _ _ _ Hf).
  destruct found as [g|].
  - (* the group exists *)
    destruct Hfound as (Hhead & G & HG & Hname).
    change (ifgroups v !! g = Some G) in HG.
    change (g ∈ V_ifg_head v) in Hhead.
    assert (Hnotmine : g ∉ if_groups ifp).
    { intros Hin. by destruct (Hmember g G Hin HG). }
    unfold bind, ret, ifgroup_update, ifnet_update. simpl.
    rewrite HG. simpl. rewrite lookup_insert_eq. simpl. rewrite Hp.
    exists 0. eexists. split; [reflexivity|].
    rewrite insert_insert_eq.
    split.
    { eapply (groups_ok_join v _ p ifp g G); eauto; simpl; lia. }
    split.
    { intros _. exists g. split; [done|]. left. exists G. by repeat split. }
    split; [done|].
    intros Hnw _ _. split; [done|]. simpl. by rewrite Ho2; [|simpl; apply Ho1].
  - (* a new group *)
    destruct (malloc_nowait_cases v2) as (o3 & [Hm3|[Hm3 Ho3]]).
    { unfold bind at 1. unfold bind at 1. rewrite Hm3.
      exists ENOMEM. eexists. split; [reflexivity|].
      split; [apply groups_ok_set_alloc; [done | simpl; lia]|].
      error_return. intros Hnw. unfold malloc_nowait in Hm3.
      simpl in Hm3. rewrite (Ho2 (Ho1 Hnw)) in Hm3. discriminate. }
    unfold bind at 1. unfold bind at 1. rewrite Hm3.
    unfold bind, ret, modify, ifgroup_update, ifnet_update. simpl.
    rewrite lookup_insert_eq. simpl. rewrite lookup_insert_eq. simpl. rewrite Hp.
    exists 0. eexists. split; [reflexivity|].
    rewrite !insert_insert_eq.
    assert (HGnone : ifgroups v !! Pos.succ (Pos.succ (brk v)) = None).
    { destruct (ifgroups v !! _) as [G|] eqn:HG; [|done].
      pose proof (go_fresh _ Hok _ (mk_is_Some _ _ HG)). lia. }
    split.
    { eapply (groups_ok_create v _ p ifp (Pos.succ (Pos.succ (brk v))));
        eauto; simpl; lia. }
    split.
    { intros _. exists (Pos.succ (Pos.succ (brk v))). split; [done|]. right.
      split; [done|]. split; [exact Hfound|]. by split. }
    split; [done|].
    intros Hnw _ _. split; [done|]. simpl. apply Ho3. simpl. apply Ho2. simpl.
    by apply Ho1.
Qed.

(** ** Joining and leaving a named group *)

Lemma held_not_named v p ifp name :
  groups_ok v -> ifnets v !! p = Some ifp -> no_group_named v name ->
  forall g G, g ∈ if_groups ifp -> ifgroups v !! g = Some G -> ifg_group G <> name.
Proof.
  intros Hok Hp Hnone g G Hg HG. apply (Hnone g G); [|done].
  apply (go_set _ Hok). by exists G.
Qed.

(** The first interface to join creates the group. *)
Lemma if_addgroup_creates v p ifp name :
  groups_ok v -> ifnets v !! p = Some ifp -> nowait v = [] ->
  ends_in_digit name = false -> no_group_named v name ->
  exists g v', if_addgroup p name v = Ok 0 v' /\ groups_ok v' /\
    nowait v' = [] /\ ifgroups v !! g = None /\
    V_ifg_head v' = V_ifg_head v ++ [g] /\
    ifgroups v' = <[g := {| ifg_group := strlcpy name IFNAMSIZ; ifg_refcnt := 1;
                            ifg_members := [p] |}]> (ifgroups v) /\
    ifnets v' = <[p := set_if_groups (if_groups ifp ++ [g]) ifp]> (ifnets v).
Proof.
  intros Hok Hp Hnw Hdigit Hnone.
  destruct (if_addgroup_spec v p ifp name Hok Hp) as
    (e & v' & Hrun & Hok' & Hpost & _ & Hsuccess).
  destruct Hsuccess as [-> Hnw']; auto.
  { by apply (held_not_named v p). }
  destruct (Hpost eq_refl) as (g & Hif & [Hjoin|Hnew]).
  - destruct Hjoin as (G & Hhead & HG & Hname & _). by destruct (Hnone g G).
  - destruct Hnew as (HG & _ & Hh & Hgr). exists g, v'.
    repeat (split; [done|]). done.
Qed.

(** A further interface joins the group that bears the name. *)
Lemma if_addgroup_joins v p ifp name g G :
  groups_ok v -> ifnets v !! p = Some ifp -> nowait v = [] ->
  ends_in_digit name = false ->
  ifgroups v !! g = Some G -> ifg_group G = name ->
  (forall g' G', ifgroups v !! g' = Some G' -> ifg_group G' = name -> g' = g) ->
  g ∉ if_groups ifp ->
  exists v', if_addgroup p name v = Ok 0 v' /\ groups_ok v' /\
    nowait v' = [] /\ V_ifg_head v' = V_ifg_head v /\
    ifgroups v' = <[g := {| ifg_group := ifg_group G;
                            ifg_refcnt := ifg_refcnt G + 1;
                            ifg_members := ifg_members G ++ [p] |}]> (ifgroups v) /\
    ifnets v' = <[p := set_if_groups (if_groups ifp ++ [g]) ifp]> (ifnets v).
Proof.
  intros Hok Hp Hnw Hdigit HG Hname Huniq Hnotmine.
  destruct (if_addgroup_spec v p ifp name Hok Hp) as
    (e & v' & Hrun & Hok' & Hpost & _ & Hsuccess).
  destruct Hsuccess as [-> Hnw']; auto.
  { intros g' G' Hg' HG' Hn'. pose proof (Huniq g' G' HG' Hn') as ->. done. }
  destruct (Hpost eq_refl) as (g' & Hif & [Hjoin|Hnew]).
  - destruct Hjoin as (G' & Hhead & HG' & Hname' & Hh & Hgr).
    pose proof (Huniq g' G' HG' Hname') as ->.
    rewrite HG in HG'. inversion HG'; subst G'.
    exists v'. repeat (split; [done|]). done.
  - destruct Hnew as (_ & Hnone & _).
    destruct (Hnone g G); [|done|done]. apply (go_set _ Hok). by exists G.
Qed.

(** An interface leaves the group that bears the name. *)
Lemma if_delgroup_leaves v p ifp name g G :
  groups_ok v -> ifnets v !! p = Some ifp ->
  g ∈ if_groups ifp -> ifgroups v !! g = Some G -> ifg_group G = name ->
  (forall g' G', ifgroups v !! g' = Some G' -> ifg_group G' = name -> g' = g) ->
  exists v', if_delgroup p name v = Ok 0 v' /\ groups_ok v' /\
    release_post v p g G v' /\
    ifnets v' = <[p := set_if_groups (TAILQ_REMOVE g (if_groups ifp)) ifp]>
                  (ifnets v) /\
    nowait v' = nowait v.
Proof.
  intros Hok Hp Hg HG Hname Huniq.
  destruct (if_delgroup_spec v p ifp name Hok Hp) as
    (e & v' & Hrun & Hok' & [(-> & -> & Hnone)|(-> & g' & G' & Hg' & HG' & Hn' & Hrest)]).
  - by destruct (Hnone g G).
  - pose proof (Huniq g' G' HG' Hn') as ->.
    rewrite HG in HG'. inversion HG'; subst G'.
    destruct Hrest as (? & ? & ? & ?). exists v'.
    repeat (split; [done|]). done.
Qed.

(** ** The group invariant under the other steps of attach and detach *)

Lemma groups_ok_ext v v' :
  groups_ok v -> V_ifg_head v' = V_ifg_head v -> ifgroups v' = ifgroups v ->
  (brk v <= brk v')%positive ->
  (forall q ifq', ifnets v' !! q = Some ifq' ->
     exists ifq, ifnets v !! q = Some ifq /\ if_groups ifq' = if_groups ifq) ->
  groups_ok v'.
Proof.
  intros [Hhead Hset Hcount Hheld Hfresh] Hh Hg Hb Hobjs. split.
  - by rewrite Hh.
  - intros g. by rewrite Hh, Hg.
  - intros g G. rewrite Hg. apply Hcount.
  - intros q ifq' Hq. destruct (Hobjs q ifq' Hq) as (ifq & Hq0 & Heq).
    rewrite Heq, Hg. by apply Hheld.
  - intros g. rewrite Hg. intros Hs. specialize (Hfresh g Hs). lia.
Qed.

Lemma ifnet_update_total v p ifp f :
  ifnets v !! p = Some ifp ->
  ifnet_update p f v = Ok tt (set_ifnets (<[p := f ifp]> (ifnets v)) v).
Proof. intros Hp. unfold ifnet_update. by rewrite Hp. Qed.

Lemma ifnet_load_total v p ifp :
  ifnets v !! p = Some ifp -> ifnet_load p v = Ok ifp v.
Proof. intros Hp. unfold ifnet_load. by rewrite Hp. Qed.

Lemma groups_ok_update v p ifp ifp' :
  groups_ok v -> ifnets v !! p = Some ifp -> if_groups ifp' = if_groups ifp ->
  groups_ok (set_ifnets (<[p := ifp']> (ifnets v)) v).
Proof.
  intros Hok Hp Heq. apply (groups_ok_ext v); simpl; [done | done | done | lia |].
  intros q ifq'. destruct (decide (q = p)) as [->|Hne].
  - rewrite lookup_insert_eq. intros [= <-]. by exists ifp.
  - rewrite lookup_insert_ne by done. intros Hq. by exists ifq'.
Qed.

Lemma same_table_update v p ifp ifp' :
  ifnets v !! p = Some ifp -> if_index ifp' = if_index ifp ->
  same_table v (set_ifnets (<[p := ifp']> (ifnets v)) v).
Proof.
  intros Hp Heq. split; simpl; [done | done | done | | lia].
  intros q. destruct (decide (q = p)) as [->|Hne].
  - rewrite lookup_insert_eq, Hp. simpl. by rewrite Heq.
  - by rewrite lookup_insert_ne.
Qed.

Lemma groups_ok_new_object v ifp o :
  groups_ok v -> if_groups ifp = [] ->
  groups_ok (set_ifnets (<[brk v := ifp]> (ifnets v))
               (set_alloc (Pos.succ (brk v)) o v)).
Proof.
  intros [Hhead Hset Hcount Hheld Hfresh] Hempty. split; simpl; auto.
  - intros q ifq. destruct (decide (q = brk v)) as [->|Hne].
    + rewrite lookup_insert_eq. intros [= <-]. rewrite Hempty.
      split; [constructor|]. intros g Hg. by apply elem_of_nil in Hg.
    + rewrite lookup_insert_ne by done. apply Hheld.
  - intros g Hs. specialize (Hfresh g Hs). lia.
Qed.

Lemma groups_ok_delete v p :
  groups_ok v -> groups_ok (set_ifnets (delete p (ifnets v)) v).
Proof.
  intros [Hhead Hset Hcount Hheld Hfresh]. split; simpl; auto.
  intros q ifq. destruct (decide (q = p)) as [->|Hne].
  - by rewrite lookup_delete_eq.
  - rewrite lookup_delete_ne by done. apply Hheld.
Qed.

Lemma groups_ok_set_V_ifnet v l : groups_ok v -> groups_ok (set_V_ifnet l v).
Proof. intros [? ? ? ? ?]. by split. Qed.

Lemma flag_set_dying_down flags :
  flag_set (Z.land (Z.lor flags IFF_DYING) (Z.lnot IFF_UP)) IFF_DYING = true.
Proof.
  unfold flag_set. apply negb_true_iff, Z.eqb_neq. intros Hz.
  assert (Hbit : Z.testbit (Z.land (Z.land (Z.lor flags IFF_DYING) (Z.lnot IFF_UP))
                              IFF_DYING) 21 = true).
  { rewrite !Z.land_spec, Z.lor_spec, Z.lnot_spec by lia.
    replace (Z.testbit IFF_DYING 21) with true by reflexivity.
    replace (Z.testbit IFF_UP 21) with false by reflexivity.
    by rewrite orb_true_r. }
  rewrite Hz in Hbit. by rewrite Z.bits_0 in Hbit.
Qed.

Section WithEnv.
Context `{env : Env}.

(** ** Detach runs to its end *)

Lemma if_detach_internal_same_table p v v' :
  if_detach_internal p v = Ok tt v' -> same_table v v'.
Proof.
  unfold if_detach_internal. intros H.
  apply bind_Ok in H as (v0 & v0' & Hget & H). inversion Hget; subst v0 v0'.
  destruct (bool_decide (p ∈ V_ifnet v)).
  - apply bind_Ok in H as ([] & v1 & Hrem & H). inversion Hrem; subst v1.
    cbn [negb] in H.
    assert (Hrest : frame (if_down p ;; ifnet_update p (set_if_addr None) ;;
                           if_delgroups p)).
    { apply frame_bind; [apply frame_if_down | intros ?].
      apply frame_bind; [frame_step | intros ?]. apply frame_if_delgroups. }
    destruct (Hrest _ _ _ H) as [Hst _].
    eapply same_table_trans; [|exact Hst]. by split.
  - apply bind_Ok in H as ([] & v1 & Hrem & H). inversion Hrem; subst v1.
    cbn [negb] in H. inversion H; subst. apply same_table_refl.
Qed.

Lemma if_detach_internal_total v p ifp :
  groups_ok v -> p ∈ V_ifnet v -> ifnets v !! p = Some ifp ->
  exists v', if_detach_internal p v = Ok tt v' /\ groups_ok v' /\
    ifnets v' !! p =
      Some (set_if_groups [] (set_if_addr None
              (set_if_flags (Z.land (if_flags ifp) (Z.lnot IFF_UP)) ifp))).
Proof.
  intros Hgo Hp Hifp. unfold if_detach_internal.
  unfold bind at 1. unfold get. rewrite bool_decide_true by done.
  unfold bind at 1. unfold modify at 1. cbn [negb].
  set (v1 := set_V_ifnet (TAILQ_REMOVE p (V_ifnet v)) v).
  assert (Hgo1 : groups_ok v1) by (by apply groups_ok_set_V_ifnet).
  assert (Hif1 : ifnets v1 !! p = Some ifp) by done.
  unfold if_down.
  rewrite (bind_step _ _ _ _ _ (ifnet_update_total v1 p ifp _ Hif1)).
  cbv beta.
  set (ifp2 := set_if_flags (Z.land (if_flags ifp) (Z.lnot IFF_UP)) ifp).
  set (v2 := set_ifnets (<[p := ifp2]> (ifnets v1)) v1).
  assert (Hgo2 : groups_ok v2) by (by apply (groups_ok_update v1 p ifp)).
  assert (Hif2 : ifnets v2 !! p = Some ifp2) by apply lookup_insert_eq.
  rewrite (bind_step _ _ _ _ _ (ifnet_update_total v2 p ifp2 _ Hif2)).
  set (ifp3 := set_if_addr None ifp2).
  set (v3 := set_ifnets (<[p := ifp3]> (ifnets v2)) v2).
  assert (Hgo3 : groups_ok v3) by (by apply (groups_ok_update v2 p ifp2)).
  assert (Hif3 : ifnets v3 !! p = Some ifp3) by apply lookup_insert_eq.
  destruct (if_delgroups_spec v3 p ifp3 Hgo3 Hif3) as (v4 & Hrun & Hgo4 & Hif4 & _).
  exists v4. by repeat (split; [done|]).
Qed.

Lemma if_detach_total v p :
  registry_ok v -> groups_ok v -> p ∈ V_ifnet v ->
  exists v', if_detach p v = Ok tt v' /\ registry_ok v' /\ groups_ok v'.
Proof.
  intros Hok Hgo Hp.
  destruct (ro_live _ Hok p Hp) as (ifp & Hifp & Hpos & Hslot).
  assert (Hrun : exists v', if_detach p v = Ok tt v' /\ groups_ok v').
  { unfold if_detach.
    rewrite (bind_step _ _ _ _ _ (ifnet_update_total v p ifp _ Hifp)).
    cbv beta.
    set (ifp1 := set_if_flags (Z.lor (if_flags ifp) IFF_DYING) ifp).
    set (v1 := set_ifnets (<[p := ifp1]> (ifnets v)) v).
    assert (Hgo1 : groups_ok v1) by (by apply (groups_ok_update v p ifp)).
    assert (Hif1 : ifnets v1 !! p = Some ifp1) by apply lookup_insert_eq.
    assert (Hst1 : same_table v v1) by (by apply (same_table_update v p ifp)).
    destruct (if_detach_internal_total v1 p ifp1 Hgo1 Hp Hif1) as
      (v4 & Hint & Hgo4 & Hif4).
    pose proof (if_detach_internal_same_table _ _ _ Hint) as Hst14.
    pose proof (same_table_trans _ _ _ Hst1 Hst14) as Hst4.
    rewrite (bind_step _ _ _ _ _ Hint).
    rewrite (bind_step _ _ _ _ _ (ifnet_load_total v4 p _ Hif4)).
    unfold bind at 1. unfold get.
    cbn [if_index set_if_groups set_if_addr set_if_flags ifp1].
    (* the assertion holds *)
    rewrite bool_decide_true; cycle 1.
    { apply ifnet_byindex_locked_Some_2.
      - rewrite (st_index _ _ Hst4).
        pose proof (wf_above _ (ro_wf _ Hok) (if_index ifp)) as Hab.
        destruct (Z.le_gt_cases (if_index ifp) (V_if_index v)); [done|].
        rewrite Hab in Hslot by lia. done.
      - by rewrite (same_table_tbl v v4). }
    rewrite (bind_step _ _ _ _ _ (KASSERT_true _ _ _)).
    (* the index is freed *)
    destruct (ifindex_free_spec v4 (if_index ifp)) as (v5 & Hfree & Hpost).
    { rewrite (st_index _ _ Hst4). apply (ro_wf _ Hok). }
    { lia. }
    { apply tbl_used_lt; [lia|].
      rewrite (same_table_tbl v v4) by done. by rewrite Hslot. }
    rewrite (bind_step _ _ _ _ _ Hfree).
    assert (Hgo5 : groups_ok v5).
    { apply (groups_ok_ext v4); try done; try apply Hpost.
      - rewrite (fp_brk _ _ _ Hpost). lia.
      - intros q ifq'. rewrite (fp_ifnets _ _ _ Hpost). intros Hq. by exists ifq'. }
    (* the reference of the table entry is dropped *)
    unfold if_rele.
    assert (Hif5 : ifnets v5 !! p = Some (set_if_groups [] (set_if_addr None
              (set_if_flags (Z.land (if_flags ifp1) (Z.lnot IFF_UP)) ifp1))))
      by (by rewrite (fp_ifnets _ _ _ Hpost)).
    rewrite (bind_step _ _ _ _ _ (ifnet_load_total v5 p _ Hif5)).
    destruct (refcount_release _) as [last count].
    rewrite (bind_step _ _ _ _ _ (ifnet_update_total v5 p _ _ Hif5)).
    match goal with
    | |- context [set_ifnets (<[p := ?x]> (ifnets v5)) v5] =>
        set (ifp6 := x); set (v6 := set_ifnets (<[p := ifp6]> (ifnets v5)) v5)
    end.
    assert (Hgo6 : groups_ok v6) by (by eapply (groups_ok_update v5 p)).
    assert (Hif6 : ifnets v6 !! p = Some ifp6) by apply lookup_insert_eq.
    destruct last.
    - unfold if_free_internal.
      rewrite (bind_step _ _ _ _ _ (ifnet_load_total v6 p _ Hif6)).
      assert (Hdying : flag_set (if_flags ifp6) IFF_DYING = true)
        by apply flag_set_dying_down.
      rewrite Hdying.
      rewrite (bind_step _ _ _ _ _ (KASSERT_true _ _ _)).
      eexists. split; [reflexivity|]. by apply groups_ok_delete.
    - by exists v6. }
  destruct Hrun as (v' & Hrun & Hgo').
  exists v'. split; [done|]. split; [|done].
  by destruct (if_detach_ok _ _ _ _ Hok Hp Hifp Hrun).
Qed.

End WithEnv.

Section WithEnv.
Context `{env : Env}.

(** ** Attach runs to its end, or the indices have run out *)

(** This is about [if_attach] as the registry has it, without the
    assertions on the arguments of the call. *)

Lemma if_attach_total v ifat :
  registry_ok v -> groups_ok v ->
  (exists r ifat' v', if_attach ifat v = Ok (r, ifat') v' /\
                      registry_ok v' /\ groups_ok v')
  \/ (exists msg, if_attach ifat v = Err (Panic msg) /\ ~ index_available v).
Proof.
  intros Hok Hgo.
  assert (Hrun :
    (exists r ifat' v', if_attach ifat v = Ok (r, ifat') v' /\ groups_ok v')
    \/ (exists msg, if_attach ifat v = Err (Panic msg) /\ ~ index_available v)).
  { unfold if_attach.
    destruct (match ifdrv_clone (ifat_drv ifat) with
              | Some ifc => ifc_alloc_unit ifc (ifat_dunit ifat)
              | None => (0, ifat_dunit ifat)
              end) as [error dunit].
    destruct (negb (error =? 0)).
    { left. eexists _, _, _. split; [reflexivity | done]. }
    cbn [ifat_name ifat_dunit ifat_flags ifat_lla ifat_drv].
    erewrite bind_step by reflexivity. cbv beta.
    erewrite bind_step by reflexivity. cbv beta.
    cbn [ifnets set_alloc].
    match goal with
    | |- context [set_ifnets (<[brk v := ?new]> (ifnets v)) ?va] =>
        set (ifp0 := new);
        set (v2 := set_ifnets (<[brk v := ifp0]> (ifnets v)) va)
    end.
    destruct (registry_ok_new_object v ifp0 (nowait v) Hok) as [Hok2 Hnew].
    pose proof (groups_ok_new_object v ifp0 (nowait v) Hgo eq_refl) as Hgo2.
    fold v2 in Hok2, Hgo2.
    assert (Hif2 : ifnets v2 !! brk v = Some ifp0) by apply lookup_insert_eq.
    destruct (ifindex_alloc_spec v2 (brk v) ifp0 (ro_wf _ Hok2) Hif2) as
      (idx & v3 & Halloc & Hres & Hpost).
    rewrite (bind_step _ _ _ _ _ Halloc).
    destruct (ap_ifnets _ _ _ _ Hpost) as (ifp0' & Hif2' & Hmap3).
    rewrite Hif2 in Hif2'. inversion Hif2'; subst ifp0'. clear Hif2'.
    assert (Hif3 : ifnets v3 !! brk v = Some (set_if_index idx ifp0))
      by (rewrite Hmap3; apply lookup_insert_eq).
    assert (Hgo3 : groups_ok v3).
    { apply (groups_ok_ext v2); try done; try apply Hpost.
      - rewrite (ap_brk _ _ _ _ Hpost). lia.
      - intros q ifq'. rewrite Hmap3. destruct (decide (q = brk v)) as [->|Hne].
        + rewrite lookup_insert_eq. intros [= <-]. by exists ifp0.
        + rewrite lookup_insert_ne by done. intros Hq. by exists ifq'. }
    rewrite (bind_step _ _ _ _ _ (ifnet_update_total v3 _ _ _ Hif3)).
    set (ifp4 := set_if_refcount 1 (set_if_index idx ifp0)).
    set (v4 := set_ifnets (<[brk v := ifp4]> (ifnets v3)) v3).
    assert (Hgo4 : groups_ok v4) by (by eapply (groups_ok_update v3 (brk v))).
    assert (Hif4 : ifnets v4 !! brk v = Some ifp4) by apply lookup_insert_eq.
    rewrite (bind_step _ _ _ _ _ (ifnet_load_total v4 _ _ Hif4)).
    cbv zeta.
    rewrite (bind_step _ _ _ _ _ (ifnet_update_total v4 _ _ _ Hif4)).
    match goal with
    | |- context [set_ifnets (<[brk v := ?x]> (ifnets v4)) v4] =>
        set (ifp5 := x);
        set (v5 := set_ifnets (<[brk v := ifp5]> (ifnets v4)) v4)
    end.
    assert (Hgo5 : groups_ok v5) by (by eapply (groups_ok_update v4 (brk v))).
    assert (Hif5 : ifnets v5 !! brk v = Some ifp5) by apply lookup_insert_eq.
    unfold if_attach_internal.
    rewrite bind_assoc.
    rewrite (bind_step _ _ _ _ _ (ifnet_load_total v5 _ _ Hif5)).
    rewrite bind_assoc. erewrite bind_step by reflexivity. cbv beta.
    change (if_index ifp5) with idx.
    destruct (scan_result_bounds _ _ (ro_wf _ Hok2) Hres) as (Hr & _ & _).
    destruct (Z.eqb_spec idx 0) as [Hzero|Hnz].
    - (* the index space is used up *)
      right. eexists. split; [reflexivity|].
      intros (i & Hi & Hfree).
      destruct Hres as [(? & _)|(_ & _ & Hfull)]; [lia|].
      by destruct (Hfull i Hi).
    - left. cbn [orb].
      rewrite bool_decide_true; cycle 1.
      { apply ifnet_byindex_locked_Some_2.
        - change (V_if_index v5) with (V_if_index v3).
          rewrite (ap_index _ _ _ _ Hpost). lia.
        - change (tbl v5 idx) with (tbl v3 idx). apply Hpost. }
      cbn [negb].
      destruct (if_addgroup_spec v5 (brk v) ifp5 IFG_ALL Hgo5 Hif5) as
        (e & v6 & Hgrp & Hgo6 & _).
      rewrite bind_assoc. rewrite (bind_step _ _ _ _ _ Hgrp).
      eexists _, _, _. split; [reflexivity|]. by apply groups_ok_set_V_ifnet. }
  destruct Hrun as [(r & ifat' & v' & Hrun & Hgo')|Hpanic]; [left | by right].
  exists r, ifat', v'. split; [done|]. split; [|done].
  by destruct (if_attach_ok _ _ _ _ _ Hok Hrun).
Qed.

(** ** Histories run to their end

    A history stops early in two ways only: [if_attach] panics because
    every index from 1 to 65535 is taken, or the history asks to detach
    a name that no interface on the list bears. *)

Lemma ifunit_loop_total l name v :
  (forall r, r ∈ l -> is_Some (ifnets v !! r)) ->
  exists r, ifunit_loop l name v = Ok r v.
Proof.
  induction l as [|q l IH]; intros Hvalid; simpl.
  - by exists None.
  - destruct (Hvalid q) as [ifq Hq]; [apply elem_of_cons; by left|].
    rewrite (bind_step _ _ _ _ _ (ifnet_load_total v q ifq Hq)).
    destruct (strncmp_eq _ _ _); [by eexists|].
    apply IH. intros r Hr. apply Hvalid, elem_of_cons. by right.
Qed.

Lemma step_total o v :
  registry_ok v -> groups_ok v ->
  (exists v', step o v = Ok tt v' /\ registry_ok v' /\ groups_ok v')
  \/ (exists f, step o v = Err f /\ step_stops o v f).
Proof.
  intros Hok Hgo. destruct o as [ifat|name]; simpl.
  - destruct (if_attach_total v ifat Hok Hgo) as
      [(r & ifat' & v' & Hrun & Hok' & Hgo')|(msg & Hrun & Hfull)].
    + left. exists v'. rewrite (bind_step _ _ _ _ _ Hrun). done.
    + right. exists (Panic msg). unfold bind. rewrite Hrun.
      split; [done|]. split; [by exists msg | done].
  - destruct (ifunit_loop_total (V_ifnet v) name v) as [r Hr].
    { intros q Hq. destruct (ro_live _ Hok q Hq) as (ifq & Hifq & _). by exists ifq. }
    assert (Hu : ifunit name v = Ok r v) by (unfold ifunit, bind, get; done).
    rewrite (bind_step _ _ _ _ _ Hu). destruct r as [p|].
    + left. apply ifunit_ok in Hu as [_ Hp]. by apply if_detach_total.
    + right. eexists. split; [reflexivity|]. split; [by eexists | done].
Qed.

Lemma run_groups_ok ops v v' :
  registry_ok v -> groups_ok v -> run ops v = Ok tt v' -> groups_ok v'.
Proof.
  revert v. induction ops as [|o ops IH]; simpl; intros v Hok Hgo H.
  - inversion H; subst. done.
  - apply bind_Ok in H as ([] & v1 & Hstep & H).
    destruct (step_total o v Hok Hgo) as
      [(v1' & Hstep' & Hok1 & Hgo1)|(f & Hstep' & _)]; [|congruence].
    rewrite Hstep' in Hstep. inversion Hstep; subst v1'.
    by eapply IH.
Qed.

Lemma vnet_if_init_groups_ok v0 :
  vnet_if_init vnet_static = Ok tt v0 -> groups_ok v0.
Proof.
  intros H. inversion H; subst v0. split; simpl.
  - constructor.
  - intros g. rewrite lookup_empty. split; [by intros ?%elem_of_nil | by intros [? ?]].
  - intros g G. by rewrite lookup_empty.
  - intros p ifp. by rewrite lookup_empty.
  - intros g. rewrite lookup_empty. by intros [? ?].
Qed.

Lemma boot_groups_ok ops v : boot ops = Ok tt v -> groups_ok v.
Proof.
  unfold boot. intros H. apply bind_Ok in H as ([] & v0 & Hinit & H).
  destruct vnet_if_init_ok as (v0' & Hinit' & Hok0).
  rewrite Hinit' in Hinit. inversion Hinit; subst v0'.
  eapply run_groups_ok; [done | | done]. by apply vnet_if_init_groups_ok.
Qed.

End WithEnv.

Section WithEnv.
Context `{env : Env}.

Lemma run_total ops : forall v,
  registry_ok v -> groups_ok v ->
  (exists v', run ops v = Ok tt v' /\ registry_ok v' /\ groups_ok v')
  \/ (exists pre o post v1 f,
        ops = pre ++ o :: post /\ run pre v = Ok tt v1 /\
        step_stops o v1 f /\ run ops v = Err f).
Proof.
  induction ops as [|o ops IH]; intros v Hok Hgo.
  - left. by exists v.
  - cbn [run].
    destruct (step_total o v Hok Hgo) as
      [(v1 & Hstep & Hok1 & Hgo1)|(f & Hstep & Hstop)].
    + rewrite (bind_step _ _ _ _ _ Hstep).
      destruct (IH v1 Hok1 Hgo1) as
        [Hdone|(pre & o' & post & v2 & f & -> & Hpre & Hstop & Hrun)].
      * by left.
      * right. exists (o :: pre), o', post, v2, f. split; [done|].
        split; [|done]. cbn [run]. by rewrite (bind_step _ _ _ _ _ Hstep).
    + right. exists [], o, ops, v, f. split; [done|]. split; [done|].
      split; [done|]. unfold bind. by rewrite Hstep.
Qed.

Lemma boot_total ops :
  (exists v, boot ops = Ok tt v /\ registry_ok v /\ groups_ok v)
  \/ (exists pre o post v1 f,
        ops = pre ++ o :: post /\ boot pre = Ok tt v1 /\
        step_stops o v1 f /\ boot ops = Err f).
Proof.
  destruct vnet_if_init_ok as (v0 & Hinit & Hok0).
  pose proof (vnet_if_init_groups_ok v0 Hinit) as Hgo0.
  unfold boot. rewrite !(bind_step _ _ _ _ _ Hinit).
  destruct (run_total ops v0 Hok0 Hgo0) as
    [Hdone|(pre & o & post & v1 & f & -> & Hpre & Hstop & Hrun)]; [by left|].
  right. exists pre, o, post, v1, f. rewrite (bind_step _ _ _ _ _ Hinit).
  done.
Qed.

End WithEnv.

(** * Lookups by index *)

(** C7.  For every index, the lookup [ifnet_byindex_locked] returns
    NULL when the index lies above the high-water mark [V_if_index] or
    when the slot holds the reservation mark [IFNET_HOLD]: a reserved
    index is never handed out as an interface. *)
Theorem ifnet_byindex_locked_hides_reserved (v : vnet) (idx : Z) :
  V_if_index v < idx \/ tbl v idx = IFNET_HOLD ->
  ifnet_byindex_locked v idx = None.
Proof.
  intros H. unfold ifnet_byindex_locked.
  destruct (Z.ltb_spec (V_if_index v) idx) as [?|Hle]; [done|].
  destruct H as [? | ->]; [lia | done].
Qed.

Lemma ifnet_byindex_locked_hides_reserved_witness :
  (V_if_index Examples.held_vnet < 1 \/ tbl Examples.held_vnet 1 = IFNET_HOLD) /\
  ifnet_byindex_locked Examples.held_vnet 1 = None.
Proof.
  assert (H : V_if_index Examples.held_vnet < 1 \/
              tbl Examples.held_vnet 1 = IFNET_HOLD) by (right; reflexivity).
  split; [exact H|].
  exact (ifnet_byindex_locked_hides_reserved Examples.held_vnet 1 H).
Defined.

Lemma flag_set_lor x flag : flag <> 0 -> flag_set (Z.lor x flag) flag = true.
Proof.
  intros Hnz. unfold flag_set.
  replace (Z.land (Z.lor x flag) flag) with flag.
  - apply negb_true_iff, Z.eqb_neq. done.
  - apply Z.bits_inj'. intros n _.
    rewrite Z.land_spec, Z.lor_spec.
    destruct (Z.testbit x n), (Z.testbit flag n); done.
Qed.

(** C4.  Once an interface is marked dying no lookup takes a new
    reference to it: for every index, if the slot still leads to an
    interface whose [IFF_DYING] flag is set, [ifnet_byindex_ref]
    returns NULL and leaves the state, the reference count included,
    as it was.  The first statement of [if_detach] sets the flag, so
    this holds from then on (second part). *)
Theorem ifnet_byindex_ref_refuses_dying (v : vnet) (idx : Z) (p : ifnet_ptr)
    (ifp : ifnet) :
  ifnet_byindex_locked v idx = Some p ->
  ifnets v !! p = Some ifp ->
  (flag_set (if_flags ifp) IFF_DYING = true ->
   ifnet_byindex_ref idx v = Ok None v) /\
  (forall v1,
     ifnet_update p (fun i => set_if_flags (Z.lor (if_flags i) IFF_DYING) i) v
       = Ok tt v1 ->
     ifnet_byindex_locked v1 idx = Some p /\
     ifnet_byindex_ref idx v1 = Ok None v1).
Proof.
  intros Hlook Hp. split.
  - intros Hdying. unfold ifnet_byindex_ref, bind, get.
    rewrite Hlook. unfold ifnet_load. rewrite Hp, Hdying. done.
  - intros v1 Hmark. unfold ifnet_update in Hmark. rewrite Hp in Hmark.
    inversion Hmark; subst v1. clear Hmark.
    assert (Hlook1 : ifnet_byindex_locked
              (set_ifnets (<[p := set_if_flags (Z.lor (if_flags ifp) IFF_DYING) ifp]>
                 (ifnets v)) v) idx = Some p) by exact Hlook.
    split; [exact Hlook1|].
    unfold ifnet_byindex_ref, bind, get. rewrite Hlook1.
    unfold ifnet_load. simpl. rewrite lookup_insert_eq. simpl.
    rewrite flag_set_lor by done. done.
Qed.

Lemma ifnet_byindex_ref_refuses_dying_witness :
  ifnet_byindex_locked Examples.dying_vnet 1 = Some 1%positive /\
  ifnet_byindex_ref 1 Examples.dying_vnet = Ok None Examples.dying_vnet.
Proof.
  assert (H1 : ifnet_byindex_locked Examples.dying_vnet 1 = Some 1%positive)
    by reflexivity.
  assert (H2 : ifnets Examples.dying_vnet !! 1%positive =
               Some (set_if_index 1 (Examples.blank_ifnet IFF_DYING)))
    by reflexivity.
  split; [exact H1|].
  exact (proj1 (ifnet_byindex_ref_refuses_dying _ 1 _ _ H1 H2) eq_refl).
Defined.

(** * Allocation and release of indices *)

Lemma one_object_vnet_wf : wf Examples.one_object_vnet.
Proof.
  split; simpl; try done.
  - intros i _. exact (tget_replicate 2 i).
  - by left.
Qed.

(** C6.  On a well-formed table, [ifindex_alloc] gives the interface
    the lowest free index from 1 up: the slot was free, every lower
    slot from 1 is in use, the slot now points to the interface and the
    interface records the index.  The table doubles exactly when no
    slot below the limit is free, and no other entry changes, so
    growth loses no pointer.  [ifindex_free], at an index below the
    limit of the table (as [if_detach] passes it: the index of an
    attached interface), sets the slot to NULL, changes no other
    entry, and lowers the high-water mark past every free slot at the
    top.  The code does not test the index: at an index from the
    limit on the store falls outside the array, which is a fault. *)
Theorem ifindex_alloc_lowest_free_ifindex_free_shrinks (v : vnet) :
  wf v ->
  (forall p ifp, ifnets v !! p = Some ifp -> index_available v ->
     exists idx v', ifindex_alloc p v = Ok tt v' /\ wf v' /\
       (1 <= idx /\ tbl v idx = SlotNull /\
        forall i, 1 <= i < idx -> tbl v i <> SlotNull) /\
       tbl v' idx = SlotIfp p /\
       ifnets v' !! p = Some (set_if_index idx ifp) /\
       V_if_index v' = Z.max (V_if_index v) idx /\
       (forall i, 0 <= i -> i <> idx -> tbl v' i = tbl v i) /\
       ((forall i, 1 <= i < V_if_indexlim v -> tbl v i <> SlotNull) ->
        V_if_indexlim v' = 2 * V_if_indexlim v) /\
       ((exists i, 1 <= i < V_if_indexlim v /\ tbl v i = SlotNull) ->
        V_if_indexlim v' = V_if_indexlim v)) /\
  (forall idx, 0 <= idx < V_if_indexlim v ->
     exists v', ifindex_free idx v = Ok tt v' /\ wf v' /\
       tbl v' idx = SlotNull /\
       (forall i, 0 <= i -> i <> idx -> tbl v' i = tbl v i) /\
       V_if_index v' <= V_if_index v /\
       (V_if_index v' = 0 \/ tbl v' (V_if_index v') <> SlotNull) /\
       (forall j, V_if_index v' < j <= V_if_index v -> tbl v' j = SlotNull)) /\
  (forall idx, V_if_indexlim v <= idx -> ifindex_free idx v = Err BadPointer).
Proof.
  intros Hwf. split; [|split].
  - intros p ifp Hp Havail.
    destruct (ifindex_alloc_spec v p ifp Hwf Hp) as (idx & v' & Hrun & Hres & Hpost).
    pose proof (scan_result_available _ _ Havail Hres) as Hpos.
    destruct (scan_result_bounds _ _ Hwf Hres) as (Hr & Hle & Hnull).
    assert (Hocc : forall i, 1 <= i < idx -> tbl v i <> SlotNull).
    { destruct Hres as [(_ & _ & _ & H)|(? & _)]; [done | lia]. }
    exists idx, v'. split; [done|].
    split; [by eapply alloc_post_wf|].
    split; [done|].
    split; [apply Hpost|].
    split.
    { destruct (ap_ifnets _ _ _ _ Hpost) as (ifp' & Hp' & ->).
      rewrite Hp in Hp'. inversion Hp'; subst. apply lookup_insert_eq. }
    split; [apply Hpost|].
    split; [apply Hpost|].
    rewrite (ap_lim _ _ _ _ Hpost). split.
    + intros Hfull. destruct (Z.leb_spec (V_if_indexlim v) idx); [done|].
      destruct (Hfull idx); [lia | done].
    + intros (i & Hi & Hfree). destruct (Z.leb_spec (V_if_indexlim v) idx); [|done].
      destruct (Hocc i); [lia | done].
  - intros idx [Hidx Hlim].
    destruct (ifindex_free_spec v idx) as (v' & Hrun & Hpost);
      [apply Hwf | done | by rewrite <- (wf_lim _ Hwf) |].
    exists v'. split; [done|]. split; [by eapply free_post_wf|].
    destruct Hpost. repeat split; auto; lia.
  - intros idx Hidx. unfold ifindex_free, bind, get.
    rewrite bool_decide_false; [done|].
    pose proof (wf_lim _ Hwf). pose proof (wf_index _ Hwf). lia.
Qed.

Lemma ifindex_alloc_lowest_free_ifindex_free_shrinks_witness :
  wf Examples.one_object_vnet /\
  exists v', ifindex_alloc 1%positive Examples.one_object_vnet = Ok tt v' /\
             tbl v' 1 = SlotIfp 1%positive.
Proof.
  split; [exact one_object_vnet_wf|].
  destruct (proj1 (ifindex_alloc_lowest_free_ifindex_free_shrinks
                     Examples.one_object_vnet one_object_vnet_wf)
              1%positive (Examples.blank_ifnet 0) eq_refl)
    as (idx & v' & Hrun & _ & (Hpos & _ & Hocc) & Hslot & _).
  { exists 1. split; [lia | reflexivity]. }
  exists v'. split; [exact Hrun|].
  destruct (Z.eq_dec idx 1) as [->|Hne]; [exact Hslot|].
  destruct (Hocc 1); [lia | reflexivity].
Defined.

(** * Attach and detach *)

Section WithEnv.
Context `{env : Env}.

(** C1.  Take any history of attach and detach calls on a freshly
    initialised vnet.  If it runs to its end, every interface on the
    interface list has a non-zero index and no two of them share an
    index; and when one of them is then detached its index is free
    again: the next attach takes it, unless a lower index is free (it
    always takes the lowest).  A history that stops early stops at
    one of its operations, after the ones before it have run: at an
    attach with a panic, at a detach because it names an interface
    that is not on the list; never because a loop ran out of fuel or
    a pointer held no object.  (Which panics [if_attach] has is not
    said: its assertions on the arguments are outside the registry
    state.) *)
Theorem live_indices_nonzero_unique_reusable (ops : list op) :
  (forall v, boot ops = Ok tt v ->
     indices_nonzero v /\ indices_unique v /\
     (forall p ifp v1 ifat q ifat' v2,
        p ∈ V_ifnet v -> ifnets v !! p = Some ifp ->
        if_detach p v = Ok tt v1 ->
        if_attach ifat v1 = Ok (Some q, ifat') v2 ->
        tbl v1 (if_index ifp) = SlotNull /\
        exists ifq, ifnets v2 !! q = Some ifq /\
          1 <= if_index ifq <= if_index ifp /\
          ((forall i, 1 <= i < if_index ifp -> tbl v1 i <> SlotNull) ->
           if_index ifq = if_index ifp))) /\
  (forall f, boot ops = Err f ->
     exists pre o post v1,
       ops = pre ++ o :: post /\ boot pre = Ok tt v1 /\ step_faults o v1 f).
Proof.
  split.
  - intros v Hboot. pose proof (boot_ok _ _ Hboot) as Hok.
    split; [by apply registry_ok_nonzero|].
    split; [by apply registry_ok_unique|].
    intros p ifp v1 ifat q ifat' v2 Hp Hifp Hdet Hatt.
    by eapply detach_attach_reuse.
  - intros f Hboot.
    destruct (boot_total ops) as
      [(v & Hrun & _)|(pre & o & post & v1 & f' & Hops & Hpre & Hstop & Hrun)].
    + congruence.
    + rewrite Hrun in Hboot. inversion Hboot; subst f'.
      exists pre, o, post, v1. split; [done|]. split; [done|].
      destruct o as [ifat|name]; [apply Hstop | exact Hstop].
Qed.

End WithEnv.

Lemma live_indices_nonzero_unique_reusable_witness :
  exists v,
    boot [Attach (Examples.named "a0"); Attach (Examples.named "b0");
          Detach "a0"; Attach (Examples.named "c0")] = Ok tt v /\
    indices_nonzero v /\ indices_unique v.
Proof.
  eexists. split; [vm_compute; reflexivity|].
  match goal with
  | |- indices_nonzero ?v /\ _ =>
      pose proof (proj1 (live_indices_nonzero_unique_reusable
        [Attach (Examples.named "a0"); Attach (Examples.named "b0");
         Detach "a0"; Attach (Examples.named "c0")]) v) as H
  end.
  destruct H as (H1 & H2 & _); [vm_compute; reflexivity|].
  split; [exact H1 | exact H2].
Defined.

(** * Rename *)

Section WithEnv.
Context `{env : Env}.

Lemma strncmp_eq_refl s n : strncmp_eq s s n = true.
Proof. unfold strncmp_eq. apply String.eqb_refl. Qed.

(** [ifunit] finds an interface as soon as one on the list has the
    name. *)
Lemma ifunit_loop_finds l name v q ifq :
  (forall r, r ∈ l -> is_Some (ifnets v !! r)) ->
  q ∈ l -> ifnets v !! q = Some ifq -> if_xname ifq = name ->
  exists r, ifunit_loop l name v = Ok (Some r) v.
Proof.
  intros Hvalid Hq Hifq Hname.
  induction l as [|r l IH]; [by apply elem_of_nil in Hq|].
  simpl. unfold bind, ifnet_load.
  destruct (Hvalid r) as [ifr Hifr]; [apply elem_of_cons; by left|].
  rewrite Hifr.
  destruct (strncmp_eq name (if_xname ifr) IFNAMSIZ) eqn:Hcmp; [by exists r|].
  apply elem_of_cons in Hq as [->|Hq].
  - rewrite Hifq in Hifr. inversion Hifr; subst ifr.
    by rewrite Hname, strncmp_eq_refl in Hcmp.
  - apply IH; [|done]. intros r' Hr'. apply Hvalid, elem_of_cons. by right.
Qed.

(** C5.  A rename to a name that an interface on the list already
    bears fails with EEXIST and changes nothing: the state after the
    call is the state before it, so every interface keeps its name and
    the name stored in its link-level address.  (The caller has passed
    the privilege check and handed in a non-empty name.) *)
Theorem rename_to_name_in_use_fails (v : vnet) (p q : ifnet_ptr) (ifq : ifnet)
    (ifr_data : uaddr) (td : thread) (new_name : string) :
  registry_ok v ->
  priv_check td PRIV_NET_SETIFNAME = 0 ->
  copyinstr ifr_data IFNAMSIZ = (0, new_name) ->
  new_name <> EmptyString ->
  q ∈ V_ifnet v -> ifnets v !! q = Some ifq -> if_xname ifq = new_name ->
  if_drvioctl_SIOCSIFNAME p ifr_data td v = Ok EEXIST v.
Proof.
  intros Hok Hpriv Hcopy Hne Hq Hifq Hname.
  unfold if_drvioctl_SIOCSIFNAME. rewrite Hpriv, Hcopy. cbn [Z.eqb negb].
  destruct (String.eqb_spec new_name EmptyString) as [?|_]; [done|].
  destruct (ifunit_loop_finds (V_ifnet v) new_name v q ifq) as [r Hr]; auto.
  { intros r Hr. destruct (ro_live _ Hok r Hr) as (ifr & Hifr & _). by exists ifr. }
  unfold bind at 1. unfold ifunit, bind, get. rewrite Hr. done.
Qed.

End WithEnv.

(** The case of the design document: "a0" and "b0" are attached, and
    "b0" asks for the name "a0". *)
Lemma rename_to_name_in_use_fails_witness :
  exists v p,
    boot [Attach (Examples.named "a0"); Attach (Examples.named "b0")] = Ok tt v /\
    ifunit "b0" v = Ok (Some p) v /\
    if_drvioctl_SIOCSIFNAME p 0 0 v = Ok EEXIST v.
Proof.
  eexists. eexists.
  split; [vm_compute; reflexivity|].
  split; [vm_compute; reflexivity|].
  match goal with
  | |- if_drvioctl_SIOCSIFNAME ?p _ _ ?v = _ =>
      eapply (rename_to_name_in_use_fails v p 1%positive _ 0 0 "a0")
  end.
  - apply (boot_ok [Attach (Examples.named "a0"); Attach (Examples.named "b0")]).
    vm_compute; reflexivity.
  - reflexivity.
  - reflexivity.
  - discriminate.
  - vm_compute. apply elem_of_cons. by left.
  - vm_compute. reflexivity.
  - reflexivity.
Defined.

(** * Groups *)

(** C8.  While the group set and the memberships agree ([groups_ok]),
    a group leaves the set exactly when a leave brings its reference
    count to zero: [if_delgroup] that finds the group and leaves it
    with a count of zero has taken it off [V_ifg_head] and freed it,
    and otherwise the group stays on the set with one reference less.
    In particular, when two interfaces join "lan", which no group on
    the set is called, and then both leave, one group object serves
    both; it is still on the set, with one reference, after the first
    leave, and it is off the set and freed after the second. *)
Theorem group_destroyed_with_last_member (v : vnet) :
  groups_ok v ->
  (forall r ifr name, ifnets v !! r = Some ifr ->
     exists e v', if_delgroup r name v = Ok e v' /\ groups_ok v' /\
       (e = 0 \/ e = ENOENT) /\
       (e = 0 -> exists g G,
          g ∈ V_ifg_head v /\ ifgroups v !! g = Some G /\ ifg_group G = name /\
          (ifg_refcnt G - 1 = 0 ->
             (g ∉ V_ifg_head v') /\ ifgroups v' !! g = None) /\
          (ifg_refcnt G - 1 <> 0 ->
             g ∈ V_ifg_head v' /\
             exists G', ifgroups v' !! g = Some G' /\
                        ifg_refcnt G' = ifg_refcnt G - 1))) /\
  (forall p q ifp ifq,
     nowait v = [] -> ifnets v !! p = Some ifp -> ifnets v !! q = Some ifq ->
     p <> q -> no_group_named v "lan" ->
     exists g v1 v2 v3 v4,
       if_addgroup p "lan" v = Ok 0 v1 /\
       if_addgroup q "lan" v1 = Ok 0 v2 /\
       if_delgroup p "lan" v2 = Ok 0 v3 /\
       if_delgroup q "lan" v3 = Ok 0 v4 /\
       ifgroups v !! g = None /\
       group_is v1 g "lan" 1 [p] /\
       group_is v2 g "lan" 2 [p; q] /\
       group_is v3 g "lan" 1 [q] /\
       (g ∉ V_ifg_head v4) /\ ifgroups v4 !! g = None /\
       V_ifg_head v4 = V_ifg_head v).
Proof.
  intros Hgo. split.
  - (* a single leave *)
    intros r ifr name Hr.
    destruct (if_delgroup_spec v r ifr name Hgo Hr) as
      (e & v' & Hrun & Hgo' &
       [(-> & -> & _)|(-> & g & G & Hg & HG & Hname & Hpost & _)]).
    + exists ENOENT, v. split; [done|]. split; [done|]. split; [by right|].
      by intros [=].
    + exists 0, v'. split; [done|]. split; [done|]. split; [by left|].
      intros _. exists g, G.
      assert (Hhead : g ∈ V_ifg_head v) by (apply (go_set _ Hgo); by exists G).
      split; [done|]. split; [done|]. split; [done|].
      unfold release_post in Hpost.
      destruct (Z.eqb_spec (ifg_refcnt G) 1) as [Hone|Hmore];
        destruct Hpost as [Hh Hgr]; rewrite Hh, Hgr.
      * split; [|lia]. intros _. split; [|apply lookup_delete_eq].
        apply TAILQ_REMOVE_NoDup, (go_nodup _ Hgo).
      * split; [lia|]. intros _. split; [done|].
        eexists. split; [apply lookup_insert_eq | done].
  - (* two interfaces join and leave *)
    intros p q ifp ifq Hnw Hp Hq Hne Hnone.
    destruct (if_addgroup_creates v p ifp "lan" Hgo Hp Hnw eq_refl Hnone) as
      (g & v1 & Hrun1 & Hgo1 & Hnw1 & HGnone & Hh1 & Hgr1 & Hif1).
    change (strlcpy "lan" IFNAMSIZ) with "lan"%string in Hgr1.
    set (G1 := {| ifg_group := "lan"; ifg_refcnt := 1; ifg_members := [p] |}) in *.
    assert (Hnothead : g ∉ V_ifg_head v).
    { intros Hin. apply (go_set _ Hgo) in Hin as [? Hin]. congruence. }
    assert (Hold : forall g' G', g' <> g -> ifgroups v !! g' = Some G' ->
                                 ifg_group G' <> "lan"%string).
    { intros g' G' _ HG'. apply (Hnone g' G'); [|done].
      apply (go_set _ Hgo). by exists G'. }
    assert (HG1 : ifgroups v1 !! g = Some G1)
      by (rewrite Hgr1; apply lookup_insert_eq).
    assert (Hq1 : ifnets v1 !! q = Some ifq)
      by (rewrite Hif1, lookup_insert_ne; done).
    assert (Hnotq : g ∉ if_groups ifq).
    { intros Hin. destruct (groups_held_valid v q ifq Hgo Hq g Hin). congruence. }
    assert (Hnotp : g ∉ if_groups ifp).
    { intros Hin. destruct (groups_held_valid v p ifp Hgo Hp g Hin). congruence. }
    destruct (if_addgroup_joins v1 q ifq "lan" g G1) as
      (v2 & Hrun2 & Hgo2 & Hnw2 & Hh2 & Hgr2 & Hif2); auto.
    { intros g' G' HG' Hname. destruct (decide (g' = g)) as [?|Hg']; [done|].
      rewrite Hgr1, lookup_insert_ne in HG' by done.
      by destruct (Hold g' G'). }
    cbn [ifg_group ifg_refcnt ifg_members G1 app] in Hgr2.
    set (G2 := {| ifg_group := "lan"; ifg_refcnt := 1 + 1;
                  ifg_members := [p; q] |}) in *.
    assert (HG2 : ifgroups v2 !! g = Some G2)
      by (rewrite Hgr2; apply lookup_insert_eq).
    assert (Huniq2 : forall g' G', ifgroups v2 !! g' = Some G' ->
                                   ifg_group G' = "lan"%string -> g' = g).
    { intros g' G' HG' Hname. destruct (decide (g' = g)) as [?|Hg']; [done|].
      rewrite Hgr2, lookup_insert_ne, Hgr1, lookup_insert_ne in HG' by done.
      by destruct (Hold g' G'). }
    set (ifp2 := set_if_groups (if_groups ifp ++ [g]) ifp) in *.
    set (ifq2 := set_if_groups (if_groups ifq ++ [g]) ifq) in *.
    assert (Hp2 : ifnets v2 !! p = Some ifp2).
    { rewrite Hif2, lookup_insert_ne, Hif1 by done. apply lookup_insert_eq. }
    destruct (if_delgroup_leaves v2 p ifp2 "lan" g G2) as
      (v3 & Hrun3 & Hgo3 & Hpost3 & Hif3 & Hnw3); auto.
    { simpl. apply elem_of_app. right. by apply list_elem_of_singleton. }
    unfold release_post in Hpost3.
    change (ifg_refcnt G2 =? 1) with false in Hpost3.
    destruct Hpost3 as [Hh3 Hgr3].
    cbn [ifg_group ifg_refcnt ifg_members G2] in Hgr3.
    rewrite TAILQ_REMOVE_head in Hgr3.
    set (G3 := {| ifg_group := "lan"; ifg_refcnt := 1 + 1 - 1;
                  ifg_members := [q] |}) in *.
    assert (HG3 : ifgroups v3 !! g = Some G3)
      by (rewrite Hgr3; apply lookup_insert_eq).
    assert (Huniq3 : forall g' G', ifgroups v3 !! g' = Some G' ->
                                   ifg_group G' = "lan"%string -> g' = g).
    { intros g' G' HG' Hname. destruct (decide (g' = g)) as [?|Hg']; [done|].
      rewrite Hgr3, lookup_insert_ne in HG' by done. by apply (Huniq2 g' G'). }
    assert (Hq3 : ifnets v3 !! q = Some ifq2).
    { rewrite Hif3, lookup_insert_ne, Hif2 by done. apply lookup_insert_eq. }
    destruct (if_delgroup_leaves v3 q ifq2 "lan" g G3) as
      (v4 & Hrun4 & Hgo4 & Hpost4 & Hif4 & Hnw4); auto.
    { simpl. apply elem_of_app. right. by apply list_elem_of_singleton. }
    unfold release_post in Hpost4.
    change (ifg_refcnt G3 =? 1) with true in Hpost4.
    destruct Hpost4 as [Hh4 Hgr4].
    assert (Hhead4 : V_ifg_head v4 = V_ifg_head v).
    { rewrite Hh4, Hh3, Hh2, Hh1. by apply TAILQ_REMOVE_app_new. }
    assert (Hin1 : g ∈ V_ifg_head v1).
    { rewrite Hh1. apply elem_of_app. right. by apply list_elem_of_singleton. }
    exists g, v1, v2, v3, v4.
    split; [exact Hrun1|]. split; [exact Hrun2|].
    split; [exact Hrun3|]. split; [exact Hrun4|].
    split; [exact HGnone|].
    split; [split; [exact Hin1 | exact HG1]|].
    split; [split; [by rewrite Hh2 | exact HG2]|].
    split; [split; [by rewrite Hh3, Hh2 | exact HG3]|].
    split; [by rewrite Hhead4|].
    split; [|done]. rewrite Hgr4. apply lookup_delete_eq.
Qed.

(** Two attached interfaces, both in the group "all", join "lan" and
    leave it. *)
Lemma group_destroyed_with_last_member_witness :
  exists v,
    boot [Attach (Examples.named "a0"); Attach (Examples.named "b0")] = Ok tt v /\
    groups_ok v /\
    exists g v1 v2 v3 v4,
      if_addgroup 1%positive "lan" v = Ok 0 v1 /\
      if_addgroup 5%positive "lan" v1 = Ok 0 v2 /\
      if_delgroup 1%positive "lan" v2 = Ok 0 v3 /\
      if_delgroup 5%positive "lan" v3 = Ok 0 v4 /\
      group_is v3 g "lan" 1 [5%positive] /\
      (g ∉ V_ifg_head v4) /\ ifgroups v4 !! g = None.
Proof.
  eexists. split; [vm_compute; reflexivity|].
  match goal with
  | |- groups_ok ?v /\ _ =>
      assert (Hgo : groups_ok v)
        by (apply (boot_groups_ok
                     [Attach (Examples.named "a0"); Attach (Examples.named "b0")]);
            vm_compute; reflexivity);
      assert (Hnone : no_group_named v "lan")
  end.
  { intros g G Hg HG. apply list_elem_of_singleton in Hg. subst g.
    vm_compute in HG. inversion HG; subst G. discriminate. }
  split; [exact Hgo|].
  destruct (proj2 (group_destroyed_with_last_member _ Hgo)
              1%positive 5%positive _ _ eq_refl eq_refl eq_refl
              ltac:(discriminate) Hnone)
    as (g & v1 & v2 & v3 & v4 & H1 & H2 & H3 & H4 & _ & _ & _ & H7 & H8 & H9 & _).
  exists g, v1, v2, v3, v4.
  repeat (split; [assumption|]). assumption.
Defined.

End RegistryFacts.

Lemma KASSERT_pass {S} inv cond msg (s : S) :
  (inv = true -> cond = true) -> KASSERT inv cond msg s = Ok tt s.
Proof.
  unfold KASSERT, raise, ret. destruct inv, cond; simpl; auto.
  intros H. by specialize (H eq_refl).
Qed.

(** * Reference counted flags *)

Module SetFlagFacts.
Import SetFlag.

Lemma deref_assign r x i : deref r (assign r x i) = x.
Proof. by destruct r. Qed.

Lemma if_flags_assign r x i : if_flags (assign r x i) = if_flags i.
Proof. by destruct r. Qed.

Lemma deref_set_if_flags r x i : deref r (set_if_flags x i) = deref r i.
Proof. by destruct r. Qed.

Section WithDriver.
Context `{env : Env}.
Variable drv : ifreq -> ifnet -> Z * ifnet.

Lemma if_setflag_head refcount onswitch s :
  counter_sane refcount onswitch s ->
  (if negb (onswitch =? 0)
   then KASSERT INVARIANTS (0 <=? deref refcount (ifp s))
                "if_setflag: increment negative refcount"
   else KASSERT INVARIANTS (0 <? deref refcount (ifp s))
                "if_setflag: decrement non-positive refcount") s = Ok tt s.
Proof.
  intros Hsane. unfold counter_sane in Hsane.
  destruct (onswitch =? 0); simpl; apply KASSERT_pass; intros Hinv;
    specialize (Hsane Hinv); lia.
Qed.

(** [if_setflag] returns, under what its assertions ask; a permanent
    mode only moves the counter; an error is the driver's, and then
    counter and flags are as before and nobody was told.  Where the
    mode is not permanent, a request that switches the flag returns
    what the driver answers, undoing counter and flags when that is an
    error, and any other request only moves the counter. *)
Lemma if_setflag_spec flag pflag refcount onswitch s :
  counter_sane refcount onswitch s ->
  exists error s',
    if_setflag drv flag pflag refcount onswitch s = Ok error s' /\
    (Z.land (if_flags (ifp s)) pflag <> 0 ->
     error = 0 /\ s' = set_ifp (counted refcount onswitch (ifp s)) s) /\
    (error <> 0 ->
     error = (drv (flags_request (switched flag refcount onswitch (ifp s)))
                  (switched flag refcount onswitch (ifp s))).1 /\
     deref refcount (ifp s') = deref refcount (ifp s) /\
     if_flags (ifp s') = if_flags (ifp s) /\
     told s' = told s) /\
    (Z.land (if_flags (ifp s)) pflag = 0 ->
     switches refcount onswitch (ifp s) = true ->
     error = (drv (flags_request (switched flag refcount onswitch (ifp s)))
                  (switched flag refcount onswitch (ifp s))).1 /\
     ((drv (flags_request (switched flag refcount onswitch (ifp s)))
           (switched flag refcount onswitch (ifp s))).1 <> 0 ->
      deref refcount (ifp s') = deref refcount (ifp s) /\
      if_flags (ifp s') = if_flags (ifp s) /\
      told s' = told s) /\
     ((drv (flags_request (switched flag refcount onswitch (ifp s)))
           (switched flag refcount onswitch (ifp s))).1 = 0 ->
      ifp s' = (drv (flags_request (switched flag refcount onswitch (ifp s)))
                    (switched flag refcount onswitch (ifp s))).2 /\
      told s' = told s ++ [rt_ifmsg])) /\
    (Z.land (if_flags (ifp s)) pflag = 0 ->
     switches refcount onswitch (ifp s) = false ->
     error = 0 /\ s' = set_ifp (counted refcount onswitch (ifp s)) s).
Proof.
  intros Hsane.
  pose proof (if_setflag_head refcount onswitch s Hsane) as Hhead.
  unfold if_setflag. unfold bind at 1. unfold get at 1.
  rewrite (bind_step _ _ _ _ _ Hhead).
  destruct (Z.eqb_spec (Z.land (if_flags (ifp s)) pflag) 0) as [Hperm|Hperm]; simpl.
  2:{ eexists _, _. split; [reflexivity|]. split; [|split; [done|split; done]].
      intros _. split; [done|]. unfold counted.
      by destruct (onswitch =? 0). }
  unfold switches, switched, counted, flags_request.
  destruct (Z.eqb_spec onswitch 0) as [Hoff|Hon]; simpl.
  - unfold bind, modify, get, ret, if_ioctl, emit. simpl.
    replace (deref refcount (ifp s) + -1) with (deref refcount (ifp s) - 1) by lia.
    destruct (Z.eqb_spec (int (deref refcount (ifp s) - 1)) 0) as [Hz|Hz]; simpl.
    + rewrite if_flags_assign.
      destruct (drv _ _) as [error i] eqn:Hdrv. simpl.
      destruct (Z.eqb_spec error 0) as [He|He]; simpl.
      * eexists _, _. split; [reflexivity|]. split; [done|]. split; [done|].
        split; [|done]. intros _ _. split; [done|]. split; done.
      * eexists _, _. split; [reflexivity|]. split; [done|].
        simpl. rewrite deref_set_if_flags, deref_assign.
        split; [done|]. split; [|done]. intros _ _. split; [done|]. split; done.
    + eexists _, _. split; [reflexivity|]. split; [done|]. split; [done|].
      split; done.
  - unfold bind, modify, get, ret, if_ioctl, emit. simpl.
    destruct (Z.eqb_spec (deref refcount (ifp s)) 0) as [Hz|Hz]; simpl.
    + rewrite if_flags_assign.
      destruct (drv _ _) as [error i] eqn:Hdrv. simpl.
      destruct (Z.eqb_spec error 0) as [He|He]; simpl.
      * eexists _, _. split; [reflexivity|]. split; [done|]. split; [done|].
        split; [|done]. intros _ _. split; [done|]. split; done.
      * eexists _, _. split; [reflexivity|]. split; [done|].
        simpl. rewrite deref_set_if_flags, deref_assign.
        split; [done|]. split; [|done]. intros _ _. split; [done|]. split; done.
    + eexists _, _. split; [reflexivity|]. split; [done|]. split; [done|].
      split; done.
Qed.

End WithDriver.

(** C10.  A reference counted flag toggle ([if_setflag], and through
    it [ifpromisc] and [if_allmulti]) whose counter is as the
    assertions ask returns.  If it returns an error, the error is the
    one of the driver's flags ioctl, and the counter and the flags
    word are what they were before the call, with nothing announced or
    logged.  If the permanent mode flag is set the driver is not
    called: the call returns 0 and only the counter moves, by one.
    Otherwise a request that switches the flag (the first to ask for
    the mode, or the last to give it up) returns what the driver's
    flags ioctl answers: if that is an error, the counter and the
    flags word are restored and nothing is announced or logged; if it
    is 0, the interface is as the driver left it.  A request that does
    not switch the flag returns 0 and only moves the counter. *)
Theorem failed_flag_toggle_restores
    (env : Env) (drv : ifreq -> ifnet -> Z * ifnet)
    (flag pflag : Z) (refcount : refcount_ptr) (onswitch : Z) (s : state) :
  counter_sane refcount onswitch s ->
  (exists error s',
     if_setflag drv flag pflag refcount onswitch s = Ok error s' /\
     (Z.land (if_flags (ifp s)) pflag <> 0 ->
      error = 0 /\ s' = set_ifp (counted refcount onswitch (ifp s)) s) /\
     (error <> 0 ->
      error = (drv (flags_request (switched flag refcount onswitch (ifp s)))
                   (switched flag refcount onswitch (ifp s))).1 /\
      deref refcount (ifp s') = deref refcount (ifp s) /\
      if_flags (ifp s') = if_flags (ifp s) /\
      told s' = told s) /\
     (Z.land (if_flags (ifp s)) pflag = 0 ->
      switches refcount onswitch (ifp s) = true ->
      error = (drv (flags_request (switched flag refcount onswitch (ifp s)))
                   (switched flag refcount onswitch (ifp s))).1 /\
      ((drv (flags_request (switched flag refcount onswitch (ifp s)))
            (switched flag refcount onswitch (ifp s))).1 <> 0 ->
       deref refcount (ifp s') = deref refcount (ifp s) /\
       if_flags (ifp s') = if_flags (ifp s) /\
       told s' = told s) /\
      ((drv (flags_request (switched flag refcount onswitch (ifp s)))
            (switched flag refcount onswitch (ifp s))).1 = 0 ->
       ifp s' = (drv (flags_request (switched flag refcount onswitch (ifp s)))
                     (switched flag refcount onswitch (ifp s))).2 /\
       told s' = told s ++ [rt_ifmsg])) /\
     (Z.land (if_flags (ifp s)) pflag = 0 ->
      switches refcount onswitch (ifp s) = false ->
      error = 0 /\ s' = set_ifp (counted refcount onswitch (ifp s)) s)) /\
  (refcount = ref_if_pcount ->
   exists error s',
     ifpromisc drv onswitch s = Ok error s' /\
     (Z.land (if_flags (ifp s)) IFF_PPROMISC <> 0 ->
      error = 0 /\ s' = set_ifp (counted ref_if_pcount onswitch (ifp s)) s) /\
     (error <> 0 ->
      error = (drv (flags_request (switched IFF_PROMISC ref_if_pcount onswitch (ifp s)))
                   (switched IFF_PROMISC ref_if_pcount onswitch (ifp s))).1 /\
      if_pcount (ifp s') = if_pcount (ifp s) /\
      if_flags (ifp s') = if_flags (ifp s) /\
      told s' = told s) /\
     (Z.land (if_flags (ifp s)) IFF_PPROMISC = 0 ->
      switches ref_if_pcount onswitch (ifp s) = true ->
      error = (drv (flags_request (switched IFF_PROMISC ref_if_pcount onswitch (ifp s)))
                   (switched IFF_PROMISC ref_if_pcount onswitch (ifp s))).1 /\
      ((drv (flags_request (switched IFF_PROMISC ref_if_pcount onswitch (ifp s)))
            (switched IFF_PROMISC ref_if_pcount onswitch (ifp s))).1 <> 0 ->
       if_pcount (ifp s') = if_pcount (ifp s) /\
       if_flags (ifp s') = if_flags (ifp s) /\
       told s' = told s) /\
      ((drv (flags_request (switched IFF_PROMISC ref_if_pcount onswitch (ifp s)))
            (switched IFF_PROMISC ref_if_pcount onswitch (ifp s))).1 = 0 ->
       ifp s' = (drv (flags_request (switched IFF_PROMISC ref_if_pcount onswitch (ifp s)))
                     (switched IFF_PROMISC ref_if_pcount onswitch (ifp s))).2)) /\
     (Z.land (if_flags (ifp s)) IFF_PPROMISC = 0 ->
      switches ref_if_pcount onswitch (ifp s) = false ->
      error = 0 /\ s' = set_ifp (counted ref_if_pcount onswitch (ifp s)) s)) /\
  (refcount = ref_if_amcount ->
   exists error s',
     if_allmulti drv onswitch s = Ok error s' /\
     (error <> 0 ->
      error = (drv (flags_request (switched IFF_ALLMULTI ref_if_amcount onswitch (ifp s)))
                   (switched IFF_ALLMULTI ref_if_amcount onswitch (ifp s))).1 /\
      if_amcount (ifp s') = if_amcount (ifp s) /\
      if_flags (ifp s') = if_flags (ifp s) /\
      told s' = told s) /\
     (switches ref_if_amcount onswitch (ifp s) = true ->
      error = (drv (flags_request (switched IFF_ALLMULTI ref_if_amcount onswitch (ifp s)))
                   (switched IFF_ALLMULTI ref_if_amcount onswitch (ifp s))).1 /\
      ((drv (flags_request (switched IFF_ALLMULTI ref_if_amcount onswitch (ifp s)))
            (switched IFF_ALLMULTI ref_if_amcount onswitch (ifp s))).1 <> 0 ->
       if_amcount (ifp s') = if_amcount (ifp s) /\
       if_flags (ifp s') = if_flags (ifp s) /\
       told s' = told s) /\
      ((drv (flags_request (switched IFF_ALLMULTI ref_if_amcount onswitch (ifp s)))
            (switched IFF_ALLMULTI ref_if_amcount onswitch (ifp s))).1 = 0 ->
       ifp s' = (drv (flags_request (switched IFF_ALLMULTI ref_if_amcount onswitch (ifp s)))
                     (switched IFF_ALLMULTI ref_if_amcount onswitch (ifp s))).2 /\
       told s' = told s ++ [rt_ifmsg])) /\
     (switches ref_if_amcount onswitch (ifp s) = false ->
      error = 0 /\ s' = set_ifp (counted ref_if_amcount onswitch (ifp s)) s)).
Proof.
  intros Hsane. split; [by apply if_setflag_spec|]. split.
  - intros ->.
    destruct (if_setflag_spec drv IFF_PROMISC IFF_PPROMISC _ _ _ Hsane)
      as (error & s1 & Hrun & Hperm & Hfail & Hsw & Hcnt).
    unfold ifpromisc. unfold bind at 1. unfold get at 1.
    rewrite (bind_step _ _ _ _ _ Hrun).
    unfold bind at 1. unfold get at 1.
    destruct (Z.eqb_spec error 0) as [He|He]; simpl.
    + destruct (Z.eqb_spec
        (Z.land (Z.lxor (if_flags (ifp s1)) (if_flags (ifp s))) IFF_PROMISC) 0)
        as [Hsame|Hdiff]; simpl.
      * eexists _, _. split; [reflexivity|]. split; [|split; [done|split]].
        -- intros Hp. by destruct (Hperm Hp) as [_ ->].
        -- intros Hp Hs. destruct (Hsw Hp Hs) as (He1 & _ & Hgood).
           split; [exact He1|]. split.
           ++ intros Hbad. congruence.
           ++ intros Hz. by destruct (Hgood Hz).
        -- intros Hp Hs. by destruct (Hcnt Hp Hs) as [_ ->].
      * eexists _, _. split; [reflexivity|]. split; [|split; [done|split]].
        -- intros Hp. destruct (Hperm Hp) as [_ ->]. exfalso. apply Hdiff.
           simpl. by rewrite Z.lxor_nilpotent.
        -- intros Hp Hs. destruct (Hsw Hp Hs) as (He1 & _ & Hgood).
           split; [exact He1|]. split.
           ++ intros Hbad. congruence.
           ++ intros Hz. simpl. by destruct (Hgood Hz).
        -- intros Hp Hs. destruct (Hcnt Hp Hs) as [_ ->]. exfalso. apply Hdiff.
           simpl. by rewrite Z.lxor_nilpotent.
    + eexists _, _. split; [reflexivity|]. split; [|split; [|split]].
      * intros Hp. by destruct (Hperm Hp).
      * intros _. by apply Hfail.
      * intros Hp Hs. destruct (Hsw Hp Hs) as (He1 & Hbad & _).
        split; [exact He1|]. split.
        -- intros Hne. by apply Hbad.
        -- intros Hz. congruence.
      * intros Hp Hs. by destruct (Hcnt Hp Hs).
  - intros ->.
    destruct (if_setflag_spec drv IFF_ALLMULTI 0 _ _ _ Hsane)
      as (error & s1 & Hrun & _ & Hfail & Hsw & Hcnt).
    exists error, s1. split; [exact Hrun|]. split; [exact Hfail|].
    split; [apply Hsw | apply Hcnt]; apply Z.land_0_r.
Qed.

Lemma failed_flag_toggle_restores_witness :
  counter_sane (env := amd64) ref_if_pcount 1 Examples.quiet /\
  exists error s',
    ifpromisc (env := amd64) Examples.refusing_driver 1 Examples.quiet
      = Ok error s' /\
    error = EOPNOTSUPP /\
    if_pcount (ifp s') = 0 /\ if_flags (ifp s') = IFF_UP /\ told s' = [].
Proof.
  assert (Hsane : counter_sane (env := amd64) ref_if_pcount 1 Examples.quiet)
    by (intros _; simpl; lia).
  split; [exact Hsane|].
  destruct (proj1 (proj2 (failed_flag_toggle_restores amd64
              Examples.refusing_driver IFF_PROMISC IFF_PPROMISC
              ref_if_pcount 1 Examples.quiet Hsane)) eq_refl)
    as (error & s' & Hrun & _ & _ & Hsw & _).
  exists error, s'. split; [exact Hrun|].
  destruct (Hsw eq_refl eq_refl) as (He & Hbad & _).
  split; [exact He|].
  destruct Hbad as (H1 & H2 & H3); [discriminate|]. auto.
Defined.

End SetFlagFacts.

(** * Drivers and interface types *)

Module BlessFacts.
Import Bless.

Section WithOptions.
Context `{env : Env}.
Variable INET_or_INET6 : bool.
Variable IP_MAXPACKET : Z.
Variable default_tsomax : iftsomax.

(** A blessed driver description: from the driver and its type, what
    [ifdriver_bless] adds. *)
Lemma ifdriver_bless_spec ifdrv ift :
  blessable INET_or_INET6 IP_MAXPACKET ifdrv ift ->
  exists d,
    ifdriver_bless INET_or_INET6 IP_MAXPACKET default_tsomax ift ifdrv = Ok tt d /\
    (forall t, ift = Some t ->
       ifop_input (ifdrv_ops d) = COPYOP (ifop_input (ifdrv_ops ifdrv))
                                         (ifop_input (ift_ops t)) /\
       ifop_transmit (ifdrv_ops d) = COPYOP (ifop_transmit (ifdrv_ops ifdrv))
                                            (ifop_transmit (ift_ops t)) /\
       ifop_output (ifdrv_ops d) = COPYOP (ifop_output (ifdrv_ops ifdrv))
                                          (ifop_output (ift_ops t)) /\
       ifop_ioctl (ifdrv_ops d) = COPYOP (ifop_ioctl (ifdrv_ops ifdrv))
                                         (ifop_ioctl (ift_ops t)) /\
       ifop_get_counter (ifdrv_ops d) =
         DEFAULTOP (COPYOP (ifop_get_counter (ifdrv_ops ifdrv))
                           (ifop_get_counter (ift_ops t)))
                   if_get_counter_default) /\
    (ift = None ->
       ifop_input (ifdrv_ops d) = ifop_input (ifdrv_ops ifdrv) /\
       ifop_transmit (ifdrv_ops d) = ifop_transmit (ifdrv_ops ifdrv) /\
       ifop_output (ifdrv_ops d) = ifop_output (ifdrv_ops ifdrv) /\
       ifop_ioctl (ifdrv_ops d) = ifop_ioctl (ifdrv_ops ifdrv) /\
       ifop_get_counter (ifdrv_ops d) =
         DEFAULTOP (ifop_get_counter (ifdrv_ops ifdrv)) if_get_counter_default) /\
    ifop_origin (ifdrv_ops d) = IFOP_ORIGIN_DRIVER /\
    ifdrv_flags d = Z.lor (ifdrv_flags ifdrv) IFDRV_BLESSED.
Proof.
  intros Hok. unfold ifdriver_bless.
  set (d1 := match ift with Some t => copy_type t ifdrv | None => ifdrv end).
  assert (H1 : (match ift with
                | Some t => modify (copy_type t)
                | None => ret tt
                end) ifdrv = Ok tt d1) by (by destruct ift).
  rewrite (bind_step _ _ _ _ _ H1). unfold bind at 1. unfold get at 1.
  assert (Hq : 0 < ifdrv_maxqlen d1 -> INVARIANTS = true ->
               ifop_qflush (ifdrv_ops d1) = None).
  { intros Hpos Hinv. destruct (Hok Hinv) as [Hq _].
    assert (Hpos' : 0 < ifdrv_maxqlen ifdrv) by (by destruct ift).
    destruct (Hq Hpos') as [Hd Ht]. subst d1. destruct ift as [t|]; [|done].
    simpl. rewrite Hd. simpl. by apply Ht. }
  assert (Ht : INET_or_INET6 = true -> INVARIANTS = true ->
               forall tsomax, ifdrv_tsomax d1 = Some tsomax ->
                 (tsomax_bytes tsomax =? 0)
                 || (IP_MAXPACKET / 8 <=? tsomax_bytes tsomax) = true).
  { intros Hinet Hinv tsomax Hts. destruct (Hok Hinv) as [_ Ht].
    assert (Hts' : ifdrv_tsomax ifdrv = Some tsomax) by (by destruct ift).
    destruct (Ht Hinet _ Hts') as [?|?]; apply orb_true_iff; [left|right]; lia. }
  set (d2 := if 0 <? ifdrv_maxqlen d1
             then set_ifdrv_ops (set_ifop_qflush (Some if_snd_qflush) (ifdrv_ops d1)) d1
             else d1).
  assert (H2 : (if 0 <? ifdrv_maxqlen d1 then
                  KASSERT INVARIANTS (bool_decide (ifop_qflush (ifdrv_ops d1) = None))
                    "ifdrv_maxqlen > 0 and ifop_qflush" ;;
                  modify (fun d => set_ifdrv_ops
                            (set_ifop_qflush (Some if_snd_qflush) (ifdrv_ops d)) d)
                else ret tt) d1 = Ok tt d2).
  { subst d2. destruct (Z.ltb_spec 0 (ifdrv_maxqlen d1)) as [Hpos|_]; [|done].
    erewrite bind_step; [reflexivity|].
    apply KASSERT_pass. intros Hinv. apply bool_decide_eq_true. by apply Hq. }
  rewrite (bind_step _ _ _ _ _ H2). unfold bind at 1. unfold modify at 1.
  set (d3 := set_ifdrv_ops _ d2).
  set (d4 := if INET_or_INET6
             then match ifdrv_tsomax d3 with
                  | None => set_ifdrv_tsomax (Some default_tsomax) d3
                  | Some _ => d3
                  end
             else d3).
  assert (H4 : (if INET_or_INET6 then
                  ifdrv <- get ;;
                  match ifdrv_tsomax ifdrv with
                  | None => modify (set_ifdrv_tsomax (Some default_tsomax))
                  | Some tsomax =>
                      KASSERT INVARIANTS
                        ((tsomax_bytes tsomax =? 0)
                         || (IP_MAXPACKET / 8 <=? tsomax_bytes tsomax))
                        "tsomax_bytes is outside of range"
                  end
                else ret tt) d3 = Ok tt d4).
  { subst d4. destruct INET_or_INET6 eqn:Hinet; [|done].
    unfold bind, get. destruct (ifdrv_tsomax d3) as [tsomax|] eqn:Hts; [|done].
    apply KASSERT_pass. intros Hinv. apply (Ht eq_refl Hinv).
    subst d3 d2. by destruct (0 <? ifdrv_maxqlen d1). }
  rewrite (bind_step _ _ _ _ _ H4). unfold bind, modify.
  eexists. split; [reflexivity|].
  assert (Hops4 : ifdrv_ops d4 = ifdrv_ops d3).
  { subst d4. destruct INET_or_INET6; [|done]. by destruct (ifdrv_tsomax d3). }
  assert (Hfl : ifdrv_flags d4 = ifdrv_flags ifdrv).
  { subst d4 d3 d2 d1.
    destruct INET_or_INET6, ift, (0 <? _); simpl;
      repeat match goal with |- context [match ?x with _ => _ end] =>
               destruct x end; reflexivity. }
  simpl. rewrite Hops4, Hfl. subst d3 d2 d1.
  split; [|split; [|done]].
  - intros t ->. simpl. by destruct (0 <? ifdrv_maxqlen ifdrv).
  - intros ->. simpl. by destruct (0 <? ifdrv_maxqlen ifdrv).
Qed.

End WithOptions.

(** C9.  A driver that brings only its input and transmit operations,
    whose registered type brings ioctl and output, and where neither
    brings a counter accessor: when [if_attach] blesses the driver,
    the composed table has all four operations (the driver's two and
    the type's two) and its counter accessor is the generic
    [if_get_counter_default]; the driver is marked blessed. *)
Theorem bless_fills_from_type_and_default
    (env : Env) (INET_or_INET6 : bool) (IP_MAXPACKET : Z)
    (default_tsomax : iftsomax)
    (iftypehead : list iftype) (ifdrv : ifdriver) (ift : iftype)
    (input transmit ioctl output : funptr) :
  ifop_input (ifdrv_ops ifdrv) = Some input ->
  ifop_transmit (ifdrv_ops ifdrv) = Some transmit ->
  ifop_ioctl (ifdrv_ops ifdrv) = None ->
  ifop_output (ifdrv_ops ifdrv) = None ->
  ifop_get_counter (ifdrv_ops ifdrv) = None ->
  Z.land (ifdrv_flags ifdrv) IFDRV_BLESSED = 0 ->
  iftype_find (ifdrv_type ifdrv) iftypehead = Some ift ->
  ifop_ioctl (ift_ops ift) = Some ioctl ->
  ifop_output (ift_ops ift) = Some output ->
  ifop_get_counter (ift_ops ift) = None ->
  blessable INET_or_INET6 IP_MAXPACKET ifdrv (Some ift) ->
  exists d,
    if_attach_bless INET_or_INET6 IP_MAXPACKET default_tsomax iftypehead ifdrv
      = Ok tt d /\
    ifop_input (ifdrv_ops d) = Some input /\
    ifop_transmit (ifdrv_ops d) = Some transmit /\
    ifop_ioctl (ifdrv_ops d) = Some ioctl /\
    ifop_output (ifdrv_ops d) = Some output /\
    ifop_get_counter (ifdrv_ops d) = Some if_get_counter_default /\
    Z.land (ifdrv_flags d) IFDRV_BLESSED <> 0.
Proof.
  intros Hin Htx Hio Hout Hgc Hnew Hfind Tio Tout Tgc Hok.
  destruct (ifdriver_bless_spec INET_or_INET6 IP_MAXPACKET default_tsomax
              ifdrv (Some ift) Hok)
    as (d & Hrun & Hsome & _ & _ & Hflags).
  destruct (Hsome ift eq_refl) as (Din & Dtx & Dout & Dio & Dgc).
  exists d. unfold if_attach_bless, bind, get.
  rewrite Hfind, Hnew. simpl. split; [exact Hrun|].
  rewrite Din, Dtx, Dout, Dio, Dgc, Hin, Htx, Hio, Hout, Hgc, Tio, Tout, Tgc.
  repeat (split; [reflexivity|]).
  rewrite Hflags.
  intros Hz. apply (f_equal (fun z => Z.testbit z 0)) in Hz.
  rewrite Z.land_spec, Z.lor_spec in Hz. simpl in Hz.
  by rewrite orb_true_r in Hz.
Qed.

Lemma bless_fills_from_type_and_default_witness :
  exists d,
    if_attach_bless (env := amd64) true 65535 Examples.tsomax_64k
      (iftype_register Examples.loop_type
         (iftype_register Examples.ether_type [])) Examples.bare_driver
      = Ok tt d /\
    ifop_input (ifdrv_ops d) = Some (extern 1) /\
    ifop_transmit (ifdrv_ops d) = Some (extern 2) /\
    ifop_ioctl (ifdrv_ops d) = Some (extern 4) /\
    ifop_output (ifdrv_ops d) = Some (extern 3) /\
    ifop_get_counter (ifdrv_ops d) = Some if_get_counter_default /\
    Z.land (ifdrv_flags d) IFDRV_BLESSED <> 0.
Proof.
  apply (bless_fills_from_type_and_default amd64 true 65535 Examples.tsomax_64k
           _ Examples.bare_driver Examples.ether_type);
    try reflexivity.
  intros _. split.
  - intros _. split; [reflexivity|]. intros t Ht. by inversion Ht.
  - intros _ tsomax Ht. discriminate Ht.
Defined.

End BlessFacts.

(** * Link state *)

Module LinkStateFacts.
Import LinkState.

Lemma delivers_emit e : delivers (emit e) [e].
Proof. by intros s. Qed.

Lemma delivers_when b c evs :
  delivers c evs -> delivers (when b c) (if b then evs else []).
Proof.
  intros Hc s. destruct b; simpl; [apply Hc|].
  unfold ret. rewrite app_nil_r. by destruct s.
Qed.

Lemma delivers_bind c1 c2 evs1 evs2 :
  delivers c1 evs1 -> delivers c2 evs2 ->
  delivers (c1 ;; c2) (evs1 ++ evs2).
Proof.
  intros H1 H2 s. unfold bind. rewrite H1, H2. simpl. by rewrite app_assoc.
Qed.

Lemma link_events_app l1 l2 :
  link_events (l1 ++ l2) = link_events l1 ++ link_events l2.
Proof. apply omap_app. Qed.

Lemma coalesce_counts_app l1 l2 :
  coalesce_counts (l1 ++ l2) = coalesce_counts l1 ++ coalesce_counts l2.
Proof. apply omap_app. Qed.

Section WithTypes.
Variables IFT_ETHER IFT_L2VLAN : Z.
Variable IS_DEFAULT_VNET : bool.

(** The deferred work reads the state recorded when it runs, announces
    it once, and logs the count it is handed if that is more than
    one. *)
Lemma do_link_state_change_spec pending s :
  exists evs,
    do_link_state_change IFT_ETHER IFT_L2VLAN IS_DEFAULT_VNET pending s
      = Ok tt {| ifp := ifp s;
                 log_link_state_change := log_link_state_change s;
                 delivered := delivered s ++ evs |} /\
    link_events evs = [if_link_state (ifp s)] /\
    coalesce_counts evs = if 1 <? pending then [pending] else [].
Proof.
  unfold do_link_state_change. unfold bind at 1. unfold get at 1.
  eexists. split.
  - repeat (apply delivers_bind;
            [first [apply delivers_emit | apply delivers_when, delivers_emit]|]).
    apply delivers_emit.
  - split.
    + by destruct (if_vlantrunk _), (if_softc_carp _), (if_bridge _), (if_lagg _),
        IS_DEFAULT_VNET, (1 <? pending), (log_link_state_change s =? 0),
        (((if_type (ifp s) =? IFT_ETHER) || (if_type (ifp s) =? IFT_L2VLAN))
         && if_l2com (ifp s)).
    + by destruct (if_vlantrunk _), (if_softc_carp _), (if_bridge _), (if_lagg _),
        IS_DEFAULT_VNET, (1 <? pending), (log_link_state_change s =? 0),
        (((if_type (ifp s) =? IFT_ETHER) || (if_type (ifp s) =? IFT_L2VLAN))
         && if_l2com (ifp s)).
Qed.

Lemma if_link_state_change_same link_state s :
  if_link_state (ifp s) = link_state ->
  if_link_state_change link_state s = Ok tt s.
Proof.
  intros H. unfold if_link_state_change, bind, get.
  by rewrite (proj2 (Z.eqb_eq _ _) H).
Qed.

Lemma if_link_state_change_other link_state s :
  if_link_state (ifp s) <> link_state ->
  if_link_state_change link_state s
    = Ok tt (set_ifp (set_ta_pending (ta_pending (ifp s) + 1)
                        (set_if_link_state link_state (ifp s))) s).
Proof.
  intros H. unfold if_link_state_change, bind, get.
  by rewrite (proj2 (Z.eqb_neq _ _) H).
Qed.

(** After the four signals the recorded state is up, and every signal
    but a first one that found the link down already was counted. *)
Lemma signals_flapping s :
  signals flapping s
    = Ok tt (set_ifp (set_ta_pending
                        (ta_pending (ifp s)
                         + (if if_link_state (ifp s) =? LINK_STATE_DOWN
                            then 3 else 4))
                        (set_if_link_state LINK_STATE_UP (ifp s))) s).
Proof.
  unfold flapping, signals.
  destruct (Z.eqb_spec (if_link_state (ifp s)) LINK_STATE_DOWN) as [Hd|Hd].
  - erewrite bind_step by (by apply if_link_state_change_same).
    erewrite bind_step by (apply if_link_state_change_other; by rewrite Hd).
    erewrite bind_step by (by apply if_link_state_change_other).
    erewrite bind_step by (by apply if_link_state_change_other).
    unfold ret. f_equal. destruct s as [i l d]. unfold set_ifp. simpl. f_equal.
    unfold set_ta_pending. simpl. f_equal. lia.
  - erewrite bind_step by (by apply if_link_state_change_other).
    erewrite bind_step by (by apply if_link_state_change_other).
    erewrite bind_step by (by apply if_link_state_change_other).
    erewrite bind_step by (by apply if_link_state_change_other).
    unfold ret. f_equal. destruct s as [i l d]. unfold set_ifp. simpl. f_equal.
    unfold set_ta_pending. simpl. f_equal. lia.
Qed.

End WithTypes.

(** C3, as it holds of the code.  A signal of the state that is
    recorded already changes nothing; any other signal records the
    new state at once and counts one more unit against the deferred
    work.  With no work pending, the signals down, up, down, up
    followed by one run of the deferred work deliver exactly one
    notification, of the state up, and log one coalesce count: 3 if
    the link was recorded as down before (the first signal was then
    no change), and 4 otherwise. *)
Theorem link_state_signals_coalesce
    (IFT_ETHER IFT_L2VLAN : Z) (IS_DEFAULT_VNET : bool) (s : state) :
  ta_pending (ifp s) = 0 ->
  (forall link_state s0,
     if_link_state (ifp s0) = link_state ->
     if_link_state_change link_state s0 = Ok tt s0) /\
  (forall link_state s0,
     if_link_state (ifp s0) <> link_state ->
     if_link_state_change link_state s0
       = Ok tt (set_ifp (set_ta_pending (ta_pending (ifp s0) + 1)
                           (set_if_link_state link_state (ifp s0))) s0)) /\
  exists s',
    (signals flapping ;;
     taskqueue_run IFT_ETHER IFT_L2VLAN IS_DEFAULT_VNET) s = Ok tt s' /\
    link_events (delivered s') = link_events (delivered s) ++ [LINK_STATE_UP] /\
    coalesce_counts (delivered s')
      = coalesce_counts (delivered s)
        ++ [if if_link_state (ifp s) =? LINK_STATE_DOWN then 3 else 4] /\
    if_link_state (ifp s') = LINK_STATE_UP /\
    ta_pending (ifp s') = 0.
Proof.
  intros Hidle.
  split; [intros; by apply if_link_state_change_same|].
  split; [intros; by apply if_link_state_change_other|].
  rewrite (bind_step _ _ _ _ _ (signals_flapping s)).
  rewrite Hidle.
  set (n := 0 + (if if_link_state (ifp s) =? LINK_STATE_DOWN then 3 else 4)).
  assert (Hn : n = if if_link_state (ifp s) =? LINK_STATE_DOWN then 3 else 4)
    by (subst n; lia).
  assert (Hpos : (0 <? n) = true) by (rewrite Hn; by destruct (_ =? _)).
  assert (Hmany : (1 <? n) = true) by (rewrite Hn; by destruct (_ =? _)).
  unfold taskqueue_run. unfold bind at 1. unfold get at 1.
  cbn [ifp set_ifp ta_pending set_ta_pending]. rewrite Hpos.
  unfold bind at 1. unfold modify at 1.
  match goal with
  | |- context [do_link_state_change _ _ _ ?p ?s1] =>
      destruct (do_link_state_change_spec IFT_ETHER IFT_L2VLAN IS_DEFAULT_VNET p s1)
        as (evs & Hrun & Hev & Hco)
  end.
  rewrite Hrun. eexists. split; [reflexivity|].
  cbn [delivered ifp set_ifp]. rewrite link_events_app, coalesce_counts_app.
  rewrite Hev, Hco, Hmany, Hn. done.
Qed.

Lemma link_state_signals_coalesce_witness :
  ta_pending (ifp Examples.link_down) = 0 /\
  exists s',
    (signals flapping ;; taskqueue_run 6 135 true) Examples.link_down
      = Ok tt s' /\
    link_events (delivered s') = [LINK_STATE_UP] /\
    coalesce_counts (delivered s') = [3].
Proof.
  split; [reflexivity|].
  destruct (proj2 (proj2 (link_state_signals_coalesce 6 135 true
                            Examples.link_down eq_refl)))
    as (s' & Hrun & Hev & Hco & _).
  exists s'. split; [exact Hrun|]. split; [exact Hev | exact Hco].
Defined.

(** C3 as it is worded does not hold for a link that is recorded as
    up: all four signals are changes, and the one notification comes
    with a coalesce count of 4, not 3. *)
Lemma link_up_flapping_counts_four :
  exists s',
    (signals flapping ;; taskqueue_run 6 135 true) Examples.link_up
      = Ok tt s' /\
    link_events (delivered s') = [LINK_STATE_UP] /\
    coalesce_counts (delivered s') = [4] /\
    coalesce_counts (delivered s') <> [3].
Proof.
  eexists. split; [vm_compute; reflexivity|].
  split; [reflexivity|]. split; [reflexivity|]. discriminate.
Defined.

End LinkStateFacts.

(** * Multicast memberships *)

Module MulticastFacts.
Import Multicast.

Section WithSockaddr.
Context `{env : Env} {sockaddr : Type}.
Variable sa_family : sockaddr -> Z.
Variables sdl_len sdl_alen : sockaddr -> Z.
Variable LLADDR : sockaddr -> list Byte.byte.
Variable sa_equal : sockaddr -> sockaddr -> bool.
Variable if_resolvemulti : positive -> sockaddr -> Z * option sockaddr.
Hypothesis sa_equal_refl : forall a, sa_equal a a = true.

Local Abbreviation findmulti_loop :=
  (if_findmulti_loop sa_family sdl_len sdl_alen LLADDR sa_equal).
Local Abbreviation findmulti :=
  (if_findmulti sa_family sdl_len sdl_alen LLADDR sa_equal).
Local Abbreviation addmulti :=
  (if_addmulti sa_family sdl_len sdl_alen LLADDR sa_equal if_resolvemulti).
Local Abbreviation delmulti :=
  (if_delmulti sa_family sdl_len sdl_alen LLADDR sa_equal).

(** ** Memory *)

Lemma ifma_load_ok m (s : state (sockaddr := sockaddr)) ifma :
  ifmas s !! m = Some ifma -> ifma_load m s = Ok ifma s.
Proof. unfold ifma_load. by intros ->. Qed.

Lemma ifma_update_ok m f (s : state (sockaddr := sockaddr)) ifma :
  ifmas s !! m = Some ifma ->
  ifma_update m f s = Ok tt (set_ifmas (<[m := f ifma]> (ifmas s)) s).
Proof. unfold ifma_update. by intros ->. Qed.

Lemma multiaddrs_load_ok ifp (s : state (sockaddr := sockaddr)) l :
  if_multiaddrs s !! ifp = Some l -> multiaddrs_load ifp s = Ok l s.
Proof. unfold multiaddrs_load. by intros ->. Qed.

Lemma multiaddrs_update_ok ifp f (s : state (sockaddr := sockaddr)) l :
  if_multiaddrs s !! ifp = Some l ->
  multiaddrs_update ifp f s
    = Ok tt (set_if_multiaddrs (<[ifp := f l]> (if_multiaddrs s)) s).
Proof. unfold multiaddrs_update. by intros ->. Qed.

Lemma if_allocmulti_ok ifp (sa : sockaddr) llsa (s : state) :
  nowait s = [] ->
  if_allocmulti ifp sa llsa s
    = Ok (Some (brk s))
         (set_ifmas
            (<[brk s := {| ifma_addr := sa; ifma_lladdr := llsa;
                           ifma_ifp := Some ifp; ifma_refcount := 1;
                           ifma_llifma := None |}]> (ifmas s))
            (set_alloc (match llsa with
                        | Some _ => Pos.succ (Pos.succ (Pos.succ (brk s)))
                        | None => Pos.succ (Pos.succ (brk s))
                        end) [] s)).
Proof.
  intros Hnw. unfold if_allocmulti, bind, malloc_nowait. rewrite Hnw. simpl.
  destruct llsa; simpl; reflexivity.
Qed.

(** ** Searching the list *)

Lemma sa_dl_equal_refl a : sa_dl_equal sdl_len sdl_alen LLADDR a a = true.
Proof.
  unfold sa_dl_equal, bcmp_eq. rewrite Z.eqb_refl. simpl.
  by apply bool_decide_eq_true.
Qed.

Lemma findmulti_loop_ro l sa s r s' :
  findmulti_loop l sa s = Ok r s' -> s' = s.
Proof.
  induction l as [|m l IH]; simpl.
  - unfold ret. by intros [= _ ->].
  - unfold bind, ifma_load. destruct (ifmas s !! m) as [ifma|]; [|done].
    destruct (if sa_family sa =? AF_LINK then _ else _); [|exact IH].
    unfold ret. by intros [= _ ->].
Qed.

Lemma findmulti_loop_head m rest sa s ifma :
  ifmas s !! m = Some ifma -> ifma_addr ifma = sa ->
  findmulti_loop (m :: rest) sa s = Ok (Some m) s.
Proof.
  intros Hm <-. simpl. unfold bind, ifma_load. rewrite Hm.
  rewrite sa_dl_equal_refl, sa_equal_refl. by destruct (_ =? _).
Qed.

Lemma findmulti_loop_valid l sa s s' :
  findmulti_loop l sa s = Ok None s' ->
  forall x, x ∈ l -> is_Some (ifmas s !! x).
Proof.
  induction l as [|m l IH]; simpl; intros Hrun x Hx.
  - by apply elem_of_nil in Hx.
  - unfold bind, ifma_load in Hrun.
    destruct (ifmas s !! m) as [ifma|] eqn:Hm; [|done].
    destruct (if sa_family sa =? AF_LINK then _ else _); [done|].
    apply elem_of_cons in Hx as [->|Hx]; [by rewrite Hm | by apply IH].
Qed.

Lemma findmulti_loop_total l sa s :
  (forall x, x ∈ l -> is_Some (ifmas s !! x)) ->
  exists r, findmulti_loop l sa s = Ok r s /\
            forall x, r = Some x -> x ∈ l.
Proof.
  induction l as [|m l IH]; simpl; intros Hval.
  - exists None. by split.
  - destruct (Hval m) as [ifma Hm]; [by left|].
    unfold bind, ifma_load. rewrite Hm.
    destruct (if sa_family sa =? AF_LINK then _ else _).
    + exists (Some m). split; [done|]. intros x [= <-]. by left.
    + destruct IH as (r & Hr & Hin); [intros x Hx; apply Hval; by right|].
      exists r. split; [done|]. intros x Hx. right. by apply Hin.
Qed.

Lemma findmulti_loop_ext l sa (s s' : state) r :
  (forall x, x ∈ l -> ifmas s' !! x = ifmas s !! x) ->
  findmulti_loop l sa s = Ok r s ->
  findmulti_loop l sa s' = Ok r s'.
Proof.
  induction l as [|m l IH]; simpl; intros Hsame Hrun.
  - unfold ret in *. by inversion Hrun.
  - unfold bind, ifma_load in *. rewrite (Hsame m) by (by left).
    destruct (ifmas s !! m) as [ifma|]; [|done].
    destruct (if sa_family sa =? AF_LINK then _ else _).
    + unfold ret in *. by inversion Hrun.
    + apply IH; [|done]. intros x Hx. apply Hsame. by right.
Qed.

Lemma findmulti_ro ifp sa s r s' : findmulti ifp sa s = Ok r s' -> s' = s.
Proof.
  unfold if_findmulti, bind, multiaddrs_load.
  destruct (if_multiaddrs s !! ifp); [|done]. apply findmulti_loop_ro.
Qed.

Lemma findmulti_Some ifp sa s m s' :
  findmulti ifp sa s = Ok (Some m) s' -> is_Some (ifmas s !! m).
Proof.
  unfold if_findmulti, bind, multiaddrs_load.
  destruct (if_multiaddrs s !! ifp) as [l|]; [|done].
  induction l as [|x l IH]; simpl; [done|].
  unfold bind, ifma_load. destruct (ifmas s !! x) as [ifma|] eqn:Hx; [|done].
  destruct (if sa_family sa =? AF_LINK then _ else _); [|exact IH].
  unfold ret. intros [= <- _]. by rewrite Hx.
Qed.

Lemma member_found ifp sa m r s :
  member ifp sa m r s -> findmulti ifp sa s = Ok (Some m) s.
Proof.
  intros (rest & ifma & Hl & _ & Hm & Ha & _).
  unfold if_findmulti. rewrite (bind_step _ _ _ _ _ (multiaddrs_load_ok _ _ _ Hl)).
  by eapply findmulti_loop_head.
Qed.

(** ** Joining an address that is there already *)

Lemma if_addmulti_present ifp (sa : sockaddr) s m s0 :
  findmulti ifp sa s = Ok (Some m) s0 ->
  exists ifma,
    ifmas s !! m = Some ifma /\
    addmulti ifp sa s
      = Ok (0, Some m)
           (set_ifmas (<[m := set_ifma_refcount (ifma_refcount ifma + 1) ifma]>
                         (ifmas s)) s).
Proof.
  intros Hf. pose proof (findmulti_ro _ _ _ _ _ Hf) as ->.
  destruct (findmulti_Some _ _ _ _ _ Hf) as [ifma Hm].
  exists ifma. split; [done|].
  unfold if_addmulti. rewrite (bind_step _ _ _ _ _ Hf).
  by rewrite (bind_step _ _ _ _ _ (ifma_update_ok _ _ _ _ Hm)).
Qed.

Lemma member_recount ifp (sa : sockaddr) m r r' s ifma :
  member ifp sa m r s ->
  ifmas s !! m = Some ifma ->
  member ifp sa m r'
    (set_ifmas (<[m := set_ifma_refcount r' ifma]> (ifmas s)) s).
Proof.
  intros (rest & ifma' & Hl & Hnin & Hm' & Ha & Hi & Hr & Hv & Hll) Hm.
  rewrite Hm in Hm'. inversion Hm'; subst ifma'. clear Hm'.
  exists rest, (set_ifma_refcount r' ifma). simpl.
  rewrite lookup_insert_eq.
  split; [done|]. split; [done|]. split; [done|]. split; [done|].
  split; [done|]. split; [done|]. split; [done|].
  destruct (ifma_llifma ifma) as [l|]; [|done].
  destruct Hll as (Hne & Hlad & Hval).
  split; [done|]. split; [done|]. by rewrite lookup_insert_ne.
Qed.

Lemma if_addmulti_member ifp (sa : sockaddr) m r s :
  member ifp sa m r s ->
  exists s',
    addmulti ifp sa s = Ok (0, Some m) s' /\
    member ifp sa m (r + 1) s' /\ events s' = events s.
Proof.
  intros Hmem. pose proof (member_found _ _ _ _ _ Hmem) as Hf.
  destruct (if_addmulti_present _ _ _ _ _ Hf) as (ifma & Hm & Hrun).
  eexists. split; [exact Hrun|]. split; [|done].
  assert (Hr : ifma_refcount ifma = r).
  { destruct Hmem as (? & ifma' & _ & _ & Hm' & _ & _ & Hr & _). congruence. }
  rewrite Hr. by eapply member_recount.
Qed.

(** ** Leaving *)

Lemma if_delmulti_entry ifp (sa : sockaddr) s :
  ifp ∈ V_ifnet s ->
  delmulti (Some ifp) sa s
  = (found <- findmulti ifp sa ;;
     match found with
     | None => ret ENOENT
     | Some m =>
         lastref <- if_delmulti_locked (Some ifp) m false ;;
         (if negb (lastref =? 0) then emit (if_ioctl ifp SIOCDELMULTI)
          else ret tt) ;;
         ret 0
     end) s.
Proof.
  intros Hin. unfold if_delmulti. unfold bind at 1. unfold get at 1.
  cbv zeta. rewrite (bool_decide_eq_true_2 _ Hin).
  replace (if INVARIANTS then Some ifp else Some ifp) with (Some ifp)
    by (by destruct INVARIANTS).
  erewrite bind_step; [reflexivity|].
  apply KASSERT_pass. intros _. by apply bool_decide_eq_true.
Qed.

Lemma if_delmulti_locked_head {A} ifp m (s : state (sockaddr := sockaddr)) ifma
    (k : ifmultiaddr -> K state A) :
  ifmas s !! m = Some ifma ->
  ifma_ifp ifma = Some ifp ->
  (ifma <- ifma_load m ;;
   (match Some ifp, ifma_ifp ifma with
    | Some p, Some p' =>
        KASSERT INVARIANTS (bool_decide (p' = p)) "inconsistent ifp"
    | _, _ => ret tt
    end) ;;
   k ifma) s = k ifma s.
Proof.
  intros Hm Hi. rewrite (bind_step _ _ _ _ _ (ifma_load_ok _ _ _ Hm)).
  rewrite Hi. erewrite bind_step; [reflexivity|].
  apply KASSERT_pass. intros _. by apply bool_decide_eq_true.
Qed.

Lemma if_delmulti_member_more ifp (sa : sockaddr) m r s :
  member ifp sa m r s -> 1 < r ->
  exists s',
    delmulti (Some ifp) sa s = Ok 0 s' /\
    member ifp sa m (r - 1) s' /\ events s' = events s.
Proof.
  intros Hmem Hr. pose proof (member_found _ _ _ _ _ Hmem) as Hf.
  pose proof Hmem as (rest & ifma & Hl & Hnin & Hm & Ha & Hi & Hrc & Hv & Hll).
  rewrite (if_delmulti_entry _ _ _ Hv). rewrite (bind_step _ _ _ _ _ Hf).
  assert (Hlocked : if_delmulti_locked (Some ifp) m false s
            = Ok 0 (set_ifmas (<[m := set_ifma_refcount (r - 1) ifma]>
                                 (ifmas s)) s)).
  { unfold if_delmulti_locked.
    rewrite (if_delmulti_locked_head ifp m s ifma _ Hm Hi).
    rewrite Hi. unfold bind at 1. unfold ret at 1.
    rewrite (bind_step _ _ _ _ _ (ifma_update_ok _ _ _ _ Hm)).
    rewrite Hrc. by rewrite (proj2 (Z.ltb_lt 0 (r - 1))) by lia. }
  rewrite (bind_step _ _ _ _ _ Hlocked). simpl.
  eexists. split; [reflexivity|]. split; [|done].
  by eapply member_recount.
Qed.

Lemma if_freemulti_ok m (s : state (sockaddr := sockaddr)) ifma :
  ifmas s !! m = Some ifma -> ifma_refcount ifma = 0 ->
  if_freemulti m s = Ok tt (set_ifmas (delete m (ifmas s)) s).
Proof.
  intros Hm Hz. unfold if_freemulti.
  rewrite (bind_step _ _ _ _ _ (ifma_load_ok _ _ _ Hm)).
  erewrite bind_step; [reflexivity|].
  apply KASSERT_pass. intros _. rewrite Hz. reflexivity.
Qed.

(** The last reference: the link-level membership loses one
    reference and goes if that was its last, then the membership is
    taken off the list and freed. *)
Lemma if_delmulti_locked_last ifp (sa : sockaddr) m s :
  member ifp sa m 1 s ->
  exists s',
    if_delmulti_locked (Some ifp) m false s = Ok 1 s' /\
    ifmas s' !! m = None /\
    (exists l, if_multiaddrs s' !! ifp = Some l /\ m ∉ l) /\
    events s' = events s.
Proof.
  intros (rest & ifma & Hl & Hnin & Hm & Ha & Hi & Hrc & Hv & Hll).
  unfold if_delmulti_locked.
  rewrite (if_delmulti_locked_head ifp m s ifma _ Hm Hi).
  rewrite Hi. unfold bind at 1. unfold ret at 1.
  rewrite (bind_step _ _ _ _ _ (ifma_update_ok _ _ _ _ Hm)).
  rewrite Hrc. change (0 <? 1 - 1) with false. cbv iota.
  set (ifma0 := set_ifma_refcount (1 - 1) ifma).
  set (s1 := set_ifmas (<[m := ifma0]> (ifmas s)) s).
  assert (Hm1 : ifmas s1 !! m = Some ifma0) by (simpl; by rewrite lookup_insert_eq).
  destruct (ifma_llifma ifma) as [l|] eqn:Hllifma.
  - destruct Hll as (Hne & Hlad & [ll Hlv]).
    assert (Hl1 : ifmas s1 !! l = Some ll) by (simpl; by rewrite lookup_insert_ne).
    rewrite bind_assoc.
    erewrite bind_step
      by (apply KASSERT_pass; intros _; by apply bool_decide_eq_true).
    rewrite bind_assoc. unfold bind at 1. unfold ret at 1.
    rewrite bind_assoc.
    rewrite (bind_step _ _ _ _ _ (ifma_update_ok _ _ _ _ Hl1)).
    set (ll1 := set_ifma_refcount (ifma_refcount ll - 1) ll).
    set (s2 := set_ifmas (<[l := ll1]> (ifmas s1)) s1).
    assert (Hl2 : ifmas s2 !! l = Some ll1) by (simpl; by rewrite lookup_insert_eq).
    rewrite bind_assoc.
    rewrite (bind_step _ _ _ _ _ (ifma_load_ok _ _ _ Hl2)).
    destruct (Z.eqb_spec (ifma_refcount ll1) 0) as [Hz|Hnz]; cbv iota.
    + assert (Hlist2 : if_multiaddrs s2 !! ifp = Some (m :: rest)) by exact Hl.
      rewrite bind_assoc.
      rewrite (bind_step _ _ _ _ _ (multiaddrs_update_ok _ _ _ _ Hlist2)).
      set (s3 := set_if_multiaddrs _ s2).
      assert (Hl3 : ifmas s3 !! l = Some ll1) by exact Hl2.
      rewrite (bind_step _ _ _ _ _ (if_freemulti_ok _ _ _ Hl3 Hz)).
      set (s4 := set_ifmas _ s3).
      assert (Hlist4 : if_multiaddrs s4 !! ifp
                       = Some (m :: TAILQ_REMOVE l rest)).
      { simpl. rewrite lookup_insert_eq. simpl.
        by destruct (decide (l = m)). }
      rewrite (bind_step _ _ _ _ _ (multiaddrs_update_ok _ _ _ _ Hlist4)).
      set (s5 := set_if_multiaddrs _ s4).
      assert (Hm5 : ifmas s5 !! m = Some ifma0).
      { simpl. rewrite lookup_delete_ne by done.
        rewrite lookup_insert_ne by done. by rewrite lookup_insert_eq. }
      rewrite (bind_step _ _ _ _ _ (if_freemulti_ok _ _ _ Hm5 eq_refl)).
      eexists. split; [reflexivity|]. simpl.
      split; [by rewrite lookup_delete_eq|]. split; [|done].
      eexists. split; [by rewrite lookup_insert_eq|].
      destruct (decide (m = m)); [|done].
      intros Hin. by apply RegistryFacts.TAILQ_REMOVE_elem_of in Hin.
    + unfold bind at 1. unfold ret at 1.
      assert (Hlist2 : if_multiaddrs s2 !! ifp = Some (m :: rest)) by exact Hl.
      rewrite (bind_step _ _ _ _ _ (multiaddrs_update_ok _ _ _ _ Hlist2)).
      set (s5 := set_if_multiaddrs _ s2).
      assert (Hm5 : ifmas s5 !! m = Some ifma0).
      { simpl. rewrite lookup_insert_ne by done. by rewrite lookup_insert_eq. }
      rewrite (bind_step _ _ _ _ _ (if_freemulti_ok _ _ _ Hm5 eq_refl)).
      eexists. split; [reflexivity|]. simpl.
      split; [by rewrite lookup_delete_eq|]. split; [|done].
      eexists. split; [by rewrite lookup_insert_eq|].
      by destruct (decide (m = m)).
  - unfold bind at 1. unfold ret at 1.
    assert (Hlist1 : if_multiaddrs s1 !! ifp = Some (m :: rest)) by exact Hl.
    rewrite (bind_step _ _ _ _ _ (multiaddrs_update_ok _ _ _ _ Hlist1)).
    set (s5 := set_if_multiaddrs _ s1).
    assert (Hm5 : ifmas s5 !! m = Some ifma0) by exact Hm1.
    rewrite (bind_step _ _ _ _ _ (if_freemulti_ok _ _ _ Hm5 eq_refl)).
    eexists. split; [reflexivity|]. simpl.
    split; [by rewrite lookup_delete_eq|]. split; [|done].
    eexists. split; [by rewrite lookup_insert_eq|].
    by destruct (decide (m = m)).
Qed.

Lemma if_delmulti_member_last ifp (sa : sockaddr) m s :
  member ifp sa m 1 s ->
  exists s',
    delmulti (Some ifp) sa s = Ok 0 s' /\
    ifmas s' !! m = None /\
    (exists l, if_multiaddrs s' !! ifp = Some l /\ m ∉ l) /\
    events s' = events s ++ [if_ioctl ifp SIOCDELMULTI].
Proof.
  intros Hmem. pose proof (member_found _ _ _ _ _ Hmem) as Hf.
  destruct (if_delmulti_locked_last _ _ _ _ Hmem)
    as (s1 & Hlocked & Hgone & Hoff & Hev).
  assert (Hv : ifp ∈ V_ifnet s) by (by destruct Hmem as (? & ? & ? & ? & ? & ? & ? & ? & ? & ?)).
  rewrite (if_delmulti_entry _ _ _ Hv). rewrite (bind_step _ _ _ _ _ Hf).
  rewrite (bind_step _ _ _ _ _ Hlocked).
  eexists. split; [reflexivity|]. simpl.
  split; [done|]. split; [done|]. by rewrite Hev.
Qed.

(** ** The first join *)

Lemma findmulti_None_list ifp (sa : sockaddr) s s0 :
  findmulti ifp sa s = Ok None s0 ->
  exists l, if_multiaddrs s !! ifp = Some l /\
            forall x, x ∈ l -> is_Some (ifmas s !! x).
Proof.
  unfold if_findmulti, bind, multiaddrs_load.
  destruct (if_multiaddrs s !! ifp) as [l|]; [|done].
  intros Hrun. exists l. split; [done|]. by eapply findmulti_loop_valid.
Qed.

Lemma findmulti_other ifp (ll : sockaddr) (s s' : state) l :
  if_multiaddrs s !! ifp = Some l ->
  if_multiaddrs s' !! ifp = Some l ->
  (forall x, x ∈ l -> is_Some (ifmas s !! x)) ->
  (forall x, x ∈ l -> ifmas s' !! x = ifmas s !! x) ->
  exists r, findmulti ifp ll s' = Ok r s' /\
            forall x, r = Some x -> x ∈ l.
Proof.
  intros Hl Hl' Hval Hsame.
  destruct (findmulti_loop_total l ll s Hval) as (r & Hr & Hin).
  exists r. split; [|done].
  unfold if_findmulti. rewrite (bind_step _ _ _ _ _ (multiaddrs_load_ok _ _ _ Hl')).
  by eapply findmulti_loop_ext.
Qed.

Lemma if_addmulti_absent ifp (sa : sockaddr) s s0 :
  heap_fresh s -> ifp ∈ V_ifnet s ->
  findmulti ifp sa s = Ok None s0 ->
  nowait s = [] ->
  (if_resolvemulti ifp sa).1 = 0 \/ (if_resolvemulti ifp sa).1 = EOPNOTSUPP ->
  exists s',
    addmulti ifp sa s = Ok (0, Some (brk s)) s' /\
    member ifp sa (brk s) 1 s' /\
    events s' = events s ++ [rt_newmaddrmsg RTM_NEWMADDR (brk s);
                             if_ioctl ifp SIOCADDMULTI].
Proof.
  intros Hfresh Hv Hf Hnw Hres.
  pose proof (findmulti_ro _ _ _ _ _ Hf) as ->.
  destruct (findmulti_None_list _ _ _ _ Hf) as (l0 & Hl0 & Hval).
  assert (Hold : forall x, x ∈ l0 -> x <> brk s).
  { intros x Hx ->. specialize (Hfresh _ (Hval _ Hx)). lia. }
  unfold if_addmulti. rewrite (bind_step _ _ _ _ _ Hf).
  destruct (if_resolvemulti ifp sa) as [error llsa0]. simpl in Hres.
  assert (Hgo : negb (error =? EOPNOTSUPP) && negb (error =? 0) = false).
  { destruct Hres as [-> | ->]; reflexivity. }
  rewrite Hgo.
  set (llsa := if error =? EOPNOTSUPP then None else llsa0).
  rewrite (bind_step _ _ _ _ _ (if_allocmulti_ok ifp sa llsa s Hnw)).
  set (m := brk s) in *.
  set (ifma0 := {| ifma_addr := sa; ifma_lladdr := llsa; ifma_ifp := Some ifp;
                   ifma_refcount := 1; ifma_llifma := None |}).
  set (s1 := set_ifmas _ _).
  assert (Hm1 : ifmas s1 !! m = Some ifma0) by (simpl; by rewrite lookup_insert_eq).
  assert (Hl1 : if_multiaddrs s1 !! ifp = Some l0) by exact Hl0.
  assert (Hsame1 : forall x, x ∈ l0 -> ifmas s1 !! x = ifmas s !! x).
  { intros x Hx. simpl. rewrite lookup_insert_ne; [done|].
    intros Heq. by apply (Hold x). }
  destruct llsa as [ll|] eqn:Hllsa.
  - destruct (findmulti_other ifp ll s s1 l0 Hl0 Hl1 Hval Hsame1)
      as (r & Hfind & Hin).
    rewrite bind_assoc. rewrite (bind_step _ _ _ _ _ Hfind).
    destruct r as [l|].
    + assert (Hlin : l ∈ l0) by (by apply Hin).
      destruct (Hval l Hlin) as [ifl Hifl].
      assert (Hne : l <> m) by (by apply Hold).
      assert (Hifl1 : ifmas s1 !! l = Some ifl) by (by rewrite Hsame1).
      rewrite bind_assoc.
      rewrite (bind_step _ _ _ _ _ (ifma_update_ok _ _ _ _ Hifl1)).
      set (s2 := set_ifmas _ s1).
      assert (Hm2 : ifmas s2 !! m = Some ifma0).
      { simpl. rewrite lookup_insert_ne by done. by rewrite lookup_insert_eq. }
      rewrite bind_assoc.
      rewrite (bind_step _ _ _ _ _ (ifma_update_ok _ _ _ _ Hm2)).
      set (s3 := set_ifmas _ s2).
      unfold bind at 1. unfold ret at 1.
      assert (Hl3 : if_multiaddrs s3 !! ifp = Some l0) by exact Hl0.
      rewrite (bind_step _ _ _ _ _ (multiaddrs_update_ok _ _ _ _ Hl3)).
      eexists. split; [reflexivity|]. simpl. split.
      * exists l0, (set_ifma_llifma (Some l) ifma0). simpl.
        rewrite !lookup_insert_eq.
        split; [done|]. split; [intros Hx; by apply (Hold m)|].
        split; [done|]. split; [done|]. split; [done|]. split; [done|].
        split; [done|]. split; [done|]. split; [done|].
        rewrite lookup_insert_ne by done. by rewrite lookup_insert_eq.
      * by rewrite <- app_assoc.
    + assert (Hnw1 : nowait s1 = []) by reflexivity.
      rewrite bind_assoc.
      rewrite (bind_step _ _ _ _ _ (if_allocmulti_ok ifp ll None s1 Hnw1)).
      set (l := brk s1).
      assert (Hne : l <> m) by (subst l m; simpl; lia).
      set (s2 := set_ifmas _ _).
      assert (Hl2 : if_multiaddrs s2 !! ifp = Some l0) by exact Hl0.
      rewrite bind_assoc.
      rewrite (bind_step _ _ _ _ _ (multiaddrs_update_ok _ _ _ _ Hl2)).
      set (s3 := set_if_multiaddrs _ s2).
      assert (Hm3 : ifmas s3 !! m = Some ifma0).
      { simpl. rewrite lookup_insert_ne by done. by rewrite lookup_insert_eq. }
      rewrite bind_assoc.
      rewrite (bind_step _ _ _ _ _ (ifma_update_ok _ _ _ _ Hm3)).
      set (s4 := set_ifmas _ s3).
      unfold bind at 1. unfold ret at 1.
      assert (Hl4 : if_multiaddrs s4 !! ifp = Some (l :: l0))
        by (simpl; by rewrite lookup_insert_eq).
      rewrite (bind_step _ _ _ _ _ (multiaddrs_update_ok _ _ _ _ Hl4)).
      eexists. split; [reflexivity|]. simpl. split.
      * exists (l :: l0), (set_ifma_llifma (Some l) ifma0). simpl.
        rewrite !lookup_insert_eq.
        split; [done|]. split.
        { rewrite not_elem_of_cons. split; [done|].
          intros Hx; by apply (Hold m). }
        split; [done|]. split; [done|]. split; [done|]. split; [done|].
        split; [done|]. split; [done|]. split; [done|].
        rewrite lookup_insert_ne by done. by rewrite lookup_insert_eq.
      * by rewrite <- app_assoc.
  - unfold bind at 1. unfold ret at 1.
    rewrite (bind_step _ _ _ _ _ (multiaddrs_update_ok _ _ _ _ Hl1)).
    eexists. split; [reflexivity|]. simpl. split.
    + exists l0, ifma0. simpl. rewrite !lookup_insert_eq.
      split; [done|]. split; [intros Hx; by apply (Hold m)|].
      split; [done|]. split; [done|]. split; [done|]. split; [done|].
      split; done.
    + by rewrite <- app_assoc.
Qed.

(** ** Joins and leaves in a row *)

Lemma joins_member ifp (sa : sockaddr) m n : forall r s,
  member ifp sa m r s ->
  exists s',
    joins sa_family sdl_len sdl_alen LLADDR sa_equal if_resolvemulti n ifp sa s
      = Ok (replicate n (0, Some m)) s' /\
    member ifp sa m (r + Z.of_nat n) s' /\ events s' = events s.
Proof.
  induction n as [|n IH]; intros r s Hmem.
  - exists s. split; [done|]. split; [|done]. by rewrite Z.add_0_r.
  - destruct (if_addmulti_member _ _ _ _ _ Hmem) as (s1 & Hrun & Hmem1 & Hev1).
    destruct (IH _ _ Hmem1) as (s2 & Hrun2 & Hmem2 & Hev2).
    exists s2. simpl joins. rewrite (bind_step _ _ _ _ _ Hrun).
    rewrite (bind_step _ _ _ _ _ Hrun2). split; [done|].
    split; [|congruence].
    replace (r + Z.of_nat (S n)) with (r + 1 + Z.of_nat n) by lia. done.
Qed.

Lemma leaves_member ifp (sa : sockaddr) m n : forall r s,
  member ifp sa m r s -> Z.of_nat n < r ->
  exists s',
    leaves sa_family sdl_len sdl_alen LLADDR sa_equal n ifp sa s
      = Ok (replicate n 0) s' /\
    member ifp sa m (r - Z.of_nat n) s' /\ events s' = events s.
Proof.
  induction n as [|n IH]; intros r s Hmem Hr.
  - exists s. split; [done|]. split; [|done]. by rewrite Z.sub_0_r.
  - destruct (if_delmulti_member_more _ _ _ _ _ Hmem) as (s1 & Hrun & Hmem1 & Hev1);
      [lia|].
    destruct (IH _ _ Hmem1) as (s2 & Hrun2 & Hmem2 & Hev2); [lia|].
    exists s2. simpl leaves. rewrite (bind_step _ _ _ _ _ Hrun).
    rewrite (bind_step _ _ _ _ _ Hrun2). split; [done|].
    split; [|congruence].
    replace (r - Z.of_nat (S n)) with (r - 1 - Z.of_nat n) by lia. done.
Qed.

Lemma leaves_all ifp (sa : sockaddr) m n : forall s,
  member ifp sa m (Z.of_nat (S n)) s ->
  exists s',
    leaves sa_family sdl_len sdl_alen LLADDR sa_equal (S n) ifp sa s
      = Ok (replicate (S n) 0) s' /\
    ifmas s' !! m = None /\
    (exists l, if_multiaddrs s' !! ifp = Some l /\ m ∉ l) /\
    events s' = events s ++ [if_ioctl ifp SIOCDELMULTI].
Proof.
  induction n as [|n IH]; intros s Hmem.
  - destruct (if_delmulti_member_last _ _ _ _ Hmem) as (s1 & Hrun & Hrest).
    exists s1. simpl leaves. rewrite (bind_step _ _ _ _ _ Hrun). done.
  - destruct (if_delmulti_member_more _ _ _ _ _ Hmem) as (s1 & Hrun & Hmem1 & Hev1);
      [lia|].
    replace (Z.of_nat (S (S n)) - 1) with (Z.of_nat (S n)) in Hmem1 by lia.
    destruct (IH _ Hmem1) as (s2 & Hrun2 & Hgone & Hoff & Hev2).
    exists s2. change (leaves sa_family sdl_len sdl_alen LLADDR sa_equal (S (S n)) ifp sa)
      with (r <- delmulti (Some ifp) sa ;;
            rs <- leaves sa_family sdl_len sdl_alen LLADDR sa_equal (S n) ifp sa ;;
            ret (r :: rs)).
    rewrite (bind_step _ _ _ _ _ Hrun). rewrite (bind_step _ _ _ _ _ Hrun2).
    split; [done|]. split; [done|]. split; [done|]. by rewrite Hev2, Hev1.
Qed.

Lemma member_refcount ifp (sa : sockaddr) m r s :
  member ifp sa m r s ->
  exists ifma, ifmas s !! m = Some ifma /\ ifma_refcount ifma = r.
Proof. intros (? & ifma & _ & _ & Hm & _ & _ & Hr & _). by exists ifma. Qed.

End WithSockaddr.

Lemma delmulti_calls_same {sockaddr} ifp (s s' : state (sockaddr := sockaddr)) :
  events s' = events s -> delmulti_calls ifp s' = delmulti_calls ifp s.
Proof. unfold delmulti_calls. by intros ->. Qed.

Lemma delmulti_calls_join {sockaddr} ifp (s s' : state (sockaddr := sockaddr)) m :
  events s' = events s ++ [rt_newmaddrmsg RTM_NEWMADDR m;
                           if_ioctl ifp SIOCADDMULTI] ->
  delmulti_calls ifp s' = delmulti_calls ifp s.
Proof.
  unfold delmulti_calls. intros ->. rewrite filter_app, length_app.
  rewrite filter_cons_False by done. rewrite filter_cons_False by done.
  simpl. lia.
Qed.

Lemma delmulti_calls_last {sockaddr} ifp (s s' : state (sockaddr := sockaddr)) :
  events s' = events s ++ [if_ioctl ifp SIOCDELMULTI] ->
  delmulti_calls ifp s' = S (delmulti_calls ifp s) /\
  last (events s') = Some (if_ioctl ifp SIOCDELMULTI).
Proof.
  unfold delmulti_calls. intros ->. rewrite filter_app, length_app.
  rewrite filter_cons_True by done. rewrite last_snoc. simpl. split; [lia|done].
Qed.

(** C2.  A join ([if_addmulti]) of an address that the interface has
    a membership for only adds one to the reference count of that
    membership, and returns it.  From a state where the address is
    not joined, where the allocator has memory and the resolver
    accepts the address: N joins all return the same membership,
    held N times; fewer than N leaves ([if_delmulti]) bring the count
    down one by one without a [SIOCDELMULTI] to the driver; the N-th
    leave frees the membership, takes it off the list, and is the
    one, and the only one, that is followed by [SIOCDELMULTI]. *)
Theorem multicast_joins_and_leaves_balance
    (env : Env) (sockaddr : Type)
    (sa_family sdl_len sdl_alen : sockaddr -> Z)
    (LLADDR : sockaddr -> list Byte.byte)
    (sa_equal : sockaddr -> sockaddr -> bool)
    (if_resolvemulti : positive -> sockaddr -> Z * option sockaddr)
    (s : state) (ifp : positive) (sa : sockaddr) :
  (forall a, sa_equal a a = true) ->
  (forall m s0,
     if_findmulti sa_family sdl_len sdl_alen LLADDR sa_equal ifp sa s
       = Ok (Some m) s0 ->
     exists ifma,
       ifmas s !! m = Some ifma /\
       if_addmulti sa_family sdl_len sdl_alen LLADDR sa_equal if_resolvemulti
           ifp sa s
         = Ok (0, Some m)
              (set_ifmas
                 (<[m := set_ifma_refcount (ifma_refcount ifma + 1) ifma]>
                    (ifmas s)) s)) /\
  (heap_fresh s -> ifp ∈ V_ifnet s -> nowait s = [] ->
   if_findmulti sa_family sdl_len sdl_alen LLADDR sa_equal ifp sa s
     = Ok None s ->
   (if_resolvemulti ifp sa).1 = 0 \/ (if_resolvemulti ifp sa).1 = EOPNOTSUPP ->
   forall N : nat, (0 < N)%nat ->
   exists m s1,
     joins sa_family sdl_len sdl_alen LLADDR sa_equal if_resolvemulti N ifp sa s
       = Ok (replicate N (0, Some m)) s1 /\
     (exists ifma, ifmas s1 !! m = Some ifma /\
                   ifma_refcount ifma = Z.of_nat N) /\
     delmulti_calls ifp s1 = delmulti_calls ifp s /\
     (forall k : nat, (k < N)%nat ->
        exists s2,
          leaves sa_family sdl_len sdl_alen LLADDR sa_equal k ifp sa s1
            = Ok (replicate k 0) s2 /\
          (exists ifma, ifmas s2 !! m = Some ifma /\
                        ifma_refcount ifma = Z.of_nat N - Z.of_nat k) /\
          delmulti_calls ifp s2 = delmulti_calls ifp s) /\
     exists s3,
       leaves sa_family sdl_len sdl_alen LLADDR sa_equal N ifp sa s1
         = Ok (replicate N 0) s3 /\
       ifmas s3 !! m = None /\
       (exists l, if_multiaddrs s3 !! ifp = Some l /\ m ∉ l) /\
       delmulti_calls ifp s3 = S (delmulti_calls ifp s) /\
       last (events s3) = Some (if_ioctl ifp SIOCDELMULTI)).
Proof.
  intros Hrefl. split.
  - intros m s0 Hf. by eapply if_addmulti_present.
  - intros Hfresh Hv Hnw Hf Hres [|n] HN; [lia|].
    destruct (if_addmulti_absent sa_family sdl_len sdl_alen LLADDR sa_equal
                if_resolvemulti ifp sa s s Hfresh Hv Hf Hnw Hres)
      as (s0 & Hfirst & Hmem0 & Hev0).
    destruct (joins_member sa_family sdl_len sdl_alen LLADDR sa_equal
                if_resolvemulti Hrefl ifp sa (brk s) n 1 s0 Hmem0)
      as (s1 & Hjoins & Hmem1 & Hev1).
    replace (1 + Z.of_nat n) with (Z.of_nat (S n)) in Hmem1 by lia.
    assert (Hcalls1 : delmulti_calls ifp s1 = delmulti_calls ifp s).
    { rewrite (delmulti_calls_same ifp s0 s1 Hev1).
      by eapply delmulti_calls_join. }
    exists (brk s), s1. split.
    { simpl joins. rewrite (bind_step _ _ _ _ _ Hfirst).
      by rewrite (bind_step _ _ _ _ _ Hjoins). }
    split; [by eapply member_refcount|]. split; [exact Hcalls1|]. split.
    + intros k Hk.
      destruct (leaves_member sa_family sdl_len sdl_alen LLADDR sa_equal Hrefl
                  ifp sa (brk s) k _ s1 Hmem1)
        as (s2 & Hleaves & Hmem2 & Hev2); [lia|].
      exists s2. split; [exact Hleaves|].
      split; [by eapply member_refcount|].
      by rewrite (delmulti_calls_same ifp s1 s2 Hev2).
    + destruct (leaves_all sa_family sdl_len sdl_alen LLADDR sa_equal Hrefl
                  ifp sa (brk s) n s1 Hmem1)
        as (s3 & Hleaves & Hgone & Hoff & Hev3).
      exists s3. split; [exact Hleaves|]. split; [exact Hgone|].
      split; [exact Hoff|].
      destruct (delmulti_calls_last ifp s1 s3 Hev3) as [Hcount Hlast].
      split; [by rewrite Hcount, Hcalls1 | exact Hlast].
Qed.

Lemma multicast_joins_and_leaves_balance_witness :
  exists m s1 s3,
    joins (env := amd64) Examples.sa_family Examples.sdl_len Examples.sdl_alen
      Examples.LLADDR Examples.sa_equal Examples.ether_resolvemulti
      3 1%positive Examples.all_hosts Examples.no_memberships
      = Ok (replicate 3 (0, Some m)) s1 /\
    leaves (env := amd64) Examples.sa_family Examples.sdl_len Examples.sdl_alen
      Examples.LLADDR Examples.sa_equal 3 1%positive Examples.all_hosts s1
      = Ok (replicate 3 0) s3 /\
    ifmas s3 !! m = None /\
    delmulti_calls 1%positive s3 = 1%nat.
Proof.
  assert (Hrefl : forall a, Examples.sa_equal a a = true)
    by (intros a; by apply bool_decide_eq_true).
  assert (Hfresh : heap_fresh Examples.no_memberships).
  { intros m [x Hx]. simpl in Hx. rewrite lookup_empty in Hx. discriminate Hx. }
  assert (Hin : 1%positive ∈ V_ifnet Examples.no_memberships)
    by (apply list_elem_of_singleton; reflexivity).
  destruct (proj2 (multicast_joins_and_leaves_balance amd64 Examples.sockaddr
                     Examples.sa_family Examples.sdl_len Examples.sdl_alen
                     Examples.LLADDR Examples.sa_equal
                     Examples.ether_resolvemulti
                     Examples.no_memberships 1%positive Examples.all_hosts
                     Hrefl)
              Hfresh Hin eq_refl eq_refl (or_introl eq_refl) 3%nat
              ltac:(lia))
    as (m & s1 & Hjoins & _ & _ & _ & s3 & Hleaves & Hgone & _ & Hcount & _).
  exists m, s1, s3.
  split; [exact Hjoins|]. split; [exact Hleaves|]. split; [exact Hgone|].
  exact Hcount.
Defined.

End MulticastFacts.

(** * TSO limits and address preference *)

Module TsomaxFacts.
Import Bless Tsomax.

Lemma iftsomax_eq (a b : iftsomax) :
  tsomax_bytes a = tsomax_bytes b ->
  tsomax_segcount a = tsomax_segcount b ->
  tsomax_segsize a = tsomax_segsize b -> a = b.
Proof. destruct a, b; simpl; congruence. Qed.

Ltac limit_cases :=
  repeat match goal with
  | |- context [?a =? ?b] => destruct (Z.eqb_spec a b); simpl
  | |- context [?a <? ?b] => destruct (Z.ltb_spec a b); simpl
  end; try lia.

Lemma if_tsomax_common_fields (from to : iftsomax) :
  if_tsomax_common from to
  = {| tsomax_bytes := common_limit (tsomax_bytes from) (tsomax_bytes to);
       tsomax_segcount :=
         common_limit (tsomax_segcount from) (tsomax_segcount to);
       tsomax_segsize :=
         common_limit (tsomax_segsize from) (tsomax_segsize to) |}.
Proof.
  destruct from as [a1 a2 a3], to as [b1 b2 b3].
  unfold if_tsomax_common, common_limit. simpl.
  destruct ((b1 =? 0) || _); simpl;
    destruct ((b2 =? 0) || _); simpl;
    destruct ((b3 =? 0) || _); reflexivity.
Qed.

Lemma common_limit_comm a b : common_limit a b = common_limit b a.
Proof.
  unfold common_limit.
  destruct (Z.eqb_spec b 0), (Z.eqb_spec a 0), (Z.ltb_spec a b),
    (Z.ltb_spec b a); simpl; lia.
Qed.

Lemma common_limit_assoc a b c :
  common_limit a (common_limit b c) = common_limit (common_limit a b) c.
Proof.
  unfold common_limit.
  destruct (Z.eqb_spec c 0), (Z.eqb_spec b 0), (Z.eqb_spec a 0),
    (Z.ltb_spec b c), (Z.ltb_spec a b), (Z.ltb_spec a c); simpl;
    limit_cases.
Qed.

Lemma common_limit_idem a b :
  common_limit a (common_limit a b) = common_limit a b.
Proof.
  unfold common_limit.
  destruct (Z.eqb_spec b 0), (Z.eqb_spec a 0), (Z.ltb_spec a b); simpl;
    limit_cases.
Qed.

Lemma common_limit_least a b :
  (common_limit a b = a \/ common_limit a b = b) /\
  (common_limit a b = 0 <-> a = 0 /\ b = 0) /\
  (a <> 0 -> common_limit a b <= a) /\
  (b <> 0 -> common_limit a b <= b).
Proof.
  unfold common_limit.
  destruct (Z.eqb_spec b 0), (Z.eqb_spec a 0), (Z.ltb_spec a b); simpl; lia.
Qed.

(** Folding [if_tsomax_common] over the adapters of an aggregate
    gives the same limits in whatever order they are taken: the
    operation is commutative, associative and idempotent. *)
Theorem if_tsomax_common_order_free (a b c : iftsomax) :
  if_tsomax_common a b = if_tsomax_common b a /\
  if_tsomax_common a (if_tsomax_common b c)
    = if_tsomax_common (if_tsomax_common a b) c /\
  if_tsomax_common a (if_tsomax_common a b) = if_tsomax_common a b.
Proof.
  rewrite !if_tsomax_common_fields. simpl.
  split; [|split]; apply iftsomax_eq; simpl;
    auto using common_limit_comm, common_limit_assoc, common_limit_idem.
Qed.

(** [if_tsomax_common] computes the least common limit, where 0
    stands for no limit: each limit of the result is one of the two
    it was computed from, it is 0 only if both are, and it exceeds
    neither of them where that one is set. *)
Theorem if_tsomax_common_least (from to : iftsomax) (limit : iftsomax -> Z) :
  limit = tsomax_bytes \/ limit = tsomax_segcount \/ limit = tsomax_segsize ->
  let r := if_tsomax_common from to in
  (limit r = limit from \/ limit r = limit to) /\
  (limit r = 0 <-> limit from = 0 /\ limit to = 0) /\
  (limit from <> 0 -> limit r <= limit from) /\
  (limit to <> 0 -> limit r <= limit to).
Proof.
  intros Hl r. subst r. rewrite if_tsomax_common_fields.
  destruct Hl as [-> | [-> | ->]]; simpl; apply common_limit_least.
Qed.

Lemma if_tsomax_common_least_witness :
  let from := {| tsomax_bytes := 65518; tsomax_segcount := 0;
                 tsomax_segsize := 2048 |} in
  let to := {| tsomax_bytes := 0; tsomax_segcount := 35;
               tsomax_segsize := 4096 |} in
  if_tsomax_common from to
    = {| tsomax_bytes := 65518; tsomax_segcount := 35;
         tsomax_segsize := 2048 |} /\
  tsomax_segsize (if_tsomax_common from to) <= tsomax_segsize to.
Proof.
  intros from to. split; [reflexivity|].
  apply (if_tsomax_common_least from to tsomax_segsize);
    [right; right; reflexivity | discriminate].
Defined.

Lemma limits_changed_zero old new : limits_changed old new = 0 <-> old = new.
Proof.
  unfold limits_changed. split.
  - intros H. apply iftsomax_eq;
      destruct (Z.eqb_spec (tsomax_bytes old) (tsomax_bytes new));
      destruct (Z.eqb_spec (tsomax_segsize old) (tsomax_segsize new));
      destruct (Z.eqb_spec (tsomax_segcount old) (tsomax_segcount new)); lia.
  - intros ->. by rewrite !Z.eqb_refl.
Qed.

(** One of the three compare-and-store steps of [if_tsomax_update]. *)
Lemma if_tsomax_update_step {A} (field : iftsomax -> Z)
    (set_field : Z -> iftsomax -> iftsomax) (x r1 r0 : Z)
    (k : Z -> K ifnet A) (i : ifnet) (t : iftsomax) :
  (forall y u, field (set_field y u) = y) ->
  (forall u, set_field (field u) u = u) ->
  limits i !! if_tsomax i = Some t ->
  exists i',
    (t <- tsomax_load ;;
     retval <- (if negb (field t =? x)
                then tsomax_update (set_field x) ;; ret r1
                else ret r0) ;;
     k retval) i
    = k (if field t =? x then r0 else r1) i' /\
    if_tsomax i' = if_tsomax i /\ ifdrv_tsomax i' = ifdrv_tsomax i /\
    limits i' !! if_tsomax i = Some (set_field x t) /\
    (forall q, q <> if_tsomax i -> limits i' !! q = limits i !! q).
Proof.
  intros Hget Hset Ht. unfold bind, tsomax_load, tsomax_update, ret.
  rewrite Ht. destruct (Z.eqb_spec (field t) x) as [<-|Hne]; simpl.
  - exists i. rewrite Hset. done.
  - rewrite Ht. eexists. split; [reflexivity|]. simpl.
    rewrite lookup_insert_eq. split; [done|]. split; [done|].
    split; [done|]. intros q Hq. by rewrite lookup_insert_ne.
Qed.

(** [if_tsomax_update] on an interface with limits of its own, and
    with new limits that the range assertion accepts: the limits of
    the interface are the new ones afterwards, no other limits are
    touched, and the result is the number of limits that changed, 0
    exactly when nothing did. *)
Theorem if_tsomax_update_counts_changes
    (env : Env) (IP_MAXPACKET : Z) (i : ifnet) (old new : iftsomax) :
  limits i !! if_tsomax i = Some old ->
  (INVARIANTS = true ->
   Some (if_tsomax i) <> ifdrv_tsomax i /\
   (tsomax_bytes new = 0 \/ IP_MAXPACKET / 8 <= tsomax_bytes new)) ->
  exists i',
    if_tsomax_update IP_MAXPACKET new i = Ok (limits_changed old new) i' /\
    if_tsomax i' = if_tsomax i /\
    limits i' !! if_tsomax i = Some new /\
    (forall q, q <> if_tsomax i -> limits i' !! q = limits i !! q) /\
    (limits_changed old new = 0 <-> old = new).
Proof.
  intros Hold Hok.
  assert (H1 : KASSERT (S := ifnet) INVARIANTS
                 (bool_decide (Some (if_tsomax i) <> ifdrv_tsomax i))
                 "interface has static if_tsomax" i = Ok tt i).
  { apply KASSERT_pass. intros Hinv. apply bool_decide_eq_true.
    by destruct (Hok Hinv). }
  unfold if_tsomax_update. unfold bind at 1. unfold get at 1.
  rewrite (bind_step _ _ _ _ _ H1).
  destruct (if_tsomax_update_step tsomax_bytes set_tsomax_bytes
              (tsomax_bytes new) 1 0
              (fun retval =>
                 t <- tsomax_load ;;
                 retval <-
                   (if negb (tsomax_segsize t =? tsomax_segsize new) then
                      tsomax_update (set_tsomax_segsize (tsomax_segsize new)) ;;
                      ret (retval + 1)
                    else ret retval) ;;
                 t <- tsomax_load ;;
                 retval <-
                   (if negb (tsomax_segcount t =? tsomax_segcount new) then
                      tsomax_update (set_tsomax_segcount (tsomax_segcount new)) ;;
                      ret (retval + 1)
                    else ret retval) ;;
                 t <- tsomax_load ;;
                 KASSERT INVARIANTS
                   ((tsomax_bytes t =? 0)
                    || (IP_MAXPACKET / 8 <=? tsomax_bytes t))
                   "tsomax_bytes is outside of range" ;;
                 ret retval) i old)
    as (i1 & -> & Hp1 & Hd1 & Hl1 & Ho1); [done | by intros [] | done |].
  set (n1 := if tsomax_bytes old =? tsomax_bytes new then 0 else 1).
  rewrite <- Hp1 in Hl1.
  destruct (if_tsomax_update_step tsomax_segsize set_tsomax_segsize
              (tsomax_segsize new) (n1 + 1) n1
              (fun retval =>
                 t <- tsomax_load ;;
                 retval <-
                   (if negb (tsomax_segcount t =? tsomax_segcount new) then
                      tsomax_update (set_tsomax_segcount (tsomax_segcount new)) ;;
                      ret (retval + 1)
                    else ret retval) ;;
                 t <- tsomax_load ;;
                 KASSERT INVARIANTS
                   ((tsomax_bytes t =? 0)
                    || (IP_MAXPACKET / 8 <=? tsomax_bytes t))
                   "tsomax_bytes is outside of range" ;;
                 ret retval) i1 _ ltac:(done) ltac:(by intros []) Hl1)
    as (i2 & -> & Hp2 & Hd2 & Hl2 & Ho2).
  cbn [tsomax_segsize set_tsomax_bytes] in *.
  set (n2 := if tsomax_segsize old =? tsomax_segsize new then n1 else n1 + 1).
  rewrite <- Hp2 in Hl2.
  destruct (if_tsomax_update_step tsomax_segcount set_tsomax_segcount
              (tsomax_segcount new) (n2 + 1) n2
              (fun retval =>
                 t <- tsomax_load ;;
                 KASSERT INVARIANTS
                   ((tsomax_bytes t =? 0)
                    || (IP_MAXPACKET / 8 <=? tsomax_bytes t))
                   "tsomax_bytes is outside of range" ;;
                 ret retval) i2 _ ltac:(done) ltac:(by intros []) Hl2)
    as (i3 & -> & Hp3 & Hd3 & Hl3 & Ho3).
  cbn [tsomax_segcount set_tsomax_bytes set_tsomax_segsize] in *.
  assert (Hfinal : limits i3 !! if_tsomax i3 = Some new).
  { rewrite Hp3, Hl3. by destruct new. }
  unfold bind at 1. unfold tsomax_load. rewrite Hfinal.
  erewrite bind_step.
  2:{ apply KASSERT_pass. intros Hinv.
      destruct (Hok Hinv) as [_ [Hz|Hr]]; apply orb_true_iff;
        [left|right]; lia. }
  exists i3. split.
  { unfold ret. f_equal. unfold limits_changed. subst n2 n1.
    destruct (_ =? _), (_ =? _), (_ =? _); reflexivity. }
  split; [congruence|]. split; [congruence|].
  split; [|apply limits_changed_zero].
  intros q Hq. rewrite Ho3, Ho2, Ho1 by congruence. done.
Qed.

Lemma if_tsomax_update_counts_changes_witness :
  exists i',
    if_tsomax_update (env := amd64) 65535 MoreExamples.tsomax_32k
      MoreExamples.tso_ifnet = Ok 2 i' /\
    limits i' !! 2%positive = Some MoreExamples.tsomax_32k.
Proof.
  destruct (if_tsomax_update_counts_changes amd64 65535 MoreExamples.tso_ifnet
              Examples.tsomax_64k MoreExamples.tsomax_32k eq_refl)
    as (i' & Hrun & _ & Hnew & _).
  - intros _. split; [discriminate|]. right. vm_compute. discriminate.
  - exists i'. split; [exact Hrun | exact Hnew].
Defined.

End TsomaxFacts.

Module IfaFacts.
Import Ifa.

(** [ifa_preferred] is a strict preference: no address is better than
    itself, better-than is transitive, and nothing is better than an
    address that is not virtual. *)
Theorem ifa_preferred_strict_order (carp_master_p : ifaddr -> bool)
    (a b c : ifaddr) :
  ifa_preferred carp_master_p a a = false /\
  (ifa_preferred carp_master_p a b = true ->
   ifa_preferred carp_master_p b c = true ->
   ifa_preferred carp_master_p a c = true) /\
  (ifa_preferred carp_master_p a b = true ->
   ifa_preferred carp_master_p b a = false) /\
  (ifa_carp a = false -> ifa_preferred carp_master_p a b = false).
Proof.
  unfold ifa_preferred.
  destruct (ifa_carp a), (ifa_carp b), (ifa_carp c),
    (carp_master_p a), (carp_master_p b), (carp_master_p c); simpl;
    repeat split; intros; congruence.
Qed.

End IfaFacts.

(** * Link state: a single change *)

Module LinkStateMore.
Import LinkState.

Section WithTypes.
Variables IFT_ETHER IFT_L2VLAN : Z.
Variable IS_DEFAULT_VNET : bool.

Lemma signals_same n link_state s :
  if_link_state (ifp s) = link_state ->
  signals (replicate n link_state) s = Ok tt s.
Proof.
  intros H. induction n as [|n IH]; simpl; [done|].
  by rewrite (bind_step _ _ _ _ _
                (LinkStateFacts.if_link_state_change_same _ _ H)).
Qed.

End WithTypes.

(** A change of link state that is signalled once or several times
    over before the deferred work runs is recorded and counted once:
    the work delivers one notification, of the new state, and logs no
    coalesce count; with that the work is done, and a further run of
    the task queue delivers nothing. *)
Theorem link_change_announced_once
    (IFT_ETHER IFT_L2VLAN : Z) (IS_DEFAULT_VNET : bool)
    (s : state) (link_state : Z) (n : nat) :
  ta_pending (ifp s) = 0 ->
  if_link_state (ifp s) <> link_state ->
  exists s',
    (signals (replicate (S n) link_state) ;;
     taskqueue_run IFT_ETHER IFT_L2VLAN IS_DEFAULT_VNET) s = Ok tt s' /\
    if_link_state (ifp s') = link_state /\
    link_events (delivered s') = link_events (delivered s) ++ [link_state] /\
    coalesce_counts (delivered s') = coalesce_counts (delivered s) /\
    taskqueue_run IFT_ETHER IFT_L2VLAN IS_DEFAULT_VNET s' = Ok tt s'.
Proof.
  intros Hidle Hnew.
  assert (Hsig : signals (replicate (S n) link_state) s
            = Ok tt (set_ifp (set_ta_pending (ta_pending (ifp s) + 1)
                                (set_if_link_state link_state (ifp s))) s)).
  { cbn [replicate signals].
    rewrite (bind_step _ _ _ _ _
               (LinkStateFacts.if_link_state_change_other _ _ Hnew)).
    by apply signals_same. }
  rewrite (bind_step _ _ _ _ _ Hsig). rewrite Hidle.
  unfold taskqueue_run at 1. unfold bind at 1. unfold get at 1.
  cbn [ifp set_ifp ta_pending set_ta_pending].
  change (0 <? 0 + 1) with true. cbv iota.
  unfold bind at 1. unfold modify at 1.
  match goal with
  | |- context [do_link_state_change _ _ _ ?p ?s1] =>
      destruct (LinkStateFacts.do_link_state_change_spec
                  IFT_ETHER IFT_L2VLAN IS_DEFAULT_VNET p s1)
        as (evs & Hrun & Hev & Hco)
  end.
  rewrite Hrun. eexists. split; [reflexivity|].
  cbn [delivered ifp set_ifp if_link_state set_ta_pending set_if_link_state].
  split; [done|].
  rewrite LinkStateFacts.link_events_app, LinkStateFacts.coalesce_counts_app.
  rewrite Hev, Hco. cbn [ifp set_ifp if_link_state set_ta_pending].
  split; [done|]. split; [by rewrite app_nil_r|].
  reflexivity.
Qed.

Lemma link_change_announced_once_witness :
  exists s',
    (signals (replicate 3 LINK_STATE_DOWN) ;; taskqueue_run 6 135 true)
      Examples.link_up = Ok tt s' /\
    link_events (delivered s') = [LINK_STATE_DOWN] /\
    coalesce_counts (delivered s') = [].
Proof.
  destruct (link_change_announced_once 6 135 true Examples.link_up
              LINK_STATE_DOWN 2 eq_refl ltac:(discriminate))
    as (s' & Hrun & _ & Hev & Hco & _).
  exists s'. split; [exact Hrun|]. split; [exact Hev | exact Hco].
Defined.

End LinkStateMore.

(** * Blessing a driver: what is kept, what is filled in *)

Module BlessMore.
Import Bless.

Lemma blessed_bit x : Z.land (Z.lor x IFDRV_BLESSED) IFDRV_BLESSED <> 0.
Proof.
  intros Hz. apply (f_equal (fun z => Z.testbit z 0)) in Hz.
  rewrite Z.land_spec, Z.lor_spec in Hz. simpl in Hz.
  by rewrite orb_true_r in Hz.
Qed.

Section WithOptions.
Context `{env : Env}.
Variable INET_or_INET6 : bool.
Variable IP_MAXPACKET : Z.
Variable default_tsomax : iftsomax.

(** The driver description that [ifdriver_bless] leaves, in closed
    form. *)
Lemma ifdriver_bless_result ifdrv ift :
  blessable INET_or_INET6 IP_MAXPACKET ifdrv ift ->
  let d1 := match ift with Some t => copy_type t ifdrv | None => ifdrv end in
  let ops2 := if 0 <? ifdrv_maxqlen ifdrv
              then set_ifop_qflush (Some if_snd_qflush) (ifdrv_ops d1)
              else ifdrv_ops d1 in
  exists d,
    ifdriver_bless INET_or_INET6 IP_MAXPACKET default_tsomax ift ifdrv = Ok tt d /\
    ifdrv_ops d =
      set_ifop_origin IFOP_ORIGIN_DRIVER
        (set_ifop_get_counter
           (DEFAULTOP (ifop_get_counter ops2) if_get_counter_default) ops2) /\
    ifdrv_flags d = Z.lor (ifdrv_flags ifdrv) IFDRV_BLESSED /\
    ifdrv_hdrlen d = ifdrv_hdrlen d1 /\ ifdrv_addrlen d = ifdrv_addrlen d1 /\
    ifdrv_dlt d = ifdrv_dlt d1 /\ ifdrv_dlt_hdrlen d = ifdrv_dlt_hdrlen d1 /\
    ifdrv_tsomax d =
      (if INET_or_INET6 then
         match ifdrv_tsomax ifdrv with
         | None => Some default_tsomax
         | Some t => Some t
         end
       else ifdrv_tsomax ifdrv).
Proof.
  intros Hok d1 ops2. unfold ifdriver_bless.
  assert (H1 : (match ift with
                | Some t => modify (copy_type t)
                | None => ret tt
                end) ifdrv = Ok tt d1) by (by destruct ift).
  rewrite (bind_step _ _ _ _ _ H1). unfold bind at 1. unfold get at 1.
  assert (Hmax : ifdrv_maxqlen d1 = ifdrv_maxqlen ifdrv) by (by destruct ift).
  assert (Hts1 : ifdrv_tsomax d1 = ifdrv_tsomax ifdrv) by (by destruct ift).
  assert (Hfl1 : ifdrv_flags d1 = ifdrv_flags ifdrv) by (by destruct ift).
  set (d2 := set_ifdrv_ops ops2 d1).
  assert (H2 : (if 0 <? ifdrv_maxqlen d1 then
                  KASSERT INVARIANTS (bool_decide (ifop_qflush (ifdrv_ops d1) = None))
                    "ifdrv_maxqlen > 0 and ifop_qflush" ;;
                  modify (fun d => set_ifdrv_ops
                            (set_ifop_qflush (Some if_snd_qflush) (ifdrv_ops d)) d)
                else ret tt) d1 = Ok tt (if 0 <? ifdrv_maxqlen ifdrv then d2 else d1)).
  { rewrite Hmax. subst d2 ops2.
    destruct (Z.ltb_spec 0 (ifdrv_maxqlen ifdrv)) as [Hpos|_]; [|done].
    erewrite bind_step; [reflexivity|].
    apply KASSERT_pass. intros Hinv. apply bool_decide_eq_true.
    destruct (Hok Hinv) as [Hq _]. destruct (Hq Hpos) as [Hd Ht].
    subst d1. destruct ift as [t|]; [|done].
    simpl. rewrite Hd. simpl. by apply Ht. }
  rewrite (bind_step _ _ _ _ _ H2). unfold bind at 1. unfold modify at 1.
  set (d3 := set_ifdrv_ops _ _).
  assert (Hops3 : ifdrv_ops d3 =
            set_ifop_get_counter
              (DEFAULTOP (ifop_get_counter ops2) if_get_counter_default) ops2).
  { subst d3 d2 ops2. by destruct (0 <? ifdrv_maxqlen ifdrv). }
  assert (Hts3 : ifdrv_tsomax d3 = ifdrv_tsomax ifdrv).
  { subst d3 d2. by destruct (0 <? ifdrv_maxqlen ifdrv). }
  set (d4 := if INET_or_INET6
             then match ifdrv_tsomax d3 with
                  | None => set_ifdrv_tsomax (Some default_tsomax) d3
                  | Some _ => d3
                  end
             else d3).
  assert (H4 : (if INET_or_INET6 then
                  ifdrv <- get ;;
                  match ifdrv_tsomax ifdrv with
                  | None => modify (set_ifdrv_tsomax (Some default_tsomax))
                  | Some tsomax =>
                      KASSERT INVARIANTS
                        ((tsomax_bytes tsomax =? 0)
                         || (IP_MAXPACKET / 8 <=? tsomax_bytes tsomax))
                        "tsomax_bytes is outside of range"
                  end
                else ret tt) d3 = Ok tt d4).
  { subst d4. destruct INET_or_INET6 eqn:Hinet; [|done].
    unfold bind, get. pose proof Hts3 as Hts.
    destruct (ifdrv_tsomax d3) as [tsomax|]; [|done].
    apply KASSERT_pass. intros Hinv. destruct (Hok Hinv) as [_ Ht].
    destruct (Ht eq_refl tsomax (eq_sym Hts)) as [?|?]; apply orb_true_iff;
      [left|right]; lia. }
  rewrite (bind_step _ _ _ _ _ H4). unfold bind, modify.
  eexists. split; [reflexivity|]. simpl.
  assert (Hops4 : ifdrv_ops d4 = ifdrv_ops d3).
  { subst d4. destruct INET_or_INET6; [|done]. by destruct (ifdrv_tsomax d3). }
  assert (Hrest4 : ifdrv_flags d4 = ifdrv_flags ifdrv /\
                   ifdrv_hdrlen d4 = ifdrv_hdrlen d1 /\
                   ifdrv_addrlen d4 = ifdrv_addrlen d1 /\
                   ifdrv_dlt d4 = ifdrv_dlt d1 /\
                   ifdrv_dlt_hdrlen d4 = ifdrv_dlt_hdrlen d1).
  { rewrite <- Hfl1. subst d4 d3 d2.
    destruct INET_or_INET6, (0 <? ifdrv_maxqlen ifdrv); simpl;
      repeat match goal with |- context [match ?x with _ => _ end] =>
               destruct x end; done. }
  assert (Hts4 : ifdrv_tsomax d4 =
            (if INET_or_INET6 then
               match ifdrv_tsomax ifdrv with
               | None => Some default_tsomax
               | Some t => Some t
               end
             else ifdrv_tsomax ifdrv)).
  { subst d4. destruct INET_or_INET6; [|exact Hts3].
    pose proof Hts3 as Hts.
    destruct (ifdrv_tsomax d3) eqn:E; rewrite <- Hts; [exact E | reflexivity]. }
  destruct Hrest4 as (-> & -> & -> & -> & ->).
  rewrite Hops4, Hops3, Hts4.
  repeat (split; [reflexivity|]). reflexivity.
Qed.

End WithOptions.

Ltac each_slot H :=
  repeat (apply elem_of_cons in H as [-> | H]);
  try (by apply elem_of_nil in H).

(** Blessing never replaces what the driver brought: an operation the
    driver set is the operation of the blessed driver (for the queue
    flush, when the driver has not asked for the generic send queue),
    a non-zero header length, address length or DLT stays, and four of
    the operations are never taken from the type at all. *)
Theorem bless_keeps_what_the_driver_set
    (env : Env) (INET_or_INET6 : bool) (IP_MAXPACKET : Z)
    (default_tsomax : iftsomax) (ifdrv : ifdriver) (ift : option iftype) :
  blessable INET_or_INET6 IP_MAXPACKET ifdrv ift ->
  exists d,
    ifdriver_bless INET_or_INET6 IP_MAXPACKET default_tsomax ift ifdrv = Ok tt d /\
    (forall slot f,
       slot ∈ [ifop_input; ifop_transmit; ifop_output; ifop_poll; ifop_ioctl;
               ifop_get_counter; ifop_media_change; ifop_media_status;
               ifop_resolvemulti; ifop_reassign; ifop_vlan_event] ->
       slot (ifdrv_ops ifdrv) = Some f -> slot (ifdrv_ops d) = Some f) /\
    (forall f, ifop_qflush (ifdrv_ops ifdrv) = Some f ->
               ifdrv_maxqlen ifdrv <= 0 ->
               ifop_qflush (ifdrv_ops d) = Some f) /\
    (forall field,
       field ∈ [ifdrv_hdrlen; ifdrv_addrlen; ifdrv_dlt; ifdrv_dlt_hdrlen] ->
       field ifdrv <> 0 -> field d = field ifdrv) /\
    (forall slot,
       slot ∈ [ifop_poll; ifop_media_change; ifop_media_status;
               ifop_vlan_event] ->
       slot (ifdrv_ops d) = slot (ifdrv_ops ifdrv)).
Proof.
  intros Hok.
  destruct (ifdriver_bless_result INET_or_INET6 IP_MAXPACKET default_tsomax
              ifdrv ift Hok)
    as (d & Hrun & Hops & _ & Hh & Ha & Hd & Hdh & _).
  exists d. split; [exact Hrun|]. rewrite Hops.
  clear Hrun Hops Hok.
  split; [|split; [|split]].
  - intros slot f Hin Hset. each_slot Hin;
      destruct ift as [t|], (0 <? ifdrv_maxqlen ifdrv); simpl;
      rewrite ?Hset; reflexivity.
  - intros f Hset Hmax.
    rewrite (proj2 (Z.ltb_ge 0 (ifdrv_maxqlen ifdrv)) Hmax).
    destruct ift as [t|]; simpl; rewrite ?Hset; reflexivity.
  - intros field Hin Hset. each_slot Hin; rewrite ?Hh, ?Ha, ?Hd, ?Hdh;
      destruct ift as [t|]; simpl; try reflexivity; unfold COPY;
      by rewrite (proj2 (Z.eqb_neq _ 0) Hset).
  - intros slot Hin. each_slot Hin;
      by destruct ift as [t|], (0 <? ifdrv_maxqlen ifdrv).
Qed.

Lemma bless_keeps_what_the_driver_set_witness :
  exists d,
    ifdriver_bless (env := amd64) true 65535 Examples.tsomax_64k
      (Some Examples.ether_type) Examples.bare_driver = Ok tt d /\
    ifop_input (ifdrv_ops d) = Some (extern 1) /\
    ifop_poll (ifdrv_ops d) = None.
Proof.
  destruct (bless_keeps_what_the_driver_set amd64 true 65535
              Examples.tsomax_64k Examples.bare_driver
              (Some Examples.ether_type))
    as (d & Hrun & Hkept & _ & _ & Hnever).
  - intros _. split.
    + intros _. split; [reflexivity|]. intros t Ht. by inversion Ht.
    + intros _ tsomax Ht. discriminate Ht.
  - exists d. split; [exact Hrun|]. split.
    + apply (Hkept ifop_input); [apply elem_of_cons; by left | reflexivity].
    + rewrite (Hnever ifop_poll); [reflexivity | apply elem_of_cons; by left].
Defined.

(** What the driver left unset is filled from its type, where it has
    one, for the eight operations that are copied; the four that are
    never copied stay NULL when the driver left them unset.  Two
    operations have a generic default: the queue flush becomes
    [if_snd_qflush] when the driver asks for the generic send queue
    ([ifdrv_maxqlen > 0]), and the counter accessor becomes
    [if_get_counter_default] when neither driver nor type sets it, so
    that it is never NULL after blessing.  Any other operation that
    neither the driver nor the type sets stays NULL: blessing does not
    check for it. *)
Theorem bless_fills_gaps_from_type_only
    (env : Env) (INET_or_INET6 : bool) (IP_MAXPACKET : Z)
    (default_tsomax : iftsomax) (ifdrv : ifdriver) (ift : option iftype) :
  blessable INET_or_INET6 IP_MAXPACKET ifdrv ift ->
  exists d,
    ifdriver_bless INET_or_INET6 IP_MAXPACKET default_tsomax ift ifdrv = Ok tt d /\
    (forall slot,
       slot ∈ [ifop_input; ifop_transmit; ifop_output; ifop_ioctl;
               ifop_resolvemulti; ifop_reassign] ->
       slot (ifdrv_ops ifdrv) = None ->
       slot (ifdrv_ops d) = match ift with
                            | Some t => slot (ift_ops t)
                            | None => None
                            end) /\
    (forall slot,
       slot ∈ [ifop_poll; ifop_media_change; ifop_media_status;
               ifop_vlan_event] ->
       slot (ifdrv_ops ifdrv) = None -> slot (ifdrv_ops d) = None) /\
    (ifop_qflush (ifdrv_ops ifdrv) = None ->
     ifop_qflush (ifdrv_ops d) =
       if 0 <? ifdrv_maxqlen ifdrv then Some if_snd_qflush
       else match ift with
            | Some t => ifop_qflush (ift_ops t)
            | None => None
            end) /\
    ifop_get_counter (ifdrv_ops d) <> None /\
    (ifop_get_counter (ifdrv_ops ifdrv) = None ->
     ifop_get_counter (ifdrv_ops d) =
       match ift with
       | Some t => match ifop_get_counter (ift_ops t) with
                   | Some f => Some f
                   | None => Some if_get_counter_default
                   end
       | None => Some if_get_counter_default
       end) /\
    ifop_next (ifdrv_ops d) = ifop_next (ifdrv_ops ifdrv) /\
    Z.land (ifdrv_flags d) IFDRV_BLESSED <> 0.
Proof.
  intros Hok.
  destruct (ifdriver_bless_result INET_or_INET6 IP_MAXPACKET default_tsomax
              ifdrv ift Hok)
    as (d & Hrun & Hops & Hfl & _).
  exists d. split; [exact Hrun|]. rewrite Hops, Hfl.
  clear Hrun Hops Hfl Hok.
  split; [|split; [|split; [|split; [|split; [|split]]]]].
  - intros slot Hin Hunset. each_slot Hin;
      destruct ift as [t|], (0 <? ifdrv_maxqlen ifdrv); simpl;
      rewrite ?Hunset; reflexivity.
  - intros slot Hin Hunset. each_slot Hin;
      destruct ift as [t|], (0 <? ifdrv_maxqlen ifdrv); simpl;
      rewrite ?Hunset; reflexivity.
  - intros Hunset.
    destruct ift as [t|], (0 <? ifdrv_maxqlen ifdrv); simpl;
      rewrite ?Hunset; reflexivity.
  - destruct ift as [t|], (0 <? ifdrv_maxqlen ifdrv); simpl;
      unfold DEFAULTOP, COPYOP;
      repeat match goal with |- context [match ?x with _ => _ end] =>
               destruct x end; discriminate.
  - intros Hunset.
    destruct ift as [t|], (0 <? ifdrv_maxqlen ifdrv); simpl;
      rewrite ?Hunset; simpl; unfold DEFAULTOP;
      repeat match goal with |- context [match ?x with _ => _ end] =>
               destruct x end; reflexivity.
  - by destruct ift as [t|], (0 <? ifdrv_maxqlen ifdrv).
  - apply blessed_bit.
Qed.

Lemma bless_fills_gaps_from_type_only_witness :
  exists d,
    ifdriver_bless (env := amd64) true 65535 Examples.tsomax_64k
      (Some Examples.loop_type) Examples.bare_driver = Ok tt d /\
    ifop_output (ifdrv_ops d) = None /\
    ifop_poll (ifdrv_ops d) = None /\
    ifop_qflush (ifdrv_ops d) = Some if_snd_qflush /\
    ifop_get_counter (ifdrv_ops d) = Some if_get_counter_default.
Proof.
  destruct (bless_fills_gaps_from_type_only amd64 true 65535
              Examples.tsomax_64k Examples.bare_driver
              (Some Examples.loop_type))
    as (d & Hrun & Hfill & Hkeep & Hq & _ & Hdef & _).
  - intros _. split.
    + intros _. split; [reflexivity|]. intros t Ht. by inversion Ht.
    + intros _ tsomax Ht. discriminate Ht.
  - exists d. split; [exact Hrun|]. split; [|split; [|split]].
    + apply (Hfill ifop_output); [|reflexivity].
      do 2 (apply elem_of_cons; right). apply elem_of_cons. by left.
    + apply (Hkeep ifop_poll); [|reflexivity]. apply elem_of_cons. by left.
    + apply Hq. reflexivity.
    + apply Hdef. reflexivity.
Defined.



(** A driver that asks for the generic send queue
    ([ifdrv_maxqlen > 0]) must not have a queue flush operation, and
    its type, if one is registered, must not bring one either, since
    the type's is copied before the check: a kernel with [INVARIANTS]
    panics, and one without installs [if_snd_qflush] over it.  This
    holds with and without a registered type. *)
Theorem bless_generic_queue_excludes_qflush
    (env : Env) (INET_or_INET6 : bool) (IP_MAXPACKET : Z)
    (default_tsomax : iftsomax) (ifdrv : ifdriver) (ift : option iftype) :
  0 < ifdrv_maxqlen ifdrv ->
  (ifop_qflush (ifdrv_ops ifdrv) <> None \/
   exists t, ift = Some t /\ ifop_qflush (ift_ops t) <> None) ->
  (INVARIANTS = true ->
   ifdriver_bless INET_or_INET6 IP_MAXPACKET default_tsomax ift ifdrv
     = Err (Panic "ifdrv_maxqlen > 0 and ifop_qflush")) /\
  (INVARIANTS = false ->
   exists d,
     ifdriver_bless INET_or_INET6 IP_MAXPACKET default_tsomax ift ifdrv
       = Ok tt d /\
     ifop_qflush (ifdrv_ops d) = Some if_snd_qflush).
Proof.
  intros Hpos Hq. split.
  - intros Hinv.
    assert (Hset : ifop_qflush
                     (ifdrv_ops (match ift with
                                 | Some t => copy_type t ifdrv
                                 | None => ifdrv
                                 end)) <> None).
    { destruct Hq as [Hd | (t & -> & Ht)].
      - destruct ift as [t|]; [|exact Hd]. simpl. unfold COPYOP.
        by destruct (ifop_qflush (ifdrv_ops ifdrv)).
      - simpl. unfold COPYOP.
        by destruct (ifop_qflush (ifdrv_ops ifdrv)). }
    unfold ifdriver_bless.
    destruct ift as [t|]; unfold bind, modify, get, ret; simpl in *;
      rewrite (proj2 (Z.ltb_lt 0 _) Hpos); unfold KASSERT; rewrite Hinv;
      rewrite bool_decide_eq_false_2 by exact Hset; reflexivity.
  - intros Hinv.
    destruct (ifdriver_bless_result INET_or_INET6 IP_MAXPACKET default_tsomax
                ifdrv ift)
      as (d & Hrun & Hops & _).
    { intros Habs. congruence. }
    exists d. split; [exact Hrun|]. rewrite Hops.
    by rewrite (proj2 (Z.ltb_lt 0 _) Hpos).
Qed.

Lemma bless_generic_queue_excludes_qflush_witness :
  ifdriver_bless (env := amd64) true 65535 Examples.tsomax_64k
    None MoreExamples.flushing_driver
  = Err (Panic "ifdrv_maxqlen > 0 and ifop_qflush") /\
  ifdriver_bless (env := amd64) true 65535 Examples.tsomax_64k
    (Some MoreExamples.flushing_type) Examples.bare_driver
  = Err (Panic "ifdrv_maxqlen > 0 and ifop_qflush").
Proof.
  split.
  - apply (proj1 (bless_generic_queue_excludes_qflush amd64 true 65535
                    Examples.tsomax_64k MoreExamples.flushing_driver None
                    ltac:(reflexivity) ltac:(left; discriminate))).
    reflexivity.
  - apply (proj1 (bless_generic_queue_excludes_qflush amd64 true 65535
                    Examples.tsomax_64k Examples.bare_driver
                    (Some MoreExamples.flushing_type)
                    ltac:(reflexivity)
                    ltac:(right; eexists; split; [reflexivity | discriminate]))).
    reflexivity.
Defined.

End BlessMore.

(** * Reference counted flags: nesting *)

Module SetFlagMore.
Import SetFlag.

Lemma flag_off_restores x f :
  Z.land x f = 0 -> Z.land (Z.lor x f) (Z.lnot f) = x.
Proof.
  intros H. apply Z.bits_inj'. intros n Hn.
  apply (f_equal (fun z => Z.testbit z n)) in H.
  rewrite Z.land_spec, Z.bits_0 in H.
  rewrite Z.land_spec, Z.lor_spec, Z.lnot_spec by done.
  destruct (Z.testbit x n), (Z.testbit f n); done.
Qed.

Lemma flag_on_other x f p :
  Z.land f p = 0 -> Z.land (Z.lor x f) p = Z.land x p.
Proof.
  intros H. apply Z.bits_inj'. intros n Hn.
  apply (f_equal (fun z => Z.testbit z n)) in H.
  rewrite Z.land_spec, Z.bits_0 in H.
  rewrite !Z.land_spec, Z.lor_spec.
  destruct (Z.testbit x n), (Z.testbit f n), (Z.testbit p n); done.
Qed.

(** Requests nest.  While the mode is not permanent, an on-request
    that finds the counter non-zero, and an off-request that leaves it
    non-zero, only move the counter: the flags stay, the driver is not
    called and nothing is announced. *)
Theorem if_setflag_nested_requests_only_count
    (env : Env) (drv : ifreq -> ifnet -> Z * ifnet)
    (flag pflag : Z) (refcount : refcount_ptr) (onswitch : Z) (s : state) :
  counter_sane refcount onswitch s ->
  Z.land (if_flags (ifp s)) pflag = 0 ->
  (if onswitch =? 0 then int (deref refcount (ifp s) - 1) <> 0
   else deref refcount (ifp s) <> 0) ->
  if_setflag drv flag pflag refcount onswitch s
    = Ok 0 (set_ifp (counted refcount onswitch (ifp s)) s).
Proof.
  intros Hsane Hperm Hcount.
  pose proof (SetFlagFacts.if_setflag_head refcount onswitch s Hsane) as Hhead.
  unfold if_setflag. unfold bind at 1. unfold get at 1.
  rewrite (bind_step _ _ _ _ _ Hhead). rewrite Hperm. simpl.
  unfold counted.
  destruct (Z.eqb_spec onswitch 0) as [Hoff|Hon]; simpl.
  - unfold bind, modify, ret. simpl.
    rewrite (proj2 (Z.eqb_neq _ 0) Hcount). simpl.
    by replace (deref refcount (ifp s) + -1) with (deref refcount (ifp s) - 1)
      by lia.
  - unfold bind, modify, ret. simpl.
    by rewrite (proj2 (Z.eqb_neq _ 0) Hcount).
Qed.

Lemma if_setflag_nested_requests_only_count_witness :
  if_setflag (env := amd64) Examples.refusing_driver IFF_PROMISC IFF_PPROMISC
    ref_if_pcount 1 MoreExamples.listening
  = Ok 0 (set_ifp (set_if_pcount 2 (ifp MoreExamples.listening))
            MoreExamples.listening).
Proof.
  apply (if_setflag_nested_requests_only_count amd64 Examples.refusing_driver
           IFF_PROMISC IFF_PPROMISC ref_if_pcount 1 MoreExamples.listening).
  - intros _. simpl. lia.
  - reflexivity.
  - simpl. lia.
Defined.

(** A first on-request sets the flag and a matching off-request
    clears it again.  With a driver that accepts the change and leaves
    the interface alone, the flag is set and the counter is 1 in
    between, and afterwards the interface is exactly as it was, each of
    the two changes having been announced. *)
Theorem if_setflag_on_then_off_restores
    (env : Env) (drv : ifreq -> ifnet -> Z * ifnet)
    (flag pflag : Z) (refcount : refcount_ptr) (s : state) :
  (forall ifr i, drv ifr i = (0, i)) ->
  Z.land (if_flags (ifp s)) flag = 0 ->
  Z.land (if_flags (ifp s)) pflag = 0 ->
  Z.land flag pflag = 0 ->
  deref refcount (ifp s) = 0 ->
  exists s1 s2,
    if_setflag drv flag pflag refcount 1 s = Ok 0 s1 /\
    if_flags (ifp s1) = Z.lor (if_flags (ifp s)) flag /\
    deref refcount (ifp s1) = 1 /\
    if_setflag drv flag pflag refcount 0 s1 = Ok 0 s2 /\
    ifp s2 = ifp s /\
    told s2 = told s ++ [rt_ifmsg; rt_ifmsg].
Proof.
  intros Hdrv Hclear Hperm Hdisj Hzero.
  assert (Hsane1 : counter_sane refcount 1 s) by (intros _; simpl; lia).
  pose proof (SetFlagFacts.if_setflag_head refcount 1 s Hsane1) as Hhead1.
  set (i1 := set_if_flags (Z.lor (if_flags (ifp s)) flag)
               (assign refcount 1 (ifp s))).
  set (s1 := {| ifp := i1; told := told s ++ [rt_ifmsg] |}).
  assert (Hon : if_setflag drv flag pflag refcount 1 s = Ok 0 s1).
  { unfold if_setflag. unfold bind at 1. unfold get at 1.
    rewrite (bind_step _ _ _ _ _ Hhead1). rewrite Hperm. simpl.
    unfold bind, modify, get, ret, if_ioctl, emit. simpl.
    rewrite Hzero. simpl. rewrite Hdrv. simpl.
    rewrite SetFlagFacts.if_flags_assign. reflexivity. }
  assert (Hc1 : deref refcount i1 = 1).
  { subst i1. by rewrite SetFlagFacts.deref_set_if_flags,
      SetFlagFacts.deref_assign. }
  assert (Hf1 : if_flags i1 = Z.lor (if_flags (ifp s)) flag) by reflexivity.
  assert (Hsane0 : counter_sane refcount 0 s1).
  { intros _. simpl. rewrite Hc1. lia. }
  pose proof (SetFlagFacts.if_setflag_head refcount 0 s1 Hsane0) as Hhead0.
  exists s1. eexists. split; [exact Hon|]. split; [exact Hf1|].
  split; [exact Hc1|].
  unfold if_setflag. unfold bind at 1. unfold get at 1.
  rewrite (bind_step _ _ _ _ _ Hhead0).
  cbn [ifp s1]. rewrite Hf1, (flag_on_other _ _ _ Hdisj), Hperm, Hc1. simpl.
  unfold bind, modify, get, ret, if_ioctl, emit. simpl.
  rewrite Hdrv. simpl.
  split; [reflexivity|]. split; [|by rewrite <- app_assoc].
  rewrite SetFlagFacts.if_flags_assign. rewrite Hf1.
  rewrite (flag_off_restores _ _ Hclear).
  destruct refcount, (ifp s) as [xn fl pc am sc] eqn:E; simpl in *;
    subst; reflexivity.
Qed.

Lemma if_setflag_on_then_off_restores_witness :
  exists s1 s2,
    if_setflag (env := amd64) MoreExamples.obedient_driver
      IFF_ALLMULTI 0 ref_if_amcount 1 Examples.quiet = Ok 0 s1 /\
    if_setflag (env := amd64) MoreExamples.obedient_driver
      IFF_ALLMULTI 0 ref_if_amcount 0 s1 = Ok 0 s2 /\
    ifp s2 = ifp Examples.quiet.
Proof.
  destruct (if_setflag_on_then_off_restores amd64 MoreExamples.obedient_driver
              IFF_ALLMULTI 0 ref_if_amcount Examples.quiet
              ltac:(reflexivity) eq_refl eq_refl eq_refl eq_refl)
    as (s1 & s2 & Hon & _ & _ & Hoff & Hsame & _).
  exists s1, s2. split; [exact Hon|]. split; [exact Hoff | exact Hsame].
Defined.

End SetFlagMore.

(** * Groups: refusals and round trips *)

Module GroupMore.
Import Registry.

Lemma held_lookup v p ifp name :
  groups_ok v -> ifnets v !! p = Some ifp ->
  exists r, ifg_lookup (if_groups ifp) name v = Ok r v /\
    match r with
    | Some g => g ∈ if_groups ifp /\
                exists G, ifgroups v !! g = Some G /\ ifg_group G = name
    | None => forall g G, g ∈ if_groups ifp -> ifgroups v !! g = Some G ->
                          ifg_group G <> name
    end.
Proof.
  intros Hgo Hp. apply RegistryFacts.ifg_lookup_spec.
  intros g Hg. destruct (go_held _ Hgo p ifp Hp) as [_ Hheld].
  destruct (Hheld g Hg) as (G & HG & _). by exists G.
Qed.


(** [if_delgroup] for a group that the interface is not in returns
    [ENOENT] and changes nothing. *)
Theorem if_delgroup_of_nonmember
    (v : vnet) (p : positive) (ifp : ifnet) (name : string) :
  groups_ok v -> ifnets v !! p = Some ifp ->
  (forall g G, g ∈ if_groups ifp -> ifgroups v !! g = Some G ->
               ifg_group G <> name) ->
  if_delgroup p name v = Ok ENOENT v.
Proof.
  intros Hgo Hp Hnot.
  destruct (held_lookup v p ifp name Hgo Hp) as (r & Hlook & Hr).
  unfold if_delgroup.
  rewrite (bind_step _ _ _ _ _ (RegistryFacts.ifnet_load_total v p ifp Hp)).
  rewrite (bind_step _ _ _ _ _ Hlook).
  destruct r as [g|]; [|done].
  destruct Hr as (Hg & G & HG & Hname). by destruct (Hnot g G Hg HG).
Qed.

Lemma strlcpy_short s size : strlen s < size -> strlcpy s size = s.
Proof.
  unfold strlen, strlcpy. intros H.
  assert (Hn : (String.length s <= Z.to_nat (size - 1))%nat) by lia.
  revert Hn. generalize (Z.to_nat (size - 1)). clear H.
  induction s as [|c s IH]; intros n Hn; destruct n; simpl in *;
    try reflexivity; try lia.
  f_equal. apply IH. lia.
Qed.

(** Joining a group and leaving it again is a round trip.  For an
    interface that is not in a group of that name (a valid name that
    fits the group structure, memory at hand), [if_addgroup] followed
    by [if_delgroup] both succeed and leave the interface, every
    group and the group set exactly as they were, whether the group
    existed before or was created by the join. *)
Theorem if_addgroup_then_if_delgroup_restores
    (v : vnet) (p : positive) (ifp : ifnet) (name : string) :
  groups_ok v -> ifnets v !! p = Some ifp ->
  nowait v = [] -> ends_in_digit name = false -> strlen name < IFNAMSIZ ->
  (forall g G, ifgroups v !! g = Some G -> ifg_group G = name ->
               p ∉ ifg_members G) ->
  exists v1 v2,
    if_addgroup p name v = Ok 0 v1 /\
    (exists g G, g ∈ V_ifg_head v1 /\ ifgroups v1 !! g = Some G /\
                 ifg_group G = name /\ p ∈ ifg_members G) /\
    if_delgroup p name v1 = Ok 0 v2 /\
    ifnets v2 = ifnets v /\ ifgroups v2 = ifgroups v /\
    V_ifg_head v2 = V_ifg_head v.
Proof.
  intros Hgo Hp Hnw Hdigit Hlen Hnm.
  destruct (go_held _ Hgo p ifp Hp) as [_ Hheld].
  assert (Hnotheld : forall g G, g ∈ if_groups ifp ->
                       ifgroups v !! g = Some G -> ifg_group G <> name).
  { intros g G Hg HG Hname. destruct (Hheld g Hg) as (G' & HG' & Hin).
    rewrite HG in HG'. inversion HG'; subst G'. by apply (Hnm g G). }
  destruct (RegistryFacts.if_addgroup_spec v p ifp name Hgo Hp)
    as (e & v1 & Hrun & Hgo1 & Hzero & _ & Hsucc).
  destruct (Hsucc Hnw Hdigit Hnotheld) as [-> Hnw1].
  destruct (Hzero eq_refl) as (g & Hnets1 & Hpost).
  set (ifp1 := set_if_groups (if_groups ifp ++ [g]) ifp) in *.
  assert (Hp1 : ifnets v1 !! p = Some ifp1)
    by (rewrite Hnets1; apply lookup_insert_eq).
  assert (Hfresh : g ∉ if_groups ifp).
  { intros Hg. destruct (Hheld g Hg) as (G' & HG' & Hin).
    destruct Hpost as [(G & _ & HG & Hname & _)|(Hnone & _)].
    - rewrite HG in HG'. inversion HG'; subst G'. by apply (Hnm g G).
    - rewrite Hnone in HG'. discriminate HG'. }
  assert (Hg1 : exists G1, ifgroups v1 !! g = Some G1 /\ ifg_group G1 = name /\
                           g ∈ V_ifg_head v1 /\ p ∈ ifg_members G1 /\
                           forall g', g' <> g ->
                             ifgroups v1 !! g' = ifgroups v !! g').
  { destruct Hpost as [(G & Hin & HG & Hname & Hhead & Hgr)
                      |(Hnone & _ & Hhead & Hgr)].
    - eexists. rewrite Hgr, lookup_insert_eq. split; [reflexivity|].
      split; [exact Hname|]. split; [by rewrite Hhead|].
      split; [simpl; apply elem_of_app; right; by apply list_elem_of_singleton|].
      intros g' Hne. by rewrite lookup_insert_ne.
    - eexists. rewrite Hgr, lookup_insert_eq. split; [reflexivity|].
      split; [simpl; by apply strlcpy_short|].
      split; [rewrite Hhead; apply elem_of_app; right;
              by apply list_elem_of_singleton|].
      split; [simpl; by apply list_elem_of_singleton|].
      intros g' Hne. by rewrite lookup_insert_ne. }
  destruct Hg1 as (G1 & HG1 & Hname1 & Hin1 & Hmem1 & Hother).
  destruct (RegistryFacts.if_delgroup_spec v1 p ifp1 name Hgo1 Hp1)
    as (e2 & v2 & Hrun2 & _ & Hcases).
  exists v1, v2. split; [exact Hrun|].
  split; [by exists g, G1|].
  destruct Hcases as [(_ & _ & Hnone)
                     |(-> & g' & G' & Hg' & HG' & Hname' & Hrel & Hnets2 & _)].
  { exfalso. apply (Hnone g G1); [|done|done].
    simpl. apply elem_of_app. right. by apply list_elem_of_singleton. }
  assert (g' = g) as ->.
  { destruct (decide (g' = g)) as [|Hne]; [done|]. exfalso.
    simpl in Hg'. apply elem_of_app in Hg' as [Hg'|Hg'].
    - rewrite (Hother g' Hne) in HG'. by apply (Hnotheld g' G').
    - apply list_elem_of_singleton in Hg'. done. }
  rewrite HG1 in HG'. inversion HG'; subst G'. clear HG'.
  split; [exact Hrun2|].
  split.
  { rewrite Hnets2, Hnets1, insert_insert_eq. apply insert_id.
    rewrite Hp. f_equal. subst ifp1. simpl.
    rewrite RegistryFacts.TAILQ_REMOVE_app_new by done. by destruct ifp. }
  unfold release_post in Hrel.
  destruct Hpost as [(G & Hin & HG & Hname & Hhead & Hgr)
                    |(Hnone & _ & Hhead & Hgr)].
  - rewrite Hgr, lookup_insert_eq in HG1. inversion HG1; subst G1. simpl in Hrel.
    destruct (go_count _ Hgo g G HG) as [_ Hpos].
    rewrite (proj2 (Z.eqb_neq (ifg_refcnt G + 1) 1)) in Hrel by lia.
    destruct Hrel as [Hh2 Hg2]. split; [|congruence].
    rewrite Hg2, Hgr, insert_insert_eq. apply insert_id. rewrite HG. f_equal.
    rewrite RegistryFacts.TAILQ_REMOVE_app_new by (by apply (Hnm g G)).
    destruct G; simpl. f_equal. lia.
  - rewrite Hgr, lookup_insert_eq in HG1. inversion HG1; subst G1. simpl in Hrel.
    destruct Hrel as [Hh2 Hg2]. split.
    + rewrite Hg2, Hgr. by apply delete_insert_id.
    + rewrite Hh2, Hhead. apply RegistryFacts.TAILQ_REMOVE_app_new.
      intros Hin. apply (go_set _ Hgo) in Hin as [G HG]. congruence.
Qed.

Ltac booted_groups_ok :=
  apply (RegistryFacts.boot_groups_ok MoreExamples.two_attached);
  vm_compute; reflexivity.


Lemma if_delgroup_of_nonmember_witness :
  exists v,
    boot (env := amd64) MoreExamples.two_attached = Ok tt v /\
    if_delgroup 1%positive "lan" v = Ok ENOENT v.
Proof.
  eexists. split; [vm_compute; reflexivity|].
  eapply (if_delgroup_of_nonmember _ 1%positive).
  - booted_groups_ok.
  - vm_compute. reflexivity.
  - intros g G Hg HG. simpl in Hg. apply list_elem_of_singleton in Hg.
    subst g. vm_compute in HG. inversion HG; subst G. discriminate.
Defined.

Lemma if_addgroup_then_if_delgroup_restores_witness :
  exists v v1 v2,
    boot (env := amd64) MoreExamples.two_attached = Ok tt v /\
    if_addgroup 1%positive "lan" v = Ok 0 v1 /\
    if_delgroup 1%positive "lan" v1 = Ok 0 v2 /\
    ifgroups v2 = ifgroups v /\ V_ifg_head v2 = V_ifg_head v.
Proof.
  eexists.
  match goal with
  | |- exists v1 v2, boot ?ops = Ok tt ?v /\ _ =>
      assert (Hboot : boot (env := amd64) ops = Ok tt v)
        by (vm_compute; reflexivity)
  end.
  match type of Hboot with
  | _ = Ok tt ?v =>
      assert (Hgo : groups_ok v) by booted_groups_ok;
      destruct (if_addgroup_then_if_delgroup_restores v 1%positive _ "lan"
                  Hgo eq_refl eq_refl eq_refl ltac:(reflexivity))
        as (v1 & v2 & Hadd & _ & Hdel & _ & Hgr & Hhead)
  end.
  - intros g G HG Hname.
    assert (Hg : g = 4%positive).
    { apply list_elem_of_singleton.
      apply (proj2 (go_set _ Hgo g)). by exists G. }
    subst g. vm_compute in HG. inversion HG; subst G. discriminate Hname.
  - exists v1, v2. split; [exact Hboot|]. split; [exact Hadd|].
    split; [exact Hdel|]. split; [exact Hgr | exact Hhead].
Defined.

End GroupMore.

(** * The registry: lookups, detach, references *)

Module RegistryMore.
Import Registry.

Lemma live_index_in_use v p ifp :
  registry_ok v -> p ∈ V_ifnet v -> ifnets v !! p = Some ifp ->
  1 <= if_index ifp <= V_if_index v /\ tbl v (if_index ifp) = SlotIfp p.
Proof.
  intros Hok Hp Hifp.
  destruct (ro_live _ Hok p Hp) as (ifp' & Hifp' & Hpos & Hslot).
  rewrite Hifp in Hifp'. inversion Hifp'; subst ifp'.
  split; [|done]. split; [done|].
  destruct (Z.le_gt_cases (if_index ifp) (V_if_index v)) as [|Hgt]; [done|].
  rewrite (wf_above _ (ro_wf _ Hok) _ Hgt) in Hslot. discriminate Hslot.
Qed.

Section WithEnv.
Context `{env : Env}.

Lemma live_found_by_name v p ifp :
  registry_ok v -> p ∈ V_ifnet v -> ifnets v !! p = Some ifp ->
  exists q, ifunit (if_xname ifp) v = Ok (Some q) v.
Proof.
  intros Hok Hp Hifp. unfold ifunit, bind, get.
  eapply RegistryFacts.ifunit_loop_finds; [|exact Hp|exact Hifp|reflexivity].
  intros r Hr. destruct (ro_live _ Hok r Hr) as (ifr & Hifr & _). by exists ifr.
Qed.

End WithEnv.

(** After any history of attach and detach that runs to its end,
    every interface on the list is found again: [ifnet_byindex] at its
    index returns it, and [ifunit] finds an interface under its
    name. *)
Theorem history_lookups_find_live_interfaces
    (env : Env) (ops : list op) (v : vnet) (p : positive) :
  boot ops = Ok tt v -> p ∈ V_ifnet v ->
  exists ifp,
    ifnets v !! p = Some ifp /\
    ifnet_byindex v (if_index ifp) = Some p /\
    exists q, ifunit (if_xname ifp) v = Ok (Some q) v.
Proof.
  intros Hboot Hp. pose proof (RegistryFacts.boot_ok ops v Hboot) as Hok.
  destruct (ro_live _ Hok p Hp) as (ifp & Hifp & _).
  exists ifp. split; [done|].
  destruct (live_index_in_use v p ifp Hok Hp Hifp) as [[_ Hle] Hslot].
  split; [by apply RegistryFacts.ifnet_byindex_locked_Some_2|].
  by eapply live_found_by_name.
Qed.

Lemma history_lookups_find_live_interfaces_witness :
  exists v ifp,
    boot (env := amd64) MoreExamples.two_attached = Ok tt v /\
    ifnets v !! 5%positive = Some ifp /\
    ifnet_byindex v (if_index ifp) = Some 5%positive.
Proof.
  eexists.
  match goal with
  | |- exists ifp, boot ?ops = Ok tt ?v /\ _ =>
      assert (Hboot : boot (env := amd64) ops = Ok tt v)
        by (vm_compute; reflexivity)
  end.
  match type of Hboot with
  | _ = Ok tt ?v =>
      destruct (history_lookups_find_live_interfaces amd64 _ v 5%positive Hboot)
        as (ifp & Hifp & Hidx & _)
  end.
  - simpl. apply elem_of_cons. right. by apply list_elem_of_singleton.
  - exists ifp. split; [exact Hboot|]. split; [exact Hifp | exact Hidx].
Defined.

(** [if_detach] of a registered interface runs to its end and
    unregisters exactly that interface: it is off the list, the lookup
    at its index returns NULL, and every other interface stays on the
    list and is still found at its index. *)
Theorem if_detach_unregisters_one
    (env : Env) (v : vnet) (p : positive) (ifp : ifnet) :
  registry_ok v -> groups_ok v -> p ∈ V_ifnet v ->
  ifnets v !! p = Some ifp ->
  exists v',
    if_detach p v = Ok tt v' /\
    (p ∉ V_ifnet v') /\
    ifnet_byindex v' (if_index ifp) = None /\
    (forall q ifq, q ∈ V_ifnet v -> q <> p -> ifnets v !! q = Some ifq ->
       q ∈ V_ifnet v' /\ ifnet_byindex v' (if_index ifq) = Some q).
Proof.
  intros Hok Hgo Hp Hifp.
  destruct (RegistryFacts.if_detach_total v p Hok Hgo Hp) as (v' & Hrun & Hok' & _).
  destruct (RegistryFacts.if_detach_ok v p ifp v' Hok Hp Hifp Hrun)
    as (_ & Hlist & Hslot & Hothers & _).
  exists v'. split; [exact Hrun|].
  split.
  { rewrite Hlist.
    by destruct (RegistryFacts.TAILQ_REMOVE_NoDup p _ (ro_nodup _ Hok)). }
  split.
  { unfold ifnet_byindex, ifnet_byindex_locked. rewrite Hslot.
    by destruct (_ <? _). }
  intros q ifq Hq Hne Hifq.
  assert (Hq' : q ∈ V_ifnet v')
    by (rewrite Hlist; by apply RegistryFacts.TAILQ_REMOVE_other).
  split; [exact Hq'|].
  destruct (live_index_in_use v q ifq Hok Hq Hifq) as [[Hpos _] Hslotq].
  assert (Hdiff : if_index ifq <> if_index ifp).
  { intros Heq. apply Hne.
    by apply (RegistryFacts.registry_ok_unique v Hok q p ifq ifp). }
  assert (Hslot' : tbl v' (if_index ifq) = SlotIfp q)
    by (rewrite Hothers by lia; exact Hslotq).
  apply RegistryFacts.ifnet_byindex_locked_Some_2; [|exact Hslot'].
  destruct (Z.le_gt_cases (if_index ifq) (V_if_index v')) as [|Hgt]; [done|].
  rewrite (wf_above _ (ro_wf _ Hok') _ Hgt) in Hslot'. discriminate Hslot'.
Qed.

Lemma if_detach_unregisters_one_witness :
  exists v v',
    boot (env := amd64) MoreExamples.two_attached = Ok tt v /\
    if_detach (env := amd64) 1%positive v = Ok tt v' /\
    (1%positive ∉ V_ifnet v') /\
    ifnet_byindex v' 1 = None /\ ifnet_byindex v' 2 = Some 5%positive.
Proof.
  eexists.
  match goal with
  | |- exists v', boot ?ops = Ok tt ?v /\ _ =>
      assert (Hboot : boot (env := amd64) ops = Ok tt v)
        by (vm_compute; reflexivity)
  end.
  match type of Hboot with
  | _ = Ok tt ?v =>
      destruct (if_detach_unregisters_one amd64 v 1%positive _
                  (RegistryFacts.boot_ok _ _ Hboot)
                  (RegistryFacts.boot_groups_ok _ _ Hboot)
                  ltac:(simpl; apply elem_of_cons; by left) eq_refl)
        as (v' & Hrun & Hoff & Hnull & Hothers)
  end.
  exists v'. split; [exact Hboot|]. split; [exact Hrun|].
  split; [exact Hoff|]. split; [exact Hnull|].
  assert (Hin : 5%positive ∈ [1%positive; 5%positive])
    by (apply elem_of_cons; right; by apply list_elem_of_singleton).
  destruct (Hothers 5%positive _ Hin ltac:(discriminate) eq_refl) as [_ H].
  exact H.
Defined.

(** [if_attach] returns NULL for one reason only, a unit number that
    could not be allocated: then nothing has been allocated or
    registered, and the error is left in [ifat_error].  In every other
    case it returns the new interface, which it has put at the tail of
    the interface list; the unit number it used is written back to
    [ifat_dunit]. *)
Theorem if_attach_fails_only_without_unit
    (env : Env) (v : vnet) (ifat : if_attach_args)
    (r : option positive) (ifat' : if_attach_args) (v' : vnet) :
  registry_ok v ->
  if_attach ifat v = Ok (r, ifat') v' ->
  let unit := match ifdrv_clone (ifat_drv ifat) with
              | Some ifc => ifc_alloc_unit ifc (ifat_dunit ifat)
              | None => (0, ifat_dunit ifat)
              end in
  (r = None <-> unit.1 <> 0) /\
  (r = None -> v' = v /\ ifat_error ifat' = unit.1) /\
  ifat_dunit ifat' = unit.2 /\
  (forall p, r = Some p -> V_ifnet v' = V_ifnet v ++ [p] /\ (p ∉ V_ifnet v)).
Proof.
  intros Hok H unit. subst unit.
  destruct (RegistryFacts.if_attach_ok v ifat r ifat' v' Hok H) as [_ Hlist].
  unfold if_attach in H.
  destruct (match ifdrv_clone (ifat_drv ifat) with
            | Some ifc => ifc_alloc_unit ifc (ifat_dunit ifat)
            | None => (0, ifat_dunit ifat)
            end) as [error dunit].
  simpl. destruct (Z.eqb_spec error 0) as [He|He]; simpl in H.
  - cbn [ifat_name ifat_dunit ifat_flags ifat_lla ifat_drv] in H.
    apply bind_Ok in H as (p & v1 & Hm & H).
    unfold malloc_waitok in Hm. inversion Hm; subst p v1. clear Hm.
    inv_Ok H.
    split; [split; [discriminate | done]|].
    split; [discriminate|]. split; [reflexivity|].
    intros p [= <-]. destruct Hlist as (ifp & Hl & Hnew & _). by split.
  - inversion H; subst. split; [done|]. split; [done|]. split; [done|].
    discriminate.
Qed.

Lemma if_attach_fails_only_without_unit_witness :
  exists v' ifat',
    if_attach (env := MoreExamples.no_units) MoreExamples.cloned
      Examples.one_object_vnet = Ok (None, ifat') v' /\
    v' = Examples.one_object_vnet /\ ifat_error ifat' = ENOMEM.
Proof.
  eexists _, _. split; [vm_compute; reflexivity|].
  apply (if_attach_fails_only_without_unit MoreExamples.no_units
           Examples.one_object_vnet MoreExamples.cloned None);
    [|vm_compute; reflexivity|reflexivity].
  constructor; [apply RegistryFacts.one_object_vnet_wf | | |].
  - intros p Hp. by apply elem_of_nil in Hp.
  - apply NoDup_nil_2.
  - intros p [x Hx]. cbn [Examples.one_object_vnet ifnets] in Hx.
    apply lookup_singleton_Some in Hx as [<- _]. done.
Defined.

End RegistryMore.

(** * References: who frees the interface *)

Module RefMore.
Import Registry.

Lemma vnet_restore (v : vnet) p ifp x y :
  ifnets v !! p = Some ifp -> y = ifp ->
  set_ifnets (<[p := y]> (ifnets (set_ifnets (<[p := x]> (ifnets v)) v)))
             (set_ifnets (<[p := x]> (ifnets v)) v) = v.
Proof.
  intros Hp ->. destruct v. unfold set_ifnets. simpl in *. f_equal.
  rewrite insert_insert_eq. by apply insert_id.
Qed.

(** A reference taken with [ifnet_byindex_ref] and given back with
    [if_rele] leaves no trace: the lookup has counted one reference
    more on the interface it returned, and the release restores the
    state exactly, the interface not being freed (its count was not 0
    before). *)
Theorem ifnet_byindex_ref_then_if_rele_restores
    (env : Env) (v : vnet) (idx : Z) (p : positive) (v1 : vnet) :
  ifnet_byindex_ref idx v = Ok (Some p) v1 ->
  (forall ifp, ifnets v !! p = Some ifp -> if_refcount ifp <> 0) ->
  (exists ifp, ifnets v !! p = Some ifp /\
     ifnets v1 !! p = Some (set_if_refcount (if_refcount ifp + 1) ifp)) /\
  if_rele p v1 = Ok tt v.
Proof.
  intros H Hheld. unfold ifnet_byindex_ref in H.
  unfold bind at 1 in H. unfold get in H.
  destruct (ifnet_byindex_locked v idx) as [q|]; [|discriminate H].
  unfold bind at 1 in H. unfold ifnet_load in H.
  destruct (ifnets v !! q) as [ifp|] eqn:Hq; [|discriminate H].
  destruct (flag_set (if_flags ifp) IFF_DYING); [discriminate H|].
  unfold if_ref in H.
  rewrite (bind_step _ _ _ _ _ (RegistryFacts.ifnet_update_total v q ifp _ Hq)) in H.
  inversion H; subst q. clear H. rename H2 into Hv1.
  unfold refcount_acquire.
  split.
  { exists ifp. split; [done|]. simpl. apply lookup_insert_eq. }
  unfold if_rele.
  set (ifp1 := set_if_refcount (if_refcount ifp + 1) ifp).
  set (v1' := set_ifnets (<[p := ifp1]> (ifnets v)) v).
  assert (Hp1 : ifnets v1' !! p = Some ifp1) by apply lookup_insert_eq.
  rewrite (bind_step _ _ _ _ _ (RegistryFacts.ifnet_load_total v1' p ifp1 Hp1)).
  unfold refcount_release. cbn [if_refcount ifp1 set_if_refcount].
  rewrite (bind_step _ _ _ _ _ (RegistryFacts.ifnet_update_total v1' p ifp1 _ Hp1)).
  destruct (Z.eqb_spec (if_refcount ifp + 1 - 1) 0) as [Hz|_].
  { exfalso. apply (Hheld ifp Hq). lia. }
  unfold ret. f_equal. subst v1'. apply (vnet_restore v p ifp); [done|].
  subst ifp1. destruct ifp. unfold set_if_refcount. simpl. f_equal. lia.
Qed.

Section WithEnv.
Context `{env : Env}.

(** The object that [if_detach] leaves behind, or frees. *)
Lemma if_detach_object v p ifp :
  registry_ok v -> groups_ok v -> p ∈ V_ifnet v -> ifnets v !! p = Some ifp ->
  exists v', if_detach p v = Ok tt v' /\
    ifnets v' !! p =
      if if_refcount ifp - 1 =? 0 then None
      else Some (set_if_refcount (if_refcount ifp - 1)
             (set_if_groups [] (set_if_addr None
               (set_if_flags (Z.land (Z.lor (if_flags ifp) IFF_DYING)
                                     (Z.lnot IFF_UP))
                  (set_if_flags (Z.lor (if_flags ifp) IFF_DYING) ifp))))).
Proof.
  intros Hok Hgo Hp Hifp.
  destruct (ro_live _ Hok p Hp) as (ifp' & Hifp' & Hpos & Hslot).
  rewrite Hifp in Hifp'. inversion Hifp'; subst ifp'. clear Hifp'.
  unfold if_detach.
  rewrite (bind_step _ _ _ _ _ (RegistryFacts.ifnet_update_total v p ifp _ Hifp)).
  cbv beta.
  set (ifp1 := set_if_flags (Z.lor (if_flags ifp) IFF_DYING) ifp).
  set (v1 := set_ifnets (<[p := ifp1]> (ifnets v)) v).
  assert (Hgo1 : groups_ok v1) by (by apply (RegistryFacts.groups_ok_update v p ifp)).
  assert (Hif1 : ifnets v1 !! p = Some ifp1) by apply lookup_insert_eq.
  assert (Hst1 : same_table v v1)
    by (by apply (RegistryFacts.same_table_update v p ifp)).
  destruct (RegistryFacts.if_detach_internal_total v1 p ifp1 Hgo1 Hp Hif1) as
    (v4 & Hint & Hgo4 & Hif4).
  pose proof (RegistryFacts.if_detach_internal_same_table _ _ _ Hint) as Hst14.
  pose proof (RegistryFacts.same_table_trans _ _ _ Hst1 Hst14) as Hst4.
  rewrite (bind_step _ _ _ _ _ Hint).
  rewrite (bind_step _ _ _ _ _ (RegistryFacts.ifnet_load_total v4 p _ Hif4)).
  unfold bind at 1. unfold get.
  cbn [if_index set_if_groups set_if_addr set_if_flags ifp1].
  rewrite bool_decide_true; cycle 1.
  { apply RegistryFacts.ifnet_byindex_locked_Some_2.
    - rewrite (st_index _ _ Hst4).
      pose proof (wf_above _ (ro_wf _ Hok) (if_index ifp)) as Hab.
      destruct (Z.le_gt_cases (if_index ifp) (V_if_index v)); [done|].
      rewrite Hab in Hslot by lia. done.
    - by rewrite (RegistryFacts.same_table_tbl v v4). }
  rewrite (bind_step _ _ _ _ _ (KASSERT_true _ _ _)).
  destruct (RegistryFacts.ifindex_free_spec v4 (if_index ifp)) as (v5 & Hfree & Hpost).
  { rewrite (st_index _ _ Hst4). apply (ro_wf _ Hok). }
  { lia. }
  { apply RegistryFacts.tbl_used_lt; [lia|].
    rewrite (RegistryFacts.same_table_tbl v v4) by done. by rewrite Hslot. }
  rewrite (bind_step _ _ _ _ _ Hfree).
  unfold if_rele.
  assert (Hif5 : ifnets v5 !! p = Some (set_if_groups [] (set_if_addr None
            (set_if_flags (Z.land (if_flags ifp1) (Z.lnot IFF_UP)) ifp1))))
    by (by rewrite (fp_ifnets _ _ _ Hpost)).
  rewrite (bind_step _ _ _ _ _ (RegistryFacts.ifnet_load_total v5 p _ Hif5)).
  unfold refcount_release.
  cbn [if_refcount set_if_groups set_if_addr set_if_flags ifp1].
  rewrite (bind_step _ _ _ _ _ (RegistryFacts.ifnet_update_total v5 p _ _ Hif5)).
  match goal with
  | |- context [set_ifnets (<[p := ?x]> (ifnets v5)) v5] =>
      set (ifp6 := x); set (v6 := set_ifnets (<[p := ifp6]> (ifnets v5)) v5)
  end.
  assert (Hif6 : ifnets v6 !! p = Some ifp6) by apply lookup_insert_eq.
  destruct (if_refcount ifp - 1 =? 0).
  - unfold if_free_internal.
    rewrite (bind_step _ _ _ _ _ (RegistryFacts.ifnet_load_total v6 p _ Hif6)).
    assert (Hdying : flag_set (if_flags ifp6) IFF_DYING = true)
      by apply RegistryFacts.flag_set_dying_down.
    rewrite Hdying.
    rewrite (bind_step _ _ _ _ _ (KASSERT_true _ _ _)).
    eexists. split; [reflexivity|]. simpl. apply lookup_delete_eq.
  - exists v6. split; [reflexivity|]. exact Hif6.
Qed.

(** [if_detach] frees the interface only with its last reference.  On
    a registered interface it runs to its end and drops the reference
    of the interface list: if that was the only one the object is
    freed; otherwise the object stays allocated with one reference
    less, marked dying, down, without address and groups and under
    its name and index, and it is the holder's [if_rele] of the last
    reference that frees it. *)
Theorem if_detach_frees_with_last_reference
    (v : vnet) (p : positive) (ifp : ifnet) :
  registry_ok v -> groups_ok v -> p ∈ V_ifnet v -> ifnets v !! p = Some ifp ->
  exists v',
    if_detach p v = Ok tt v' /\
    (if_refcount ifp = 1 -> ifnets v' !! p = None) /\
    (if_refcount ifp <> 1 ->
     exists ifp',
       ifnets v' !! p = Some ifp' /\
       if_refcount ifp' = if_refcount ifp - 1 /\
       flag_set (if_flags ifp') IFF_DYING = true /\
       flag_set (if_flags ifp') IFF_UP = false /\
       if_addr ifp' = None /\ if_groups ifp' = [] /\
       if_xname ifp' = if_xname ifp /\ if_index ifp' = if_index ifp /\
       (if_refcount ifp = 2 ->
        exists v'', if_rele p v' = Ok tt v'' /\ ifnets v'' !! p = None)).
Proof.
  intros Hok Hgo Hp Hifp.
  destruct (if_detach_object v p ifp Hok Hgo Hp Hifp) as (v' & Hrun & Hobj).
  exists v'. split; [exact Hrun|]. split.
  - intros H1. rewrite H1 in Hobj. exact Hobj.
  - intros Hne. destruct (Z.eqb_spec (if_refcount ifp - 1) 0) as [|_]; [lia|].
    eexists. split; [exact Hobj|]. cbn.
    split; [reflexivity|].
    split; [apply RegistryFacts.flag_set_dying_down|].
    split.
    { unfold flag_set. apply negb_false_iff, Z.eqb_eq.
      rewrite <- Z.land_assoc.
      replace (Z.land (Z.lnot IFF_UP) IFF_UP) with 0 by reflexivity.
      apply Z.land_0_r. }
    do 4 (split; [reflexivity|]).
    intros H2. unfold if_rele.
    rewrite (bind_step _ _ _ _ _ (RegistryFacts.ifnet_load_total v' p _ Hobj)).
    unfold refcount_release. cbn [if_refcount set_if_refcount].
    rewrite (bind_step _ _ _ _ _ (RegistryFacts.ifnet_update_total v' p _ _ Hobj)).
    assert (Hz : (if_refcount ifp - 1 - 1 =? 0) = true)
      by (rewrite H2; reflexivity).
    rewrite Hz.
    unfold if_free_internal.
    match goal with
    | |- context [set_ifnets (<[p := ?x]> (ifnets v')) v'] =>
        set (ifp6 := x); set (v6 := set_ifnets (<[p := ifp6]> (ifnets v')) v')
    end.
    assert (Hif6 : ifnets v6 !! p = Some ifp6) by apply lookup_insert_eq.
    rewrite (bind_step _ _ _ _ _ (RegistryFacts.ifnet_load_total v6 p _ Hif6)).
    assert (Hdying : flag_set (if_flags ifp6) IFF_DYING = true)
      by apply RegistryFacts.flag_set_dying_down.
    rewrite Hdying.
    rewrite (bind_step _ _ _ _ _ (KASSERT_true _ _ _)).
    eexists. split; [reflexivity|]. simpl. apply lookup_delete_eq.
Qed.

End WithEnv.

Lemma ifnet_byindex_ref_then_if_rele_restores_witness :
  exists v v1,
    boot (env := amd64) MoreExamples.two_attached = Ok tt v /\
    ifnet_byindex_ref 2 v = Ok (Some 5%positive) v1 /\
    if_rele (env := amd64) 5%positive v1 = Ok tt v.
Proof.
  eexists _, _. split; [vm_compute; reflexivity|].
  split; [vm_compute; reflexivity|].
  refine (proj2 (ifnet_byindex_ref_then_if_rele_restores amd64 _ 2 5%positive _ _ _)).
  - vm_compute. reflexivity.
  - intros ifp Hifp. vm_compute in Hifp. inversion Hifp. simpl. discriminate.
Defined.

Lemma if_detach_frees_with_last_reference_witness :
  exists v v',
    boot (env := amd64) MoreExamples.two_attached = Ok tt v /\
    if_detach (env := amd64) 5%positive v = Ok tt v' /\
    ifnets v' !! 5%positive = None.
Proof.
  eexists.
  match goal with
  | |- exists v', boot ?ops = Ok tt ?v /\ _ =>
      assert (Hboot : boot (env := amd64) ops = Ok tt v)
        by (vm_compute; reflexivity)
  end.
  match type of Hboot with
  | _ = Ok tt ?v =>
      destruct (if_detach_frees_with_last_reference (env := amd64) v 5%positive _
                  (RegistryFacts.boot_ok _ _ Hboot)
                  (RegistryFacts.boot_groups_ok _ _ Hboot)
                  ltac:(simpl; apply elem_of_cons; right;
                        by apply list_elem_of_singleton) eq_refl)
        as (v' & Hrun & Hlast & _)
  end.
  exists v'. split; [exact Hboot|]. split; [exact Hrun|].
  apply Hlast. reflexivity.
Defined.

End RefMore.

(** * Multicast: refusals and the round trip *)

Module MulticastMore.
Import Multicast.

Section WithSockaddr.
Context `{env : Env} {sockaddr : Type}.
Variable sa_family : sockaddr -> Z.
Variables sdl_len sdl_alen : sockaddr -> Z.
Variable LLADDR : sockaddr -> list Byte.byte.
Variable sa_equal : sockaddr -> sockaddr -> bool.
Variable if_resolvemulti : positive -> sockaddr -> Z * option sockaddr.

Local Abbreviation findmulti_loop :=
  (if_findmulti_loop sa_family sdl_len sdl_alen LLADDR sa_equal).
Local Abbreviation findmulti :=
  (if_findmulti sa_family sdl_len sdl_alen LLADDR sa_equal).
Local Abbreviation addmulti :=
  (if_addmulti sa_family sdl_len sdl_alen LLADDR sa_equal if_resolvemulti).
Local Abbreviation delmulti :=
  (if_delmulti sa_family sdl_len sdl_alen LLADDR sa_equal).

(** The comparison that [if_findmulti] makes between the address of a
    membership and the address looked for. *)
Local Abbreviation same_address a sa :=
  (if sa_family sa =? AF_LINK then sa_dl_equal sdl_len sdl_alen LLADDR a sa
   else sa_equal a sa).

Lemma findmulti_loop_none l (sa : sockaddr) (s : state) :
  (forall x, x ∈ l -> exists ifma, ifmas s !! x = Some ifma /\
                                   same_address (ifma_addr ifma) sa = false) ->
  findmulti_loop l sa s = Ok None s.
Proof.
  induction l as [|m rest IH]; intros Hall; [reflexivity|].
  destruct (Hall m ltac:(by left)) as (ifma & Hm & Hne).
  cbn [if_findmulti_loop].
  rewrite (bind_step _ _ _ _ _ (MulticastFacts.ifma_load_ok _ _ _ Hm)).
  rewrite Hne. apply IH. intros x Hx. apply Hall. by right.
Qed.

(** [if_delmulti] for an address that the interface has no membership
    of returns [ENOENT]: nothing is changed and the driver is not
    called. *)
Theorem if_delmulti_without_membership
    (ifp : positive) (sa : sockaddr) (s : state) (l : list positive) :
  ifp ∈ V_ifnet s ->
  if_multiaddrs s !! ifp = Some l ->
  (forall x, x ∈ l -> exists ifma, ifmas s !! x = Some ifma /\
                                   same_address (ifma_addr ifma) sa = false) ->
  delmulti (Some ifp) sa s = Ok ENOENT s.
Proof.
  intros Hv Hl Hall.
  rewrite (MulticastFacts.if_delmulti_entry _ _ _ _ _ _ _ _ Hv).
  unfold if_findmulti.
  rewrite bind_assoc.
  rewrite (bind_step _ _ _ _ _ (MulticastFacts.multiaddrs_load_ok _ _ _ Hl)).
  by rewrite (bind_step _ _ _ _ _ (findmulti_loop_none l sa s Hall)).
Qed.

(** What [if_allocmulti] leaves: nothing but a new membership at the
    address the allocator hands out, or, when an allocation failed,
    nothing at all. *)
Lemma if_allocmulti_cases ifp (sa : sockaddr) llsa (s : state) r s1 :
  if_allocmulti ifp sa llsa s = Ok r s1 ->
  if_multiaddrs s1 = if_multiaddrs s /\ events s1 = events s /\
  V_ifnet s1 = V_ifnet s /\ (brk s <= brk s1)%positive /\
  match r with
  | None => ifmas s1 = ifmas s
  | Some m => m = brk s /\
              ifmas s1 = <[m := {| ifma_addr := sa; ifma_lladdr := llsa;
                                   ifma_ifp := Some ifp; ifma_refcount := 1;
                                   ifma_llifma := None |}]> (ifmas s)
  end.
Proof.
  unfold if_allocmulti, bind, malloc_nowait, modify, ret.
  destruct (nowait s) as [|[] [|[] [|[] ?]]]; destruct llsa; simpl;
    intros [= <- <-]; simpl; repeat split; try done; lia.
Qed.

(** A join that fails has no effect.  Whenever [if_addmulti] returns
    an error, no membership has been added, changed or left allocated,
    nothing has been announced and the driver has not been called; the
    error is that of the resolver or [ENOMEM], and a membership is
    handed back exactly when the result is 0. *)
Theorem if_addmulti_failure_changes_nothing
    (ifp : positive) (sa : sockaddr) (s : state)
    (e : Z) (r : option positive) (s' : state) :
  heap_fresh s ->
  addmulti ifp sa s = Ok (e, r) s' ->
  (e = 0 <-> r <> None) /\
  (e <> 0 ->
   if_multiaddrs s' = if_multiaddrs s /\ ifmas s' = ifmas s /\
   events s' = events s /\
   (e = ENOMEM \/ e = (if_resolvemulti ifp sa).1)).
Proof.
  intros Hfresh H. unfold if_addmulti in H.
  apply bind_Ok in H as (found & s0 & Hf & H).
  pose proof (MulticastFacts.findmulti_ro _ _ _ _ _ _ _ _ _ _ Hf) as ->.
  destruct found as [m|].
  { apply bind_Ok in H as ([] & s1 & _ & H). inversion H; subst.
    split; [done|]. intros Hne. by destruct Hne. }
  destruct (if_resolvemulti ifp sa) as [error llsa0]. cbn [fst].
  destruct (negb (error =? EOPNOTSUPP) && negb (error =? 0)) eqn:Hgo.
  { inversion H; subst.
    apply andb_true_iff in Hgo as [_ Hnz].
    apply negb_true_iff, Z.eqb_neq in Hnz.
    split; [split; [done | intros Hr; by destruct Hr]|].
    intros _. repeat split. by right. }
  apply bind_Ok in H as (ifma & s1 & Halloc & H).
  destruct (if_allocmulti_cases _ _ _ _ _ _ Halloc)
    as (Hl1 & He1 & Hv1 & Hb1 & Hr1).
  destruct ifma as [m|]; cycle 1.
  { inversion H; subst.
    split; [split; [done | intros Hr; by destruct Hr]|].
    intros _. repeat split; try done. by left. }
  destruct Hr1 as [-> Hm1].
  assert (Hnew : ifmas s !! brk s = None).
  { destruct (ifmas s !! brk s) eqn:Hx; [|done].
    specialize (Hfresh (brk s) ltac:(by eexists)). lia. }
  apply bind_Ok in H as (linked & s2 & Hlink & H).
  destruct linked.
  { apply bind_Ok in H as ([] & s3 & _ & H).
    apply bind_Ok in H as ([] & s4 & _ & H).
    apply bind_Ok in H as ([] & s5 & _ & H).
    inversion H; subst.
    split; [done|]. intros Hne. by destruct Hne. }
  inversion H; subst e r s'. clear H.
  split; [split; [done | intros Hr; by destruct Hr]|].
  intros _.
  destruct (if error =? EOPNOTSUPP then None else llsa0) as [ll|];
    [|inversion Hlink].
  apply bind_Ok in Hlink as (ll_ifma & s1' & Hfl & Hlink).
  pose proof (MulticastFacts.findmulti_ro _ _ _ _ _ _ _ _ _ _ Hfl) as ->.
  destruct ll_ifma as [l|].
  { apply bind_Ok in Hlink as ([] & s3 & _ & Hlink).
    apply bind_Ok in Hlink as ([] & s4 & _ & Hlink). inversion Hlink. }
  apply bind_Ok in Hlink as (fresh & s3 & Halloc2 & Hlink).
  destruct (if_allocmulti_cases _ _ _ _ _ _ Halloc2)
    as (Hl3 & He3 & Hv3 & Hb3 & Hr3).
  destruct fresh as [l|].
  { apply bind_Ok in Hlink as ([] & s4 & _ & Hlink).
    apply bind_Ok in Hlink as ([] & s5 & _ & Hlink). inversion Hlink. }
  apply bind_Ok in Hlink as ([] & s4 & Hdec & Hlink).
  apply bind_Ok in Hlink as ([] & s5 & Hfree & Hlink).
  inversion Hlink; subst s5. clear Hlink.
  unfold ifma_update in Hdec. rewrite Hr3, Hm1, lookup_insert_eq in Hdec.
  inversion Hdec; subst s4. clear Hdec.
  unfold if_freemulti in Hfree.
  apply bind_Ok in Hfree as (x & s5 & Hload & Hfree).
  unfold ifma_load in Hload. cbn in Hload. rewrite lookup_insert_eq in Hload.
  inversion Hload; subst x s5. clear Hload.
  apply bind_Ok in Hfree as ([] & s6 & Hk & Hfree).
  apply KASSERT_Ok in Hk as [-> _].
  inversion Hfree; subst s2. clear Hfree. cbn.
  split; [congruence|]. split; [|split; [congruence | by left]].
  rewrite delete_insert_eq, delete_insert_eq. by apply delete_id.
Qed.

Hypothesis sa_equal_refl : forall a, sa_equal a a = true.

Tactic Notation "run" uconstr(H) := rewrite (bind_step _ _ _ _ _ H).
Ltac look :=
  repeat first [ rewrite lookup_delete_eq | rewrite lookup_insert_eq
               | rewrite lookup_delete_ne by done
               | rewrite lookup_insert_ne by done ].

(** [if_delmulti] on top of [if_delmulti_locked], for the membership
    at the head of the list. *)
Lemma delmulti_head ifp (sa : sockaddr) m rest ifma (s s1 : state) :
  ifp ∈ V_ifnet s ->
  if_multiaddrs s !! ifp = Some (m :: rest) ->
  ifmas s !! m = Some ifma -> ifma_addr ifma = sa ->
  if_delmulti_locked (Some ifp) m false s = Ok 1 s1 ->
  delmulti (Some ifp) sa s
    = Ok 0 (set_events (events s1 ++ [if_ioctl ifp SIOCDELMULTI]) s1).
Proof.
  intros Hv Hl Hm Ha Hlocked.
  rewrite (MulticastFacts.if_delmulti_entry sa_family sdl_len sdl_alen LLADDR
             sa_equal ifp sa s Hv).
  unfold if_findmulti. rewrite bind_assoc.
  run (MulticastFacts.multiaddrs_load_ok _ _ _ Hl).
  run (MulticastFacts.findmulti_loop_head sa_family sdl_len sdl_alen LLADDR
         sa_equal sa_equal_refl m rest sa s ifma Hm Ha).
  run Hlocked. reflexivity.
Qed.

(** The last leave of a membership at the head of the list: without
    a link-level membership, with one that others hold too, and with
    one that nobody else holds. *)
Lemma locked_plain ifp m rest ifma (s : state (sockaddr := sockaddr)) :
  if_multiaddrs s !! ifp = Some (m :: rest) ->
  ifmas s !! m = Some ifma ->
  ifma_ifp ifma = Some ifp -> ifma_refcount ifma = 1 ->
  ifma_llifma ifma = None ->
  exists s',
    if_delmulti_locked (Some ifp) m false s = Ok 1 s' /\
    if_multiaddrs s' = <[ifp := rest]> (if_multiaddrs s) /\
    ifmas s' = delete m (ifmas s) /\
    events s' = events s /\ V_ifnet s' = V_ifnet s.
Proof.
  intros Hl Hm Hi Hrc Hll.
  unfold if_delmulti_locked.
  rewrite (MulticastFacts.if_delmulti_locked_head ifp m s ifma _ Hm Hi).
  rewrite Hi. unfold bind at 1. unfold ret at 1.
  run (MulticastFacts.ifma_update_ok _ _ _ _ Hm).
  rewrite Hrc, Hll. change (0 <? 1 - 1) with false. cbv iota.
  set (ifma0 := set_ifma_refcount (1 - 1) ifma).
  set (s1 := set_ifmas (<[m := ifma0]> (ifmas s)) s).
  unfold bind at 1. unfold ret at 1.
  assert (Hlist1 : if_multiaddrs s1 !! ifp = Some (m :: rest)) by exact Hl.
  run (MulticastFacts.multiaddrs_update_ok _ _ _ _ Hlist1).
  set (s5 := set_if_multiaddrs _ s1).
  assert (Hm5 : ifmas s5 !! m = Some ifma0) by (cbn; apply lookup_insert_eq).
  run (MulticastFacts.if_freemulti_ok _ _ _ Hm5 eq_refl).
  eexists. split; [reflexivity|]. cbn.
  rewrite decide_True by done.
  split; [done|]. split; [|done]. by rewrite delete_insert_eq.
Qed.

Lemma locked_shared ifp m rest ifma l ll (s : state (sockaddr := sockaddr)) :
  if_multiaddrs s !! ifp = Some (m :: rest) ->
  ifmas s !! m = Some ifma ->
  ifma_ifp ifma = Some ifp -> ifma_refcount ifma = 1 ->
  ifma_llifma ifma = Some l -> ifma_lladdr ifma <> None -> l <> m ->
  ifmas s !! l = Some ll -> ifma_refcount ll - 1 <> 0 ->
  exists s',
    if_delmulti_locked (Some ifp) m false s = Ok 1 s' /\
    if_multiaddrs s' = <[ifp := rest]> (if_multiaddrs s) /\
    ifmas s' = delete m (<[l := set_ifma_refcount (ifma_refcount ll - 1) ll]>
                           (ifmas s)) /\
    events s' = events s /\ V_ifnet s' = V_ifnet s.
Proof.
  intros Hl Hm Hi Hrc Hll Hlad Hne Hlv Hnz.
  unfold if_delmulti_locked.
  rewrite (MulticastFacts.if_delmulti_locked_head ifp m s ifma _ Hm Hi).
  rewrite Hi. unfold bind at 1. unfold ret at 1.
  run (MulticastFacts.ifma_update_ok _ _ _ _ Hm).
  rewrite Hrc, Hll. change (0 <? 1 - 1) with false. cbv iota.
  set (ifma0 := set_ifma_refcount (1 - 1) ifma).
  set (s1 := set_ifmas (<[m := ifma0]> (ifmas s)) s).
  assert (Hl1 : ifmas s1 !! l = Some ll) by (cbn; by rewrite lookup_insert_ne).
  rewrite bind_assoc.
  erewrite bind_step
    by (apply KASSERT_pass; intros _; by apply bool_decide_eq_true).
  rewrite bind_assoc. unfold bind at 1. unfold ret at 1.
  rewrite bind_assoc.
  run (MulticastFacts.ifma_update_ok _ _ _ _ Hl1).
  set (ll1 := set_ifma_refcount (ifma_refcount ll - 1) ll).
  set (s2 := set_ifmas (<[l := ll1]> (ifmas s1)) s1).
  assert (Hl2 : ifmas s2 !! l = Some ll1) by (cbn; by rewrite lookup_insert_eq).
  rewrite bind_assoc.
  run (MulticastFacts.ifma_load_ok _ _ _ Hl2).
  destruct (Z.eqb_spec (ifma_refcount ll1) 0) as [Hz|_]; [done|]. cbv iota.
  unfold bind at 1. unfold ret at 1.
  assert (Hlist2 : if_multiaddrs s2 !! ifp = Some (m :: rest)) by exact Hl.
  run (MulticastFacts.multiaddrs_update_ok _ _ _ _ Hlist2).
  set (s5 := set_if_multiaddrs _ s2).
  assert (Hm5 : ifmas s5 !! m = Some ifma0).
  { cbn. rewrite lookup_insert_ne by done. by rewrite lookup_insert_eq. }
  run (MulticastFacts.if_freemulti_ok _ _ _ Hm5 eq_refl).
  eexists. split; [reflexivity|]. cbn.
  rewrite decide_True by done.
  split; [done|]. split; [|done].
  apply map_eq. intros i.
  destruct (decide (i = m)) as [->|Him]; [by look|].
  destruct (decide (i = l)) as [->|Hil]; by look.
Qed.

Lemma locked_both ifp m rest ifma l ll (s : state (sockaddr := sockaddr)) :
  if_multiaddrs s !! ifp = Some (m :: rest) ->
  ifmas s !! m = Some ifma ->
  ifma_ifp ifma = Some ifp -> ifma_refcount ifma = 1 ->
  ifma_llifma ifma = Some l -> ifma_lladdr ifma <> None -> l <> m ->
  ifmas s !! l = Some ll -> ifma_refcount ll = 1 ->
  exists s',
    if_delmulti_locked (Some ifp) m false s = Ok 1 s' /\
    if_multiaddrs s' = <[ifp := TAILQ_REMOVE l rest]> (if_multiaddrs s) /\
    ifmas s' = delete m (delete l (ifmas s)) /\
    events s' = events s /\ V_ifnet s' = V_ifnet s.
Proof.
  intros Hl Hm Hi Hrc Hll Hlad Hne Hlv Hone.
  unfold if_delmulti_locked.
  rewrite (MulticastFacts.if_delmulti_locked_head ifp m s ifma _ Hm Hi).
  rewrite Hi. unfold bind at 1. unfold ret at 1.
  run (MulticastFacts.ifma_update_ok _ _ _ _ Hm).
  rewrite Hrc, Hll. change (0 <? 1 - 1) with false. cbv iota.
  set (ifma0 := set_ifma_refcount (1 - 1) ifma).
  set (s1 := set_ifmas (<[m := ifma0]> (ifmas s)) s).
  assert (Hl1 : ifmas s1 !! l = Some ll) by (cbn; by rewrite lookup_insert_ne).
  rewrite bind_assoc.
  erewrite bind_step
    by (apply KASSERT_pass; intros _; by apply bool_decide_eq_true).
  rewrite bind_assoc. unfold bind at 1. unfold ret at 1.
  rewrite bind_assoc.
  run (MulticastFacts.ifma_update_ok _ _ _ _ Hl1).
  set (ll1 := set_ifma_refcount (ifma_refcount ll - 1) ll).
  set (s2 := set_ifmas (<[l := ll1]> (ifmas s1)) s1).
  assert (Hl2 : ifmas s2 !! l = Some ll1) by (cbn; by rewrite lookup_insert_eq).
  rewrite bind_assoc.
  run (MulticastFacts.ifma_load_ok _ _ _ Hl2).
  assert (Hz : ifma_refcount ll1 = 0) by (cbn; lia).
  rewrite Hz. change (0 =? 0) with true. cbv iota.
  assert (Hlist2 : if_multiaddrs s2 !! ifp = Some (m :: rest)) by exact Hl.
  rewrite bind_assoc.
  run (MulticastFacts.multiaddrs_update_ok _ _ _ _ Hlist2).
  set (s3 := set_if_multiaddrs _ s2).
  assert (Hl3 : ifmas s3 !! l = Some ll1) by exact Hl2.
  run (MulticastFacts.if_freemulti_ok _ _ _ Hl3 Hz).
  set (s4 := set_ifmas _ s3).
  assert (Hlist4 : if_multiaddrs s4 !! ifp = Some (m :: TAILQ_REMOVE l rest)).
  { cbn. rewrite lookup_insert_eq. cbn. by rewrite decide_False by done. }
  run (MulticastFacts.multiaddrs_update_ok _ _ _ _ Hlist4).
  set (s5 := set_if_multiaddrs _ s4).
  assert (Hm5 : ifmas s5 !! m = Some ifma0).
  { cbn. rewrite lookup_delete_ne by done.
    rewrite lookup_insert_ne by done. by rewrite lookup_insert_eq. }
  run (MulticastFacts.if_freemulti_ok _ _ _ Hm5 eq_refl).
  eexists. split; [reflexivity|]. cbn.
  rewrite decide_True by done.
  split; [by rewrite insert_insert_eq|]. split; [|done].
  apply map_eq. intros i.
  destruct (decide (i = m)) as [->|Him]; [by look|].
  destruct (decide (i = l)) as [->|Hil]; by look.
Qed.

(** The first join of an address, state by state: the new membership
    is at the head of the list, held once; for an address that the
    resolver maps to a link-level address, the membership of that
    address has one reference more, or is new behind it. *)
Lemma join_exact ifp (sa : sockaddr) (s : state) l0 :
  heap_fresh s -> nowait s = [] ->
  if_multiaddrs s !! ifp = Some l0 ->
  (forall x, x ∈ l0 -> exists ifma, ifmas s !! x = Some ifma /\
                                    same_address (ifma_addr ifma) sa = false) ->
  (if_resolvemulti ifp sa).1 = 0 \/ (if_resolvemulti ifp sa).1 = EOPNOTSUPP ->
  exists s1 ifma rest,
    addmulti ifp sa s = Ok (0, Some (brk s)) s1 /\
    V_ifnet s1 = V_ifnet s /\
    events s1 = events s ++ [rt_newmaddrmsg RTM_NEWMADDR (brk s);
                             if_ioctl ifp SIOCADDMULTI] /\
    if_multiaddrs s1 = <[ifp := brk s :: rest]> (if_multiaddrs s) /\
    ifmas s1 !! brk s = Some ifma /\
    ifma_addr ifma = sa /\ ifma_ifp ifma = Some ifp /\ ifma_refcount ifma = 1 /\
    match ifma_llifma ifma with
    | None => rest = l0 /\ ifmas s1 = <[brk s := ifma]> (ifmas s)
    | Some l =>
        ifma_lladdr ifma <> None /\ l <> brk s /\
        ((exists ifl, l ∈ l0 /\ ifmas s !! l = Some ifl /\ rest = l0 /\
            ifmas s1 = <[brk s := ifma]>
                         (<[l := set_ifma_refcount (ifma_refcount ifl + 1) ifl]>
                            (ifmas s)))
         \/ (exists x, ifmas s !! l = None /\ rest = l :: l0 /\
               ifma_refcount x = 1 /\ ifma_llifma x = None /\
               ifma_ifp x = Some ifp /\
               ifmas s1 = <[brk s := ifma]> (<[l := x]> (ifmas s))))
    end.
Proof.
  intros Hfresh Hnw Hl0 Hall Hres.
  assert (Hf : findmulti ifp sa s = Ok None s).
  { unfold if_findmulti.
    run (MulticastFacts.multiaddrs_load_ok _ _ _ Hl0).
    by apply findmulti_loop_none. }
  assert (Hval : forall x, x ∈ l0 -> is_Some (ifmas s !! x)).
  { intros x Hx. destruct (Hall x Hx) as (ifx & Hifx & _). by eexists. }
  assert (Hold : forall x, x ∈ l0 -> x <> brk s).
  { intros x Hx ->. specialize (Hfresh _ (Hval _ Hx)). lia. }
  unfold if_addmulti. run Hf.
  destruct (if_resolvemulti ifp sa) as [error llsa0]. simpl in Hres.
  assert (Hgo : negb (error =? EOPNOTSUPP) && negb (error =? 0) = false).
  { destruct Hres as [-> | ->]; reflexivity. }
  rewrite Hgo.
  set (llsa := if error =? EOPNOTSUPP then None else llsa0).
  run (MulticastFacts.if_allocmulti_ok ifp sa llsa s Hnw).
  set (m := brk s) in *.
  set (ifma0 := {| ifma_addr := sa; ifma_lladdr := llsa; ifma_ifp := Some ifp;
                   ifma_refcount := 1; ifma_llifma := None |}).
  set (s1 := set_ifmas _ _).
  assert (Hm1 : ifmas s1 !! m = Some ifma0) by (simpl; by rewrite lookup_insert_eq).
  assert (Hl1 : if_multiaddrs s1 !! ifp = Some l0) by exact Hl0.
  assert (Hsame1 : forall x, x ∈ l0 -> ifmas s1 !! x = ifmas s !! x).
  { intros x Hx. simpl. rewrite lookup_insert_ne; [done|].
    intros Heq. by apply (Hold x). }
  destruct llsa as [ll|] eqn:Hllsa.
  - destruct (MulticastFacts.findmulti_other sa_family sdl_len sdl_alen LLADDR
                sa_equal ifp ll s s1 l0 Hl0 Hl1 Hval Hsame1)
      as (r & Hfind & Hin).
    rewrite bind_assoc. run Hfind.
    destruct r as [l|].
    + assert (Hlin : l ∈ l0) by (by apply Hin).
      destruct (Hval l Hlin) as [ifl Hifl].
      assert (Hne : l <> m) by (by apply Hold).
      assert (Hifl1 : ifmas s1 !! l = Some ifl) by (by rewrite Hsame1).
      rewrite bind_assoc.
      run (MulticastFacts.ifma_update_ok _ _ _ _ Hifl1).
      set (s2 := set_ifmas _ s1).
      assert (Hm2 : ifmas s2 !! m = Some ifma0).
      { simpl. rewrite lookup_insert_ne by done. by rewrite lookup_insert_eq. }
      rewrite bind_assoc.
      run (MulticastFacts.ifma_update_ok _ _ _ _ Hm2).
      set (s3 := set_ifmas _ s2).
      unfold bind at 1. unfold ret at 1.
      assert (Hl3 : if_multiaddrs s3 !! ifp = Some l0) by exact Hl0.
      run (MulticastFacts.multiaddrs_update_ok _ _ _ _ Hl3).
      eexists _, (set_ifma_llifma (Some l) ifma0), l0.
      split; [reflexivity|]. cbn.
      split; [done|]. split; [by rewrite <- app_assoc|]. split; [done|].
      split; [by rewrite lookup_insert_eq|].
      do 3 (split; [done|]). split; [done|]. split; [done|].
      left. exists ifl. do 3 (split; [done|]).
      apply map_eq. intros i.
      destruct (decide (i = m)) as [->|Him]; [by look|].
      destruct (decide (i = l)) as [->|Hil]; by look.
    + assert (Hnw1 : nowait s1 = []) by reflexivity.
      rewrite bind_assoc.
      run (MulticastFacts.if_allocmulti_ok ifp ll None s1 Hnw1).
      set (l := brk s1).
      assert (Hne : l <> m) by (subst l m; simpl; lia).
      set (s2 := set_ifmas _ _).
      assert (Hl2 : if_multiaddrs s2 !! ifp = Some l0) by exact Hl0.
      rewrite bind_assoc.
      run (MulticastFacts.multiaddrs_update_ok _ _ _ _ Hl2).
      set (s3 := set_if_multiaddrs _ s2).
      assert (Hm3 : ifmas s3 !! m = Some ifma0).
      { simpl. rewrite lookup_insert_ne by done. by rewrite lookup_insert_eq. }
      rewrite bind_assoc.
      run (MulticastFacts.ifma_update_ok _ _ _ _ Hm3).
      set (s4 := set_ifmas _ s3).
      unfold bind at 1. unfold ret at 1.
      assert (Hl4 : if_multiaddrs s4 !! ifp = Some (l :: l0))
        by (simpl; by rewrite lookup_insert_eq).
      run (MulticastFacts.multiaddrs_update_ok _ _ _ _ Hl4).
      eexists _, (set_ifma_llifma (Some l) ifma0), (l :: l0).
      split; [reflexivity|]. cbn.
      split; [done|]. split; [by rewrite <- app_assoc|].
      split; [by rewrite insert_insert_eq|].
      split; [by rewrite lookup_insert_eq|].
      do 3 (split; [done|]). split; [done|]. split; [done|].
      right. eexists. split.
      { destruct (ifmas s !! l) eqn:Hx; [|done].
        specialize (Hfresh l ltac:(by eexists)). subst l. simpl in Hfresh. lia. }
      split; [done|]. split; [|split; [|split]]; cycle 3.
      { apply map_eq. intros i.
        destruct (decide (i = m)) as [->|Him]; [by look|].
        destruct (decide (i = l)) as [->|Hil]; by look. }
      all: done.
  - unfold bind at 1. unfold ret at 1.
    run (MulticastFacts.multiaddrs_update_ok _ _ _ _ Hl1).
    eexists _, ifma0, l0.
    split; [reflexivity|]. cbn.
    split; [done|]. split; [by rewrite <- app_assoc|]. split; [done|].
    split; [by rewrite lookup_insert_eq|]. by do 4 (split; [done|]).
Qed.

(** A join followed by a leave is a round trip.  For an address that
    the interface has no membership of (no allocation failing, the
    resolver giving a link-level address or none, every membership on
    the list referenced at least once), [if_addmulti] followed by
    [if_delmulti] leaves the membership lists and the memberships
    exactly as they were: the membership is freed again, and so is the
    link-level membership that the join created, while one that was
    there before is back at its count.  The driver has been told of
    the join and of the leave. *)
Theorem if_addmulti_then_if_delmulti_restores
    (ifp : positive) (sa : sockaddr) (s : state) (l0 : list positive) :
  heap_fresh s -> nowait s = [] -> ifp ∈ V_ifnet s ->
  if_multiaddrs s !! ifp = Some l0 ->
  (forall x, x ∈ l0 -> exists ifma, ifmas s !! x = Some ifma /\
                                    same_address (ifma_addr ifma) sa = false /\
                                    0 < ifma_refcount ifma) ->
  (if_resolvemulti ifp sa).1 = 0 \/ (if_resolvemulti ifp sa).1 = EOPNOTSUPP ->
  exists m s1 s2,
    addmulti ifp sa s = Ok (0, Some m) s1 /\
    (exists l1, if_multiaddrs s1 !! ifp = Some (m :: l1)) /\
    delmulti (Some ifp) sa s1 = Ok 0 s2 /\
    if_multiaddrs s2 = if_multiaddrs s /\ ifmas s2 = ifmas s /\
    events s2 = events s ++ [rt_newmaddrmsg RTM_NEWMADDR m;
                             if_ioctl ifp SIOCADDMULTI;
                             if_ioctl ifp SIOCDELMULTI].
Proof.
  intros Hfresh Hnw Hv Hl0 Hall Hres.
  assert (Hall' : forall x, x ∈ l0 -> exists ifma, ifmas s !! x = Some ifma /\
                    same_address (ifma_addr ifma) sa = false).
  { intros x Hx. destruct (Hall x Hx) as (ifx & ? & ? & _). by exists ifx. }
  destruct (join_exact ifp sa s l0 Hfresh Hnw Hl0 Hall' Hres)
    as (s1 & ifma & rest & Hadd & Hv1 & Hev1 & Hlist1 & Hm1 & Ha & Hi & Hrc & Hll).
  assert (Hnew : ifmas s !! brk s = None).
  { destruct (ifmas s !! brk s) eqn:Hx; [|done].
    specialize (Hfresh (brk s) ltac:(by eexists)). lia. }
  assert (Hl1 : if_multiaddrs s1 !! ifp = Some (brk s :: rest))
    by (rewrite Hlist1; apply lookup_insert_eq).
  assert (Hv' : ifp ∈ V_ifnet s1) by (by rewrite Hv1).
  assert (Hback : forall l, <[ifp := l0]> (<[ifp := l]> (if_multiaddrs s))
                            = if_multiaddrs s).
  { intros l. rewrite insert_insert_eq. by apply insert_id. }
  exists (brk s), s1.
  destruct (ifma_llifma ifma) as [l|] eqn:Hllifma.
  - destruct Hll as (Hlad & Hne & [(ifl & Hlin & Hifl & -> & Hmap) |
                                   (x & Hnone & -> & Hx1 & _ & _ & Hmap)]).
    + (* the link-level membership was there before *)
      destruct (Hall l Hlin) as (ifl' & Hifl' & _ & Hpos).
      rewrite Hifl in Hifl'. inversion Hifl'; subst ifl'. clear Hifl'.
      assert (Hl1' : ifmas s1 !! l
                = Some (set_ifma_refcount (ifma_refcount ifl + 1) ifl)).
      { rewrite Hmap. by look. }
      destruct (locked_shared ifp (brk s) l0 ifma l _ s1 Hl1 Hm1 Hi Hrc Hllifma
                  Hlad Hne Hl1' ltac:(cbn; lia))
        as (s2 & Hlocked & Hlist2 & Hmap2 & Hev2 & Hv2).
      eexists. split; [exact Hadd|]. split; [by eexists|].
      split; [exact (delmulti_head ifp sa _ _ _ _ _ Hv' Hl1 Hm1 Ha Hlocked)|].
      cbn. split; [by rewrite Hlist2, Hlist1|]. split.
      * rewrite Hmap2, Hmap. apply map_eq. intros i.
        destruct (decide (i = brk s)) as [->|Him]; [by look|].
        destruct (decide (i = l)) as [->|Hil]; look; [|done].
        rewrite Hifl. f_equal. destruct ifl. unfold set_ifma_refcount. cbn.
        f_equal. lia.
      * rewrite Hev2, Hev1. by rewrite <- app_assoc.
    + (* the link-level membership came with the join *)
      assert (Hl1' : ifmas s1 !! l = Some x) by (rewrite Hmap; by look).
      destruct (locked_both ifp (brk s) (l :: l0) ifma l x s1 Hl1 Hm1 Hi Hrc
                  Hllifma Hlad Hne Hl1' Hx1)
        as (s2 & Hlocked & Hlist2 & Hmap2 & Hev2 & Hv2).
      eexists. split; [exact Hadd|]. split; [by eexists|].
      split; [exact (delmulti_head ifp sa _ _ _ _ _ Hv' Hl1 Hm1 Ha Hlocked)|].
      cbn. split.
      { rewrite Hlist2, Hlist1, RegistryFacts.TAILQ_REMOVE_head. apply Hback. }
      split.
      * rewrite Hmap2, Hmap. apply map_eq. intros i.
        destruct (decide (i = brk s)) as [->|Him]; [by look|].
        destruct (decide (i = l)) as [->|Hil]; by look.
      * rewrite Hev2, Hev1. by rewrite <- app_assoc.
  - destruct Hll as [-> Hmap].
    destruct (locked_plain ifp (brk s) l0 ifma s1 Hl1 Hm1 Hi Hrc Hllifma)
      as (s2 & Hlocked & Hlist2 & Hmap2 & Hev2 & Hv2).
    eexists. split; [exact Hadd|]. split; [by eexists|].
    split; [exact (delmulti_head ifp sa _ _ _ _ _ Hv' Hl1 Hm1 Ha Hlocked)|].
    cbn. split; [by rewrite Hlist2, Hlist1|]. split.
    * rewrite Hmap2, Hmap, delete_insert_eq. by apply delete_id.
    * rewrite Hev2, Hev1. by rewrite <- app_assoc.
Qed.

End WithSockaddr.

Lemma one_membership_fresh : heap_fresh MoreExamples.one_membership.
Proof.
  intros m [x Hx]. cbn in Hx.
  apply lookup_insert_Some in Hx as [[<- _]|[_ Hx]]; [done|].
  apply lookup_insert_Some in Hx as [[<- _]|[_ Hx]]; [done|].
  rewrite lookup_empty in Hx. discriminate Hx.
Qed.

Lemma one_membership_others sa :
  sa = Examples.all_hosts ->
  forall x, x ∈ [2%positive; 5%positive] ->
  exists ifma, ifmas MoreExamples.one_membership !! x = Some ifma /\
    (if Examples.sa_family sa =? AF_LINK (Env := amd64)
     then sa_dl_equal Examples.sdl_len Examples.sdl_alen Examples.LLADDR
            (ifma_addr ifma) sa
     else Examples.sa_equal (ifma_addr ifma) sa) = false /\
    0 < ifma_refcount ifma.
Proof.
  intros -> x Hx. apply elem_of_cons in Hx as [->|Hx].
  - eexists. split; [reflexivity|]. split; [reflexivity | reflexivity].
  - apply list_elem_of_singleton in Hx as ->.
    eexists. split; [reflexivity|]. split; [reflexivity | reflexivity].
Qed.

Lemma if_delmulti_without_membership_witness :
  if_delmulti (env := amd64) Examples.sa_family Examples.sdl_len
    Examples.sdl_alen Examples.LLADDR Examples.sa_equal
    (Some 1%positive) Examples.all_hosts MoreExamples.one_membership
  = Ok ENOENT MoreExamples.one_membership.
Proof.
  apply (if_delmulti_without_membership (env := amd64) Examples.sa_family
           Examples.sdl_len Examples.sdl_alen Examples.LLADDR Examples.sa_equal
           1%positive Examples.all_hosts MoreExamples.one_membership
           [2%positive; 5%positive]).
  - apply list_elem_of_singleton. reflexivity.
  - reflexivity.
  - intros x Hx.
    destruct (one_membership_others _ eq_refl x Hx) as (ifma & H1 & H2 & _).
    by exists ifma.
Defined.

Lemma if_addmulti_failure_changes_nothing_witness :
  exists s',
    if_addmulti (env := amd64) Examples.sa_family Examples.sdl_len
      Examples.sdl_alen Examples.LLADDR Examples.sa_equal
      Examples.ether_resolvemulti 1%positive Examples.all_hosts
      MoreExamples.short_of_memory = Ok (ENOMEM, None) s' /\
    if_multiaddrs s' = if_multiaddrs MoreExamples.short_of_memory /\
    ifmas s' = ifmas MoreExamples.short_of_memory.
Proof.
  eexists. split; [vm_compute; reflexivity|].
  match goal with
  | |- if_multiaddrs ?s' = _ /\ _ =>
      destruct (if_addmulti_failure_changes_nothing (env := amd64)
                  Examples.sa_family Examples.sdl_len Examples.sdl_alen
                  Examples.LLADDR Examples.sa_equal Examples.ether_resolvemulti
                  1%positive Examples.all_hosts MoreExamples.short_of_memory
                  ENOMEM None s')
        as [_ Hsame]
  end.
  - exact one_membership_fresh.
  - vm_compute. reflexivity.
  - destruct (Hsame ltac:(discriminate)) as (H1 & H2 & _). by split.
Defined.

Lemma if_addmulti_then_if_delmulti_restores_witness :
  exists m s1 s2,
    if_addmulti (env := amd64) Examples.sa_family Examples.sdl_len
      Examples.sdl_alen Examples.LLADDR Examples.sa_equal
      Examples.ether_resolvemulti 1%positive Examples.all_hosts
      MoreExamples.one_membership = Ok (0, Some m) s1 /\
    if_delmulti (env := amd64) Examples.sa_family Examples.sdl_len
      Examples.sdl_alen Examples.LLADDR Examples.sa_equal
      (Some 1%positive) Examples.all_hosts s1 = Ok 0 s2 /\
    if_multiaddrs s2 = if_multiaddrs MoreExamples.one_membership /\
    ifmas s2 = ifmas MoreExamples.one_membership.
Proof.
  destruct (if_addmulti_then_if_delmulti_restores (env := amd64)
              Examples.sa_family Examples.sdl_len Examples.sdl_alen
              Examples.LLADDR Examples.sa_equal Examples.ether_resolvemulti
              ltac:(intros a; by apply bool_decide_eq_true)
              1%positive Examples.all_hosts MoreExamples.one_membership
              [2%positive; 5%positive]
              one_membership_fresh eq_refl
              ltac:(apply list_elem_of_singleton; reflexivity) eq_refl
              (one_membership_others _ eq_refl) (or_introl eq_refl))
    as (m & s1 & s2 & Hadd & _ & Hdel & Hlist & Hmap & _).
  exists m, s1, s2. by repeat (split; [done|]).
Defined.

End MulticastMore.

(** * Rename: refusals and what a rename keeps *)

Module RenameMore.
Import Registry.

Lemma poke_length {A} (buf : list A) off src : length (poke buf off src) = length buf.
Proof.
  unfold poke. rewrite length_take, !length_app, length_take, length_drop. lia.
Qed.

Lemma poke_fits {A} (buf : list A) off src :
  (off + length src <= length buf)%nat ->
  poke buf off src = take off buf ++ src ++ drop (off + length src) buf.
Proof.
  intros H. unfold poke. apply take_ge.
  rewrite !length_app, length_take, length_drop. lia.
Qed.

Lemma poke_front {A} (buf : list A) src :
  (length src <= length buf)%nat ->
  take (length src) (poke buf 0 src) = src /\
  drop (length src) (poke buf 0 src) = drop (length src) buf.
Proof.
  intros H. rewrite poke_fits by (simpl; lia). simpl.
  split; [by rewrite take_app_length | by rewrite drop_app_length].
Qed.

Lemma poke_at {A} (buf : list A) off src :
  (off + length src <= length buf)%nat ->
  take (length src) (drop off (poke buf off src)) = src.
Proof.
  intros H. rewrite poke_fits by done.
  rewrite drop_app_length' by (rewrite length_take; lia).
  by rewrite take_app_length.
Qed.

Lemma name_bytes_length s : length (name_bytes s) = String.length s.
Proof.
  unfold name_bytes, String.list_byte_of_string.
  rewrite length_map. induction s as [|c s IH]; simpl; [done | by rewrite IH].
Qed.

Section WithEnv.
Context `{env : Env}.

Lemma ifunit_loop_None l name v v' :
  ifunit_loop l name v = Ok None v' ->
  forall q, q ∈ l -> exists ifq, ifnets v !! q = Some ifq /\
                                 strncmp_eq name (if_xname ifq) IFNAMSIZ = false.
Proof.
  induction l as [|r l IH]; intros H q Hq; [by apply elem_of_nil in Hq|].
  simpl in H. apply bind_Ok in H as (ifr & v1 & Hload & H).
  unfold ifnet_load in Hload.
  destruct (ifnets v !! r) as [ifr'|] eqn:Hr; [|discriminate Hload].
  inversion Hload; subst ifr' v1. clear Hload.
  destruct (strncmp_eq name (if_xname ifr) IFNAMSIZ) eqn:Hcmp; [discriminate H|].
  apply elem_of_cons in Hq as [->|Hq]; [by exists ifr | by apply IH].
Qed.

Lemma ifunit_loop_Some l name v r v' :
  ifunit_loop l name v = Ok (Some r) v' ->
  exists ifr, ifnets v !! r = Some ifr /\
              strncmp_eq name (if_xname ifr) IFNAMSIZ = true.
Proof.
  induction l as [|q l IH]; intros H; [discriminate H|].
  simpl in H. apply bind_Ok in H as (ifq & v1 & Hload & H).
  unfold ifnet_load in Hload.
  destruct (ifnets v !! q) as [ifq'|] eqn:Hq; [|discriminate Hload].
  inversion Hload; subst ifq' v1. clear Hload.
  destruct (strncmp_eq name (if_xname ifq) IFNAMSIZ) eqn:Hcmp.
  - inversion H; subst. by exists ifq.
  - by apply IH.
Qed.

Lemma ifunit_loop_runs l name v :
  (forall q, q ∈ l -> is_Some (ifnets v !! q)) ->
  exists r, ifunit_loop l name v = Ok r v.
Proof.
  induction l as [|q l IH]; intros Hall; [by exists None|].
  destruct (Hall q ltac:(by left)) as [ifq Hq].
  simpl. rewrite (bind_step _ _ _ _ _ (RegistryFacts.ifnet_load_total v q ifq Hq)).
  destruct (strncmp_eq name (if_xname ifq) IFNAMSIZ); [by eexists|].
  apply IH. intros r Hr. apply Hall. by right.
Qed.

(** After the name of [p] has become [name], the scan of a list on
    which no other interface bears that name finds [p]. *)
Lemma ifunit_loop_renamed l name v v' p ifp' :
  (forall q, q ∈ l -> exists ifq, ifnets v !! q = Some ifq /\
                                  strncmp_eq name (if_xname ifq) IFNAMSIZ = false) ->
  (forall q, q <> p -> ifnets v' !! q = ifnets v !! q) ->
  ifnets v' !! p = Some ifp' -> if_xname ifp' = name ->
  p ∈ l ->
  ifunit_loop l name v' = Ok (Some p) v'.
Proof.
  intros Hall Hsame Hp Hname. induction l as [|q l IH]; intros Hin;
    [by apply elem_of_nil in Hin|].
  simpl. destruct (decide (q = p)) as [->|Hne].
  - rewrite (bind_step _ _ _ _ _ (RegistryFacts.ifnet_load_total v' p ifp' Hp)).
    by rewrite Hname, RegistryFacts.strncmp_eq_refl.
  - destruct (Hall q ltac:(by left)) as (ifq & Hq & Hcmp).
    assert (Hq' : ifnets v' !! q = Some ifq) by (by rewrite Hsame).
    rewrite (bind_step _ _ _ _ _ (RegistryFacts.ifnet_load_total v' q ifq Hq')).
    rewrite Hcmp. apply IH.
    + intros r Hr. apply Hall. by right.
    + apply elem_of_cons in Hin as [->|Hin]; done.
Qed.

(** A rename that is refused changes nothing.  Whenever the
    SIOCSIFNAME request returns an error, the state is as before; the
    error is that of the privilege check, that of [copyinstr],
    [EINVAL] for the empty name, or [EEXIST] for a name that [ifunit]
    finds. *)
Theorem rename_refusals_change_nothing
    (v : vnet) (p : positive) (ifr_data : uaddr) (td : thread)
    (e : Z) (v' : vnet) :
  if_drvioctl_SIOCSIFNAME p ifr_data td v = Ok e v' ->
  e <> 0 ->
  v' = v /\
  (e = priv_check td PRIV_NET_SETIFNAME \/
   priv_check td PRIV_NET_SETIFNAME = 0 /\
   (e = (copyinstr ifr_data IFNAMSIZ).1 \/
    (copyinstr ifr_data IFNAMSIZ).1 = 0 /\
    (e = EINVAL /\ (copyinstr ifr_data IFNAMSIZ).2 = EmptyString \/
     e = EEXIST /\ (copyinstr ifr_data IFNAMSIZ).2 <> EmptyString /\
     exists q, ifunit (copyinstr ifr_data IFNAMSIZ).2 v = Ok (Some q) v))).
Proof.
  intros H Hne. unfold if_drvioctl_SIOCSIFNAME in H.
  destruct (Z.eqb_spec (priv_check td PRIV_NET_SETIFNAME) 0) as [Hpriv|Hpriv];
    cbn [negb] in H.
  2: { inversion H; subst. split; [done | by left]. }
  destruct (copyinstr ifr_data IFNAMSIZ) as [error new_name]. cbn [fst snd].
  destruct (Z.eqb_spec error 0) as [Herr|Herr]; cbn [negb] in H.
  2: { inversion H; subst. split; [done|]. right. split; [done | by left]. }
  destruct (String.eqb_spec new_name EmptyString) as [Hempty|Hname].
  { inversion H; subst. split; [done|]. right. split; [done|]. right.
    split; [done|]. by left. }
  apply bind_Ok in H as (taken & v0 & Hunit & H).
  destruct taken as [q|].
  - destruct (RegistryFacts.ifunit_ok _ _ _ _ Hunit) as [-> _].
    inversion H; subst. split; [done|]. right. split; [done|]. right.
    split; [done|]. right. split; [done|]. split; [done|]. by exists q.
  - exfalso. apply Hne.
    apply bind_Ok in H as ([] & v1 & _ & H).
    apply bind_Ok in H as ([] & v2 & _ & H).
    apply bind_Ok in H as (ifp & v3 & _ & H).
    destruct (if_addr ifp); [|discriminate H].
    apply bind_Ok in H as ([] & v4 & _ & H).
    apply bind_Ok in H as ([] & v5 & _ & H).
    by inversion H.
Qed.

(** A rename that goes through moves the name and keeps the address.
    For a registered interface with a link-level address whose buffer
    has room for the new name (as [if_attach] reserves it), a caller
    that passes the privilege check and a non-empty name shorter than
    [IFNAMSIZ] that no interface bears: the request returns 0; the
    interface has the new name and is no longer marked as renaming;
    its link-level address records the length of the new name, starts
    with the bytes of the new name and carries the same address bytes
    behind them; [ifunit] finds the interface under the new name and
    no longer under the old one; no other interface is touched. *)
Theorem rename_moves_name_keeps_address
    (v : vnet) (p : positive) (ifp : ifnet) (ifa : ifaddr)
    (ifr_data : uaddr) (td : thread) (new_name : string) :
  registry_ok v -> p ∈ V_ifnet v ->
  ifnets v !! p = Some ifp -> if_addr ifp = Some ifa ->
  priv_check td PRIV_NET_SETIFNAME = 0 ->
  copyinstr ifr_data IFNAMSIZ = (0, new_name) ->
  new_name <> EmptyString -> strlen new_name < IFNAMSIZ ->
  ifunit new_name v = Ok None v ->
  0 <= sdl_nlen (ifa_addr ifa) -> 0 <= sdl_alen (ifa_addr ifa) ->
  sdl_nlen (ifa_addr ifa) + sdl_alen (ifa_addr ifa)
    <= Z.of_nat (length (sdl_data (ifa_addr ifa))) ->
  strlen new_name + sdl_alen (ifa_addr ifa)
    <= Z.of_nat (length (sdl_data (ifa_addr ifa))) ->
  exists v' ifp' ifa',
    if_drvioctl_SIOCSIFNAME p ifr_data td v = Ok 0 v' /\
    ifnets v' !! p = Some ifp' /\
    (forall q, q <> p -> ifnets v' !! q = ifnets v !! q) /\
    V_ifnet v' = V_ifnet v /\
    if_xname ifp' = new_name /\
    flag_set (if_flags ifp') IFF_RENAMING = false /\
    if_index ifp' = if_index ifp /\
    if_addr ifp' = Some ifa' /\
    sdl_nlen (ifa_addr ifa') = strlen new_name /\
    sdl_alen (ifa_addr ifa') = sdl_alen (ifa_addr ifa) /\
    length (sdl_data (ifa_addr ifa')) = length (sdl_data (ifa_addr ifa)) /\
    take (Z.to_nat (strlen new_name)) (sdl_data (ifa_addr ifa'))
      = name_bytes new_name /\
    take (Z.to_nat (sdl_alen (ifa_addr ifa)))
         (drop (Z.to_nat (strlen new_name)) (sdl_data (ifa_addr ifa')))
      = take (Z.to_nat (sdl_alen (ifa_addr ifa)))
             (drop (Z.to_nat (sdl_nlen (ifa_addr ifa))) (sdl_data (ifa_addr ifa))) /\
    ifunit new_name v' = Ok (Some p) v' /\
    (exists r, ifunit (if_xname ifp) v' = Ok r v' /\ r <> Some p).
Proof.
  intros Hok Hp Hifp Hifa Hpriv Hcopy Hname Hshort Hfree Hn0 Ha0 Hroom Hroom'.
  assert (Hall : forall q, q ∈ V_ifnet v -> exists ifq, ifnets v !! q = Some ifq /\
                   strncmp_eq new_name (if_xname ifq) IFNAMSIZ = false).
  { unfold ifunit, bind, get in Hfree. by eapply ifunit_loop_None. }
  assert (Hcut : strlcpy new_name IFNAMSIZ = new_name)
    by (by apply GroupMore.strlcpy_short).
  unfold if_drvioctl_SIOCSIFNAME. rewrite Hpriv, Hcopy. cbn [Z.eqb negb].
  destruct (String.eqb_spec new_name EmptyString) as [?|_]; [done|].
  rewrite (bind_step _ _ _ _ _ Hfree).
  rewrite (bind_step _ _ _ _ _ (RegistryFacts.ifnet_update_total v p ifp _ Hifp)).
  set (ifp1 := set_if_flags (Z.lor (if_flags ifp) IFF_RENAMING) ifp).
  set (v1 := set_ifnets (<[p := ifp1]> (ifnets v)) v).
  assert (Hif1 : ifnets v1 !! p = Some ifp1) by apply lookup_insert_eq.
  rewrite (bind_step _ _ _ _ _ (RegistryFacts.ifnet_update_total v1 p ifp1 _ Hif1)).
  set (ifp2 := set_if_xname (strlcpy new_name IFNAMSIZ) ifp1).
  set (v2 := set_ifnets (<[p := ifp2]> (ifnets v1)) v1).
  assert (Hif2 : ifnets v2 !! p = Some ifp2) by apply lookup_insert_eq.
  rewrite (bind_step _ _ _ _ _ (RegistryFacts.ifnet_load_total v2 p ifp2 Hif2)).
  replace (if_addr ifp2) with (Some ifa) by (symmetry; exact Hifa).
  rewrite (bind_step _ _ _ _ _ (RegistryFacts.ifnet_update_total v2 p ifp2 _ Hif2)).
  match goal with
  | |- context [set_ifnets (<[p := ?x]> (ifnets v2)) v2] =>
      set (ifp3 := x); set (v3 := set_ifnets (<[p := ifp3]> (ifnets v2)) v2)
  end.
  assert (Hif3 : ifnets v3 !! p = Some ifp3) by apply lookup_insert_eq.
  rewrite (bind_step _ _ _ _ _ (RegistryFacts.ifnet_update_total v3 p ifp3 _ Hif3)).
  set (ifp4 := set_if_flags (Z.land (if_flags ifp3) (Z.lnot IFF_RENAMING)) ifp3).
  set (v4 := set_ifnets (<[p := ifp4]> (ifnets v3)) v3).
  assert (Hif4 : ifnets v4 !! p = Some ifp4) by apply lookup_insert_eq.
  assert (Hsame : forall q, q <> p -> ifnets v4 !! q = ifnets v !! q).
  { intros q Hq. cbn. by rewrite !lookup_insert_ne by done. }
  assert (Hx4 : if_xname ifp4 = new_name) by exact Hcut.
  (* the bytes *)
  set (data := sdl_data (ifa_addr ifa)) in *.
  set (n := Z.to_nat (strlen new_name)).
  set (o := Z.to_nat (sdl_nlen (ifa_addr ifa))).
  set (a := Z.to_nat (sdl_alen (ifa_addr ifa))).
  assert (Hlen : length (name_bytes new_name) = n).
  { rewrite name_bytes_length. unfold n, strlen. lia. }
  assert (Hbytes : forall d : list Byte.byte, length d = length data ->
            take a (drop n d) = take a (drop o data) ->
            take n (poke d 0 (name_bytes new_name)) = name_bytes new_name /\
            take a (drop n (poke d 0 (name_bytes new_name)))
              = take a (drop o data)).
  { intros d Hd Haddr.
    destruct (poke_front d (name_bytes new_name)) as [H1 H2].
    { rewrite Hlen, Hd. unfold n. lia. }
    rewrite Hlen in H1, H2. split; [exact H1|]. by rewrite H2. }
  exists v4, ifp4.
  eexists. split; [reflexivity|].
  split; [exact Hif4|]. split; [exact Hsame|]. split; [reflexivity|].
  split; [exact Hx4|]. split.
  { unfold flag_set. apply negb_false_iff, Z.eqb_eq. cbn.
    rewrite <- Z.land_assoc.
    replace (Z.land (Z.lnot IFF_RENAMING) IFF_RENAMING) with 0 by reflexivity.
    apply Z.land_0_r. }
  split; [reflexivity|]. split; [reflexivity|]. cbn.
  split.
  { unfold u_char. apply Z.mod_small. unfold strlen, IFNAMSIZ, IF_NAMESIZE in *.
    lia. }
  split; [reflexivity|].
  fold data. fold n o a.
  assert (Hmove :
    let d := if negb (strlen new_name =? sdl_nlen (ifa_addr ifa))
             then poke data n (take a (drop o data)) else data in
    length d = length data /\ take a (drop n d) = take a (drop o data)).
  { destruct (Z.eqb_spec (strlen new_name) (sdl_nlen (ifa_addr ifa))) as [He|He];
      cbn [negb].
    - split; [done|]. unfold n, o. by rewrite He.
    - split; [apply poke_length|].
      assert (Hla : length (take a (drop o data)) = a).
      { rewrite length_take, length_drop. unfold a, o. lia. }
      rewrite <- Hla at 1. apply poke_at. rewrite Hla. unfold n, a. lia. }
  destruct Hmove as [Hd Haddr].
  destruct (Hbytes _ Hd Haddr) as [Hfront Hback].
  split; [by rewrite poke_length|].
  split; [exact Hfront|]. split; [exact Hback|].
  split.
  { unfold ifunit, bind, get.
    by apply (ifunit_loop_renamed (V_ifnet v) new_name v v4 p ifp4). }
  assert (Hvalid : forall q, q ∈ V_ifnet v4 -> is_Some (ifnets v4 !! q)).
  { intros q Hq. destruct (decide (q = p)) as [->|Hne]; [by eexists|].
    rewrite Hsame by done.
    destruct (ro_live _ Hok q Hq) as (ifq & Hifq & _). by exists ifq. }
  destruct (ifunit_loop_runs (V_ifnet v4) (if_xname ifp) v4 Hvalid) as [r Hr].
  exists r. split; [unfold ifunit, bind, get; exact Hr|].
  intros ->. apply ifunit_loop_Some in Hr as (ifr & Hifr & Hcmp).
  rewrite Hif4 in Hifr. inversion Hifr; subst ifr. clear Hifr.
  rewrite Hx4 in Hcmp.
  destruct (Hall p Hp) as (ifq & Hifq & Hdiff).
  rewrite Hifp in Hifq. inversion Hifq; subst ifq.
  unfold strncmp_eq in *. rewrite String.eqb_sym in Hcmp. congruence.
Qed.

End WithEnv.

Lemma rename_refusals_change_nothing_witness :
  exists v v',
    boot (env := amd64) MoreExamples.two_attached = Ok tt v /\
    if_drvioctl_SIOCSIFNAME (env := amd64) 5%positive 0 1 v = Ok EPERM v' /\
    v' = v.
Proof.
  eexists _, _. split; [vm_compute; reflexivity|].
  split; [vm_compute; reflexivity|].
  refine (proj1 (rename_refusals_change_nothing (env := amd64)
                   _ 5%positive 0 1 EPERM _ _ _)).
  - vm_compute. reflexivity.
  - discriminate.
Defined.

Lemma rename_moves_name_keeps_address_witness :
  exists v v',
    boot (env := amd64) [Attach (Examples.named "b0")] = Ok tt v /\
    if_drvioctl_SIOCSIFNAME (env := amd64) 1%positive 0 0 v = Ok 0 v' /\
    ifunit "a0" v' = Ok (Some 1%positive) v'.
Proof.
  eexists.
  match goal with
  | |- exists v', boot ?ops = Ok tt ?v /\ _ =>
      assert (Hboot : boot (env := amd64) ops = Ok tt v)
        by (vm_compute; reflexivity)
  end.
  match type of Hboot with
  | _ = Ok tt ?v =>
      destruct (rename_moves_name_keeps_address (env := amd64) v 1%positive
                  _ _ 0 0 "a0"
                  (RegistryFacts.boot_ok _ _ Hboot)
                  ltac:(simpl; by apply list_elem_of_singleton)
                  eq_refl eq_refl eq_refl eq_refl
                  ltac:(discriminate) eq_refl
                  ltac:(vm_compute; reflexivity)
                  ltac:(vm_compute; discriminate)
                  ltac:(vm_compute; discriminate)
                  ltac:(vm_compute; discriminate)
                  ltac:(vm_compute; discriminate))
        as (v' & ifp' & ifa' & Hrun & _ & _ & _ & _ & _ & _ & _ & _ & _ & _ &
            _ & _ & Hfound & _)
  end.
  exists v'. split; [exact Hboot|]. split; [exact Hrun | exact Hfound].
Defined.

End RenameMore.

(** * Software contexts: what is set is found, and stays *)

Module SoftcMore.
Import Softc.

Lemma scstore_find_none store f : forall count i,
  (forall e, e ∈ store -> ifsc_desc e <> f) ->
  (i + count <= length store)%nat ->
  scstore_find store f i count = Some None.
Proof.
  induction count as [|c IH]; intros i Hall Hlen; [reflexivity|].
  simpl. destruct (store !! i) as [e|] eqn:He.
  - assert (Hne : ifsc_desc e <> f) by (apply Hall; by eapply list_elem_of_lookup_2).
    apply Z.eqb_neq in Hne. rewrite Hne. apply IH; [done | lia].
  - apply lookup_ge_None in He. lia.
Qed.

Lemma scstore_find_runs store f : forall count i,
  (i + count <= length store)%nat ->
  exists r, scstore_find store f i count = Some r /\
    match r with
    | Some j => (i <= j < i + count)%nat /\
                exists e, store !! j = Some e /\ ifsc_desc e = f
    | None => forall k e, (i <= k < i + count)%nat -> store !! k = Some e ->
                          ifsc_desc e <> f
    end.
Proof.
  induction count as [|c IH]; intros i Hlen.
  - exists None. split; [reflexivity|]. intros k e Hk. lia.
  - simpl. destruct (store !! i) as [e|] eqn:He.
    + destruct (Z.eqb_spec (ifsc_desc e) f) as [Heq|Hne].
      * exists (Some i). split; [reflexivity|]. split; [lia|]. by exists e.
      * destruct (IH (S i) ltac:(lia)) as (r & Hr & Hspec).
        exists r. split; [exact Hr|]. destruct r as [j|].
        -- destruct Hspec as [Hj Hex]. split; [lia | exact Hex].
        -- intros k e' Hk Hk'. destruct (decide (k = i)) as [->|Hki].
           ++ rewrite He in Hk'. by inversion Hk'; subst.
           ++ apply (Hspec k e'); [lia | done].
    + apply lookup_ge_None in He. lia.
Qed.

Lemma scstore_find_some store f j e : forall count i,
  (i + count <= length store)%nat -> (i <= j < i + count)%nat ->
  store !! j = Some e -> ifsc_desc e = f ->
  exists j', scstore_find store f i count = Some (Some j').
Proof.
  intros count i Hlen Hj He Hf.
  destruct (scstore_find_runs store f count i Hlen) as (r & Hr & Hspec).
  destruct r as [j'|]; [by exists j'|].
  exfalso. by apply (Hspec j e).
Qed.

Lemma land_le_mask a b : 0 <= b -> Z.land a b <= b.
Proof.
  intros Hb.
  assert (Hz : Z.ldiff (Z.land a b) b = 0).
  { apply Z.bits_inj'. intros n Hn.
    rewrite Z.ldiff_spec, Z.land_spec, Z.bits_0.
    by destruct (Z.testbit a n), (Z.testbit b n). }
  pose proof (Z.sub_nocarry_ldiff b (Z.land a b) Hz) as Hsub.
  assert (0 <= Z.ldiff b (Z.land a b)) by (apply Z.ldiff_nonneg; by left).
  lia.
Qed.

Section WithCache.
Variable SOFTC_CACHE_SIZE : Z.

Local Abbreviation getsoftc := (if_getsoftc SOFTC_CACHE_SIZE).
Local Abbreviation setsoftc := (if_setsoftc SOFTC_CACHE_SIZE).
Local Abbreviation slot := (sccache_slot SOFTC_CACHE_SIZE).

Lemma slot_in_cache f s :
  softc_ok SOFTC_CACHE_SIZE s -> 0 <= f ->
  (slot f < length (if_sccache (ifp s)))%nat.
Proof.
  intros Hok Hf. pose proof (so_cache _ _ Hok) as Hc.
  pose proof (so_size _ _ Hok) as Hs.
  unfold sccache_slot.
  assert (0 <= Z.land f (SOFTC_CACHE_SIZE - 1) <= SOFTC_CACHE_SIZE - 1).
  { split; [apply Z.land_nonneg; by left|].
    apply land_le_mask. lia. }
  lia.
Qed.

(** The lookup of a feature whose cache entry points to its entry in
    the store. *)
Lemma getsoftc_cached f softc a i store (s : state) :
  stored_feature f ->
  if_sccache (ifp s) !! slot f = Some (Some (a, i)) ->
  stores s !! a = Some store ->
  store !! i = Some {| ifsc_desc := f; ifsc_ptr := softc |} ->
  getsoftc f s = Ok softc s.
Proof.
  intros (Hf & H1 & H2 & H3 & H4 & H5) Hc Ha Hi.
  unfold if_getsoftc. unfold bind at 1. unfold get.
  apply Z.eqb_neq in H1, H2, H3, H4, H5. rewrite H1, H2, H3, H4, H5.
  unfold bind at 1. unfold sccache_read. rewrite Hc.
  unfold bind at 1. unfold bind at 1. unfold ifsoftc_load. cbn [fst snd].
  rewrite Ha, Hi. cbn [ifsc_desc ifsc_ptr]. by rewrite Z.eqb_refl.
Qed.

(** A request for a feature that has an entry in the store. *)
Lemma setsoftc_taken f softc store j e (s : state) :
  stores s !! if_scstore (ifp s) = Some store ->
  Z.of_nat (length store) = if_nsoftcs (ifp s) ->
  store !! j = Some e -> ifsc_desc e = f ->
  setsoftc f softc s = Ok EEXIST s.
Proof.
  intros Hst Hlen Hj Hf. unfold if_setsoftc.
  unfold bind at 1. unfold scstore_scan. rewrite Hst.
  destruct (scstore_find_some store f j e (Z.to_nat (if_nsoftcs (ifp s))) 0)
    as [j' Hj']; [lia | | done | done |].
  { apply lookup_lt_Some in Hj. lia. }
  by rewrite Hj'.
Qed.

(** What a request for a feature without entry does: the context goes
    to the first free entry, or, when no entry is free, to the first
    entry of the second half of a new store of twice the size, the
    old store being freed; the cache entry of the feature points to
    the entry. *)
Lemma setsoftc_new f softc (s : state) :
  softc_ok SOFTC_CACHE_SIZE s -> 0 <= f -> softc <> 0 ->
  not_stored f s -> if_nsoftcs (ifp s) * 2 < 2 ^ 32 ->
  exists s1 i store1,
    setsoftc f softc s = Ok 0 s1 /\
    softc_ok SOFTC_CACHE_SIZE s1 /\
    stores s1 !! if_scstore (ifp s1) = Some store1 /\
    store1 !! i = Some {| ifsc_desc := f; ifsc_ptr := softc |} /\
    if_sccache (ifp s1)
      = <[slot f := Some (if_scstore (ifp s1), i)]> (if_sccache (ifp s)) /\
    (if_scstore (ifp s1) = if_scstore (ifp s) /\ ~ not_stored 0 s \/
     not_stored 0 s /\ stores s1 !! if_scstore (ifp s) = None).
Proof.
  intros Hok Hf Hsoftc Hnot Hbound.
  destruct (so_store _ _ Hok) as (store & Hst & Hlen).
  pose proof (so_count _ _ Hok) as Hcount.
  pose proof (slot_in_cache f s Hok Hf) as Hslot.
  assert (Hn : Z.to_nat (if_nsoftcs (ifp s)) = length store) by lia.
  unfold if_setsoftc.
  unfold bind at 1. unfold scstore_scan at 1. rewrite Hst, Hn.
  rewrite (scstore_find_none store f (length store) 0)
    by (try lia; intros e He; by apply (Hnot store e)).
  unfold bind at 1. unfold scstore_scan at 1. rewrite Hst, Hn.
  destruct (scstore_find_runs store 0 (length store) 0 ltac:(lia))
    as (r & Hr & Hspec).
  rewrite Hr. unfold bind at 1. unfold get at 1.
  apply Z.eqb_neq in Hsoftc. rewrite Hsoftc. cbn [negb].
  destruct r as [i|].
  - destruct Hspec as [Hi (e0 & He0 & Hfree0)].
    unfold bind at 1. unfold ret at 1. unfold bind at 1. unfold get at 1.
    unfold bind at 1. unfold bind at 1. unfold scstore_write.
    rewrite Hst. rewrite decide_True by lia.
    unfold sccache_write. cbn [ifp set_stores if_sccache].
    rewrite decide_True by exact Hslot.
    eexists _, i, _. split; [reflexivity|]. cbn.
    split.
    { split; cbn.
      - eexists. split; [apply lookup_insert_eq|]. by rewrite length_insert.
      - done.
      - rewrite length_insert. apply Hok.
      - apply Hok.
      - intros a [x Hx]. apply (so_fresh _ _ Hok).
        destruct (decide (a = if_scstore (ifp s))) as [->|Hne]; [by eexists|].
        rewrite lookup_insert_ne in Hx by done. by eexists. }
    split; [apply lookup_insert_eq|].
    split; [apply list_lookup_insert_eq; lia|].
    split; [done|]. left. split; [done|].
    intros Hfull. apply (Hfull store e0 Hst); [|done].
    by eapply list_elem_of_lookup_2.
  - unfold bind at 1. rewrite Hst, Hn. rewrite decide_True by lia.
    unfold bind at 1. unfold get at 1.
    unfold bind at 1. unfold bind at 1. unfold scstore_write.
    cbn [ifp set_if_scstore set_stores if_scstore stores brk].
    assert (Hfresh : if_scstore (ifp s) <> brk s).
    { intros Heq. pose proof (so_fresh _ _ Hok (if_scstore (ifp s))
                                ltac:(by eexists)). lia. }
    rewrite lookup_delete_ne by done. rewrite lookup_insert_eq.
    rewrite take_ge by lia.
    assert (Hnew : length (store ++ replicate
                     (Z.to_nat (if_nsoftcs (ifp s) * 2) - length store)
                     {| ifsc_desc := 0; ifsc_ptr := 0 |})
                   = (2 * length store)%nat).
    { rewrite length_app, length_replicate. lia. }
    rewrite decide_True by (rewrite Hnew; lia).
    unfold sccache_write. cbn [ifp set_stores set_if_scstore if_sccache].
    rewrite decide_True by exact Hslot.
    eexists _, (length store), _. split; [reflexivity|]. cbn.
    split.
    { split; cbn.
      - eexists. split; [apply lookup_insert_eq|].
        rewrite length_insert, Hnew. unfold u_int.
        rewrite Z.mod_small by lia. lia.
      - unfold u_int. rewrite Z.mod_small by lia. lia.
      - rewrite length_insert. apply Hok.
      - apply Hok.
      - intros a [x Hx].
        destruct (decide (a = brk s)) as [->|Hne]; [lia|].
        rewrite lookup_insert_ne in Hx by done.
        destruct (decide (a = if_scstore (ifp s))) as [->|Hne'].
        + by rewrite lookup_delete_eq in Hx.
        + rewrite lookup_delete_ne in Hx by done.
          rewrite lookup_insert_ne in Hx by done.
          pose proof (so_fresh _ _ Hok a ltac:(by eexists)). lia. }
    split; [apply lookup_insert_eq|].
    split; [apply list_lookup_insert_eq; rewrite Hnew; lia|].
    split; [done|]. right. split.
    + intros store' e Hst' He. rewrite Hst in Hst'. inversion Hst'; subst store'.
      apply list_elem_of_lookup_1 in He as [k Hk].
      apply (Hspec k e); [|done]. apply lookup_lt_Some in Hk. lia.
    + rewrite lookup_insert_ne by done. apply lookup_delete_eq.
Qed.

(** What is set is found, and stays.  For a feature that lives in the
    store and has no entry yet, [if_setsoftc] with a context that is
    not NULL returns 0, and [if_getsoftc] then returns that context.
    From then on every [if_setsoftc] for the feature, also the one
    that passes NULL to clear it, is refused with [EEXIST] and changes
    nothing. *)
Theorem if_setsoftc_then_if_getsoftc
    (f softc : Z) (s : state) :
  softc_ok SOFTC_CACHE_SIZE s -> stored_feature f -> softc <> 0 ->
  not_stored f s -> if_nsoftcs (ifp s) * 2 < 2 ^ 32 ->
  exists s1,
    setsoftc f softc s = Ok 0 s1 /\
    softc_ok SOFTC_CACHE_SIZE s1 /\
    getsoftc f s1 = Ok softc s1 /\
    forall softc', setsoftc f softc' s1 = Ok EEXIST s1.
Proof.
  intros Hok Hstored Hsoftc Hnot Hbound.
  destruct (setsoftc_new f softc s Hok (proj1 Hstored) Hsoftc Hnot Hbound)
    as (s1 & i & store1 & Hrun & Hok1 & Hst1 & Hi & Hcache & _).
  exists s1. split; [exact Hrun|]. split; [exact Hok1|]. split.
  - apply (getsoftc_cached f softc (if_scstore (ifp s1)) i store1);
      [done | | done | done].
    rewrite Hcache. apply list_lookup_insert_eq.
    apply (slot_in_cache f s Hok (proj1 Hstored)).
  - intros softc'.
    destruct (so_store _ _ Hok1) as (store & Hst & Hlen).
    rewrite Hst1 in Hst. inversion Hst; subst store.
    by apply (setsoftc_taken f softc' store1 i
                {| ifsc_desc := f; ifsc_ptr := softc |}).
Qed.

(** The cache is not told when the store grows.  When [if_setsoftc]
    finds no free entry it moves the entries to a new store and frees
    the old one; the cache entry of another feature, set before,
    still points into the old store, and the next [if_getsoftc] of
    that feature reads the freed store through it. *)
Theorem if_setsoftc_growth_leaves_cache_behind
    (f g softc : Z) (j : nat) (s : state) :
  softc_ok SOFTC_CACHE_SIZE s -> stored_feature f -> stored_feature g ->
  softc <> 0 -> not_stored f s -> not_stored 0 s ->
  if_nsoftcs (ifp s) * 2 < 2 ^ 32 ->
  slot g <> slot f ->
  if_sccache (ifp s) !! slot g = Some (Some (if_scstore (ifp s), j)) ->
  exists s1,
    setsoftc f softc s = Ok 0 s1 /\
    if_scstore (ifp s1) <> if_scstore (ifp s) /\
    stores s1 !! if_scstore (ifp s) = None /\
    if_sccache (ifp s1) !! slot g = Some (Some (if_scstore (ifp s), j)) /\
    getsoftc g s1 = Err BadPointer.
Proof.
  intros Hok Hfs Hgs Hsoftc Hnot Hfull Hbound Hslots Hcached.
  destruct (setsoftc_new f softc s Hok (proj1 Hfs) Hsoftc Hnot Hbound)
    as (s1 & i & store1 & Hrun & Hok1 & Hst1 & Hi & Hcache & [[_ Hfree]|[_ Hgone]]);
    [done|].
  exists s1. split; [exact Hrun|].
  assert (Hc1 : if_sccache (ifp s1) !! slot g
                = Some (Some (if_scstore (ifp s), j))).
  { rewrite Hcache. by rewrite list_lookup_insert_ne. }
  split; [intros Heq; rewrite Heq in Hst1; congruence|].
  split; [exact Hgone|]. split; [exact Hc1|].
  destruct Hgs as (Hg & H1 & H2 & H3 & H4 & H5).
  unfold if_getsoftc. unfold bind at 1. unfold get.
  apply Z.eqb_neq in H1, H2, H3, H4, H5. rewrite H1, H2, H3, H4, H5.
  unfold bind at 1. unfold sccache_read. rewrite Hc1.
  unfold bind at 1. unfold bind at 1. unfold ifsoftc_load. cbn [fst snd].
  by rewrite Hgone.
Qed.

End WithCache.

Ltac one_store Hst :=
  cbn in Hst; apply lookup_singleton_Some in Hst as [_ <-].

Lemma no_softcs_ok : softc_ok 4 MoreExamples.no_softcs.
Proof.
  split; cbn; try done.
  - eexists. split; [apply lookup_singleton_eq | reflexivity].
  - intros a [x Hx]. apply lookup_singleton_Some in Hx as [<- _]. done.
Qed.

Lemma full_softcs_ok : softc_ok 4 MoreExamples.full_softcs.
Proof.
  split; cbn; try done.
  - eexists. split; [apply lookup_singleton_eq | reflexivity].
  - intros a [x Hx]. apply lookup_singleton_Some in Hx as [<- _]. done.
Qed.

Lemma full_softcs_not_stored f :
  f <> IF_AF_INET -> f <> IF_AF_INET6 -> f <> IF_CARP -> f <> IF_TOEDEV ->
  not_stored f MoreExamples.full_softcs.
Proof.
  intros H1 H2 H3 H4 store e Hst He. one_store Hst.
  repeat (apply elem_of_cons in He as [->|He]; [done|]).
  by apply elem_of_nil in He.
Qed.

Lemma if_setsoftc_then_if_getsoftc_witness :
  exists s1,
    if_setsoftc 4 IF_CARP 77 MoreExamples.no_softcs = Ok 0 s1 /\
    if_getsoftc 4 IF_CARP s1 = Ok 77 s1 /\
    if_setsoftc 4 IF_CARP 0 s1 = Ok EEXIST s1.
Proof.
  destruct (if_setsoftc_then_if_getsoftc 4 IF_CARP 77 MoreExamples.no_softcs)
    as (s1 & Hset & _ & Hget & Hstays).
  - exact no_softcs_ok.
  - repeat split; [vm_compute | ..]; discriminate.
  - discriminate.
  - intros store e Hst He. one_store Hst.
    repeat (apply elem_of_cons in He as [->|He]; [discriminate|]).
    by apply elem_of_nil in He.
  - reflexivity.
  - exists s1. split; [exact Hset|]. split; [exact Hget | apply Hstays].
Defined.

Lemma if_setsoftc_growth_leaves_cache_behind_witness :
  exists s1,
    if_setsoftc 4 IF_MEDIA 77 MoreExamples.full_softcs = Ok 0 s1 /\
    if_getsoftc 4 IF_CARP s1 = Err BadPointer.
Proof.
  destruct (if_setsoftc_growth_leaves_cache_behind 4 IF_MEDIA IF_CARP 77 2
              MoreExamples.full_softcs)
    as (s1 & Hset & _ & _ & _ & Hget).
  - exact full_softcs_ok.
  - repeat split; [vm_compute | ..]; discriminate.
  - repeat split; [vm_compute | ..]; discriminate.
  - discriminate.
  - apply full_softcs_not_stored; discriminate.
  - apply full_softcs_not_stored; discriminate.
  - reflexivity.
  - vm_compute. discriminate.
  - reflexivity.
  - exists s1. split; [exact Hset | exact Hget].
Defined.

End SoftcMore.

(** * Capability requests: dependencies and refusals *)

Module CapsMore.
Import Caps.

Lemma requested_steps r :
  requested r
  = clr_if IFCAP_TXCSUM_IPV6 IFCAP_TSO6 (set_if IFCAP_TSO6 IFCAP_TXCSUM_IPV6
      (clr_if IFCAP_TXCSUM IFCAP_TSO4 (set_if IFCAP_TSO4 IFCAP_TXCSUM
         (clr_if IFCAP_VLAN_HWTAGGING IFCAP_VLAN_HWTSO
            (set_if IFCAP_VLAN_HWTSO IFCAP_VLAN_HWTAGGING r))))).
Proof. reflexivity. Qed.

Lemma land_pow2_eqb x k :
  0 <= k -> (Z.land x (2 ^ k) =? 0) = negb (Z.testbit x k).
Proof.
  intros Hk. destruct (Z.testbit x k) eqn:Hb; cbn [negb].
  - apply Z.eqb_neq. intros Hz.
    assert (H : Z.testbit (Z.land x (2 ^ k)) k = true)
      by (rewrite Z.land_spec, Hb, Z.pow2_bits_true; done).
    rewrite Hz, Z.bits_0 in H. discriminate H.
  - apply Z.eqb_eq. apply Z.bits_inj'. intros n Hn.
    rewrite Z.land_spec, Z.bits_0, Z.pow2_bits_eqb by done.
    destruct (Z.eqb_spec k n) as [<-|_]; [by rewrite Hb | apply andb_false_r].
Qed.

Lemma testbit_set_if a b x n :
  0 <= a -> 0 <= b -> 0 <= n ->
  Z.testbit (set_if (2 ^ a) (2 ^ b) x) n
  = Z.testbit x n || ((b =? n) && Z.testbit x a).
Proof.
  intros Ha Hb Hn. unfold set_if. rewrite land_pow2_eqb by done.
  rewrite negb_involutive. destruct (Z.testbit x a).
  - rewrite Z.lor_spec, Z.pow2_bits_eqb by done. by rewrite andb_true_r.
  - by rewrite andb_false_r, orb_false_r.
Qed.

Lemma testbit_clr_if a b x n :
  0 <= a -> 0 <= b -> 0 <= n ->
  Z.testbit (clr_if (2 ^ b) (2 ^ a) x) n
  = Z.testbit x n && negb ((a =? n) && negb (Z.testbit x b)).
Proof.
  intros Ha Hb Hn. unfold clr_if. rewrite land_pow2_eqb by done.
  destruct (Z.testbit x b); cbn [negb].
  - by rewrite andb_false_r, andb_true_r.
  - rewrite Z.land_spec, Z.lnot_spec, Z.pow2_bits_eqb by done.
    by rewrite andb_true_r.
Qed.

Ltac eqb_consts :=
  repeat match goal with
         | |- context [Z.eqb ?a ?b] =>
             let v := eval vm_compute in (Z.eqb a b) in
             match v with
             | true => change (Z.eqb a b) with true
             | false => change (Z.eqb a b) with false
             end
         end.
Ltac bits_done r :=
  eqb_consts;
  repeat match goal with
         | |- context [Z.testbit r ?k] => destruct (Z.testbit r k)
         end;
  reflexivity.

(** The bits of the request after the first part of the case: those
    that were asked for, and the three that TSO implies. *)
Lemma requested_bits r n :
  0 <= n ->
  Z.testbit (requested r) n
  = Z.testbit r n || ((n =? 4) && Z.testbit r 18)
    || ((n =? 1) && Z.testbit r 8) || ((n =? 22) && Z.testbit r 9).
Proof.
  intros Hn. rewrite requested_steps.
  change IFCAP_TXCSUM_IPV6 with (2 ^ 22). change IFCAP_TSO6 with (2 ^ 9).
  change IFCAP_TXCSUM with (2 ^ 1). change IFCAP_TSO4 with (2 ^ 8).
  change IFCAP_VLAN_HWTAGGING with (2 ^ 4). change IFCAP_VLAN_HWTSO with (2 ^ 18).
  repeat first [ rewrite testbit_clr_if by lia | rewrite testbit_set_if by lia ].
  rewrite (Z.eqb_sym n 4), (Z.eqb_sym n 1), (Z.eqb_sym n 22).
  destruct (Z.eqb_spec 4 n) as [<-|H4]; [bits_done r|].
  destruct (Z.eqb_spec 1 n) as [<-|H1]; [bits_done r|].
  destruct (Z.eqb_spec 22 n) as [<-|H22]; [bits_done r|].
  destruct (Z.eqb_spec 9 n) as [<-|H9]; [bits_done r|].
  destruct (Z.eqb_spec 8 n) as [<-|H8]; [bits_done r|].
  destruct (Z.eqb_spec 18 n) as [<-|H18]; [bits_done r|].
  bits_done r.
Qed.

Lemma land_pow2_set x k : 0 <= k -> Z.land x (2 ^ k) <> 0 <-> Z.testbit x k = true.
Proof.
  intros Hk. pose proof (land_pow2_eqb x k Hk) as H.
  destruct (Z.testbit x k), (Z.eqb_spec (Z.land x (2 ^ k)) 0);
    cbn in H; try discriminate H; split; try done.
Qed.

Ltac split_bits r n :=
  rewrite ?(Z.eqb_sym n);
  destruct (Z.eqb_spec 4 n) as [<-|?]; [bits_done r|];
  destruct (Z.eqb_spec 1 n) as [<-|?]; [bits_done r|];
  destruct (Z.eqb_spec 22 n) as [<-|?]; [bits_done r|];
  destruct (Z.eqb_spec 9 n) as [<-|?]; [bits_done r|];
  destruct (Z.eqb_spec 8 n) as [<-|?]; [bits_done r|];
  destruct (Z.eqb_spec 18 n) as [<-|?]; [bits_done r|];
  bits_done r.

(** The first part of the SIOCSIFCAP case only ever adds to the
    request.  A request for TSO on VLANs gets hardware VLAN tagging
    added, one for TSO4 the transmit checksum offload, one for TSO6
    that of IPv6; no capability that was asked for is dropped, and in
    particular the TSO bits are as they were asked for: the three
    statements that would switch TSO off for a request without
    tagging or checksum offload never change the request. *)
Theorem requested_only_adds (r : Z) :
  requested r
    = set_if IFCAP_TSO6 IFCAP_TXCSUM_IPV6
        (set_if IFCAP_TSO4 IFCAP_TXCSUM
           (set_if IFCAP_VLAN_HWTSO IFCAP_VLAN_HWTAGGING r)) /\
  Z.land r (requested r) = r /\
  Z.land (requested r) IFCAP_VLAN_HWTSO = Z.land r IFCAP_VLAN_HWTSO /\
  Z.land (requested r) IFCAP_TSO4 = Z.land r IFCAP_TSO4 /\
  Z.land (requested r) IFCAP_TSO6 = Z.land r IFCAP_TSO6 /\
  (Z.land r IFCAP_VLAN_HWTSO <> 0 ->
   Z.land (requested r) IFCAP_VLAN_HWTAGGING <> 0) /\
  (Z.land r IFCAP_TSO4 <> 0 -> Z.land (requested r) IFCAP_TXCSUM <> 0) /\
  (Z.land r IFCAP_TSO6 <> 0 -> Z.land (requested r) IFCAP_TXCSUM_IPV6 <> 0).
Proof.
  change IFCAP_TXCSUM_IPV6 with (2 ^ 22). change IFCAP_TSO6 with (2 ^ 9).
  change IFCAP_TXCSUM with (2 ^ 1). change IFCAP_TSO4 with (2 ^ 8).
  change IFCAP_VLAN_HWTAGGING with (2 ^ 4). change IFCAP_VLAN_HWTSO with (2 ^ 18).
  split.
  { apply Z.bits_inj'. intros n Hn. rewrite requested_bits by done.
    rewrite !testbit_set_if by lia. split_bits r n. }
  split.
  { apply Z.bits_inj'. intros n Hn.
    rewrite Z.land_spec, requested_bits by done. split_bits r n. }
  split.
  { apply Z.bits_inj'. intros n Hn.
    rewrite !Z.land_spec, requested_bits, Z.pow2_bits_eqb by done.
    split_bits r n. }
  split.
  { apply Z.bits_inj'. intros n Hn.
    rewrite !Z.land_spec, requested_bits, Z.pow2_bits_eqb by done.
    split_bits r n. }
  split.
  { apply Z.bits_inj'. intros n Hn.
    rewrite !Z.land_spec, requested_bits, Z.pow2_bits_eqb by done.
    split_bits r n. }
  repeat split; intros H; apply land_pow2_set in H; try lia;
    apply land_pow2_set; try lia; rewrite requested_bits by lia;
    rewrite H; eqb_consts; cbn [andb orb]; by rewrite ?orb_true_r.
Qed.

Section WithDriver.
Variable priv_check : thread -> priv -> Z.
Variable DEVICE_POLLING : bool.
Variable if_ioctl_SIOCSIFCAP : ifreq -> ifnet -> Z * ifreq * ifnet.

Local Abbreviation siocsifcap :=
  (if_drvioctl_SIOCSIFCAP priv_check DEVICE_POLLING if_ioctl_SIOCSIFCAP).


End WithDriver.


End CapsMore.

(** * Flag requests: what can be written back, and what cannot change *)

Module FlagsMore.
Import Flags.

Lemma short_low x : Z.land (short x) 0xffff = Z.land x 0xffff.
Proof.
  change 0xffff with (Z.ones 16). rewrite !Z.land_ones by lia.
  unfold short. rewrite Zminus_mod_idemp_l. f_equal. lia.
Qed.

Lemma int_low x m : 0 <= m < 2 ^ 32 -> Z.land (int x) m = Z.land x m.
Proof.
  intros Hm.
  assert (Hmask : m = Z.land (Z.ones 32) m).
  { symmetry. rewrite Z.land_comm. apply Z.land_ones_low; [lia|].
    destruct (decide (m = 0)) as [->|Hne]; [done|].
    apply Z.log2_lt_pow2; lia. }
  rewrite Hmask, !Z.land_assoc, !Z.land_ones by lia.
  unfold int. rewrite Zminus_mod_idemp_l. do 2 f_equal. lia.
Qed.

Lemma uint32_low x m : 0 <= m < 2 ^ 32 -> Z.land (uint32_t x) m = Z.land x m.
Proof.
  intros Hm.
  assert (Hmask : m = Z.land (Z.ones 32) m).
  { symmetry. rewrite Z.land_comm. apply Z.land_ones_low; [lia|].
    destruct (decide (m = 0)) as [->|Hne]; [done|].
    apply Z.log2_lt_pow2; lia. }
  rewrite Hmask, !Z.land_assoc, !Z.land_ones by lia.
  unfold uint32_t. by rewrite Z.mod_mod by lia.
Qed.

Lemma short_small z : - 2 ^ 15 <= z < 2 ^ 15 -> short z = z.
Proof. intros H. unfold short. rewrite Z.mod_small; lia. Qed.

Lemma land_lnot_clear x a : Z.land x a = 0 -> Z.land x (Z.lnot a) = x.
Proof.
  intros H. apply Z.bits_inj'. intros n Hn.
  rewrite Z.land_spec, Z.lnot_spec by done.
  assert (Hb : Z.testbit (Z.land x a) n = false) by (rewrite H; apply Z.bits_0).
  rewrite Z.land_spec in Hb. by destruct (Z.testbit x n), (Z.testbit a n).
Qed.

Lemma halves_join f :
  0 <= f -> Z.lor (Z.land f 0xffff) (Z.shiftl (Z.shiftr f 16) 16) = f.
Proof.
  intros Hf. apply Z.bits_inj'. intros n Hn.
  rewrite Z.lor_spec, Z.land_spec. change 0xffff with (Z.ones 16).
  destruct (Z.lt_ge_cases n 16) as [Hlt|Hge].
  - rewrite Z.ones_spec_low by lia. rewrite Z.shiftl_spec_low by lia.
    by rewrite andb_true_r, orb_false_r.
  - rewrite Z.ones_spec_high by lia.
    rewrite Z.shiftl_spec, Z.shiftr_spec by lia.
    rewrite andb_false_r. cbn [orb]. f_equal. lia.
Qed.

(** What SIOCGIFFLAGS hands out reads back, as SIOCSIFFLAGS reads a
    request, as the flags of the interface. *)
Lemma read_back (i : ifnet) :
  kernel_flags (if_flags i) ->
  let ifr := if_drvioctl_SIOCGIFFLAGS i in
  both_halves {| ifr_flags := short (Z.land (ifr_flags ifr) (Z.lnot IFF_RUNNING));
                 ifr_flagshigh := ifr_flagshigh ifr |}
  = if_flags i.
Proof.
  intros [Hrange Hrun]. set (f := if_flags i) in *.
  unfold if_drvioctl_SIOCGIFFLAGS, both_halves. fold f.
  cbn [ifr_flags ifr_flagshigh].
  assert (Hhi : short (Z.shiftr f 16) = Z.shiftr f 16).
  { apply short_small. rewrite Z.shiftr_div_pow2 by lia.
    split; [pose proof (Z.div_pos f (2 ^ 16)); lia|].
    apply Z.div_lt_upper_bound; lia. }
  rewrite Hhi.
  assert (Hlo : forall lo, Z.land lo 0xffff = Z.land f 0xffff \/
                           Z.land lo 0xffff = Z.lor (Z.land f 0xffff) IFF_RUNNING ->
                Z.land (short (Z.land lo (Z.lnot IFF_RUNNING))) 0xffff
                = Z.land f 0xffff).
  { intros lo Hlo. rewrite short_low.
    rewrite <- Z.land_assoc, (Z.land_comm (Z.lnot IFF_RUNNING)), Z.land_assoc.
    destruct Hlo as [-> | ->].
    - rewrite <- Z.land_assoc, (Z.land_comm 0xffff), Z.land_assoc.
      by rewrite (land_lnot_clear f IFF_RUNNING Hrun).
    - rewrite Z.land_lor_distr_l.
      replace (Z.land IFF_RUNNING (Z.lnot IFF_RUNNING)) with 0 by reflexivity.
      rewrite Z.lor_0_r.
      rewrite <- Z.land_assoc, (Z.land_comm 0xffff), Z.land_assoc.
      by rewrite (land_lnot_clear f IFF_RUNNING Hrun). }
  rewrite Hlo.
  - rewrite halves_join by lia. unfold uint32_t. apply Z.mod_small. lia.
  - destruct (negb (Z.land f IFF_UP =? 0)).
    + right. rewrite short_low, Z.land_lor_distr_l, short_low.
      rewrite <- Z.land_assoc. by rewrite Z.land_diag.
    + left. rewrite short_low. rewrite <- Z.land_assoc. by rewrite Z.land_diag.
Qed.

Lemma mask_lor x b m : Z.land b m = 0 -> Z.land (Z.lor x b) m = Z.land x m.
Proof. intros H. by rewrite Z.land_lor_distr_l, H, Z.lor_0_r. Qed.

Lemma mask_clear x b m :
  Z.land b m = 0 -> Z.land (Z.land x (Z.lnot b)) m = Z.land x m.
Proof.
  intros H. rewrite <- Z.land_assoc. f_equal.
  rewrite Z.land_comm. by apply land_lnot_clear; rewrite Z.land_comm.
Qed.

Lemma pfctlinput_all_run cmd l (s : state) :
  exists s', pfctlinput_all cmd l s = Ok tt s' /\ ifp s' = ifp s.
Proof.
  revert s. induction l as [|a l IH]; intros s; [by exists s|].
  cbn [pfctlinput_all]. unfold bind at 1. unfold emit, modify.
  destruct (IH {| ifp := ifp s; told := told s ++ [pfctlinput cmd a] |})
    as (s' & Hrun & Hifp).
  exists s'. by split.
Qed.

Section WithDriver.
Variable priv_check : thread -> priv -> Z.
Variable INET6 : bool.
Variable if_ioctl_SIOCSIFFLAGS : ifreq -> ifnet -> Z * ifreq * ifnet.

Local Abbreviation siocsifflags :=
  (if_drvioctl_SIOCSIFFLAGS priv_check INET6 if_ioctl_SIOCSIFFLAGS).

Lemma if_down_run (s : state) :
  exists s', if_down s = Ok tt s' /\
    ifp s' = set_if_flags (Z.land (if_flags (ifp s)) (Z.lnot IFF_UP)) (ifp s).
Proof.
  unfold if_down. unfold bind at 1. unfold update at 1. unfold modify at 1.
  unfold bind at 1. unfold emit at 1. unfold modify at 1.
  unfold bind at 1. unfold get at 1. cbn [ifp told].
  match goal with
  | |- context [bind (pfctlinput_all ?c ?l) _ ?s0] =>
      destruct (pfctlinput_all_run c l s0) as (s1 & Hrun & Hifp)
  end.
  rewrite (bind_step _ _ _ _ _ Hrun).
  unfold bind at 1. unfold emit at 1. unfold modify at 1.
  cbn [if_carp set_if_flags].
  destruct (negb (if_carp (ifp s) =? 0));
    (eexists; split; [reflexivity|]; cbn; by rewrite Hifp).
Qed.

Lemma if_up_run (s : state) :
  exists s', if_up INET6 s = Ok tt s' /\
    ifp s' = set_if_flags (Z.lor (if_flags (ifp s)) IFF_UP) (ifp s).
Proof.
  unfold if_up. unfold bind at 1. unfold update at 1. unfold modify at 1.
  unfold bind at 1. unfold emit at 1. unfold modify at 1.
  unfold bind at 1. unfold get at 1. cbn [ifp told].
  match goal with
  | |- context [bind (pfctlinput_all ?c ?l) _ ?s0] =>
      destruct (pfctlinput_all_run c l s0) as (s1 & Hrun & Hifp)
  end.
  rewrite (bind_step _ _ _ _ _ Hrun).
  cbn [if_carp set_if_flags].
  destruct (negb (if_carp (ifp s) =? 0)), INET6;
    (eexists; split; [reflexivity|]; cbn; by rewrite Hifp).
Qed.

(** What SIOCGIFFLAGS reads, SIOCSIFFLAGS takes back.  The request
    that SIOCGIFFLAGS fills in for an interface (the flags in two
    16-bit halves, with [IFF_RUNNING] added when the interface is up)
    passes the checks of SIOCSIFFLAGS, and with a driver that accepts
    it the interface is left exactly as it was: no flag changes, the
    interface is not brought up or down, and nothing is announced;
    only the time of the last change is taken. *)
Theorem flags_read_can_be_written_back (td : thread) (s : state) :
  kernel_flags (if_flags (ifp s)) ->
  priv_check td PRIV_NET_SETIFFLAGS = 0 ->
  (forall r, if_ioctl_SIOCSIFFLAGS r (ifp s) = (0, r, ifp s)) ->
  exists ifr',
    siocsifflags (if_drvioctl_SIOCGIFFLAGS (ifp s)) td s
      = Ok (0, ifr') {| ifp := ifp s;
                        told := told s ++ [getmicrotime_lastchange] |}.
Proof.
  intros Hk Hpriv Hdrv. pose proof (read_back (ifp s) Hk) as Hback.
  cbv zeta in Hback. destruct Hk as [Hrange Hrun].
  unfold if_drvioctl_SIOCSIFFLAGS. rewrite Hpriv. cbn [Z.eqb negb].
  unfold bind at 1. unfold get at 1.
  rewrite Hback, Z.eqb_refl. cbn [negb].
  rewrite Hdrv. unfold bind at 1. unfold update at 1. unfold modify at 1.
  cbn [Z.eqb negb]. unfold bind at 1. unfold get at 1. cbn [ifp told].
  rewrite Hback.
  assert (Hu : uint32_t (if_flags (ifp s)) = if_flags (ifp s))
    by (unfold uint32_t; apply Z.mod_small; lia).
  assert (Hi : int (if_flags (ifp s)) = if_flags (ifp s))
    by (unfold int; rewrite Z.mod_small; lia).
  rewrite Hu, Hi, Z.lxor_nilpotent.
  unfold bind at 1. unfold update at 1. unfold modify at 1.
  unfold bind at 1. unfold emit at 1. unfold modify at 1. cbn [ifp told].
  replace (negb (Z.land (if_flags (ifp s)) IFF_UP =? 0)
           && (Z.land (if_flags (ifp s)) IFF_UP =? 0)) with false
    by (by destruct (Z.land (if_flags (ifp s)) IFF_UP =? 0)).
  cbn [Z.land Z.eqb negb]. unfold bind at 1. unfold ret at 1.
  unfold bind at 1. unfold ret at 1.
  eexists. unfold ret. f_equal. f_equal. by destruct (ifp s).
Qed.

(** SIOCSIFFLAGS cannot change the flags that are set internally
    only.  With a driver that leaves the interface and the request
    alone: an error return leaves all as it was; a request that
    differs from the interface in a flag of [IFF_CANTCHANGE] is
    refused with [EINVAL]; and whenever the request is carried out,
    every flag of [IFF_CANTCHANGE] but [IFF_PROMISC] is as before,
    and [IFF_PROMISC] too unless the request flips
    [IFF_PPROMISC]. *)
Theorem SIOCSIFFLAGS_keeps_internal_flags
    (ifr : ifreq) (td : thread) (s : state)
    (e : Z) (ifr' : ifreq) (s' : state) :
  siocsifflags ifr td s = Ok (e, ifr') s' ->
  (forall r i, if_ioctl_SIOCSIFFLAGS r i
               = ((if_ioctl_SIOCSIFFLAGS r i).1.1, r, i)) ->
  let flags :=
    both_halves {| ifr_flags := short (Z.land (ifr_flags ifr) (Z.lnot IFF_RUNNING));
                   ifr_flagshigh := ifr_flagshigh ifr |} in
  (e <> 0 -> s' = s) /\
  (priv_check td PRIV_NET_SETIFFLAGS = 0 ->
   Z.land flags IFF_CANTCHANGE <> Z.land (if_flags (ifp s)) IFF_CANTCHANGE ->
   e = EINVAL) /\
  (e = 0 ->
   Z.land (if_flags (ifp s')) (Z.land IFF_CANTCHANGE (Z.lnot IFF_PROMISC))
     = Z.land (if_flags (ifp s)) (Z.land IFF_CANTCHANGE (Z.lnot IFF_PROMISC)) /\
   (Z.land (Z.lxor (uint32_t (if_flags (ifp s))) flags) IFF_PPROMISC = 0 ->
    Z.land (if_flags (ifp s')) IFF_CANTCHANGE
      = Z.land (if_flags (ifp s)) IFF_CANTCHANGE)).
Proof.
  intros H Hdrv flags. destruct s as [i0 t0].
  unfold if_drvioctl_SIOCSIFFLAGS in H.
  destruct (Z.eqb_spec (priv_check td PRIV_NET_SETIFFLAGS) 0) as [Hpriv|Hpriv];
    cbn [negb] in H.
  2: { inversion H; subst; repeat split; try done. }
  unfold bind at 1 in H. unfold get at 1 in H. cbn [ifp] in H.
  fold flags in H.
  set (ifr0 := {| ifr_flags := short (Z.land (ifr_flags ifr) (Z.lnot IFF_RUNNING));
                  ifr_flagshigh := ifr_flagshigh ifr |}) in *.
  destruct (Z.eqb_spec (Z.land flags IFF_CANTCHANGE)
                       (Z.land (if_flags i0) IFF_CANTCHANGE)) as [Hsame|Hdiff];
    cbn [negb] in H.
  2: { inversion H; subst; repeat split; try done. }
  rewrite (Hdrv ifr0 i0) in H.
  set (error := (if_ioctl_SIOCSIFFLAGS ifr0 i0).1.1) in *.
  unfold bind at 1 in H. unfold update at 1 in H. unfold modify at 1 in H.
  cbn [ifp told] in H.
  destruct (Z.eqb_spec error 0) as [Herr|Herr]; cbn [negb] in H.
  2: { inversion H; subst; repeat split; try done. }
  unfold bind at 1 in H. unfold get at 1 in H. cbn [ifp told] in H.
  fold flags in H.
  unfold bind at 1 in H. unfold update at 1 in H. unfold modify at 1 in H.
  unfold bind at 1 in H. unfold emit at 1 in H. unfold modify at 1 in H.
  cbn [ifp told] in H.
  apply bind_Ok in H as ([] & s3 & Hflip & H).
  apply bind_Ok in H as ([] & s4 & Hpp & H).
  inversion H; subst e ifr' s'. clear H.
  cbn [ifp if_flags].
  (* the interface is brought up or down *)
  assert (H3 : forall m, Z.land IFF_UP m = 0 -> 0 <= m < 2 ^ 32 ->
                         Z.land (if_flags (ifp s3)) m = Z.land flags m).
  { intros m Hm Hr.
    match type of Hflip with
    | (if ?c1 then _ else if ?c2 then _ else _) ?s0 = _ =>
        destruct c1;
          [destruct (if_down_run s0) as (sd & Hd & Hifp)
          |destruct c2; [destruct (if_up_run s0) as (sd & Hd & Hifp)|]]
    end.
    - rewrite Hd in Hflip. inversion Hflip; subst sd. rewrite Hifp. cbn.
      rewrite mask_clear by done. by apply int_low.
    - rewrite Hd in Hflip. inversion Hflip; subst sd. rewrite Hifp. cbn.
      rewrite mask_lor by done. by apply int_low.
    - inversion Hflip; subst s3. cbn. by apply int_low. }
  (* the permanently promiscuous mode *)
  assert (H4 : forall m, Z.land IFF_PROMISC m = 0 \/
                         Z.land (Z.lxor (uint32_t (if_flags i0)) flags)
                                IFF_PPROMISC = 0 ->
                         Z.land (if_flags (ifp s4)) m = Z.land (if_flags (ifp s3)) m).
  { intros m Hm.
    destruct (Z.eqb_spec (Z.land (Z.lxor (uint32_t (if_flags i0)) flags)
                            IFF_PPROMISC) 0) as [Hz|Hnz]; cbn [negb] in Hpp.
    { by inversion Hpp. }
    destruct Hm as [Hm|Hm]; [|done].
    unfold bind at 1 in Hpp. unfold get at 1 in Hpp.
    apply bind_Ok in Hpp as ([] & s5 & Hset & Hlog).
    unfold emit, modify in Hlog. inversion Hlog; subst s4. clear Hlog. cbn [ifp].
    destruct (negb (Z.land flags IFF_PPROMISC =? 0)).
    - unfold update, modify in Hset. inversion Hset; subst s5. cbn.
      by apply mask_lor.
    - destruct (if_pcount (ifp s3) =? 0).
      + unfold update, modify in Hset. inversion Hset; subst s5. cbn.
        by apply mask_clear.
      + by inversion Hset. }
  split; [done|]. split; [done|]. intros _.
  assert (Hin : forall m, Z.land IFF_CANTCHANGE m = m ->
                          Z.land flags m = Z.land (if_flags i0) m).
  { intros m Hm. rewrite <- Hm, !Z.land_assoc. by rewrite Hsame. }
  split.
  - rewrite H4 by (by left). rewrite H3 by (vm_compute; done).
    apply Hin. reflexivity.
  - intros Hnoflip. rewrite H4 by (by right). rewrite H3 by (vm_compute; done).
    apply Hin. reflexivity.
Qed.

End WithDriver.

Lemma flags_read_can_be_written_back_witness :
  exists ifr',
    if_drvioctl_SIOCSIFFLAGS MoreExamples.anybody false MoreExamples.agreeing_driver
      (if_drvioctl_SIOCGIFFLAGS (ifp MoreExamples.flagged)) 0 MoreExamples.flagged
    = Ok (0, ifr') {| ifp := ifp MoreExamples.flagged;
                      told := [getmicrotime_lastchange] |}.
Proof.
  apply (flags_read_can_be_written_back MoreExamples.anybody false
           MoreExamples.agreeing_driver 0 MoreExamples.flagged).
  - split; [split; vm_compute; [discriminate | reflexivity] | reflexivity].
  - reflexivity.
  - reflexivity.
Defined.

Lemma SIOCSIFFLAGS_keeps_internal_flags_witness :
  exists ifr' s',
    if_drvioctl_SIOCSIFFLAGS MoreExamples.anybody false MoreExamples.agreeing_driver
      {| ifr_flags := 0x0803; ifr_flagshigh := 0 |} 0 MoreExamples.flagged
    = Ok (EINVAL, ifr') s' /\ s' = MoreExamples.flagged.
Proof.
  eexists _, _. split; [vm_compute; reflexivity|].
  refine (proj1 (SIOCSIFFLAGS_keeps_internal_flags MoreExamples.anybody false
                   MoreExamples.agreeing_driver
                   {| ifr_flags := 0x0803; ifr_flagshigh := 0 |} 0
                   MoreExamples.flagged EINVAL _ _ _ _) _).
  - vm_compute. reflexivity.
  - intros r i. reflexivity.
  - discriminate.
Defined.

End FlagsMore.
